(** * RunGrade backend: binning engine, reliability filter, gradient
    statistics and batch orchestration.

    A shallow embedding of [Coefficients.js], the binning module
    ([getAnalysisBins], [getPaceByGradientChart],
    [getGradeAdjustmentAnalysis]) and of the server's filter and batch
    handlers.

    Numbers.  A JavaScript number is embedded as a rational [Q]: every
    finite double is one.  The geometry of the binning engine (distances,
    gradients, paces and the grade factor inside a bin) is read without
    rounding error.  Where a result of the program depends on the
    rounding of binary64 arithmetic, the operations are the rounded ones
    of [Js.add], [Js.sub], [Js.mul] and [Js.div]: the running sum of the
    elevation gain, the mean and the median of a range bucket, the
    progress percentage and the average number of bins per file, and
    [Binary64.calculateGradeAdjustment].  [NaN] arises in the code from date
    arithmetic and from [parseInt] of a key that is not a number; it is
    embedded as [None] where the code tests for it, and as 0 where it is
    the result of a sort comparator.  [null] and [undefined] are
    [None]. *)

From Stdlib Require Import QArith Qminmax Qround Qabs Lqa Lia ZArith List Bool String Ascii.
From Stdlib Require Import DecimalString DecimalZ DecimalPos Permutation Sorted.
From stdpp Require Import gmap strings.
Import ListNotations.

Local Open Scope Q_scope.

(** ** JavaScript primitives *)

Module Js.

Definition Math_max (a b : Q) : Q := Qmax a b.
Definition Math_min (a b : Q) : Q := Qmin a b.

(** [Math.round]: nearest integer, ties towards plus infinity. *)
Definition Math_round (x : Q) : Z := Qfloor (x + (1 # 2)).

Definition Math_floor (x : Q) : Z := Qfloor x.

(** [Number(x.toFixed(d))]: [x] rounded to [d] decimals, ties away
    from zero ([toFixed] formats the magnitude and re-attaches the
    sign). *)
Definition pow10 (d : nat) : Z := Z.pow 10 (Z.of_nat d).

Definition toFixed (d : nat) (x : Q) : Q :=
  let scale := inject_Z (pow10 d) in
  if Qle_bool 0 x
  then inject_Z (Qfloor (x * scale + (1 # 2))) / scale
  else - (inject_Z (Qfloor ((- x) * scale + (1 # 2))) / scale).

(** Truthiness of a number that may be absent: present and non-zero. *)
Definition truthy (x : option Q) : bool :=
  match x with
  | Some q => negb (Qeq_bool q 0)
  | None => false
  end.

Definition Qlt_bool (a b : Q) : bool := negb (Qle_bool b a).

(** [a || b] for a number [a] that may be absent and a number [b]. *)
Definition orElse (a : option Q) (b : Q) : Q :=
  match a with
  | Some q => if Qeq_bool q 0 then b else q
  | None => b
  end.

(** *** Binary64 rounding *)

(** Round to the nearest integer, ties to the even one. *)
Definition roundHalfEven (q : Q) : Z :=
  let f := Qfloor q in
  match Qcompare (q - inject_Z f) (1 # 2) with
  | Lt => f
  | Gt => (f + 1)%Z
  | Eq => if Z.even f then f else (f + 1)%Z
  end.

(** Every binary64 number is an integer multiple of 2^-1074. *)
Definition scale : Z := (2 ^ 1074)%Z.

(** The spacing of the binary64 numbers around [y], for [y] in units
    of 2^-1074: 1 below 2^53 (the subnormal numbers and the first
    binade), else the power of two 52 places below the leading bit. *)
Definition ulp (y : Q) : Z := (2 ^ Z.max (Z.log2 (Qfloor y) - 52) 0)%Z.

Definition roundScaled (y : Q) : Z :=
  (roundHalfEven (y / inject_Z (ulp y)) * ulp y)%Z.

(** The binary64 number nearest to a rational, ties to even: the
    rounding of every arithmetic operation of the engine.  Overflow to
    [Infinity] (magnitudes from 2^1024 on) is outside the model. *)
Definition double (x : Q) : Q :=
  match Qcompare x 0 with
  | Eq => 0
  | Gt => inject_Z (roundScaled (x * inject_Z scale)) / inject_Z scale
  | Lt => - (inject_Z (roundScaled (- x * inject_Z scale)) / inject_Z scale)
  end.

Definition add (x y : Q) : Q := double (x + y).
Definition sub (x y : Q) : Q := double (x - y).
Definition mul (x y : Q) : Q := double (x * y).
Definition div (x y : Q) : Q := double (x / y).

End Js.

(** ** Coefficients.js *)

Record Coefficients := { coef_a : Q; coef_b : Q; coef_c : Q; coef_d : Q; coef_e : Q }.

Definition GAP_COEFFICIENTS : Coefficients :=
  {| coef_a := - (5294439830640173 # 10000000000000000000000);
     coef_b := - (3989571857841264 # 1000000000000000000000);
     coef_c := 20535661142752205 # 10000000000000000000;
     coef_d := 3265674125152065 # 100000000000000000;
     coef_e := 1 |}.

Definition clampGradient (gradientPercent : Q) : Q :=
  Js.Math_max (-35) (Js.Math_min 35 gradientPercent).

Definition calculateGradeAdjustment (gradientPercent : Q) : Q :=
  let clampedGradient := clampGradient gradientPercent in
  let adjustment :=
    1 + (clampedGradient * (33 # 1000))
      + (clampedGradient * clampedGradient * (233 # 1000000)) in
  Js.Math_max (3 # 10) adjustment.

(** ** Coefficients.js in binary64 *)

Module Binary64.

(** [calculateGradeAdjustment] as the engine evaluates it: the
    literals 0.033, 0.000233 and 0.3 are the binary64 numbers nearest
    to them, and every product and sum is rounded.  [Math.max] and
    [Math.min] return one of their arguments and do not round. *)
Definition calculateGradeAdjustment (gradientPercent : Q) : Q :=
  let clampedGradient := Js.Math_max (-35) (Js.Math_min 35 gradientPercent) in
  let adjustment :=
    Js.add (Js.add 1 (Js.mul clampedGradient (Js.double (33 # 1000))))
      (Js.mul (Js.mul clampedGradient clampedGradient) (Js.double (233 # 1000000))) in
  Js.Math_max (Js.double (3 # 10)) adjustment.

End Binary64.

(** ** The binning module: data *)

(** A JavaScript [Date]: a time value in milliseconds, or an invalid
    date, whose time value is [NaN]. *)
Inductive Date :=
| ValidDate (ms : Z)
| InvalidDate.

(** A route point as the parsers build it.  [time] is a [Date] or
    [null]; [heartRate] is a number or [null]. *)
Record Point := {
  lat : Q;
  lon : Q;
  ele : Q;
  time : option Date;
  heartRate : option Q
}.

Record Bin := {
  distance : Q;
  elevationChange : Q;
  gradient : Q;
  timeTaken : option string;
  timeInSeconds : Q;
  velocity : option Q;
  pace_min_per_km : option Q;
  adjustedTime : Q;
  gradeAdjustedDistance : option Q;
  startIdx : nat;
  endIdx : nat;
  startTime : option Date;
  endTime : option Date;
  avgHeartRate : option Q;
  maxHeartRate : option Q;
  minHeartRate : option Q;
  heartRateDataPoints : nat;
  (* not written by the binning module; read by the reliability filter
     from the bins a client posts back *)
  avgSpeed : option Q
}.

(** The two revisions of the binning module in the repository.  They
    differ in the adjustment factor of the bins closed during the scan:
    the revision that imports [Coefficients.js] calls
    [calculateGradeAdjustment] there, the self-contained revision
    evaluates the polynomial of the caller's coefficients. *)
Inductive Revision :=
| WithCoefficientsModule
| SelfContained.

(** ** The binning module: helpers *)

(** [n.toString()] of an integer. *)
Definition zString (n : Z) : string := NilZero.string_of_int (Z.to_int n).

(** [n.toString().padStart(2, '0')]. *)
Definition pad2 (n : Z) : string :=
  let s := zString n in
  if Nat.ltb (String.length s) 2 then String "0"%char s else s.

(** [x % m] for a non-negative [x] and positive [m]. *)
Definition jsMod (x m : Q) : Q := x - inject_Z (Qfloor (x / m)) * m.

Definition formatTime (seconds : Q) : string :=
  let h := pad2 (Js.Math_floor (seconds / 3600)) in
  let m := pad2 (Js.Math_floor (jsMod seconds 3600 / 60)) in
  let s := pad2 (Js.Math_floor (jsMod seconds 60)) in
  (h ++ ":" ++ m ++ ":" ++ s)%string.

(** [(new Date(b) - new Date(a)) / 1000]; [None] is [NaN]. *)
Definition secondsBetween (a b : Date) : option Q :=
  match a, b with
  | ValidDate ta, ValidDate tb => Some (inject_Z (tb - ta) / 1000)
  | _, _ => None
  end.

(** The block guarded by [binStart.time && binEnd.time] and by
    [!isNaN(seconds) && seconds > 0]: the elapsed seconds when the block
    runs. *)
Definition elapsedSeconds (binStart binEnd : Point) : option Q :=
  match time binStart, time binEnd with
  | Some a, Some b =>
      match secondsBetween a b with
      | Some seconds => if Js.Qlt_bool 0 seconds then Some seconds else None
      | None => None
      end
  | _, _ => None
  end.

(** The polynomial of the caller's five coefficients at the clamped
    gradient; 1 when [polyCoeffs] is not an array of length five. *)
Definition quarticAdjFactor (polyCoeffs : option (list Q)) (gradient : Q) : Q :=
  match polyCoeffs with
  | Some [a; b; c; d; e] =>
      let clampedGradient := Js.Math_max (-35) (Js.Math_min 35 gradient) in
      a * clampedGradient ^ 4 + b * clampedGradient ^ 3
        + c * clampedGradient ^ 2 + d * clampedGradient + e
  | _ => 1
  end.

(** The same guard, but the factor is [calculateGradeAdjustment] of the
    clamped gradient: the destructured coefficients are not used. *)
Definition defaultAdjFactor (polyCoeffs : option (list Q)) (gradient : Q) : Q :=
  match polyCoeffs with
  | Some [a; b; c; d; e] =>
      let clampedGradient := Js.Math_max (-35) (Js.Math_min 35 gradient) in
      calculateGradeAdjustment clampedGradient
  | _ => 1
  end.

Definition scanAdjFactor (rev : Revision) : option (list Q) -> Q -> Q :=
  match rev with
  | WithCoefficientsModule => defaultAdjFactor
  | SelfContained => quarticAdjFactor
  end.

Definition undefinedPoint : Point :=
  {| lat := 0; lon := 0; ele := 0; time := None; heartRate := None |}.

Definition pointAt (points : list Point) (i : nat) : Point :=
  nth i points undefinedPoint.

(** The loop [for (j = lo; j <= hi; j++)] that pushes every heart rate
    that is truthy and a number. *)
Definition collectHeartRates (points : list Point) (lo hi : nat) : list Q :=
  flat_map
    (fun j => match heartRate (pointAt points j) with
              | Some hr => if Js.truthy (Some hr) then [hr] else []
              | None => []
              end)
    (seq lo (S hi - lo)).

Definition sumQ (l : list Q) : Q := fold_left Qplus l 0.

Definition maxOf (l : list Q) : option Q :=
  match l with
  | [] => None
  | x :: xs => Some (fold_left Js.Math_max xs x)
  end.

Definition minOf (l : list Q) : option Q :=
  match l with
  | [] => None
  | x :: xs => Some (fold_left Js.Math_min xs x)
  end.

Definition averageRounded (l : list Q) : option Q :=
  match l with
  | [] => None
  | _ => Some (inject_Z (Js.Math_round (sumQ l / inject_Z (Z.of_nat (List.length l)))))
  end.

(** The body shared by the bin closed in the scan and by the final
    partial bin: everything between [const binStart = ...] and
    [bins.push({...})].  [adjFactorOf] is the one expression in which
    the two copies of the body differ. *)
Definition buildBin (adjFactorOf : option (list Q) -> Q -> Q)
    (points : list Point) (polyCoeffs : option (list Q))
    (newAdjustedVelocity : option Q)
    (lastBinIdx endI : nat) (cumDist : Q) : Bin :=
  let binStart := pointAt points lastBinIdx in
  let binEnd := pointAt points endI in
  let distance := cumDist in
  let elevationChange := ele binEnd - ele binStart in
  let gradient :=
    if Js.Qlt_bool 0 distance then (elevationChange / distance) * 100 else 0 in
  let elapsed := elapsedSeconds binStart binEnd in
  let timeInSeconds := match elapsed with Some s => s | None => 0 end in
  let timeTaken := option_map formatTime elapsed in
  let velocity := option_map (fun s => distance / s) elapsed in
  let pace_min_per_km_num :=
    match velocity with
    | Some v => if Js.Qlt_bool 0 v then Some ((1000 / v) / 60) else None
    | None => None
    end in
  let adjFactor := adjFactorOf polyCoeffs gradient in
  let adjusted :=
    match newAdjustedVelocity with
    | Some v =>
        if Js.truthy (Some v) && Js.Qlt_bool 0 v && Js.Qlt_bool 0 adjFactor
        then Some ((distance * adjFactor) / v, distance * adjFactor)
        else None
    | None => None
    end in
  let heartRates := collectHeartRates points lastBinIdx endI in
  {| distance := distance;
     elevationChange := Js.toFixed 2 elevationChange;
     gradient := Js.toFixed 2 gradient;
     timeTaken := timeTaken;
     timeInSeconds := timeInSeconds;
     velocity := velocity;
     pace_min_per_km := pace_min_per_km_num;
     adjustedTime := match adjusted with Some (t, _) => t | None => 0 end;
     gradeAdjustedDistance := option_map snd adjusted;
     startIdx := lastBinIdx;
     endIdx := endI;
     startTime := time binStart;
     endTime := time binEnd;
     avgHeartRate := averageRounded heartRates;
     maxHeartRate := maxOf heartRates;
     minHeartRate := minOf heartRates;
     heartRateDataPoints := List.length heartRates;
     avgSpeed := None |}.

(** ** getAnalysisBins *)

Section Engine.

(** The great-circle distance [haversine(lat1, lon1, lat2, lon2)].
    Its body is built from [Math.sin], [Math.cos], [Math.sqrt] and
    [Math.atan2] of the runtime, so the engine takes it as given. *)
Variable haversine : Q -> Q -> Q -> Q -> Q.

Variable rev : Revision.
Variable points : list Point.
Variable binLength : Q.
Variable polyCoeffs : option (list Q).
Variable newAdjustedVelocity : option Q.

Definition segDist (i : nat) : Q :=
  let prev := pointAt points (i - 1) in
  let curr := pointAt points i in
  haversine (lat prev) (lon prev) (lat curr) (lon curr).

(** State of the scan: [bins], [lastBinIdx], [cumDist]. *)
Record ScanState := {
  bins : list Bin;
  lastBinIdx : nat;
  cumDist : Q
}.

(** One iteration of [for (let i = 1; i < points.length; i++)]. *)
Definition scanStep (st : ScanState) (i : nat) : ScanState :=
  let cumDist' := cumDist st + segDist i in
  if Qle_bool binLength cumDist'
  then {| bins := bins st ++
                  [buildBin (scanAdjFactor rev) points polyCoeffs
                     newAdjustedVelocity (lastBinIdx st) i cumDist'];
          lastBinIdx := i;
          cumDist := 0 |}
  else {| bins := bins st; lastBinIdx := lastBinIdx st; cumDist := cumDist' |}.

Definition scan : ScanState :=
  fold_left scanStep (seq 1 (List.length points - 1))
    {| bins := []; lastBinIdx := 0; cumDist := 0 |}.

Definition getAnalysisBins : list Bin :=
  if Nat.ltb (List.length points) 2 then []
  else
    let st := scan in
    if Nat.ltb (lastBinIdx st) (List.length points - 1)
       && Js.Qlt_bool 0 (cumDist st)
    then bins st ++
         [buildBin quarticAdjFactor points polyCoeffs newAdjustedVelocity
            (lastBinIdx st) (List.length points - 1) (cumDist st)]
    else bins st.

End Engine.

(** A closed form of the haversine formula for two points on one
    meridian, or both on the equator: the radius times the angle between
    them, [Math.PI] being the double 3.141592653589793.  It is used to
    run the engine on concrete tracks of that shape. *)
Definition arcHaversine (lat1 lon1 lat2 lon2 : Q) : Q :=
  6371000 * ((Qabs (lat2 - lat1) + Qabs (lon2 - lon1))
             * (3141592653589793 # 1000000000000000) / 180).

(** ** getBinSummary *)

Record BinSummary := {
  bs_totalBins : nat;
  bs_validBins : nat;
  bs_totalDistance : Q;
  bs_totalTime : Q;
  bs_totalElevation : Q;
  bs_avgPace : option Q;
  bs_avgHeartRate : option Q;
  bs_maxHeartRate : option Q;
  bs_heartRateDataCoverage : Q
}.

Definition natQ (n : nat) : Q := inject_Z (Z.of_nat n).

Definition getBinSummary (bins : list Bin) : option BinSummary :=
  match bins with
  | [] => None
  | _ =>
      let validBins := List.filter (fun bin => Js.Qlt_bool 0 (distance bin)) bins in
      match validBins with
      | [] => None
      | _ =>
          let totalDistance := sumQ (map distance validBins) in
          let totalTime := sumQ (map timeInSeconds validBins) in
          let totalElevation :=
            sumQ (map (fun bin => Js.Math_max 0 (elevationChange bin)) validBins) in
          let binsWithHR :=
            List.filter (fun bin => Js.truthy (avgHeartRate bin)) validBins in
          let hrs := flat_map (fun bin => match avgHeartRate bin with
                                          | Some h => [h] | None => [] end) binsWithHR in
          let maxs := flat_map (fun bin => match maxHeartRate bin with
                                           | Some h => [h] | None => [] end) binsWithHR in
          Some {| bs_totalBins := List.length bins;
                  bs_validBins := List.length validBins;
                  bs_totalDistance := Js.toFixed 2 (totalDistance / 1000);
                  bs_totalTime := totalTime;
                  bs_totalElevation := inject_Z (Js.Math_round totalElevation);
                  bs_avgPace :=
                    if Js.Qlt_bool 0 totalDistance && Js.Qlt_bool 0 totalTime
                    then Some ((totalTime / 60) / (totalDistance / 1000))
                    else None;
                  bs_avgHeartRate := averageRounded hrs;
                  bs_maxHeartRate := maxOf maxs;
                  bs_heartRateDataCoverage :=
                    natQ (List.length binsWithHR) / natQ (List.length validBins) |}
      end
  end.

(** ** Runs *)

(** One entry of the [results] array the analyses receive.  [r_bins] is
    [None] when the entry has no [bins] array. *)
Record Run := {
  r_filename : string;
  r_bins : option (list Bin)
}.

(** [allResults.forEach(result => { if (result.bins && ...)
    allBins.push(...result.bins) })]. *)
Definition collectBins (allResults : list Run) : list Bin :=
  flat_map (fun result => match r_bins result with
                          | Some bs => bs
                          | None => []
                          end) allResults.

(** ** The reliability filter of POST /api/analyze-with-filters-json *)

Module Filter.

Record HeartRateFilter := { minHR : option Q; maxHR : option Q }.

Record ExclusionCounts := {
  n_speed : nat;
  n_gradient : nat;
  n_timeInSeconds : nat;
  n_distance : nat;
  n_heartRate : nat;
  n_total : nat
}.

Inductive ExcludeReason :=
| ReasonSpeed
| ReasonGradient
| ReasonTimeInSeconds
| ReasonDistance
| ReasonHeartRate.

Definition noExclusions : ExclusionCounts :=
  {| n_speed := 0; n_gradient := 0; n_timeInSeconds := 0;
     n_distance := 0; n_heartRate := 0; n_total := 0 |}.

Definition incSpeed (c : ExclusionCounts) : ExclusionCounts :=
  {| n_speed := S (n_speed c); n_gradient := n_gradient c;
     n_timeInSeconds := n_timeInSeconds c; n_distance := n_distance c;
     n_heartRate := n_heartRate c; n_total := n_total c |}.
Definition incGradient (c : ExclusionCounts) : ExclusionCounts :=
  {| n_speed := n_speed c; n_gradient := S (n_gradient c);
     n_timeInSeconds := n_timeInSeconds c; n_distance := n_distance c;
     n_heartRate := n_heartRate c; n_total := n_total c |}.
Definition incTimeInSeconds (c : ExclusionCounts) : ExclusionCounts :=
  {| n_speed := n_speed c; n_gradient := n_gradient c;
     n_timeInSeconds := S (n_timeInSeconds c); n_distance := n_distance c;
     n_heartRate := n_heartRate c; n_total := n_total c |}.
Definition incDistance (c : ExclusionCounts) : ExclusionCounts :=
  {| n_speed := n_speed c; n_gradient := n_gradient c;
     n_timeInSeconds := n_timeInSeconds c; n_distance := S (n_distance c);
     n_heartRate := n_heartRate c; n_total := n_total c |}.
Definition incHeartRate (c : ExclusionCounts) : ExclusionCounts :=
  {| n_speed := n_speed c; n_gradient := n_gradient c;
     n_timeInSeconds := n_timeInSeconds c; n_distance := n_distance c;
     n_heartRate := S (n_heartRate c); n_total := n_total c |}.
Definition incTotal (c : ExclusionCounts) : ExclusionCounts :=
  {| n_speed := n_speed c; n_gradient := n_gradient c;
     n_timeInSeconds := n_timeInSeconds c; n_distance := n_distance c;
     n_heartRate := n_heartRate c; n_total := S (n_total c) |}.

(** [bin.avgSpeed] when it is a number, else [bin.velocity * 3.6],
    else 0. *)
Definition speedOf (bin : Bin) : Q :=
  match avgSpeed bin with
  | Some s => s
  | None => match velocity bin with
            | Some v => v * (36 # 10)
            | None => 0
            end
  end.

(** The [if / else if] chain under [removeUnreliableBins]. *)
Definition plausibilityCheck (bin : Bin) : option ExcludeReason :=
  let speed := speedOf bin in
  if negb (Qle_bool 1 speed && Qle_bool speed 30) then Some ReasonSpeed
  else if negb (Qle_bool (gradient bin) 30 && Qle_bool (-30) (gradient bin))
       then Some ReasonGradient
  else if negb (Qle_bool 1 (timeInSeconds bin)) then Some ReasonTimeInSeconds
  else if negb (Js.Qlt_bool 0 (distance bin)) then Some ReasonDistance
  else None.

Definition countReason (r : ExcludeReason) (c : ExclusionCounts) : ExclusionCounts :=
  match r with
  | ReasonSpeed => incSpeed c
  | ReasonGradient => incGradient c
  | ReasonTimeInSeconds => incTimeInSeconds c
  | ReasonDistance => incDistance c
  | ReasonHeartRate => incHeartRate c
  end.

(** [heartRateFilter && (heartRateFilter.minHR || heartRateFilter.maxHR)]. *)
Definition heartRateFilterActive (heartRateFilter : option HeartRateFilter) : bool :=
  match heartRateFilter with
  | Some f => Js.truthy (minHR f) || Js.truthy (maxHR f)
  | None => false
  end.

Definition heartRateOutside (f : HeartRateFilter) (bin : Bin) : bool :=
  match avgHeartRate bin with
  | None => true
  | Some hr =>
      (Js.truthy (minHR f)
       && match minHR f with Some m => Js.Qlt_bool hr m | None => false end)
      || (Js.truthy (maxHR f)
          && match maxHR f with Some m => Js.Qlt_bool m hr | None => false end)
  end.

(** The second, separate [if] of the loop body. *)
Definition heartRateCheck (heartRateFilter : option HeartRateFilter) (bin : Bin) : bool :=
  match heartRateFilter with
  | Some f => heartRateFilterActive heartRateFilter && heartRateOutside f bin
  | None => false
  end.

(** State of the loop over one run's bins: the shared
    [exclusionCounts] and the run's [filteredBins]. *)
Definition filterBin (removeUnreliableBins : bool)
    (heartRateFilter : option HeartRateFilter)
    (st : ExclusionCounts * list Bin) (bin : Bin) : ExclusionCounts * list Bin :=
  let '(exclusionCounts, filteredBins) := st in
  let excludeReason : option ExcludeReason := None in
  let '(exclusionCounts, excludeReason) :=
    if removeUnreliableBins
    then match plausibilityCheck bin with
         | Some r => (countReason r exclusionCounts, Some r)
         | None => (exclusionCounts, excludeReason)
         end
    else (exclusionCounts, excludeReason) in
  let '(exclusionCounts, excludeReason) :=
    if heartRateCheck heartRateFilter bin
    then (incHeartRate exclusionCounts, Some ReasonHeartRate)
    else (exclusionCounts, excludeReason) in
  match excludeReason with
  | None => (exclusionCounts, filteredBins ++ [bin])
  | Some _ => (incTotal exclusionCounts, filteredBins)
  end.

Definition filterRun (removeUnreliableBins : bool)
    (heartRateFilter : option HeartRateFilter)
    (st : ExclusionCounts * list Run) (run : Run) : ExclusionCounts * list Run :=
  let '(exclusionCounts, filteredResults) := st in
  let bins := match r_bins run with Some bs => bs | None => [] end in
  let '(exclusionCounts, filteredBins) :=
    fold_left (filterBin removeUnreliableBins heartRateFilter) bins
      (exclusionCounts, []) in
  (exclusionCounts,
   filteredResults ++ [{| r_filename := r_filename run; r_bins := Some filteredBins |}]).

(** [results.map(run => ...)] together with the counters it updates. *)
Definition filterResults (results : list Run) (removeUnreliableBins : bool)
    (heartRateFilter : option HeartRateFilter) : ExclusionCounts * list Run :=
  fold_left (filterRun removeUnreliableBins heartRateFilter) results
    (noExclusions, []).

End Filter.

(** ** Array.prototype.sort *)

(** [sort(comparefn)] as a stable insertion sort.  A comparator result
    of [NaN] counts as [+0], as the language prescribes, so comparators
    return integers here.  For a comparator that orders the elements
    consistently every stable sort returns this list. *)
Section ArraySort.

Context {A : Type}.
Variable comparefn : A -> A -> Z.

Fixpoint insertSorted (x : A) (l : list A) : list A :=
  match l with
  | [] => [x]
  | y :: l' =>
      if (comparefn x y <? 0)%Z then x :: y :: l' else y :: insertSorted x l'
  end.

Definition arraySort (l : list A) : list A :=
  fold_left (fun acc x => insertSorted x acc) l [].

End ArraySort.

(** ** getPaceByGradientChart *)

(** A key of [gradientMap]: the string ['<=-35'], the string ['>=35'],
    or the decimal string of an integer. *)
Inductive GradKey :=
| KeyLE35
| KeyGE35
| KeyInt (z : Z).

Definition keyString (k : GradKey) : string :=
  match k with
  | KeyLE35 => "<=-35"
  | KeyGE35 => ">=35"
  | KeyInt z => zString z
  end.

Definition key_eqb (a b : GradKey) : bool :=
  match a, b with
  | KeyLE35, KeyLE35 => true
  | KeyGE35, KeyGE35 => true
  | KeyInt x, KeyInt y => (x =? y)%Z
  | _, _ => false
  end.

(** [parseInt] of a key; [None] is [NaN]. *)
Definition parseIntKey (k : GradKey) : option Z :=
  match k with
  | KeyInt z => Some z
  | _ => None
  end.

Record GradientTotals := {
  gm_totalDistance : Q;
  gm_totalTime : Q;
  gm_binCount : nat
}.

(** The object [gradientMap], its properties in insertion order. *)
Definition GradientMap := list (GradKey * GradientTotals).

Definition gmLookup (m : GradientMap) (key : GradKey) : option GradientTotals :=
  option_map snd (List.find (fun kv => key_eqb (fst kv) key) m).

Definition gmUpdate (f : GradientTotals -> GradientTotals) (key : GradKey)
    (m : GradientMap) : GradientMap :=
  map (fun kv => if key_eqb (fst kv) key then (fst kv, f (snd kv)) else kv) m.

Definition gradientKey (g : Q) : GradKey :=
  let grad := Js.Math_round g in
  if (grad <=? -35)%Z then KeyLE35
  else if (grad >=? 35)%Z then KeyGE35
  else KeyInt grad.

(** The test of the [forEach] body: [distance > 0 && timeInSeconds > 0]
    (the [typeof] tests hold of every [Bin]). *)
Definition chartEligible (bin : Bin) : bool :=
  Js.Qlt_bool 0 (distance bin) && Js.Qlt_bool 0 (timeInSeconds bin).

Definition addToGradientMap (gradientMap : GradientMap) (bin : Bin) : GradientMap :=
  if chartEligible bin then
    let key := gradientKey (gradient bin) in
    let gradientMap :=
      match gmLookup gradientMap key with
      | Some _ => gradientMap
      | None =>
          gradientMap ++
            [(key, {| gm_totalDistance := 0; gm_totalTime := 0; gm_binCount := 0 |})]
      end in
    gmUpdate
      (fun data =>
         {| gm_totalDistance := gm_totalDistance data + distance bin;
            gm_totalTime := gm_totalTime data + timeInSeconds bin;
            gm_binCount := S (gm_binCount data) |})
      key gradientMap
  else gradientMap.

(** [Object.entries]: the keys that are array indices (the non-negative
    integers) in ascending order, then the other keys in insertion
    order. *)
Definition isIndexKey (k : GradKey) : bool :=
  match k with
  | KeyInt z => (0 <=? z)%Z
  | _ => false
  end.

Definition indexOrder (a b : GradKey * GradientTotals) : Z :=
  match parseIntKey (fst a), parseIntKey (fst b) with
  | Some x, Some y => (x - y)%Z
  | _, _ => 0%Z
  end.

Definition objectEntries (m : GradientMap) : GradientMap :=
  arraySort indexOrder (List.filter (fun kv => isIndexKey (fst kv)) m)
  ++ List.filter (fun kv => negb (isIndexKey (fst kv))) m.

Record ChartEntry := {
  ce_gradient : GradKey;
  ce_binCount : nat;
  ce_avgPace : Q;
  ce_paceLabel : string
}.

Definition chartEntryOf (kv : GradKey * GradientTotals) : ChartEntry :=
  let data := snd kv in
  let paceMinPerKm := (gm_totalTime data / 60) / (gm_totalDistance data / 1000) in
  let minutes := Js.Math_floor paceMinPerKm in
  let seconds := Js.Math_round ((paceMinPerKm - inject_Z minutes) * 60) in
  {| ce_gradient := fst kv;
     ce_binCount := gm_binCount data;
     ce_avgPace := paceMinPerKm;
     ce_paceLabel := (zString minutes ++ ":" ++ pad2 seconds)%string |}.

(** The comparator of the chart's [sort].  It tests for the strings
    ['<-35'] and ['>35']; the difference of the two [parseInt]s is
    [NaN], hence 0, when either key is not an integer. *)
Definition chartCompare (a b : ChartEntry) : Z :=
  if String.eqb (keyString (ce_gradient a)) "<-35" then (-1)%Z
  else if String.eqb (keyString (ce_gradient b)) "<-35" then 1%Z
  else if String.eqb (keyString (ce_gradient a)) ">35" then 1%Z
  else if String.eqb (keyString (ce_gradient b)) ">35" then (-1)%Z
  else match parseIntKey (ce_gradient a), parseIntKey (ce_gradient b) with
       | Some x, Some y => (x - y)%Z
       | _, _ => 0%Z
       end.

Definition buildGradientMap (allResults : list Run) : GradientMap :=
  fold_left addToGradientMap (collectBins allResults) [].

Definition getPaceByGradientChart (allResults : list Run) : list ChartEntry :=
  arraySort chartCompare (map chartEntryOf (objectEntries (buildGradientMap allResults))).

(** ** getGradeAdjustmentAnalysis *)

Record AdjustmentEntry := {
  ae_gradient : GradKey;
  ae_gradientValue : option Z;
  ae_personalAdjustment : Q;
  ae_avgPace : Q;
  ae_paceLabel : string;
  (* the three median fields exist in the revision that imports
     Coefficients.js only *)
  ae_personalAdjustmentMedian : option Q;
  ae_medianPace : option Q;
  ae_medianPaceLabel : option string;
  ae_literatureAdjustment : option Q;
  ae_binCount : nat
}.

Record AdjustmentAnalysis := {
  adjustmentData : list AdjustmentEntry;
  basePace : option Q;
  basePaceMedian : option Q;
  basePaceLabel : string;
  basePaceMedianLabel : option string
}.

Definition withinTwoOfZero (item : ChartEntry) : bool :=
  match parseIntKey (ce_gradient item) with
  | Some grad => (-2 <=? grad)%Z && (grad <=? 2)%Z
  | None => false
  end.

Definition nearZeroOrder (a b : ChartEntry) : Z :=
  match parseIntKey (ce_gradient a), parseIntKey (ce_gradient b) with
  | Some x, Some y => (Z.abs x - Z.abs y)%Z
  | _, _ => 0%Z
  end.

(** The baseline: [None] stands for [null] and for the [NaN] of an
    empty average. *)
Definition selectBasePace (gradientData : list ChartEntry) : option Q :=
  match List.find (fun item => String.eqb (keyString (ce_gradient item)) "0")
          gradientData with
  | Some flatGradient => Some (ce_avgPace flatGradient)
  | None =>
      let nearZero :=
        arraySort nearZeroOrder (List.filter withinTwoOfZero gradientData) in
      match nearZero with
      | first :: _ => Some (ce_avgPace first)
      | [] =>
          let validPaces :=
            map ce_avgPace
              (List.filter (fun item => Js.truthy (Some (ce_avgPace item)))
                 gradientData) in
          match validPaces with
          | [] => None
          | _ => Some (sumQ validPaces / natQ (List.length validPaces))
          end
      end
  end.

Definition paceLabelOf (pace : option Q) : string :=
  match pace with
  | Some p =>
      if Js.truthy (Some p)
      then (zString (Js.Math_floor p) ++ ":"
            ++ pad2 (Js.Math_round (jsMod p 1 * 60)))%string
      else "N/A"
  | None => "N/A"
  end.

(** [basePace > 0 ? item.avgPace / basePace : 1]. *)
Definition adjustmentFactor (basePace : option Q) (item : ChartEntry) : Q :=
  match basePace with
  | Some base => if Js.Qlt_bool 0 base then ce_avgPace item / base else 1
  | None => 1
  end.

Definition literaturePolynomial (x : Q) : Q :=
  coef_a GAP_COEFFICIENTS * x ^ 4 + coef_b GAP_COEFFICIENTS * x ^ 3
    + coef_c GAP_COEFFICIENTS * x ^ 2 + coef_d GAP_COEFFICIENTS * x + 1.

(** The entry built by the self-contained revision. *)
Definition adjustmentEntrySelfContained (basePace : option Q) (item : ChartEntry)
    : AdjustmentEntry :=
  let gradientValue : Z :=
    match ce_gradient item with
    | KeyLE35 => (-35)%Z
    | KeyGE35 => 35%Z
    | KeyInt z => z
    end in
  let x := inject_Z gradientValue in
  {| ae_gradient := ce_gradient item;
     ae_gradientValue := Some gradientValue;
     ae_personalAdjustment := Js.toFixed 4 (adjustmentFactor basePace item);
     ae_avgPace := ce_avgPace item;
     ae_paceLabel := ce_paceLabel item;
     ae_personalAdjustmentMedian := None;
     ae_medianPace := None;
     ae_medianPaceLabel := None;
     ae_literatureAdjustment := Some (Js.toFixed 4 (literaturePolynomial x));
     ae_binCount := ce_binCount item |}.

(** The entry built by the revision that imports Coefficients.js:
    [gradientValue] is [parseFloat] of the key, [NaN] for the two
    sentinel keys. *)
Definition adjustmentEntryWithCoefficients (basePace : option Q) (item : ChartEntry)
    : AdjustmentEntry :=
  let gradientValue := parseIntKey (ce_gradient item) in
  let literatureAdjustment :=
    option_map (fun v => calculateGradeAdjustment (inject_Z v)) gradientValue in
  {| ae_gradient := ce_gradient item;
     ae_gradientValue := gradientValue;
     ae_personalAdjustment := Js.toFixed 4 (adjustmentFactor basePace item);
     ae_avgPace := ce_avgPace item;
     ae_paceLabel := ce_paceLabel item;
     ae_personalAdjustmentMedian := Some (Js.toFixed 4 (adjustmentFactor basePace item));
     ae_medianPace := Some (ce_avgPace item);
     ae_medianPaceLabel := Some (ce_paceLabel item);
     ae_literatureAdjustment := option_map (Js.toFixed 4) literatureAdjustment;
     ae_binCount := ce_binCount item |}.

(** The comparator of the final [sort] of the self-contained revision. *)
Definition adjustmentCompare (a b : AdjustmentEntry) : Z :=
  if String.eqb (keyString (ae_gradient a)) "<=-35" then (-1)%Z
  else if String.eqb (keyString (ae_gradient b)) "<=-35" then 1%Z
  else if String.eqb (keyString (ae_gradient a)) ">=35" then 1%Z
  else if String.eqb (keyString (ae_gradient b)) ">=35" then (-1)%Z
  else match ae_gradientValue a, ae_gradientValue b with
       | Some x, Some y => (x - y)%Z
       | _, _ => 0%Z
       end.

Definition getGradeAdjustmentAnalysis (rev : Revision) (allResults : list Run)
    : AdjustmentAnalysis :=
  let gradientData := getPaceByGradientChart allResults in
  let basePace := selectBasePace gradientData in
  match rev with
  | SelfContained =>
      {| adjustmentData :=
           arraySort adjustmentCompare
             (map (adjustmentEntrySelfContained basePace) gradientData);
         basePace := basePace;
         basePaceMedian := None;
         basePaceLabel := paceLabelOf basePace;
         basePaceMedianLabel := None |}
  | WithCoefficientsModule =>
      {| adjustmentData := map (adjustmentEntryWithCoefficients basePace) gradientData;
         basePace := basePace;
         basePaceMedian := basePace;
         basePaceLabel := paceLabelOf basePace;
         basePaceMedianLabel := Some (paceLabelOf basePace) |}
  end.

(** ** Tracks used in the examples *)

Definition trackPoint (longitude elevation : Q) (t : option Z) (hr : option Q) : Point :=
  {| lat := 0; lon := longitude; ele := elevation;
     time := option_map ValidDate t; heartRate := hr |}.

(** Three points along the equator, about 50.04 m apart, no
    timestamps. *)
Definition eastward : list Point :=
  [ trackPoint 0 0 None None;
    trackPoint (45 # 100000) 0 None None;
    trackPoint (90 # 100000) 0 None None ].

(** Two recordings of one position. *)
Definition stationary : list Point :=
  [ trackPoint 0 0 None None; trackPoint 0 0 None None ].

(** A climb: 10 m up over about 50.04 m in 10 s, then 30 m flat, with a
    heart rate of 0 recorded at every point. *)
Definition climb : list Point :=
  [ trackPoint 0 0 (Some 0%Z) (Some 0);
    trackPoint (45 # 100000) 10 (Some 10000%Z) (Some 0);
    trackPoint (72 # 100000) 10 (Some 16000%Z) (Some 0) ].

(** The same climb with a heart rate of 140, then 150, and none
    recorded at the last point. *)
Definition pulse : list Point :=
  [ trackPoint 0 0 (Some 0%Z) (Some 140);
    trackPoint (45 # 100000) 10 (Some 10000%Z) (Some 150);
    trackPoint (72 # 100000) 10 (Some 16000%Z) (Some 0) ].

Definition gapCoefficients : list Q :=
  [ coef_a GAP_COEFFICIENTS; coef_b GAP_COEFFICIENTS; coef_c GAP_COEFFICIENTS;
    coef_d GAP_COEFFICIENTS; coef_e GAP_COEFFICIENTS ].

(** ** The batch endpoints: POST /api/upload-batch and
    GET /api/process-batch/:batchId *)

Module Batch.

Record File := {
  originalname : string;
  buffer : string
}.

Record BatchData := {
  files : list File;
  binLength : Q;
  timestamp : Z
}.

(** What a call into the parsers does: it returns, or it throws an
    error with a message. *)
Inductive Outcome (A : Type) :=
| Returns (a : A)
| Throws (message : string).
Arguments Returns {A} a.
Arguments Throws {A} message.

(** What [processFile] resolves to: [{ error, filename }] or
    [{ stats, pointCount }]. *)
Inductive Processed (Stats : Type) :=
| ProcessedError (error : string)
| ProcessedStats (stats : Stats).
Arguments ProcessedError {Stats} error.
Arguments ProcessedStats {Stats} stats.

Section Handler.

(** The statistics of one activity, and the two functions of the
    helper module that stand between a file and its points; they
    wrap the GPX and FIT parsers. *)
Variable Stats : Type.
Variable processFile : string -> string -> Outcome (Processed Stats).
Variable getRoutePoints : string -> string -> Outcome (option (list Point)).
Variable haversine : Q -> Q -> Q -> Q -> Q.
Variable rev : Revision.

Record FileResult := {
  fr_stats : Stats;
  fr_binLength : Q;
  fr_bins : list Bin;
  fr_binSummary : option BinSummary;
  fr_routePointCount : nat;
  fr_hasHeartRateData : bool;
  fr_fileIndex : nat
}.

Record FileError := {
  fe_filename : string;
  fe_error : string
}.

Inductive Event :=
| Progress (fileIndex totalFiles : nat) (progressPercent : Z)
    (filesProcessed : nat) (currentFile : string)
    (resultsSoFar : list FileResult) (errorsSoFar : list FileError)
| Complete (totalFiles successfulFiles failedFiles : nat)
    (results : list FileResult) (errors : list FileError)
| ErrorEvent (error : string).

Inductive Response :=
| NotFound (error : string)
| EventStream (written : list Event).

(** The registry [req.app.locals.batchFiles]. *)
Definition upload (batchFiles : gmap string BatchData) (batchId : string)
    (files : list File) (binLength : Q) (now : Z) : gmap string BatchData :=
  <[batchId := {| files := files; binLength := binLength; timestamp := now |}]>
    batchFiles.

(** The loop state: [allResults], [allErrors] and what has been
    written to the response. *)
Record LoopState := {
  allResults : list FileResult;
  allErrors : list FileError;
  written : list Event
}.

(** The [try { ... } catch (error) { ... }] around one file. *)
Definition processOne (binLength : Q) (i : nat) (file : File)
    (allResults : list FileResult) (allErrors : list FileError)
    : list FileResult * list FileError :=
  match processFile (buffer file) (originalname file) with
  | Throws message =>
      (allResults,
       allErrors ++ [{| fe_filename := originalname file; fe_error := message |}])
  | Returns (ProcessedError error) =>
      (allResults,
       allErrors ++ [{| fe_filename := originalname file; fe_error := error |}])
  | Returns (ProcessedStats stats) =>
      match getRoutePoints (buffer file) (originalname file) with
      | Throws message =>
          (allResults,
           allErrors ++ [{| fe_filename := originalname file; fe_error := message |}])
      | Returns routePoints =>
          let bins :=
            match routePoints with
            | Some pts => getAnalysisBins haversine rev pts binLength None None
            | None => []
            end in
          let hasHeartRateData :=
            existsb (fun bin => match avgHeartRate bin with
                                | Some _ => true
                                | None => false
                                end) bins in
          (allResults ++
             [{| fr_stats := stats;
                 fr_binLength := binLength;
                 fr_bins := bins;
                 fr_binSummary := getBinSummary bins;
                 fr_routePointCount :=
                   match routePoints with
                   | Some pts => List.length pts
                   | None => 0
                   end;
                 fr_hasHeartRateData := hasHeartRateData;
                 fr_fileIndex := i |}],
           allErrors)
      end
  end.

(** One iteration of [for (let i = 0; i < totalFiles; i++)]: the
    file is processed, then one progress event is written. *)
Definition loopStep (binLength : Q) (totalFiles : nat) (st : LoopState)
    (indexed : nat * File) : LoopState :=
  let '(i, file) := indexed in
  let '(allResults, allErrors) :=
    processOne binLength i file (allResults st) (allErrors st) in
  {| allResults := allResults;
     allErrors := allErrors;
     written :=
       written st ++
         [Progress (i + 1) totalFiles
            (Js.Math_round (Js.mul (Js.div (natQ (i + 1)) (natQ totalFiles)) 100))
            (List.length allResults + List.length allErrors)
            (originalname file) allResults allErrors] |}.

Definition indexed (l : list File) : list (nat * File) :=
  combine (seq 0 (List.length l)) l.

Definition runLoop (batchData : BatchData) : LoopState :=
  let totalFiles := List.length (files batchData) in
  fold_left (loopStep (binLength batchData) totalFiles)
    (indexed (files batchData))
    {| allResults := [];
       allErrors := [];
       written :=
         [Progress 0 totalFiles 0 0 "Starting analysis..." [] []] |}.

(** The handler: the registry after the request, and the response. *)
Definition processBatch (batchFiles : gmap string BatchData) (batchId : string)
    : gmap string BatchData * Response :=
  match batchFiles !! batchId with
  | None => (batchFiles, NotFound "Batch not found")
  | Some batchData =>
      let st := runLoop batchData in
      let totalFiles := List.length (files batchData) in
      let summary :=
        Complete totalFiles (List.length (allResults st))
          (List.length (allErrors st)) (allResults st) (allErrors st) in
      (delete batchId batchFiles, EventStream (written st ++ [summary]))
  end.

(** The stream written for a batch found in the registry. *)
Definition respond (batchData : BatchData) : Response :=
  let st := runLoop batchData in
  let totalFiles := List.length (files batchData) in
  EventStream
    (written st ++
       [Complete totalFiles (List.length (allResults st))
          (List.length (allErrors st)) (allResults st) (allErrors st)]).

(** Requests that overlap.  The handler reads the registry once, when
    the request arrives, and keeps the batch it found in [batchData];
    it deletes the entry once, after the complete event.  It awaits in
    between (the timers, [processFile], [getRoutePoints]), and other
    requests run there.  [Arrive r batchId] is request [r] up to its
    first [await], [Finish r] is what it does after its last one. *)
Inductive Action :=
| Arrive (request : nat) (batchId : string)
| Finish (request : nat).

Record Server := {
  batchFiles : gmap string BatchData;
  inFlight : list (nat * (string * BatchData));
  responses : list (nat * Response)
}.

Definition act (s : Server) (a : Action) : Server :=
  match a with
  | Arrive r batchId =>
      match batchFiles s !! batchId with
      | None =>
          {| batchFiles := batchFiles s;
             inFlight := inFlight s;
             responses := responses s ++ [(r, NotFound "Batch not found")] |}
      | Some batchData =>
          {| batchFiles := batchFiles s;
             inFlight := inFlight s ++ [(r, (batchId, batchData))];
             responses := responses s |}
      end
  | Finish r =>
      match List.find (fun entry => Nat.eqb (fst entry) r) (inFlight s) with
      | None => s
      | Some (_, (batchId, batchData)) =>
          {| batchFiles := delete batchId (batchFiles s);
             inFlight :=
               List.filter (fun entry => negb (Nat.eqb (fst entry) r)) (inFlight s);
             responses := responses s ++ [(r, respond batchData)] |}
      end
  end.

Definition serve (registry : gmap string BatchData) (schedule : list Action)
    : Server :=
  fold_left act schedule
    {| batchFiles := registry; inFlight := []; responses := [] |}.

Definition isProgress (e : Event) : bool :=
  match e with Progress _ _ _ _ _ _ _ => true | _ => false end.

Definition eventFileIndex (e : Event) : nat :=
  match e with Progress fileIndex _ _ _ _ _ _ => fileIndex | _ => 0 end.

Definition eventFilesProcessed (e : Event) : nat :=
  match e with Progress _ _ _ filesProcessed _ _ _ => filesProcessed | _ => 0 end.

(** A file fails when [processFile] throws or resolves to an error,
    or when [getRoutePoints] throws. *)
Definition fileFails (file : File) : bool :=
  match processFile (buffer file) (originalname file) with
  | Throws _ => true
  | Returns (ProcessedError _) => true
  | Returns (ProcessedStats _) =>
      match getRoutePoints (buffer file) (originalname file) with
      | Throws _ => true
      | Returns _ => false
      end
  end.

Definition isTerminal (e : Event) : bool :=
  match e with Complete _ _ _ _ _ => true | ErrorEvent _ => true | _ => false end.

(** The message recorded for a file that fails: what [processFile]
    resolves to as an error, or what is thrown. *)
Definition errorOf (file : File) : option string :=
  match processFile (buffer file) (originalname file) with
  | Throws message => Some message
  | Returns (ProcessedError error) => Some error
  | Returns (ProcessedStats _) =>
      match getRoutePoints (buffer file) (originalname file) with
      | Throws message => Some message
      | Returns _ => None
      end
  end.

End Handler.

(** The error entries of a list of files, in order, for a given reading
    of which files fail and with which message. *)
Definition errorEntries (errorOf : File -> option string) (l : list File)
    : list FileError :=
  flat_map (fun file =>
              match errorOf file with
              | Some error => [{| fe_filename := originalname file;
                                  fe_error := error |}]
              | None => []
              end) l.

Arguments Progress {Stats}.
Arguments Complete {Stats}.
Arguments ErrorEvent {Stats}.
Arguments NotFound {Stats}.
Arguments EventStream {Stats}.

(** Parsers for the examples: a buffer that reads "corrupt" does not
    parse, every other buffer holds the eastward track. *)
Definition sampleProcessFile (buffer filename : string) : Outcome (Processed unit) :=
  if String.eqb buffer "corrupt"
  then Returns (ProcessedError "No track data found")
  else Returns (ProcessedStats tt).

Definition sampleGetRoutePoints (buffer filename : string)
    : Outcome (option (list Point)) :=
  Returns (Some eastward).

Definition threeFiles : BatchData :=
  {| files := [ {| originalname := "a.gpx"; buffer := "track" |};
                {| originalname := "b.gpx"; buffer := "corrupt" |};
                {| originalname := "c.gpx"; buffer := "track" |} ];
     binLength := 50;
     timestamp := 1700000000000 |}.

Definition sampleRegistry : gmap string BatchData :=
  upload ∅ "1700000000000" (files threeFiles) 50 1700000000000.

End Batch.

(** ** Vocabulary of the statements *)

(** The polynomial inside [calculateGradeAdjustment]. *)
Definition quadratic (x : Q) : Q := 1 + x * (33 # 1000) + x * x * (233 # 1000000).

(** Length of the path from point [a] to point [b]: the segment
    distances summed the way the scan accumulates [cumDist]. *)
Definition pathLength (haversine : Q -> Q -> Q -> Q -> Q) (points : list Point)
    (a b : nat) : Q :=
  sumQ (map (segDist haversine points) (seq (S a) (b - a))).

(** The inclusive index range of a bin. *)
Definition indexRange (b : Bin) : list nat :=
  seq (startIdx b) (S (endIdx b) - startIdx b).

(** The ranges of the bins, concatenated in order, are exactly
    [0 .. n-1]: no gap, no index twice. *)
Definition partitionsIndices (n : nat) (bs : list Bin) : Prop :=
  flat_map indexRange bs = seq 0 n.

(** The bins lead from index [start] to index [stop], each one starting
    at the index at which the one before ends. *)
Fixpoint chained (start : nat) (bs : list Bin) (stop : nat) : Prop :=
  match bs with
  | [] => start = stop
  | b :: bs' =>
      startIdx b = start /\ (start < endIdx b)%nat /\ chained (endIdx b) bs' stop
  end.

(** The state of the scan after the iterations [i = 1 .. k]. *)
Definition scanUpTo (haversine : Q -> Q -> Q -> Q -> Q) (rev : Revision)
    (points : list Point) (binLength : Q) (polyCoeffs : option (list Q))
    (newAdjustedVelocity : option Q) (k : nat) : ScanState :=
  fold_left (scanStep haversine rev points binLength polyCoeffs newAdjustedVelocity)
    (seq 1 k) {| bins := []; lastBinIdx := 0; cumDist := 0 |}.

(** A bin endpoint pair without a usable elapsed time: a timestamp is
    missing or invalid, or the end is not later than the start. *)
Definition noPositiveElapsed (binStart binEnd : Point) : Prop :=
  match time binStart, time binEnd with
  | Some (ValidDate a), Some (ValidDate b) => ~ (a < b)%Z
  | _, _ => True
  end.

(** A point with its heart rate of 0 replaced by no heart rate. *)
Definition zeroToMissing (p : Point) : Point :=
  {| lat := lat p; lon := lon p; ele := ele p; time := time p;
     heartRate := match heartRate p with
                  | Some hr => if Qeq_bool hr 0 then None else Some hr
                  | None => None
                  end |}.

(** The gradient a bin is built from, before it is rounded for the
    [gradient] field. *)
Definition rawGradient (points : list Point) (b : Bin) : Q :=
  let elevationChange :=
    ele (pointAt points (endIdx b)) - ele (pointAt points (startIdx b)) in
  if Js.Qlt_bool 0 (distance b) then (elevationChange / distance b) * 100 else 0.

(** The adjustment of a bin as the quartic of the caller's coefficients
    prescribes it. *)
Definition quarticAdjusted (points : list Point) (a b c d e : Q)
    (referenceVelocity : Q) (bin : Bin) : Prop :=
  let g := Qmax (-35) (Qmin 35 (rawGradient points bin)) in
  let factor := a * g ^ 4 + b * g ^ 3 + c * g ^ 2 + d * g + e in
  0 < factor ->
  adjustedTime bin == distance bin * factor / referenceVelocity /\
  exists gad, gradeAdjustedDistance bin = Some gad /\ gad == distance bin * factor.

(** ** Vocabulary of the filter statements *)

(** The four plausibility conditions, each on its own. *)
Definition speedOutside (bin : Bin) : bool :=
  negb (Qle_bool 1 (Filter.speedOf bin) && Qle_bool (Filter.speedOf bin) 30).
Definition gradientOutside (bin : Bin) : bool :=
  negb (Qle_bool (gradient bin) 30 && Qle_bool (-30) (gradient bin)).
Definition tooShort (bin : Bin) : bool := negb (Qle_bool 1 (timeInSeconds bin)).
Definition noDistance (bin : Bin) : bool := negb (Js.Qlt_bool 0 (distance bin)).

Definition implausible (bin : Bin) : bool :=
  speedOutside bin || gradientOutside bin || tooShort bin || noDistance bin.

(** The number of bins of all runs that satisfy a condition. *)
Definition countWhere (cond : Bin -> bool) (results : list Run) : nat :=
  List.length (List.filter cond (collectBins results)).

(** A bin moving at 35 km/h, plausible otherwise, without heart rate. *)
Definition fastBin : Bin :=
  {| distance := 97; elevationChange := 0; gradient := 0;
     timeTaken := Some "00:00:10"%string; timeInSeconds := 10;
     velocity := Some (350 # 36); pace_min_per_km := Some (36 # 21);
     adjustedTime := 0; gradeAdjustedDistance := None;
     startIdx := 0; endIdx := 1; startTime := None; endTime := None;
     avgHeartRate := None; maxHeartRate := None; minHeartRate := None;
     heartRateDataPoints := 0; avgSpeed := None |}.

Definition zone : Filter.HeartRateFilter :=
  {| Filter.minHR := Some 100; Filter.maxHR := Some 180 |}.

(** ** Vocabulary of the chart statements *)

(** The bins of a list that enter the chart under key [k]: positive
    distance, positive time, and a gradient that rounds to [k]. *)
Definition groupOf (bins : list Bin) (k : GradKey) : list Bin :=
  List.filter (fun b => key_eqb (gradientKey (gradient b)) k)
    (List.filter chartEligible bins).

Definition gradientGroup (results : list Run) (k : GradKey) : list Bin :=
  groupOf (collectBins results) k.

Definition totalsOf (group : list Bin) : GradientTotals :=
  {| gm_totalDistance := sumQ (map distance group);
     gm_totalTime := sumQ (map timeInSeconds group);
     gm_binCount := List.length group |}.

(** Sum of the times over 60, divided by sum of the distances over
    1000. *)
Definition weightedPace (group : list Bin) : Q :=
  (sumQ (map timeInSeconds group) / 60) / (sumQ (map distance group) / 1000).

(** Arithmetic mean of the paces of the bins that have one. *)
Definition meanOfPaces (group : list Bin) : Q :=
  let paces := flat_map (fun b => match pace_min_per_km b with
                                  | Some pace => [pace]
                                  | None => []
                                  end) group in
  sumQ paces / natQ (List.length paces).

(** A bin of the given distance, climb and duration, as the engine
    builds it from two points with timestamps. *)
Definition plainBin (dist climbed seconds : Q) : Bin :=
  {| distance := dist; elevationChange := climbed;
     gradient := Js.toFixed 2 (climbed / dist * 100);
     timeTaken := Some (formatTime seconds); timeInSeconds := seconds;
     velocity := Some (dist / seconds);
     pace_min_per_km := Some ((1000 / (dist / seconds)) / 60);
     adjustedTime := 0; gradeAdjustedDistance := None;
     startIdx := 0; endIdx := 1; startTime := None; endTime := None;
     avgHeartRate := None; maxHeartRate := None; minHeartRate := None;
     heartRateDataPoints := 0; avgSpeed := None |}.

(** One run with two flat bins of very different durations. *)
Definition unevenRun : list Run :=
  [ {| r_filename := "uneven.gpx";
       r_bins := Some [plainBin 50 0 10; plainBin 100 0 100] |} ].

(** ** Vocabulary of the analysis statements *)

(** The gradient a key stands for: the integer itself, -35 and 35 for
    the two sentinel keys. *)
Definition gradientRank (k : GradKey) : Z :=
  match k with
  | KeyLE35 => (-35)%Z
  | KeyGE35 => 35%Z
  | KeyInt z => z
  end.

(** The keys [gradientKey] can return. *)
Definition validKey (k : GradKey) : Prop :=
  match k with
  | KeyInt z => (-35 < z < 35)%Z
  | _ => True
  end.

Definition distanceFromZero (item : ChartEntry) : Z :=
  match parseIntKey (ce_gradient item) with
  | Some z => Z.abs z
  | None => 0%Z
  end.

(** A flat bin at 5 min/km and a 5 % climb at 11.67 min/km. *)
Definition hillRun : list Run :=
  [ {| r_filename := "hill.gpx";
       r_bins := Some [plainBin 100 0 30; plainBin 100 5 70] |} ].

(** A 40 % descent and a 5 % climb. *)
Definition ravineRun : list Run :=
  [ {| r_filename := "ravine.gpx";
       r_bins := Some [plainBin 100 (-40) 30; plainBin 100 5 70] |} ].

(** ** getGradientPaceAnalysis *)

(** A gradient range; [None] as [range_min] is [-Infinity], [None] as
    [range_max] is [Infinity]. *)
Record GradientRange := {
  range_min : option Q;
  range_max : option Q;
  range_label : string
}.

Definition gradientRanges : list GradientRange :=
  [ {| range_min := None; range_max := Some (-25); range_label := "≤-25%" |};
    {| range_min := Some (-25); range_max := Some (-20); range_label := "-25 to -20%" |};
    {| range_min := Some (-20); range_max := Some (-15); range_label := "-20 to -15%" |};
    {| range_min := Some (-15); range_max := Some (-10); range_label := "-15 to -10%" |};
    {| range_min := Some (-10); range_max := Some (-5); range_label := "-10 to -5%" |};
    {| range_min := Some (-5); range_max := Some 0; range_label := "-5 to 0%" |};
    {| range_min := Some 0; range_max := Some 5; range_label := "0 to 5%" |};
    {| range_min := Some 5; range_max := Some 10; range_label := "5 to 10%" |};
    {| range_min := Some 10; range_max := Some 15; range_label := "10 to 15%" |};
    {| range_min := Some 15; range_max := Some 20; range_label := "15 to 20%" |};
    {| range_min := Some 20; range_max := Some 25; range_label := "20 to 25%" |};
    {| range_min := Some 25; range_max := None; range_label := "≥25%" |} ].

(** The test of [allBins.filter] for one range. *)
Definition inRange (range : GradientRange) (gradient : Q) : bool :=
  match range_min range, range_max range with
  | None, Some mx => Qle_bool gradient mx
  | None, None => true
  | Some mn, None => Qle_bool mn gradient
  | Some mn, Some mx => Js.Qlt_bool mn gradient && Qle_bool gradient mx
  end.

(** [values.filter(v => v != null && !isNaN(v) && v > 0)]. *)
Definition positiveValues (values : list (option Q)) : list Q :=
  flat_map (fun v => match v with
                     | Some x => if Js.Qlt_bool 0 x then [x] else []
                     | None => []
                     end) values.

(** The comparator [(a, b) => a - b], read through its sign. *)
Definition numericOrder (a b : Q) : Z :=
  match Qcompare a b with
  | Lt => (-1)%Z
  | Eq => 0%Z
  | Gt => 1%Z
  end.

(** The median of a sorted, non-empty array. *)
Definition medianOfSorted (sorted : list Q) : Q :=
  let n := List.length sorted in
  if Nat.eqb n 1 then nth 0 sorted 0
  else if Nat.eqb (n mod 2) 0
       then Js.div (Js.add (nth (n / 2 - 1) sorted 0) (nth (n / 2) sorted 0)) 2
       else nth (n / 2) sorted 0.

(** [values.reduce((sum, v) => sum + v, 0) / values.length], every sum
    and the quotient rounded to binary64. *)
Definition meanOf (values : list Q) : Q :=
  Js.div (fold_left Js.add values 0) (natQ (List.length values)).

(** [`${Math.floor(p)}:${Math.round((p % 1) * 60).toString().padStart(2, '0')}`]. *)
Definition paceText (p : Q) : string :=
  (zString (Js.Math_floor p) ++ ":" ++ pad2 (Js.Math_round (jsMod p 1 * 60)))%string.

Record Bucket := {
  bk_range : GradientRange;
  bk_binCount : nat;
  bk_avgPace : option Q;
  bk_avgHeartRate : option Q;
  bk_paceMinPerKm : string;
  bk_medianPace : option Q;
  bk_medianHeartRate : option Q;
  bk_medianPaceMinPerKm : string
}.

(** The body of [gradientRanges.map]: [None] is the [null] that the
    final [filter] drops. *)
Definition bucketOf (allBins : list Bin) (range : GradientRange) : option Bucket :=
  let binsInRange := List.filter (fun bin => inRange range (gradient bin)) allBins in
  match binsInRange with
  | [] => None
  | _ =>
      let paceValues := positiveValues (map pace_min_per_km binsInRange) in
      let heartRateValues := positiveValues (map avgHeartRate binsInRange) in
      match paceValues with
      | [] => None
      | _ =>
          let avgPace := meanOf paceValues in
          let avgHeartRate :=
            match heartRateValues with
            | [] => None
            | _ => Some (meanOf heartRateValues)
            end in
          let medianPace := medianOfSorted (arraySort numericOrder paceValues) in
          let medianHeartRate :=
            match heartRateValues with
            | [] => None
            | _ => Some (medianOfSorted (arraySort numericOrder heartRateValues))
            end in
          Some {| bk_range := range;
                  bk_binCount := List.length binsInRange;
                  bk_avgPace := Some avgPace;
                  bk_avgHeartRate := avgHeartRate;
                  bk_paceMinPerKm := paceText avgPace;
                  bk_medianPace := Some medianPace;
                  bk_medianHeartRate := medianHeartRate;
                  bk_medianPaceMinPerKm := paceText medianPace |}
      end
  end.

Record PaceAnalysis := {
  pa_buckets : list Bucket;
  pa_totalBinsAnalyzed : nat;
  pa_summary : string
}.

Definition getGradientPaceAnalysis (allResults : list Run) : PaceAnalysis :=
  match allResults with
  | [] => {| pa_buckets := []; pa_totalBinsAnalyzed := 0;
             pa_summary := "No results to analyze" |}
  | _ =>
      let allBins := collectBins allResults in
      match allBins with
      | [] => {| pa_buckets := []; pa_totalBinsAnalyzed := 0;
                 pa_summary := "No bins found in results" |}
      | _ =>
          let buckets :=
            flat_map (fun range => match bucketOf allBins range with
                                   | Some bucket => [bucket]
                                   | None => []
                                   end) gradientRanges in
          {| pa_buckets := buckets;
             pa_totalBinsAnalyzed := List.length allBins;
             pa_summary :=
               ("Analyzed " ++ zString (Z.of_nat (List.length buckets))
                ++ " gradient ranges with "
                ++ zString (Z.of_nat (List.length allBins)) ++ " total bins")%string |}
      end
  end.

(** The valid paces of the bins of a range. *)
Definition pacesInRange (results : list Run) (range : GradientRange) : list Q :=
  positiveValues
    (map pace_min_per_km
       (List.filter (fun bin => inRange range (gradient bin)) (collectBins results))).

(** ** The helper module: elevation gain *)

(** A point as [processGPXFile] holds it, [{ ...pt, time }]: the
    coordinates and the elevation are the parser's and may be missing.
    [None] is a value that is not a number, or [NaN]; the loop of
    [getTotalElevationGain] treats the two alike, since a difference
    with [NaN] is [NaN] and [NaN > 0] is false. *)
Record ParsedPoint := {
  pp_lat : option Q;
  pp_lon : option Q;
  pp_ele : option Q;
  pp_time : option Date
}.

(** The body of the loop of [getTotalElevationGain]. *)
Definition gainStep (gain : Q) (prev curr : ParsedPoint) : Q :=
  match pp_ele prev, pp_ele curr with
  | Some prevEle, Some currEle =>
      let diff := Js.sub currEle prevEle in
      if Js.Qlt_bool 0 diff then Js.add gain diff else gain
  | _, _ => gain
  end.

(** [for (let i = 1; i < points.length; i++)], with [points[i - 1]]
    carried along. *)
Fixpoint gainLoop (gain : Q) (prev : ParsedPoint) (rest : list ParsedPoint) : Q :=
  match rest with
  | [] => gain
  | curr :: rest' => gainLoop (gainStep gain prev curr) curr rest'
  end.

(** The value of [gain] when the loop ends. *)
Definition elevationGain (points : list ParsedPoint) : Q :=
  match points with
  | [] => 0
  | first :: rest => gainLoop 0 first rest
  end.

Definition getTotalElevationGain (points : list ParsedPoint) : Z :=
  Js.Math_round (elevationGain points).

(** The loop started with a gain already accumulated, on points whose
    predecessor has no elevation. *)
Definition continueGain (gain : Q) (points : list ParsedPoint) : Q :=
  match points with
  | [] => gain
  | first :: rest => gainLoop gain first rest
  end.

(** A point at a given elevation, or without one. *)
Definition pointAtElevation (e : option Q) : ParsedPoint :=
  {| pp_lat := Some 0; pp_lon := Some 0; pp_ele := e; pp_time := None |}.

(** ** The helper module: the type of a file *)

(** File names are byte strings.  [toLowerCase] is embedded on the
    ASCII letters: the only use of the result is the comparison of the
    extension with ['gpx'] and ['fit'], and no character outside ASCII
    has one of these letters as its lower case. *)
Definition lowerChar (c : ascii) : ascii :=
  let n := nat_of_ascii c in
  if (Nat.leb 65 n && Nat.leb n 90)%bool then ascii_of_nat (n + 32)%nat else c.

Fixpoint toLowerCase (s : string) : string :=
  match s with
  | EmptyString => EmptyString
  | String c rest => String (lowerChar c) (toLowerCase rest)
  end.

(** [s.split(separator)] for a separator of one character. *)
Fixpoint split (separator : ascii) (s : string) : list string :=
  match s with
  | EmptyString => [EmptyString]
  | String c rest =>
      if Ascii.eqb c separator then EmptyString :: split separator rest
      else match split separator rest with
           | part :: parts => String c part :: parts
           | [] => [String c EmptyString]
           end
  end.

(** [parts.pop()]. *)
Definition pop (parts : list string) : string := List.last parts EmptyString.

(** [filename.toLowerCase().split('.').pop()]. *)
Definition extensionOf (filename : string) : string :=
  pop (split "." (toLowerCase filename)).

Section Dispatch.

(** The parsers of the two formats, wrapped as the helper module wraps
    them. *)
Variable Stats : Type.
Variable processGPXFile : string -> string -> Batch.Outcome (Batch.Processed Stats).
Variable processFITFile : string -> string -> Batch.Outcome (Batch.Processed Stats).
Variable getGPXRoutePoints : string -> Batch.Outcome (option (list Point)).
Variable getFITRoutePoints : string -> Batch.Outcome (option (list Point)).

Definition processFile (fileBuffer filename : string)
    : Batch.Outcome (Batch.Processed Stats) :=
  let extension := extensionOf filename in
  if String.eqb extension "gpx" then processGPXFile fileBuffer filename
  else if String.eqb extension "fit" then processFITFile fileBuffer filename
  else Batch.Returns
         (Batch.ProcessedError
            "Unsupported file type. Only GPX and FIT files are supported.").

Definition getRoutePoints (fileBuffer filename : string)
    : Batch.Outcome (option (list Point)) :=
  let extension := extensionOf filename in
  if String.eqb extension "gpx" then getGPXRoutePoints fileBuffer
  else if String.eqb extension "fit" then getFITRoutePoints fileBuffer
  else Batch.Returns None.

End Dispatch.

(** ** The helper module: GPX and FIT files *)

Module Helper.

(** The fields of [stats] that the statements read; [st_elevationGain]
    is a number, the rounded gain of the points or the session's
    [total_ascent]. *)
Record FileStats := {
  st_filename : string;
  st_fileType : string;
  st_elevationGain : Q;
  st_pointCount : nat
}.

(** An object [{ error: message, filename }] as the handlers read it.
    They test [if (result.error)]: a message that is the empty string
    is falsy, and the object is then handled as a success whose
    [result.stats] is undefined, [None] here. *)
Definition errorObject (message : string) : Batch.Processed (option FileStats) :=
  if String.eqb message EmptyString then Batch.ProcessedStats None
  else Batch.ProcessedError message.

(** *** GPX *)

(** A point of the GPX parser: coordinates, an elevation that is a
    number or [null], a time that is a [Date] or [null]. *)
Record GpxPoint := {
  gp_lat : Q;
  gp_lon : Q;
  gp_ele : option Q;
  gp_time : option Date
}.

(** What [gpx.parse] leaves in [gpx.tracks] and [gpx.routes]; a track
    or a route is given by its [points]. *)
Record Gpx := {
  tracks : list (list GpxPoint);
  routes : list (list GpxPoint)
}.

(** [gpx.tracks?.[0]?.points || []], replaced by the points of the
    first route when there are none and the first route has some. *)
Definition rawPointsOf (gpx : Gpx) : list GpxPoint :=
  let rawPoints := hd [] (tracks gpx) in
  if (Nat.eqb (List.length rawPoints) 0
      && negb (Nat.eqb (List.length (hd [] (routes gpx))) 0))%bool
  then hd [] (routes gpx)
  else rawPoints.

(** [{ ...pt, time: pt.time ? new Date(pt.time) : null }]. *)
Definition gpxParsedPoint (pt : GpxPoint) : ParsedPoint :=
  {| pp_lat := Some (gp_lat pt); pp_lon := Some (gp_lon pt);
     pp_ele := gp_ele pt; pp_time := gp_time pt |}.

(** [{ lat: pt.lat, lon: pt.lon, ele: pt.ele || 0, time, heartRate: null }]. *)
Definition gpxRoutePoint (pt : GpxPoint) : Point :=
  {| lat := gp_lat pt; lon := gp_lon pt; ele := Js.orElse (gp_ele pt) 0;
     time := gp_time pt; heartRate := None |}.

(** *** FIT *)

(** A record of the FIT parser.  An absent field is [undefined]. *)
Record FitRecord := {
  position_lat : option Q;
  position_long : option Q;
  rec_lat : option Q;
  rec_lon : option Q;
  rec_lng : option Q;
  altitude : option Q;
  enhanced_altitude : option Q;
  rec_timestamp : option Date
}.

Record FitSession := {
  total_ascent : option Q
}.

Record FitActivity := {
  act_sessions : option (list FitSession);
  act_records : option (list FitRecord)
}.

(** The [data] handed to the callback of [fitParser.parse]:
    [data.activity], [data.sessions], [data.records] and the array
    [data.record]. *)
Record FitData := {
  fd_activity : option FitActivity;
  fd_sessions : option (list FitSession);
  fd_records : option (list FitRecord);
  fd_record : option (list FitRecord)
}.

(** What building the parser and calling [parse] does: it throws, or
    it calls back once, with an error (whose text [error.message ||
    error] is [message]) or with the data. *)
Inductive FitParse :=
| FitThrows (message : string)
| FitError (message : string)
| FitParsed (data : FitData).

Definition orEmpty {A : Type} (array : option (list A)) : list A :=
  match array with
  | Some l => l
  | None => []
  end.

Definition activitySessions (data : FitData) : option (list FitSession) :=
  match fd_activity data with
  | Some activity => act_sessions activity
  | None => None
  end.

Definition activityRecords (data : FitData) : option (list FitRecord) :=
  match fd_activity data with
  | Some activity => act_records activity
  | None => None
  end.

(** The sessions and records [processFITFile] reads. *)
Definition sessionsAndRecords (data : FitData) : list FitSession * list FitRecord :=
  match activitySessions data with
  | Some sessions => (sessions, orEmpty (activityRecords data))
  | None =>
      match fd_sessions data with
      | Some sessions => (sessions, orEmpty (fd_records data))
      | None =>
          ([], match activityRecords data with
               | Some records => records
               | None => orEmpty (fd_records data)
               end)
      end
  end.

Definition hasPosition (record : FitRecord) : bool :=
  match position_lat record, position_long record with
  | Some _, Some _ => true
  | _, _ => false
  end.

(** [val * (180 / Math.pow(2, 31))]. *)
Definition semicirclesToDegrees (val : Q) : Q :=
  Js.mul val (Js.div 180 (inject_Z (2 ^ 31))).

(** The point [processFITFile] makes of a record with a position. *)
Definition fitParsedPoint (record : FitRecord) : ParsedPoint :=
  {| pp_lat := option_map semicirclesToDegrees (position_lat record);
     pp_lon := option_map semicirclesToDegrees (position_long record);
     pp_ele := Some (Js.orElse (altitude record)
                       (Js.orElse (enhanced_altitude record) 0));
     pp_time := rec_timestamp record |}.

(** The records [getFITRoutePoints] reads. *)
Definition routeRecords (data : FitData) : list FitRecord :=
  match activityRecords data with
  | Some records => records
  | None =>
      match fd_records data with
      | Some records => records
      | None => orEmpty (fd_record data)
      end
  end.

Definition isDefined {A : Type} (x : option A) : bool :=
  match x with
  | Some _ => true
  | None => false
  end.

Definition hasAnyPosition (record : FitRecord) : bool :=
  let hasLat := (isDefined (position_lat record) || isDefined (rec_lat record))%bool in
  let hasLon := (isDefined (position_long record) || isDefined (rec_lon record)
                 || isDefined (rec_lng record))%bool in
  (hasLat && hasLon)%bool.

Section Parsers.

(** The two parsers, as functions of the buffer, and the route point
    [getFITRoutePoints] makes of a record that has a position. *)
Variable parseGPX : string -> Batch.Outcome Gpx.
Variable parseFIT : string -> FitParse.
Variable fitRoutePoint : FitRecord -> Point.

Definition processGPXFile (fileBuffer filename : string)
    : Batch.Outcome (Batch.Processed (option FileStats)) :=
  match parseGPX fileBuffer with
  | Batch.Throws message => Batch.Returns (errorObject message)
  | Batch.Returns gpx =>
      let rawPoints := rawPointsOf gpx in
      if Nat.eqb (List.length rawPoints) 0
      then Batch.Returns (Batch.ProcessedError "No track data found")
      else
        let points := map gpxParsedPoint rawPoints in
        Batch.Returns
          (Batch.ProcessedStats
             (Some {| st_filename := filename;
                      st_fileType := "GPX";
                      st_elevationGain := inject_Z (getTotalElevationGain points);
                      st_pointCount := List.length points |}))
  end.

Definition processFITFile (fileBuffer filename : string)
    : Batch.Outcome (Batch.Processed (option FileStats)) :=
  match parseFIT fileBuffer with
  | FitThrows message => Batch.Returns (errorObject message)
  | FitError message =>
      Batch.Returns (Batch.ProcessedError (String.append "FIT parsing failed: " message))
  | FitParsed data =>
      let '(sessions, records) := sessionsAndRecords data in
      let session_total_ascent :=
        match sessions with
        | session :: _ => total_ascent session
        | [] => None
        end in
      let points := map fitParsedPoint (List.filter hasPosition records) in
      Batch.Returns
        (Batch.ProcessedStats
           (Some {| st_filename := filename;
                    st_fileType := "FIT";
                    st_elevationGain :=
                      Js.orElse session_total_ascent
                        (if Nat.ltb 0 (List.length points)
                         then inject_Z (getTotalElevationGain points)
                         else 0);
                    st_pointCount := List.length points |}))
  end.

Definition getGPXRoutePoints (fileBuffer : string) : Batch.Outcome (option (list Point)) :=
  match parseGPX fileBuffer with
  | Batch.Throws _ => Batch.Returns None
  | Batch.Returns gpx => Batch.Returns (Some (map gpxRoutePoint (rawPointsOf gpx)))
  end.

Definition getFITRoutePoints (fileBuffer : string) : Batch.Outcome (option (list Point)) :=
  match parseFIT fileBuffer with
  | FitThrows _ => Batch.Returns None
  | FitError _ => Batch.Returns None
  | FitParsed data =>
      let pointsWithPosition := List.filter hasAnyPosition (routeRecords data) in
      Batch.Returns (Some (map fitRoutePoint pointsWithPosition))
  end.

Definition processFile : string -> string
    -> Batch.Outcome (Batch.Processed (option FileStats)) :=
  processFile (option FileStats) processGPXFile processFITFile.

Definition getRoutePoints : string -> string -> Batch.Outcome (option (list Point)) :=
  getRoutePoints getGPXRoutePoints getFITRoutePoints.

(** The three ways in which a file fails, with the error recorded for
    each: an extension that is neither gpx nor fit; a parser that
    throws or reports an error; a GPX file without a point in its first
    track and first route.  A FIT file that parses is no failure,
    whatever its records.  A parser that throws an error whose message
    is empty does not make its file fail. *)
Definition failure (file : Batch.File) : option string :=
  let extension := extensionOf (Batch.originalname file) in
  if String.eqb extension "gpx" then
    match parseGPX (Batch.buffer file) with
    | Batch.Throws message => if String.eqb message EmptyString then None else Some message
    | Batch.Returns gpx =>
        match rawPointsOf gpx with
        | [] => Some "No track data found"
        | _ :: _ => None
        end
    end
  else if String.eqb extension "fit" then
    match parseFIT (Batch.buffer file) with
    | FitThrows message => if String.eqb message EmptyString then None else Some message
    | FitError message => Some (String.append "FIT parsing failed: " message)
    | FitParsed _ => None
    end
  else Some "Unsupported file type. Only GPX and FIT files are supported.".

(** The error entries of a list of files, in order. *)
Definition errorEntries (files : list Batch.File) : list Batch.FileError :=
  Batch.errorEntries failure files.

(** The positions, counted from 0, of the files that do not fail. *)
Definition successIndices (files : list Batch.File) : list nat :=
  map fst (List.filter (fun entry => negb (isDefined (failure (snd entry))))
             (combine (seq 0 (List.length files)) files)).

End Parsers.

(** Parsers for the examples.  A GPX buffer that reads "corrupt" makes
    the parser throw, one that reads "silent" makes it throw an error
    without a message, one that reads "empty" holds no point, every
    other one holds a track of three points; a FIT buffer that reads
    "corrupt" is reported as an error, every other one holds one
    record, without a position. *)
Definition samplePoints : list GpxPoint :=
  [ {| gp_lat := 0; gp_lon := 0; gp_ele := Some 100; gp_time := None |};
    {| gp_lat := 0; gp_lon := 45 # 100000; gp_ele := Some 104; gp_time := None |};
    {| gp_lat := 0; gp_lon := 90 # 100000; gp_ele := Some 103; gp_time := None |} ].

Definition sampleParseGPX (fileBuffer : string) : Batch.Outcome Gpx :=
  if String.eqb fileBuffer "corrupt" then Batch.Throws "Invalid GPX"
  else if String.eqb fileBuffer "silent" then Batch.Throws EmptyString
  else if String.eqb fileBuffer "empty" then Batch.Returns {| tracks := []; routes := [] |}
  else Batch.Returns {| tracks := [samplePoints]; routes := [] |}.

Definition recordWithoutPosition : FitRecord :=
  {| position_lat := None; position_long := None;
     rec_lat := None; rec_lon := None; rec_lng := None;
     altitude := Some 100; enhanced_altitude := None;
     rec_timestamp := Some (ValidDate 1700000000000) |}.

Definition sampleParseFIT (fileBuffer : string) : FitParse :=
  if String.eqb fileBuffer "corrupt" then FitError "Not a FIT file"
  else FitParsed
         {| fd_activity :=
              Some {| act_sessions := Some []; act_records := Some [recordWithoutPosition] |};
            fd_sessions := None; fd_records := None; fd_record := None |}.

Definition sampleFitRoutePoint (record : FitRecord) : Point :=
  {| lat := Js.orElse (position_lat record) 0; lon := Js.orElse (position_long record) 0;
     ele := Js.orElse (altitude record) 0; time := rec_timestamp record;
     heartRate := None |}.

(** A batch of a GPX file with a track, a GPX file that does not parse
    and a FIT file without a usable point. *)
Definition mixedBatch : Batch.BatchData :=
  {| Batch.files := [ {| Batch.originalname := "a.gpx"; Batch.buffer := "track" |};
                      {| Batch.originalname := "b.gpx"; Batch.buffer := "corrupt" |};
                      {| Batch.originalname := "c.fit"; Batch.buffer := "records" |} ];
     Batch.binLength := 50;
     Batch.timestamp := 1700000000000 |}.

Definition mixedRegistry : gmap string Batch.BatchData :=
  Batch.upload ∅ "1700000000000" (Batch.files mixedBatch) 50 1700000000000.

(** A batch of one GPX file, on which the parser throws an error
    without a message. *)
Definition silentRegistry : gmap string Batch.BatchData :=
  Batch.upload ∅ "1700000000001"
    [ {| Batch.originalname := "d.gpx"; Batch.buffer := "silent" |} ]
    50 1700000000001.

End Helper.

(** ** The upload handlers *)

(** [parseInt(req.body.binLength) || 50]; [None] is the [NaN] of a
    field that does not start with an integer. *)
Definition binLengthOf (parsed : option Z) : Q :=
  match parsed with
  | Some z => if Z.eqb z 0 then 50 else inject_Z z
  | None => 50
  end.

(** POST /api/upload-batch.  [now] and [later] are the two readings of
    [Date.now()]: the first names the batch, the second is its
    timestamp. *)
Inductive UploadResponse :=
| UploadBadRequest (error : string)
| Uploaded (batchId : string) (fileCount : nat).

Definition uploadBatch (batchFiles : gmap string Batch.BatchData)
    (parsedBinLength : option Z) (files : list Batch.File) (now later : Z)
    : gmap string Batch.BatchData * UploadResponse :=
  let binLength := binLengthOf parsedBinLength in
  match files with
  | [] => (batchFiles, UploadBadRequest "No files provided")
  | _ =>
      let batchId := zString now in
      (Batch.upload batchFiles batchId files binLength later,
       Uploaded batchId (List.length files))
  end.

Definition eventProgressPercent {Stats : Type} (e : Batch.Event Stats) : Z :=
  match e with
  | Batch.Progress _ _ progressPercent _ _ _ _ => progressPercent
  | _ => 0%Z
  end.

(** ** POST /api/analyze-with-bins *)

Module AnalyzeWithBins.

Section Handler.

Variable Stats : Type.
Variable processFile : string -> string -> Batch.Outcome (Batch.Processed Stats).
Variable getRoutePoints : string -> string -> Batch.Outcome (option (list Point)).
Variable haversine : Q -> Q -> Q -> Q -> Q.
Variable rev : Revision.

Record Result := {
  ar_stats : Stats;
  ar_binLength : Q;
  ar_bins : list Bin;
  ar_binSummary : option BinSummary;
  ar_routePointCount : nat;
  ar_hasHeartRateData : bool
}.

Record Summary := {
  sm_totalFiles : nat;
  sm_successfulFiles : nat;
  sm_failedFiles : nat;
  sm_binLength : Q;
  sm_totalBins : nat;
  sm_avgBinsPerFile : Q;
  sm_filesWithHeartRate : nat
}.

Inductive Response :=
| Ok (summary : Summary) (results : list Result) (errors : list Batch.FileError)
| ServerError (error : string).

(** The body of [for (const [index, file] of req.files.entries())].
    There is no [try] around it: what a parser throws leaves the loop.
    [errors.push(result)] stores the object of [processFile], whose
    [filename] is the name it was called with. *)
Definition analyzeFile (binLength : Q) (file : Batch.File)
    (results : list Result) (errors : list Batch.FileError)
    : Batch.Outcome (list Result * list Batch.FileError) :=
  match processFile (Batch.buffer file) (Batch.originalname file) with
  | Batch.Throws message => Batch.Throws message
  | Batch.Returns (Batch.ProcessedError error) =>
      Batch.Returns
        (results,
         errors ++ [{| Batch.fe_filename := Batch.originalname file;
                       Batch.fe_error := error |}])
  | Batch.Returns (Batch.ProcessedStats stats) =>
      match getRoutePoints (Batch.buffer file) (Batch.originalname file) with
      | Batch.Throws message => Batch.Throws message
      | Batch.Returns (Some (p :: ps)) =>
          let routePoints := p :: ps in
          let bins := getAnalysisBins haversine rev routePoints binLength None None in
          let binSummary := getBinSummary bins in
          let hasHeartRateData :=
            existsb (fun bin => match avgHeartRate bin with
                                | Some _ => true
                                | None => false
                                end) bins in
          Batch.Returns
            (results ++ [{| ar_stats := stats;
                            ar_binLength := binLength;
                            ar_bins := bins;
                            ar_binSummary := binSummary;
                            ar_routePointCount := List.length routePoints;
                            ar_hasHeartRateData := hasHeartRateData |}],
             errors)
      | Batch.Returns _ =>
          Batch.Returns
            (results ++ [{| ar_stats := stats;
                            ar_binLength := binLength;
                            ar_bins := [];
                            ar_binSummary := None;
                            ar_routePointCount := 0;
                            ar_hasHeartRateData := false |}],
             errors)
      end
  end.

Fixpoint analyzeFiles (binLength : Q) (files : list Batch.File)
    (results : list Result) (errors : list Batch.FileError)
    : Batch.Outcome (list Result * list Batch.FileError) :=
  match files with
  | [] => Batch.Returns (results, errors)
  | file :: rest =>
      match analyzeFile binLength file results errors with
      | Batch.Throws message => Batch.Throws message
      | Batch.Returns (results', errors') =>
          analyzeFiles binLength rest results' errors'
      end
  end.

Definition analyzeWithBins (parsedBinLength : option Z) (files : list Batch.File)
    : Response :=
  let binLength := binLengthOf parsedBinLength in
  match analyzeFiles binLength files [] [] with
  | Batch.Throws message => ServerError message
  | Batch.Returns (results, errors) =>
      let totalBins := list_sum (map (fun r => List.length (ar_bins r)) results) in
      let avgBinsPerFile :=
        if Nat.ltb 0 (List.length results)
        then Js.div (natQ totalBins) (natQ (List.length results))
        else 0 in
      let filesWithHeartRate :=
        List.length (List.filter ar_hasHeartRateData results) in
      Ok {| sm_totalFiles := List.length files;
            sm_successfulFiles := List.length results;
            sm_failedFiles := List.length errors;
            sm_binLength := binLength;
            sm_totalBins := totalBins;
            sm_avgBinsPerFile :=
              Js.div (inject_Z (Js.Math_round (Js.mul avgBinsPerFile 10))) 10;
            sm_filesWithHeartRate := filesWithHeartRate |}
         results errors
  end.

(** A file on which a parser call throws, and a file that
    [processFile] answers with an error. *)
Definition fileThrows (file : Batch.File) : bool :=
  match processFile (Batch.buffer file) (Batch.originalname file) with
  | Batch.Throws _ => true
  | Batch.Returns (Batch.ProcessedError _) => false
  | Batch.Returns (Batch.ProcessedStats _) =>
      match getRoutePoints (Batch.buffer file) (Batch.originalname file) with
      | Batch.Throws _ => true
      | Batch.Returns _ => false
      end
  end.

Definition fileRejected (file : Batch.File) : bool :=
  match processFile (Batch.buffer file) (Batch.originalname file) with
  | Batch.Returns (Batch.ProcessedError _) => true
  | _ => false
  end.

End Handler.

Arguments Ok {Stats}.
Arguments ServerError {Stats}.

End AnalyzeWithBins.

(** ** batchProcessing.js and POST /api/analyze-batch *)

Module Chunked.

Definition BATCH_SIZE : nat := 3.

(** [files.slice(start, end)]. *)
Definition slice {A : Type} (start stop : nat) (l : list A) : list A :=
  firstn (stop - start)%nat (skipn start l).

Section Handler.

Variable Stats : Type.
Variable processFile : string -> string -> Batch.Outcome (Batch.Processed Stats).
Variable getRoutePoints : string -> string -> Batch.Outcome (option (list Point)).
Variable haversine : Q -> Q -> Q -> Q -> Q.
Variable rev : Revision.

Record Result := {
  cr_stats : Stats;
  cr_binLength : Q;
  cr_bins : list Bin;
  cr_binSummary : option BinSummary;
  cr_routePointCount : nat;
  cr_hasHeartRateData : bool;
  cr_batchIndex : nat;
  cr_fileIndex : nat
}.

(** The [try { ... } catch (error) { ... }] around one file of a
    batch. *)
Definition processOne (batchIndex : nat) (binLength : Q) (fileIndex : nat)
    (file : Batch.File) (results : list Result) (errors : list Batch.FileError)
    : list Result * list Batch.FileError :=
  match processFile (Batch.buffer file) (Batch.originalname file) with
  | Batch.Throws message =>
      (results,
       errors ++ [{| Batch.fe_filename := Batch.originalname file;
                     Batch.fe_error := message |}])
  | Batch.Returns (Batch.ProcessedError error) =>
      (results,
       errors ++ [{| Batch.fe_filename := Batch.originalname file;
                     Batch.fe_error := error |}])
  | Batch.Returns (Batch.ProcessedStats stats) =>
      match getRoutePoints (Batch.buffer file) (Batch.originalname file) with
      | Batch.Throws message =>
          (results,
           errors ++ [{| Batch.fe_filename := Batch.originalname file;
                         Batch.fe_error := message |}])
      | Batch.Returns routePoints =>
          let bins :=
            match routePoints with
            | Some pts => getAnalysisBins haversine rev pts binLength None None
            | None => []
            end in
          let hasHeartRateData :=
            existsb (fun bin => match avgHeartRate bin with
                                | Some _ => true
                                | None => false
                                end) bins in
          (results ++
             [{| cr_stats := stats;
                 cr_binLength := binLength;
                 cr_bins := bins;
                 cr_binSummary := getBinSummary bins;
                 cr_routePointCount :=
                   match routePoints with
                   | Some pts => List.length pts
                   | None => 0
                   end;
                 cr_hasHeartRateData := hasHeartRateData;
                 cr_batchIndex := batchIndex;
                 cr_fileIndex := (batchIndex * BATCH_SIZE + fileIndex)%nat |}],
           errors)
      end
  end.

(** [processBatch] of [batchProcessing.js]. *)
Definition processBatch (files : list Batch.File) (batchIndex : nat) (binLength : Q)
    : list Result * list Batch.FileError :=
  fold_left
    (fun acc entry =>
       processOne batchIndex binLength (fst entry) (snd entry) (fst acc) (snd acc))
    (Batch.indexed files) ([], []).

Inductive Event :=
| Progress (batchIndex totalBatches : nat) (progressPercent : Z)
    (filesProcessed totalFiles : nat)
    (batchResults : list Result) (batchErrors : list Batch.FileError)
    (isComplete : bool)
| Complete (totalFiles successfulFiles failedFiles : nat)
    (results : list Result) (errors : list Batch.FileError)
| ErrorEvent (error : string).

Inductive Response :=
| BadRequest (error : string)
| EventStream (written : list Event).

Record LoopState := {
  allResults : list Result;
  allErrors : list Batch.FileError;
  written : list Event
}.

(** One iteration of
    [for (let batchIndex = 0; batchIndex < totalBatches; batchIndex++)]. *)
Definition batchStep (files : list Batch.File) (binLength : Q) (totalBatches : nat)
    (st : LoopState) (batchIndex : nat) : LoopState :=
  let start := (batchIndex * BATCH_SIZE)%nat in
  let stop := (start + BATCH_SIZE)%nat in
  let batchFiles := slice start stop files in
  let batchResult := processBatch batchFiles batchIndex binLength in
  let allResults' := allResults st ++ fst batchResult in
  let allErrors' := allErrors st ++ snd batchResult in
  {| allResults := allResults';
     allErrors := allErrors';
     written :=
       written st ++
         [Progress (batchIndex + 1) totalBatches
            (Js.Math_round (Js.mul (Js.div (natQ (batchIndex + 1)) (natQ totalBatches)) 100))
            (List.length allResults' + List.length allErrors')%nat
            (List.length files)
            (fst batchResult) (snd batchResult)
            (Nat.eqb batchIndex (totalBatches - 1)%nat)] |}.

(** [Math.ceil(files.length / BATCH_SIZE)]. *)
Definition totalBatchesOf (files : list Batch.File) : nat :=
  Z.to_nat (Qceiling (natQ (List.length files) / natQ BATCH_SIZE)).

Definition analyzeBatch (parsedBinLength : option Z) (files : list Batch.File)
    : Response :=
  let binLength := binLengthOf parsedBinLength in
  match files with
  | [] => BadRequest "No files provided"
  | _ =>
      let totalBatches := totalBatchesOf files in
      let st :=
        fold_left (batchStep files binLength totalBatches) (seq 0 totalBatches)
          {| allResults := []; allErrors := []; written := [] |} in
      EventStream
        (written st ++
           [Complete (List.length files) (List.length (allResults st))
              (List.length (allErrors st)) (allResults st) (allErrors st)])
  end.

(** A result without its [batchIndex]: the fields that the handler of
    GET /api/process-batch/:batchId writes. *)
Definition withoutBatchIndex (r : Result) : Batch.FileResult Stats :=
  {| Batch.fr_stats := cr_stats r;
     Batch.fr_binLength := cr_binLength r;
     Batch.fr_bins := cr_bins r;
     Batch.fr_binSummary := cr_binSummary r;
     Batch.fr_routePointCount := cr_routePointCount r;
     Batch.fr_hasHeartRateData := cr_hasHeartRateData r;
     Batch.fr_fileIndex := cr_fileIndex r |}.

Definition isProgress (e : Event) : bool :=
  match e with Progress _ _ _ _ _ _ _ _ => true | _ => false end.

Definition eventFilesProcessed (e : Event) : nat :=
  match e with Progress _ _ _ filesProcessed _ _ _ _ => filesProcessed | _ => 0%nat end.

Definition eventIsComplete (e : Event) : bool :=
  match e with Progress _ _ _ _ _ _ _ isComplete => isComplete | _ => false end.

End Handler.

Arguments Progress {Stats}.
Arguments Complete {Stats}.
Arguments ErrorEvent {Stats}.
Arguments BadRequest {Stats}.
Arguments EventStream {Stats}.

End Chunked.

(** A name that holds a dot. *)
Fixpoint hasDot (s : string) : bool :=
  match s with
  | EmptyString => false
  | String c rest => Ascii.eqb c "." || hasDot rest
  end.

(** A file of the given name. *)
Definition fileNamed (name buffer : string) : Batch.File :=
  {| Batch.originalname := name; Batch.buffer := buffer |}.

(** The results and errors that the file-by-file loop of
    GET /api/process-batch/:batchId adds for the files [l], the first
    of which has index [i]. *)
Definition sequentialFold (Stats : Type)
    (processFile : string -> string -> Batch.Outcome (Batch.Processed Stats))
    (getRoutePoints : string -> string -> Batch.Outcome (option (list Point)))
    (haversine : Q -> Q -> Q -> Q -> Q) (rev : Revision) (binLength : Q)
    (i : nat) (l : list Batch.File)
    (acc : list (Batch.FileResult Stats) * list Batch.FileError)
    : list (Batch.FileResult Stats) * list Batch.FileError :=
  fold_left
    (fun acc entry =>
       Batch.processOne Stats processFile getRoutePoints haversine rev binLength
         (fst entry) (snd entry) (fst acc) (snd acc))
    (combine (seq i (List.length l)) l) acc.

(** ** getGradientPaceAnalysis of the self-contained revision *)

Module SelfContainedRevision.

(** An element of [bucketData]: the range, [{ ...bucket }], and the
    running totals. *)
Record BucketData := {
  bd_range : GradientRange;
  bd_totalDistance : Q;
  bd_totalTime : Q;
  bd_binCount : nat;
  bd_avgPace : option Q;
  bd_paceMinPerKm : option string
}.

Definition initialBucket (bucket : GradientRange) : BucketData :=
  {| bd_range := bucket;
     bd_totalDistance := 0;
     bd_totalTime := 0;
     bd_binCount := 0;
     bd_avgPace := None;
     bd_paceMinPerKm := None |}.

(** [bin.gradient > bucket.min && bin.gradient <= bucket.max]; every
    number is above [-Infinity] and at most [Infinity]. *)
Definition inBucket (bucket : BucketData) (gradient : Q) : bool :=
  match range_min (bd_range bucket) with
  | Some mn => Js.Qlt_bool mn gradient
  | None => true
  end
  && match range_max (bd_range bucket) with
     | Some mx => Qle_bool gradient mx
     | None => true
     end.

(** [array.findIndex(f)]; [None] is -1. *)
Fixpoint findIndex {A : Type} (f : A -> bool) (l : list A) : option nat :=
  match l with
  | [] => None
  | x :: rest => if f x then Some 0%nat else option_map S (findIndex f rest)
  end.

(** The update of [array[i]] in place. *)
Fixpoint updateAt {A : Type} (i : nat) (f : A -> A) (l : list A) : list A :=
  match l, i with
  | [], _ => []
  | x :: rest, O => f x :: rest
  | x :: rest, S i' => x :: updateAt i' f rest
  end.

Definition addToBucket (bin : Bin) (bucket : BucketData) : BucketData :=
  {| bd_range := bd_range bucket;
     bd_totalDistance := bd_totalDistance bucket + distance bin;
     bd_totalTime := bd_totalTime bucket + timeInSeconds bin;
     bd_binCount := S (bd_binCount bucket);
     bd_avgPace := bd_avgPace bucket;
     bd_paceMinPerKm := bd_paceMinPerKm bucket |}.

(** The body of [allBins.forEach]. *)
Definition addBin (bucketData : list BucketData) (bin : Bin) : list BucketData :=
  if chartEligible bin then
    match findIndex (fun bucket => inBucket bucket (gradient bin)) bucketData with
    | Some bucketIndex => updateAt bucketIndex (addToBucket bin) bucketData
    | None => bucketData
    end
  else bucketData.

(** The body of [bucketData.forEach]. *)
Definition withPace (bucket : BucketData) : BucketData :=
  if Js.Qlt_bool 0 (bd_totalDistance bucket) && Js.Qlt_bool 0 (bd_totalTime bucket)
  then
    let paceMinPerKm := (bd_totalTime bucket / 60) / (bd_totalDistance bucket / 1000) in
    let minutes := Js.Math_floor paceMinPerKm in
    let seconds := Js.Math_round ((paceMinPerKm - inject_Z minutes) * 60) in
    {| bd_range := bd_range bucket;
       bd_totalDistance := bd_totalDistance bucket;
       bd_totalTime := bd_totalTime bucket;
       bd_binCount := bd_binCount bucket;
       bd_avgPace := Some paceMinPerKm;
       bd_paceMinPerKm := Some (zString minutes ++ ":" ++ pad2 seconds)%string |}
  else bucket.

Record Analysis := {
  an_buckets : list BucketData;
  an_totalBinsAnalyzed : nat;
  an_bucketsWithData : nat
}.

Definition getGradientPaceAnalysis (allResults : list Run) : Analysis :=
  let bucketData := map initialBucket gradientRanges in
  let allBins := collectBins allResults in
  let bucketData := fold_left addBin allBins bucketData in
  let bucketData := map withPace bucketData in
  let nonEmptyBuckets :=
    List.filter (fun bucket => Nat.ltb 0 (bd_binCount bucket)) bucketData in
  {| an_buckets := nonEmptyBuckets;
     an_totalBinsAnalyzed := List.length allBins;
     an_bucketsWithData := List.length nonEmptyBuckets |}.

(** The bins that count for a range: positive distance and time, and a
    gradient above the lower and up to the upper bound. *)
Definition binsOfRange (allBins : list Bin) (range : GradientRange) : list Bin :=
  List.filter
    (fun bin => chartEligible bin && inBucket (initialBucket range) (gradient bin))
    allBins.

(** The element of [bucketData] for a range once the bins [done] have
    been added. *)
Definition bucketAfter (done : list Bin) (range : GradientRange) : BucketData :=
  {| bd_range := range;
     bd_totalDistance := sumQ (map distance (binsOfRange done range));
     bd_totalTime := sumQ (map timeInSeconds (binsOfRange done range));
     bd_binCount := List.length (binsOfRange done range);
     bd_avgPace := None;
     bd_paceMinPerKm := None |}.

End SelfContainedRevision.

(** ** Binary64 rounding: facts *)

Lemma roundHalfEven_range q :
  (Qfloor q <= Js.roundHalfEven q <= Qfloor q + 1)%Z.
Proof.
  unfold Js.roundHalfEven. cbv zeta.
  destruct (Qcompare (q - inject_Z (Qfloor q)) (1 # 2)); [| lia | lia].
  destruct (Z.even (Qfloor q)); lia.
Qed.

Lemma roundHalfEven_near q :
  inject_Z (Js.roundHalfEven q) - (1 # 2) <= q /\
  q <= inject_Z (Js.roundHalfEven q) + (1 # 2).
Proof.
  pose proof (Qfloor_le q) as H1. pose proof (Qlt_floor q) as H2.
  rewrite inject_Z_plus in H2. change (inject_Z 1) with 1 in H2.
  unfold Js.roundHalfEven. cbv zeta.
  destruct (Qcompare (q - inject_Z (Qfloor q)) (1 # 2)) eqn:E.
  - apply Qeq_alt in E.
    destruct (Z.even (Qfloor q)); rewrite ?inject_Z_plus;
      change (inject_Z 1) with 1; split; lra.
  - apply Qlt_alt in E. split; lra.
  - apply Qgt_alt in E. rewrite inject_Z_plus. change (inject_Z 1) with 1.
    split; lra.
Qed.

Lemma roundHalfEven_comp q1 q2 :
  q1 == q2 -> Js.roundHalfEven q1 = Js.roundHalfEven q2.
Proof.
  intros E. unfold Js.roundHalfEven. cbv zeta.
  assert (Hf : Qfloor q1 = Qfloor q2) by (rewrite E; reflexivity).
  rewrite Hf.
  assert (Hc : Qcompare (q1 - inject_Z (Qfloor q2)) (1 # 2)
               = Qcompare (q2 - inject_Z (Qfloor q2)) (1 # 2)).
  { rewrite E. reflexivity. }
  rewrite Hc. reflexivity.
Qed.

Lemma roundHalfEven_Z (n : Z) : Js.roundHalfEven (inject_Z n) = n.
Proof.
  unfold Js.roundHalfEven. cbv zeta. rewrite Qfloor_Z.
  assert (E : Qcompare (inject_Z n - inject_Z n) (1 # 2) = Lt).
  { apply Qlt_alt. assert (H : inject_Z n - inject_Z n == 0) by ring.
    rewrite H. reflexivity. }
  rewrite E. reflexivity.
Qed.

Lemma roundHalfEven_mono q1 q2 :
  q1 <= q2 -> (Js.roundHalfEven q1 <= Js.roundHalfEven q2)%Z.
Proof.
  intros Hle.
  pose proof (Qfloor_resp_le _ _ Hle) as Hf.
  pose proof (roundHalfEven_range q1) as R1.
  pose proof (roundHalfEven_range q2) as R2.
  destruct (Z.eq_dec (Qfloor q1) (Qfloor q2)) as [E | E]; [| lia].
  unfold Js.roundHalfEven. cbv zeta. rewrite E.
  destruct (Qcompare_spec (q1 - inject_Z (Qfloor q2)) (1 # 2)) as [E1 | E1 | E1];
    destruct (Qcompare_spec (q2 - inject_Z (Qfloor q2)) (1 # 2)) as [E2 | E2 | E2];
    try (destruct (Z.even (Qfloor q2)); lia); try lia; exfalso; lra.
Qed.

Lemma ulp_pos y : (0 < Js.ulp y)%Z.
Proof. unfold Js.ulp. apply Z.pow_pos_nonneg; lia. Qed.

Lemma ulp_mono y1 y2 :
  y1 <= y2 ->
  (Z.max (Z.log2 (Qfloor y1) - 52) 0 <= Z.max (Z.log2 (Qfloor y2) - 52) 0)%Z.
Proof.
  intros H. apply Qfloor_resp_le in H. apply Z.log2_le_mono in H. lia.
Qed.

(** Below 2^53 spacings. *)
Lemma scaled_upper y : 0 <= y -> y < inject_Z (Js.ulp y * 2 ^ 53).
Proof.
  intros Hy. unfold Js.ulp.
  set (N := Qfloor y).
  assert (HN : (0 <= N)%Z).
  { subst N. change 0%Z with (Qfloor 0). apply Qfloor_resp_le. exact Hy. }
  pose proof (Qlt_floor y) as Hlt. fold N in Hlt.
  apply Qlt_le_trans with (inject_Z (N + 1)); [exact Hlt |].
  rewrite <- Zle_Qle. rewrite <- Z.pow_add_r by lia.
  destruct (Z.eq_dec N 0%Z) as [E0 | Hne].
  - rewrite E0. cbn [Z.log2]. replace (Z.max (0 - 52) 0 + 53)%Z with 53%Z by lia. lia.
  - pose proof (Z.log2_spec N ltac:(lia)) as [_ Hs].
    apply Z.le_trans with (2 ^ Z.succ (Z.log2 N))%Z; [lia |].
    apply Z.pow_le_mono_r; lia.
Qed.

(** From the second binade on, at least 2^52 spacings. *)
Lemma scaled_lower y :
  (0 < Z.max (Z.log2 (Qfloor y) - 52) 0)%Z -> inject_Z (Js.ulp y * 2 ^ 52) <= y.
Proof.
  intros Hp. unfold Js.ulp.
  set (N := Qfloor y) in *.
  assert (HN : (0 < N)%Z).
  { destruct (Z_lt_le_dec 0 N); [assumption |].
    rewrite (Z.log2_nonpos N) in Hp by lia. lia. }
  apply Qle_trans with (inject_Z N); [| apply Qfloor_le].
  rewrite <- Zle_Qle. rewrite <- Z.pow_add_r by lia.
  pose proof (Z.log2_spec N HN) as [Hs _].
  replace (Z.max (Z.log2 N - 52) 0 + 52)%Z with (Z.log2 N) by lia. exact Hs.
Qed.

Lemma roundScaled_upper y : 0 <= y -> (Js.roundScaled y <= Js.ulp y * 2 ^ 53)%Z.
Proof.
  intros Hy. unfold Js.roundScaled.
  pose proof (ulp_pos y) as Hu. pose proof (scaled_upper y Hy) as Hup.
  rewrite (Z.mul_comm (Js.ulp y)).
  apply Z.mul_le_mono_nonneg_r; [lia |].
  rewrite <- (roundHalfEven_Z (2 ^ 53)). apply roundHalfEven_mono.
  apply Qle_shift_div_r.
  - change 0 with (inject_Z 0). rewrite <- Zlt_Qlt. exact Hu.
  - rewrite <- inject_Z_mult. rewrite Z.mul_comm. apply Qlt_le_weak. exact Hup.
Qed.

Lemma roundScaled_lower y :
  (0 < Z.max (Z.log2 (Qfloor y) - 52) 0)%Z -> (Js.ulp y * 2 ^ 52 <= Js.roundScaled y)%Z.
Proof.
  intros Hp. unfold Js.roundScaled.
  pose proof (ulp_pos y) as Hu. pose proof (scaled_lower y Hp) as Hlow.
  rewrite (Z.mul_comm (Js.ulp y)).
  apply Z.mul_le_mono_nonneg_r; [lia |].
  rewrite <- (roundHalfEven_Z (2 ^ 52)) at 1. apply roundHalfEven_mono.
  apply Qle_shift_div_l.
  - change 0 with (inject_Z 0). rewrite <- Zlt_Qlt. exact Hu.
  - rewrite <- inject_Z_mult. rewrite Z.mul_comm. exact Hlow.
Qed.

Lemma roundScaled_mono y1 y2 :
  0 <= y1 -> y1 <= y2 -> (Js.roundScaled y1 <= Js.roundScaled y2)%Z.
Proof.
  intros H0 Hle.
  pose proof (ulp_mono y1 y2 Hle) as Hp.
  destruct (Z.eq_dec (Z.max (Z.log2 (Qfloor y1) - 52) 0)
              (Z.max (Z.log2 (Qfloor y2) - 52) 0)) as [E | E].
  - unfold Js.roundScaled.
    assert (Hu : Js.ulp y1 = Js.ulp y2) by (unfold Js.ulp; rewrite E; reflexivity).
    rewrite Hu. pose proof (ulp_pos y2) as Hpos.
    apply Z.mul_le_mono_nonneg_r; [lia |].
    apply roundHalfEven_mono.
    unfold Qdiv. apply Qmult_le_compat_r; [exact Hle |].
    apply Qlt_le_weak, Qinv_lt_0_compat.
    change 0 with (inject_Z 0). rewrite <- Zlt_Qlt. exact Hpos.
  - pose proof (roundScaled_upper y1 H0) as H1.
    pose proof (roundScaled_lower y2 ltac:(lia)) as H2.
    apply Z.le_trans with (Js.ulp y1 * 2 ^ 53)%Z; [exact H1 |].
    apply Z.le_trans with (Js.ulp y2 * 2 ^ 52)%Z; [| exact H2].
    unfold Js.ulp. rewrite <- !Z.pow_add_r by lia.
    apply Z.pow_le_mono_r; lia.
Qed.

Lemma roundScaled_nonneg y : 0 <= y -> (0 <= Js.roundScaled y)%Z.
Proof.
  intros Hy. unfold Js.roundScaled. pose proof (ulp_pos y) as Hu.
  apply Z.mul_nonneg_nonneg; [| lia].
  rewrite <- (roundHalfEven_Z 0). apply roundHalfEven_mono.
  apply Qle_shift_div_l.
  - change 0 with (inject_Z 0) at 1. rewrite <- Zlt_Qlt. exact Hu.
  - change (inject_Z 0) with 0. lra.
Qed.

Lemma roundScaled_comp y1 y2 : y1 == y2 -> Js.roundScaled y1 = Js.roundScaled y2.
Proof.
  intros E. unfold Js.roundScaled, Js.ulp.
  assert (Hf : Qfloor y1 = Qfloor y2) by (rewrite E; reflexivity).
  rewrite Hf. f_equal. apply roundHalfEven_comp. rewrite E. reflexivity.
Qed.

Lemma scale_pos : 0 < inject_Z Js.scale.
Proof. reflexivity. Qed.

Lemma double_pos x :
  0 < x -> Js.double x = inject_Z (Js.roundScaled (x * inject_Z Js.scale)) / inject_Z Js.scale.
Proof.
  intros H. unfold Js.double.
  assert (E : Qcompare x 0 = Gt) by (apply Qgt_alt; exact H).
  rewrite E. reflexivity.
Qed.

Lemma double_neg x :
  x < 0 ->
  Js.double x = - (inject_Z (Js.roundScaled (- x * inject_Z Js.scale)) / inject_Z Js.scale).
Proof.
  intros H. unfold Js.double.
  assert (E : Qcompare x 0 = Lt) by (apply Qlt_alt; exact H).
  rewrite E. reflexivity.
Qed.

Lemma double_zero x : x == 0 -> Js.double x = 0.
Proof.
  intros H. unfold Js.double.
  assert (E : Qcompare x 0 = Eq) by (apply Qeq_alt; exact H).
  rewrite E. reflexivity.
Qed.

Lemma double_nonneg x : 0 <= x -> 0 <= Js.double x.
Proof.
  intros H. destruct (Qlt_le_dec 0 x) as [Hpos | Hle].
  - rewrite (double_pos x Hpos).
    apply Qle_shift_div_l; [exact scale_pos |]. rewrite Qmult_0_l.
    change 0 with (inject_Z 0). rewrite <- Zle_Qle.
    apply roundScaled_nonneg. apply Qmult_le_0_compat; [exact H |].
    apply Qlt_le_weak, scale_pos.
  - rewrite (double_zero x); [apply Qle_refl | lra].
Qed.

Lemma double_nonpos x : x <= 0 -> Js.double x <= 0.
Proof.
  intros H. destruct (Qlt_le_dec x 0) as [Hneg | Hle].
  - rewrite (double_neg x Hneg).
    assert (0 <= inject_Z (Js.roundScaled (- x * inject_Z Js.scale)) / inject_Z Js.scale).
    { apply Qle_shift_div_l; [exact scale_pos |]. rewrite Qmult_0_l.
      change 0 with (inject_Z 0). rewrite <- Zle_Qle.
      apply roundScaled_nonneg. apply Qmult_le_0_compat; [lra |].
      apply Qlt_le_weak, scale_pos. }
    lra.
  - rewrite (double_zero x); [apply Qle_refl | lra].
Qed.

Lemma double_mono_pos x y : 0 < x -> x <= y -> Js.double x <= Js.double y.
Proof.
  intros Hx Hle. rewrite (double_pos x Hx), (double_pos y ltac:(lra)).
  unfold Qdiv. apply Qmult_le_compat_r.
  - rewrite <- Zle_Qle. apply roundScaled_mono.
    + apply Qmult_le_0_compat; [lra | apply Qlt_le_weak, scale_pos].
    + apply Qmult_le_compat_r; [exact Hle | apply Qlt_le_weak, scale_pos].
  - apply Qlt_le_weak, Qinv_lt_0_compat, scale_pos.
Qed.

(** Rounding never reverses an order. *)
Lemma double_mono x y : x <= y -> Js.double x <= Js.double y.
Proof.
  intros Hle.
  destruct (Qlt_le_dec 0 x) as [Hx | Hx].
  - apply double_mono_pos; assumption.
  - destruct (Qlt_le_dec 0 y) as [Hy | Hy].
    + apply Qle_trans with 0; [apply double_nonpos; exact Hx |].
      apply double_nonneg. lra.
    + destruct (Qlt_le_dec y 0) as [Hy' | Hy'].
      * rewrite (double_neg x ltac:(lra)), (double_neg y Hy').
        pose proof (double_mono_pos (- y) (- x) ltac:(lra) ltac:(lra)) as H.
        rewrite (double_pos (- y) ltac:(lra)), (double_pos (- x) ltac:(lra)) in H.
        lra.
      * rewrite (double_zero y) by lra. apply double_nonpos. exact Hx.
Qed.

Lemma double_comp x y : x == y -> Js.double x == Js.double y.
Proof.
  intros E.
  destruct (Qlt_le_dec 0 x) as [Hx | Hx].
  - rewrite (double_pos x Hx), (double_pos y ltac:(lra)).
    rewrite (roundScaled_comp (x * inject_Z Js.scale) (y * inject_Z Js.scale));
      [reflexivity | rewrite E; reflexivity].
  - destruct (Qlt_le_dec x 0) as [Hx' | Hx'].
    + rewrite (double_neg x Hx'), (double_neg y ltac:(lra)).
      rewrite (roundScaled_comp (- x * inject_Z Js.scale) (- y * inject_Z Js.scale));
        [reflexivity | rewrite E; reflexivity].
    + rewrite (double_zero x), (double_zero y) by lra. reflexivity.
Qed.

Lemma double_opp x : Js.double (- x) == - Js.double x.
Proof.
  destruct (Qlt_le_dec 0 x) as [Hx | Hx].
  - rewrite (double_neg (- x) ltac:(lra)), (double_pos x Hx).
    rewrite (roundScaled_comp (- - x * inject_Z Js.scale) (x * inject_Z Js.scale));
      [reflexivity | ring].
  - destruct (Qlt_le_dec x 0) as [Hx' | Hx'].
    + rewrite (double_pos (- x) ltac:(lra)), (double_neg x Hx'). ring.
    + rewrite (double_zero x), (double_zero (- x)) by lra. reflexivity.
Qed.

(** A multiple of a power of two with at most 53 significant bits is
    a binary64 number. *)
Lemma roundScaled_fixed (m p : Z) :
  (0 < m <= 2 ^ 53)%Z -> (0 <= p)%Z ->
  Js.roundScaled (inject_Z (m * 2 ^ p)) = (m * 2 ^ p)%Z.
Proof.
  intros Hm Hp. unfold Js.roundScaled, Js.ulp. rewrite Qfloor_Z.
  set (M := (m * 2 ^ p)%Z).
  assert (Hlog : Z.log2 M = (p + Z.log2 m)%Z).
  { subst M. apply Z.log2_mul_pow2; lia. }
  set (p' := Z.max (Z.log2 M - 52) 0).
  assert (Hk : exists k, M = (k * 2 ^ p')%Z).
  { destruct (Z.eq_dec m (2 ^ 53)%Z) as [E | E].
    - exists (2 ^ 52)%Z. subst M p'. rewrite Hlog, E.
      rewrite Z.log2_pow2 by lia.
      replace (Z.max (p + 53 - 52) 0) with (p + 1)%Z by lia.
      rewrite <- !Z.pow_add_r by lia. f_equal. lia.
    - assert (Z.log2 m < 53)%Z as Hl.
      { apply Z.log2_lt_pow2; lia. }
      exists (m * 2 ^ (p - p'))%Z. subst M.
      rewrite <- Z.mul_assoc, <- Z.pow_add_r by (subst p'; lia).
      f_equal. f_equal. subst p'. lia. }
  destruct Hk as [k Hk].
  assert (Hpos : (0 < 2 ^ p')%Z) by (apply Z.pow_pos_nonneg; subst p'; lia).
  assert (Hq : inject_Z M / inject_Z (2 ^ p') == inject_Z k).
  { rewrite Hk, inject_Z_mult. field.
    intros E. change 0 with (inject_Z 0) in E.
    apply (proj1 (inject_Z_injective _ _)) in E. lia. }
  rewrite (roundHalfEven_comp _ _ Hq), roundHalfEven_Z. symmetry. exact Hk.
Qed.

Lemma roundScaled_idem y :
  0 <= y -> Js.roundScaled (inject_Z (Js.roundScaled y)) = Js.roundScaled y.
Proof.
  intros Hy.
  pose proof (roundScaled_nonneg y Hy) as H0.
  destruct (Z.eq_dec (Js.roundScaled y) 0%Z) as [E | E].
  - rewrite E. reflexivity.
  - pose proof (roundScaled_upper y Hy) as Hup.
    unfold Js.roundScaled in *. unfold Js.ulp in *.
    set (p := Z.max (Z.log2 (Qfloor y) - 52) 0) in *.
    set (m := Js.roundHalfEven (y / inject_Z (2 ^ p))) in *.
    assert (Hpos : (0 < 2 ^ p)%Z) by (apply Z.pow_pos_nonneg; subst p; lia).
    assert (Hm : (0 < m <= 2 ^ 53)%Z).
    { split.
      - destruct (Z_lt_le_dec 0 m); [assumption |]. exfalso. apply E. nia.
      - apply Z.mul_le_mono_pos_r with (2 ^ p)%Z; [exact Hpos |].
        rewrite (Z.mul_comm (2 ^ 53)). exact Hup. }
    apply (roundScaled_fixed m p Hm). subst p. lia.
Qed.

(** The result of a rounding is a binary64 number. *)
Lemma double_idem x : Js.double (Js.double x) == Js.double x.
Proof.
  assert (Hpos : forall z, 0 < z -> Js.double (Js.double z) == Js.double z).
  { intros z Hz.
    pose proof (roundScaled_nonneg (z * inject_Z Js.scale)) as H0.
    assert (Hy : 0 <= z * inject_Z Js.scale).
    { apply Qmult_le_0_compat; [lra | apply Qlt_le_weak, scale_pos]. }
    specialize (H0 Hy).
    rewrite (double_pos z Hz).
    set (M := Js.roundScaled (z * inject_Z Js.scale)) in *.
    destruct (Z.eq_dec M 0%Z) as [E | E].
    - rewrite E. rewrite (double_zero (inject_Z 0 / inject_Z Js.scale));
        [reflexivity | reflexivity].
    - assert (Hd : 0 < inject_Z M / inject_Z Js.scale).
      { apply Qlt_shift_div_l; [exact scale_pos |]. rewrite Qmult_0_l.
        change 0 with (inject_Z 0). rewrite <- Zlt_Qlt. lia. }
      rewrite (double_pos _ Hd).
      rewrite (roundScaled_comp _ (inject_Z M)).
      + subst M. rewrite roundScaled_idem by exact Hy. reflexivity.
      + field. intros E'. pose proof scale_pos as Hs. rewrite E' in Hs.
        discriminate Hs. }
  destruct (Qlt_le_dec 0 x) as [Hx | Hx]; [apply Hpos; exact Hx |].
  destruct (Qlt_le_dec x 0) as [Hx' | Hx'].
  - assert (Hn : Js.double x == - Js.double (- x)).
    { rewrite double_opp. ring. }
    rewrite (double_comp _ _ Hn), double_opp, (Hpos (- x) ltac:(lra)).
    rewrite Hn. reflexivity.
  - rewrite (double_zero x) by lra. reflexivity.
Qed.

(** Rounding moves a number by at most half a spacing. *)
Lemma double_error x (k : Z) :
  (0 <= k)%Z ->
  Qabs x * inject_Z Js.scale <= inject_Z (2 ^ (k + 53)) ->
  Qabs (Js.double x - x) * inject_Z Js.scale <= inject_Z (2 ^ k).
Proof.
  intros Hk.
  assert (Hpos : forall z, 0 < z ->
             z * inject_Z Js.scale <= inject_Z (2 ^ (k + 53)) ->
             Qabs (Js.double z - z) * inject_Z Js.scale <= inject_Z (2 ^ k)).
  { intros z Hz Hb. rewrite (double_pos z Hz).
    set (y := z * inject_Z Js.scale) in *.
    assert (Hy : 0 <= y).
    { subst y. apply Qmult_le_0_compat; [lra | apply Qlt_le_weak, scale_pos]. }
    unfold Js.roundScaled, Js.ulp.
    set (p := Z.max (Z.log2 (Qfloor y) - 52) 0).
    assert (Hp : (p <= k + 1)%Z).
    { subst p. assert (Z.log2 (Qfloor y) <= k + 53)%Z; [| lia].
      destruct (Z_lt_le_dec 0 (Qfloor y)) as [HN | HN].
      - rewrite <- (Z.log2_pow2 (k + 53)) by lia. apply Z.log2_le_mono.
        rewrite Zle_Qle. apply Qle_trans with y; [apply Qfloor_le | exact Hb].
      - rewrite Z.log2_nonpos by exact HN. lia. }
    assert (Hu : (0 < 2 ^ p)%Z) by (apply Z.pow_pos_nonneg; subst p; lia).
    assert (Hu' : 0 < inject_Z (2 ^ p)).
    { change 0 with (inject_Z 0). rewrite <- Zlt_Qlt. exact Hu. }
    pose proof (roundHalfEven_near (y / inject_Z (2 ^ p))) as [R1 R2].
    set (r := Js.roundHalfEven (y / inject_Z (2 ^ p))) in *.
    assert (Hyu : y == y / inject_Z (2 ^ p) * inject_Z (2 ^ p)).
    { field. intros E. rewrite E in Hu'. discriminate Hu'. }
    assert (Hle : inject_Z (2 ^ p) <= 2 * inject_Z (2 ^ k)).
    { assert (inject_Z (2 ^ p) <= inject_Z (2 ^ (k + 1))) as H.
      { rewrite <- Zle_Qle. apply Z.pow_le_mono_r; lia. }
      rewrite Z.pow_add_r, inject_Z_mult in H by lia.
      change (inject_Z (2 ^ 1)) with 2 in H. lra. }
    assert (Hs : ~ inject_Z Js.scale == 0).
    { intros E. pose proof scale_pos as Hs. rewrite E in Hs. discriminate Hs. }
    assert (Hd : (inject_Z (r * 2 ^ p) / inject_Z Js.scale - z) * inject_Z Js.scale
                 == inject_Z r * inject_Z (2 ^ p) - y).
    { subst y. rewrite inject_Z_mult. field. exact Hs. }
    assert (Habs : Qabs (inject_Z (r * 2 ^ p) / inject_Z Js.scale - z)
                   * inject_Z Js.scale
                   == Qabs (inject_Z r * inject_Z (2 ^ p) - y)).
    { rewrite <- Hd, Qabs_Qmult.
      rewrite (Qabs_pos (inject_Z Js.scale)) by (apply Qlt_le_weak, scale_pos).
      reflexivity. }
    rewrite Habs. apply Qabs_Qle_condition.
    set (q := y / inject_Z (2 ^ p)) in *.
    split; nra. }
  intros Hb.
  destruct (Qlt_le_dec 0 x) as [Hx | Hx].
  - apply Hpos; [exact Hx |]. rewrite Qabs_pos in Hb by lra. exact Hb.
  - destruct (Qlt_le_dec x 0) as [Hx' | Hx'].
    + assert (Hn : Js.double x - x == - (Js.double (- x) - - x)).
      { rewrite double_opp. ring. }
      rewrite Hn, Qabs_opp. apply Hpos; [lra |].
      rewrite Qabs_neg in Hb by lra. exact Hb.
    + rewrite (double_zero x) by lra.
      assert (E : 0 - x == 0) by lra. rewrite E. cbn [Qabs].
      rewrite Qmult_0_l. change 0 with (inject_Z 0). rewrite <- Zle_Qle.
      apply Z.pow_nonneg. lia.
Qed.

(** A positive binary64 number, in units of 2^-1074, is an integer of
    at most 53 significant bits times a power of two. *)
Lemma double_structure x :
  0 < x -> Js.double x == x ->
  exists m p : Z,
    (0 < m <= 2 ^ 53)%Z /\ (0 <= p)%Z /\
    x * inject_Z Js.scale == inject_Z (m * 2 ^ p).
Proof.
  intros Hx Hd. rewrite (double_pos x Hx) in Hd.
  pose proof scale_pos as Hs.
  assert (Hy : 0 <= x * inject_Z Js.scale).
  { apply Qmult_le_0_compat; [lra | apply Qlt_le_weak, Hs]. }
  pose proof (roundScaled_upper _ Hy) as Hup.
  assert (HM : x * inject_Z Js.scale
               == inject_Z (Js.roundScaled (x * inject_Z Js.scale))).
  { rewrite <- Hd at 1. field. intros E. rewrite E in Hs. discriminate Hs. }
  assert (Hpos : (0 < Js.roundScaled (x * inject_Z Js.scale))%Z).
  { rewrite Zlt_Qlt, <- HM. change (inject_Z 0) with 0.
    apply Qmult_lt_0_compat; assumption. }
  unfold Js.roundScaled, Js.ulp in *.
  set (p := Z.max (Z.log2 (Qfloor (x * inject_Z Js.scale)) - 52) 0) in *.
  set (m := Js.roundHalfEven (x * inject_Z Js.scale / inject_Z (2 ^ p))) in *.
  assert (Hp : (0 < 2 ^ p)%Z) by (apply Z.pow_pos_nonneg; subst p; lia).
  exists m, p. split; [split |].
  - destruct (Z_lt_le_dec 0 m); [assumption | exfalso; nia].
  - apply Z.mul_le_mono_pos_r with (2 ^ p)%Z; [exact Hp |].
    rewrite (Z.mul_comm (2 ^ 53)). exact Hup.
  - split; [subst p; lia | exact HM].
Qed.

(** Doubling a binary64 number is exact. *)
Lemma double_plus_self x : Js.double x == x -> Js.double (x + x) == x + x.
Proof.
  assert (Hpos : forall z, 0 < z -> Js.double z == z -> Js.double (z + z) == z + z).
  { intros z Hz Hd.
    destruct (double_structure z Hz Hd) as (m & p & Hm & Hp & HM).
    pose proof scale_pos as Hs.
    rewrite (double_pos (z + z) ltac:(lra)).
    assert (E : (z + z) * inject_Z Js.scale == inject_Z (m * 2 ^ (p + 1))).
    { rewrite Z.pow_add_r, Z.mul_assoc, inject_Z_mult by lia.
      change (inject_Z (2 ^ 1)) with 2. rewrite <- HM. ring. }
    rewrite (roundScaled_comp _ _ E), (roundScaled_fixed m (p + 1) Hm ltac:(lia)).
    rewrite <- E. field. intros E'. rewrite E' in Hs. discriminate Hs. }
  intros Hd.
  destruct (Qlt_le_dec 0 x) as [Hx | Hx]; [apply Hpos; assumption |].
  destruct (Qlt_le_dec x 0) as [Hx' | Hx'].
  - assert (Hn : Js.double (- x) == - x) by (rewrite double_opp, Hd; reflexivity).
    pose proof (Hpos (- x) ltac:(lra) Hn) as H.
    assert (E : x + x == - (- x + - x)) by ring.
    rewrite (double_comp _ _ E), double_opp, H. ring.
  - rewrite (double_zero (x + x)) by lra. lra.
Qed.

(** ** Grade adjustment model: facts *)

Section GradeModel.

Lemma clampGradient_bounds g : -35 <= clampGradient g /\ clampGradient g <= 35.
Proof.
  unfold clampGradient, Js.Math_max, Js.Math_min. split.
  - apply Q.le_max_l.
  - apply Q.max_lub; [lra | apply Q.le_min_l].
Qed.

Lemma clampGradient_mono g1 g2 : g1 <= g2 -> clampGradient g1 <= clampGradient g2.
Proof.
  intros H. unfold clampGradient, Js.Math_max, Js.Math_min.
  apply Q.max_le_compat_l. apply Q.min_le_compat_l. exact H.
Qed.

Lemma clampGradient_id g : -35 <= g -> g <= 35 -> clampGradient g == g.
Proof.
  intros Hl Hu. unfold clampGradient, Js.Math_max, Js.Math_min.
  rewrite (Q.min_r 35 g Hu). apply Q.max_r. exact Hl.
Qed.

Lemma quadratic_mono x y : -35 <= x -> x <= y -> y <= 35 -> quadratic x <= quadratic y.
Proof. unfold quadratic. intros. nra. Qed.

End GradeModel.

(** C6.  For every gradient [g] the default model returns
    [max(0.3, 1 + g'*0.033 + g'^2*0.000233)], where [g'] is [g] clamped
    to [-35, 35]; nothing caps the value from above: the result is never
    below the polynomial. *)
Theorem calculateGradeAdjustment_formula :
  forall g : Q,
    let g' := Qmax (-35) (Qmin 35 g) in
    -35 <= g' <= 35 /\
    calculateGradeAdjustment g
      == Qmax (3 # 10) (1 + g' * (33 # 1000) + g' ^ 2 * (233 # 1000000)) /\
    1 + g' * (33 # 1000) + g' ^ 2 * (233 # 1000000) <= calculateGradeAdjustment g.
Proof.
  intros g g'.
  assert (Hb : -35 <= g' <= 35) by apply (clampGradient_bounds g).
  assert (E : calculateGradeAdjustment g
              == Qmax (3 # 10) (1 + g' * (33 # 1000) + g' ^ 2 * (233 # 1000000))).
  { unfold calculateGradeAdjustment, clampGradient, Js.Math_max, Js.Math_min.
    fold g'. apply Q.max_compat; [reflexivity | ring]. }
  split; [exact Hb | split; [exact E |]].
  rewrite E. apply Q.le_max_r.
Qed.

(** Evaluated without rounding, the default model is monotonically
    non-decreasing in the gradient, and its value always lies in
    [0.3, 2.440425], the two bounds being the values at the clamp bounds
    -35 and 35. *)
Lemma exact_formula_monotone_bounded :
  (forall g1 g2 : Q,
      g1 <= g2 -> calculateGradeAdjustment g1 <= calculateGradeAdjustment g2) /\
  (forall g : Q,
      (3 # 10) <= calculateGradeAdjustment g /\
      calculateGradeAdjustment g <= (2440425 # 1000000)) /\
  calculateGradeAdjustment (-35) == (3 # 10) /\
  calculateGradeAdjustment 35 == (2440425 # 1000000).
Proof.
  assert (M : forall g1 g2 : Q,
             g1 <= g2 -> calculateGradeAdjustment g1 <= calculateGradeAdjustment g2).
  { intros g1 g2 H. unfold calculateGradeAdjustment, Js.Math_max.
    apply Q.max_le_compat_l.
    pose proof (clampGradient_bounds g1) as [L1 _].
    pose proof (clampGradient_bounds g2) as [_ U2].
    pose proof (clampGradient_mono g1 g2 H) as Hc.
    apply (quadratic_mono _ _ L1 Hc U2). }
  assert (E35 : calculateGradeAdjustment 35 == (2440425 # 1000000)) by reflexivity.
  split; [exact M | split; [| split; [reflexivity | exact E35]]].
  intros g. split.
  - unfold calculateGradeAdjustment, Js.Math_max. apply Q.le_max_l.
  - unfold calculateGradeAdjustment, Js.Math_max.
    pose proof (clampGradient_bounds g) as [L U].
    apply Q.max_lub; [lra |].
    pose proof (quadratic_mono (clampGradient g) 35 L U) as Hq.
    unfold quadratic in Hq. lra.
Qed.

(** ** calculateGradeAdjustment in binary64 *)

Lemma double_within x (k : Z) (B e : Q) :
  (0 <= k)%Z ->
  B * inject_Z Js.scale == inject_Z (2 ^ (k + 53)) ->
  e * inject_Z Js.scale == inject_Z (2 ^ k) ->
  - B <= x -> x <= B ->
  x - e <= Js.double x /\ Js.double x <= x + e.
Proof.
  intros Hk HB He Hlo Hhi.
  pose proof scale_pos as Hs.
  assert (Habs : Qabs x * inject_Z Js.scale <= inject_Z (2 ^ (k + 53))).
  { rewrite <- HB. apply Qmult_le_compat_r; [| lra].
    apply Qabs_Qle_condition. split; lra. }
  pose proof (double_error x k Hk Habs) as Herr. rewrite <- He in Herr.
  assert (Hd : Qabs (Js.double x - x) <= e).
  { apply Qmult_le_r with (inject_Z Js.scale); [exact Hs | exact Herr]. }
  apply Qabs_Qle_condition in Hd. split; lra.
Qed.

Section GradeModel64.

Local Abbreviation k1 := (Js.double (33 # 1000)).
Local Abbreviation k2 := (Js.double (233 # 1000000)).

(** The sum before [Math.max], as a function of the clamped gradient. *)
Local Abbreviation adjustment c :=
  (Js.add (Js.add 1 (Js.mul c k1)) (Js.mul (Js.mul c c) k2)).

Lemma k1_value : k1 == 1188950301625811 # 36028797018963968.
Proof. vm_compute. reflexivity. Qed.

Lemma k2_value : k2 == 8596182738348651 # 36893488147419103232.
Proof. vm_compute. reflexivity. Qed.

Lemma adjustment_mono_climb c1 c2 :
  0 <= c1 -> c1 <= c2 -> adjustment c1 <= adjustment c2.
Proof.
  intros H0 Hle. pose proof k1_value as E1. pose proof k2_value as E2.
  unfold Js.add, Js.mul.
  apply double_mono. apply Qplus_le_compat.
  - apply double_mono. apply Qplus_le_compat; [apply Qle_refl |].
    apply double_mono. nra.
  - apply double_mono.
    assert (Hsq : Js.double (c1 * c1) <= Js.double (c2 * c2)).
    { apply double_mono. nra. }
    assert (H1 : 0 <= Js.double (c1 * c1)).
    { apply double_nonneg. nra. }
    nra.
Qed.

Lemma adjustment_below_35 c :
  -35 <= c -> c <= 35 -> adjustment c <= adjustment 35.
Proof.
  intros Hlo Hhi. pose proof k1_value as E1. pose proof k2_value as E2.
  unfold Js.add, Js.mul.
  apply double_mono. apply Qplus_le_compat.
  - apply double_mono. apply Qplus_le_compat; [apply Qle_refl |].
    apply double_mono. nra.
  - apply double_mono.
    assert (Hsq : Js.double (c * c) <= Js.double (35 * 35)).
    { apply double_mono. nra. }
    assert (H1 : 0 <= Js.double (c * c)).
    { apply double_nonneg. nra. }
    nra.
Qed.

(** The rounded sum is within 2^-49 of the exact polynomial with the
    same coefficients. *)
Lemma adjustment_near c :
  -35 <= c -> c <= 35 ->
  Qabs (adjustment c - (1 + c * k1 + c * c * k2)) <= (1 # 562949953421312).
Proof.
  intros Hlo Hhi. pose proof k1_value as E1. pose proof k2_value as E2.
  unfold Js.add, Js.mul.
  destruct (double_within (c * k1) 1022 2 (1 # 4503599627370496))
    as [A1 A2]; [lia | reflexivity | reflexivity | nra | nra |].
  set (t1 := Js.double (c * k1)) in *.
  destruct (double_within (1 + t1) 1023 4 (1 # 2251799813685248))
    as [B1 B2]; [lia | reflexivity | reflexivity | nra | nra |].
  set (t2 := Js.double (1 + t1)) in *.
  destruct (double_within (c * c) 1032 2048 (1 # 4398046511104))
    as [C1 C2]; [lia | reflexivity | reflexivity | nra | nra |].
  set (t3 := Js.double (c * c)) in *.
  destruct (double_within (t3 * k2) 1020 (1 # 2) (1 # 18014398509481984))
    as [D1 D2]; [lia | reflexivity | reflexivity | nra | nra |].
  set (t4 := Js.double (t3 * k2)) in *.
  destruct (double_within (t2 + t4) 1023 4 (1 # 2251799813685248))
    as [F1 F2]; [lia | reflexivity | reflexivity | nra | nra |].
  apply Qabs_Qle_condition. split; nra.
Qed.

Lemma polynomial_mono c1 c2 :
  -35 <= c1 -> c1 <= c2 -> c2 <= 35 ->
  1 + c1 * k1 + c1 * c1 * k2 <= 1 + c2 * k1 + c2 * c2 * k2.
Proof.
  intros Hlo Hle Hhi. pose proof k1_value as E1. pose proof k2_value as E2.
  assert (H : 0 <= (c2 - c1) * (k1 + (c1 + c2) * k2)).
  { apply Qmult_le_0_compat; [lra |]. nra. }
  nra.
Qed.

End GradeModel64.

Lemma Qmax_near a b x y e :
  Qabs (a - b) <= e -> Qabs (x - y) <= e -> Qabs (Qmax a x - Qmax b y) <= e.
Proof.
  intros Ha Hx. apply Qabs_Qle_condition in Ha. apply Qabs_Qle_condition in Hx.
  apply Qabs_Qle_condition.
  pose proof (Q.le_max_l a x). pose proof (Q.le_max_r a x).
  pose proof (Q.le_max_l b y). pose proof (Q.le_max_r b y).
  split.
  - assert (Qmax b y <= Qmax a x + e); [| lra].
    apply Q.max_lub; lra.
  - assert (Qmax a x <= Qmax b y + e); [| lra].
    apply Q.max_lub; lra.
Qed.

(** The binary64 value is within 2^-48 of the exact formula. *)
Lemma calculateGradeAdjustment_near g :
  Qabs (Binary64.calculateGradeAdjustment g - calculateGradeAdjustment g)
  <= (1 # 281474976710656).
Proof.
  unfold Binary64.calculateGradeAdjustment, calculateGradeAdjustment, Js.Math_max.
  cbv zeta. fold (Js.Math_max (-35) (Js.Math_min 35 g)). fold (clampGradient g).
  pose proof (clampGradient_bounds g) as [Hlo Hhi].
  set (c := clampGradient g) in *.
  apply Qmax_near.
  - vm_compute. discriminate.
  - pose proof (adjustment_near c Hlo Hhi) as Hn.
    apply Qabs_Qle_condition in Hn. apply Qabs_Qle_condition.
    pose proof k1_value as E1. pose proof k2_value as E2.
    split; nra.
Qed.

(** C9, as the code has it.  Over the reals the formula is
    non-decreasing in the gradient and lies in [0.3, 2.440425].  The
    value the code returns, computed in binary64, is within 2^-48 of
    it; it lies between the binary64 number written 0.3, which it
    takes at -35, and 2.4404250000000003, which it takes at 35; it is
    non-decreasing over the climbs, and over all gradients it is
    non-decreasing up to the rounding error 2^-47. *)
Theorem calculateGradeAdjustment_monotone_bounded_binary64 :
  forall g1 g2 : Q,
    g1 <= g2 ->
    (calculateGradeAdjustment g1 <= calculateGradeAdjustment g2 /\
     (3 # 10) <= calculateGradeAdjustment g1 /\
     calculateGradeAdjustment g1 <= (2440425 # 1000000)) /\
    Qabs (Binary64.calculateGradeAdjustment g1 - calculateGradeAdjustment g1)
    <= (1 # 281474976710656) /\
    Js.double (3 # 10) <= Binary64.calculateGradeAdjustment g1 /\
    Binary64.calculateGradeAdjustment g1 <= Binary64.calculateGradeAdjustment 35 /\
    Binary64.calculateGradeAdjustment (-35) == Js.double (3 # 10) /\
    Js.double (3 # 10) == (5404319552844595 # 18014398509481984) /\
    Binary64.calculateGradeAdjustment 35 == (2747674280156411 # 1125899906842624) /\
    (0 <= g1 ->
     Binary64.calculateGradeAdjustment g1 <= Binary64.calculateGradeAdjustment g2) /\
    Binary64.calculateGradeAdjustment g1
    <= Binary64.calculateGradeAdjustment g2 + (1 # 140737488355328).
Proof.
  intros g1 g2 Hle.
  destruct exact_formula_monotone_bounded as (Hmono & Hbounds & _ & _).
  pose proof (Hbounds g1) as [Hb1 Hb2].
  split; [split; [apply Hmono; exact Hle | split; assumption] |].
  split; [apply calculateGradeAdjustment_near |].
  split; [unfold Binary64.calculateGradeAdjustment, Js.Math_max; apply Q.le_max_l |].
  split.
  { unfold Binary64.calculateGradeAdjustment, Js.Math_max. cbv zeta.
    fold (Js.Math_max (-35) (Js.Math_min 35 g1)). fold (clampGradient g1).
    pose proof (clampGradient_bounds g1) as [Hlo Hhi].
    assert (E35 : Qmax (-35) (Js.Math_min 35 35) == 35) by reflexivity.
    apply Q.max_le_compat_l.
    apply Qle_trans with
      (Js.add (Js.add 1 (Js.mul 35 (Js.double (33 # 1000))))
         (Js.mul (Js.mul 35 35) (Js.double (233 # 1000000)))).
    - apply adjustment_below_35; assumption.
    - vm_compute. discriminate. }
  split; [vm_compute; reflexivity |].
  split; [vm_compute; reflexivity |].
  split; [vm_compute; reflexivity |].
  split.
  { intros H0. unfold Binary64.calculateGradeAdjustment, Js.Math_max. cbv zeta.
    fold (Js.Math_max (-35) (Js.Math_min 35 g1)). fold (clampGradient g1).
    fold (Js.Math_max (-35) (Js.Math_min 35 g2)). fold (clampGradient g2).
    apply Q.max_le_compat_l. apply adjustment_mono_climb.
    - pose proof (clampGradient_mono 0 g1 H0) as H.
      assert (E : clampGradient 0 == 0) by reflexivity. lra.
    - apply clampGradient_mono. exact Hle. }
  pose proof (calculateGradeAdjustment_near g1) as N1.
  pose proof (calculateGradeAdjustment_near g2) as N2.
  apply Qabs_Qle_condition in N1. apply Qabs_Qle_condition in N2.
  pose proof (Hmono g1 g2 Hle). lra.
Qed.

Lemma calculateGradeAdjustment_monotone_bounded_binary64_witness :
  -10 <= 20 /\
  Binary64.calculateGradeAdjustment (-10)
  <= Binary64.calculateGradeAdjustment 20 + (1 # 140737488355328).
Proof.
  assert (H : -10 <= 20) by (vm_compute; discriminate).
  split; [exact H |].
  apply (calculateGradeAdjustment_monotone_bounded_binary64 (-10) 20 H).
Defined.

(** C9 as stated fails in binary64: between two neighbouring numbers
    near -15.989 the returned value decreases, and at 35 it is
    2.4404250000000003, above 2.440425. *)
Lemma calculateGradeAdjustment_rounding_breaks_claim :
  let g1 := - (4500503402626679 # 281474976710656) in
  let g2 := - (9001006805253357 # 562949953421312) in
  Js.double g1 == g1 /\ Js.double g2 == g2 /\ g1 < g2 /\
  Binary64.calculateGradeAdjustment g2 < Binary64.calculateGradeAdjustment g1 /\
  (2440425 # 1000000) < Binary64.calculateGradeAdjustment 35.
Proof. vm_compute. repeat split. Qed.

(** ** The binning engine: facts *)

Lemma Qlt_bool_iff a b : Js.Qlt_bool a b = true <-> a < b.
Proof.
  unfold Js.Qlt_bool. rewrite negb_true_iff. split.
  - intros H. apply Qnot_le_lt. intros Hle.
    apply Qle_bool_iff in Hle. congruence.
  - intros H. destruct (Qle_bool b a) eqn:E; [| reflexivity].
    apply Qle_bool_iff in E. apply Qlt_not_le in H. contradiction.
Qed.

Lemma sumQ_snoc l x : sumQ (l ++ [x]) = sumQ l + x.
Proof. unfold sumQ. rewrite fold_left_app. reflexivity. Qed.

Lemma chained_snoc start bs mid b :
  chained start bs mid -> startIdx b = mid -> (mid < endIdx b)%nat ->
  chained start (bs ++ [b]) (endIdx b).
Proof.
  revert start. induction bs as [| x bs IH]; simpl; intros start H Hs Hlt.
  - subst. auto.
  - destruct H as (H1 & H2 & H3). auto.
Qed.

Section EngineFacts.

Variable haversine : Q -> Q -> Q -> Q -> Q.
Variable rev : Revision.
Variable points : list Point.
Variable binLength : Q.
Variable polyCoeffs : option (list Q).
Variable newAdjustedVelocity : option Q.

Local Abbreviation upTo := (scanUpTo haversine rev points binLength polyCoeffs
                          newAdjustedVelocity).
Local Abbreviation plen := (pathLength haversine points).
Local Abbreviation build adj := (buildBin adj points polyCoeffs newAdjustedVelocity).

Lemma scanUpTo_S k :
  upTo (S k) = scanStep haversine rev points binLength polyCoeffs
                 newAdjustedVelocity (upTo k) (S k).
Proof. unfold scanUpTo. rewrite seq_S, fold_left_app. reflexivity. Qed.

Lemma scan_is_scanUpTo :
  scan haversine rev points binLength polyCoeffs newAdjustedVelocity
  = upTo (List.length points - 1).
Proof. reflexivity. Qed.

Lemma pathLength_same a : plen a a = 0.
Proof. unfold pathLength. rewrite Nat.sub_diag. reflexivity. Qed.

Lemma pathLength_S a k : (a <= k)%nat -> plen a (S k) = plen a k + segDist haversine points (S k).
Proof.
  intros H. unfold pathLength.
  replace (S k - a)%nat with (S (k - a)) by lia.
  rewrite seq_S, map_app. cbn [map]. rewrite sumQ_snoc.
  replace (S a + (k - a))%nat with (S k) by lia. reflexivity.
Qed.

(** What the scan maintains: the closed bins lead from 0 to
    [lastBinIdx], [cumDist] is the length of the path walked since,
    and each closed bin is [buildBin] of its two indices and of the
    path between them, which is at least [binLength] long. *)
Lemma scan_invariant k :
  let st := upTo k in
  chained 0 (bins st) (lastBinIdx st) /\
  (lastBinIdx st <= k)%nat /\
  cumDist st = plen (lastBinIdx st) k /\
  Forall (fun b => exists s e,
              (s < e)%nat /\ (e <= k)%nat /\ binLength <= plen s e /\
              b = build (scanAdjFactor rev) s e (plen s e)) (bins st).
Proof.
  induction k as [| k IH].
  - simpl. repeat split; auto.
  - destruct IH as (Hc & Hle & Hd & Hall).
    rewrite scanUpTo_S. unfold scanStep.
    rewrite Hd, <- (pathLength_S _ _ Hle).
    destruct (Qle_bool binLength (plen (lastBinIdx (upTo k)) (S k))) eqn:E; simpl.
    + repeat split.
      * apply (chained_snoc 0 _ (lastBinIdx (upTo k))); simpl; auto. lia.
      * lia.
      * symmetry. apply pathLength_same.
      * apply List.Forall_app. split.
        -- eapply List.Forall_impl; [| exact Hall].
           intros b (s & e & H1 & H2 & H3 & H4). exists s, e. repeat split; auto.
        -- constructor; [| constructor].
           exists (lastBinIdx (upTo k)), (S k).
           repeat split; [lia | lia | apply Qle_bool_iff; exact E].
    + repeat split; auto.
      eapply List.Forall_impl; [| exact Hall].
      intros b (s & e & H1 & H2 & H3 & H4). exists s, e. repeat split; auto.
Qed.

(** Every bin of the result is [buildBin] of two indices [s < e] of
    the sequence and of the path length between them; the adjustment
    function is the scan's, or the final partial bin's. *)
Lemma getAnalysisBins_built b :
  In b (getAnalysisBins haversine rev points binLength polyCoeffs newAdjustedVelocity) ->
  exists s e,
    (s < e)%nat /\ (e <= List.length points - 1)%nat /\
    (b = build (scanAdjFactor rev) s e (plen s e) \/
     b = build quarticAdjFactor s e (plen s e)).
Proof.
  unfold getAnalysisBins.
  destruct (Nat.ltb (List.length points) 2); [intros [] |].
  rewrite scan_is_scanUpTo.
  destruct (scan_invariant (List.length points - 1)%nat) as (Hc & Hle & Hd & Hall).
  assert (Hscan : forall b0, In b0 (bins (upTo (List.length points - 1)%nat)) ->
            exists s e, (s < e)%nat /\ (e <= List.length points - 1)%nat /\
              (b0 = build (scanAdjFactor rev) s e (plen s e) \/
               b0 = build quarticAdjFactor s e (plen s e))).
  { intros b0 Hb0. rewrite List.Forall_forall in Hall.
    destruct (Hall b0 Hb0) as (s & e & H1 & H2 & _ & H4).
    exists s, e. auto. }
  destruct (Nat.ltb (lastBinIdx (upTo (List.length points - 1)%nat))
              (List.length points - 1)%nat) eqn:E1; simpl;
    [destruct (Js.Qlt_bool 0 (cumDist (upTo (List.length points - 1)%nat))) eqn:E2 |];
    simpl; intros Hin; auto.
  apply in_app_or in Hin. destruct Hin as [Hin | [<- | []]]; auto.
  exists (lastBinIdx (upTo (List.length points - 1)%nat)), (List.length points - 1)%nat.
  apply Nat.ltb_lt in E1. rewrite Hd. auto.
Qed.

(** The index structure of the result. *)
Lemma getAnalysisBins_chained :
  (2 <= List.length points)%nat ->
  exists stop,
    chained 0 (getAnalysisBins haversine rev points binLength polyCoeffs
                 newAdjustedVelocity) stop /\
    (stop <= List.length points - 1)%nat /\
    (stop = (List.length points - 1)%nat \/
     ~ 0 < plen stop (List.length points - 1)%nat).
Proof.
  intros Hn. unfold getAnalysisBins.
  destruct (Nat.ltb (List.length points) 2) eqn:E0;
    [apply Nat.ltb_lt in E0; lia |].
  rewrite scan_is_scanUpTo.
  destruct (scan_invariant (List.length points - 1)%nat) as (Hc & Hle & Hd & _).
  destruct (Nat.ltb (lastBinIdx (upTo (List.length points - 1)%nat))
              (List.length points - 1)%nat) eqn:E1; simpl.
  - apply Nat.ltb_lt in E1.
    destruct (Js.Qlt_bool 0 (cumDist (upTo (List.length points - 1)%nat))) eqn:E2.
    + exists (List.length points - 1)%nat. split; [| split; [lia | left; reflexivity]].
      apply (chained_snoc 0 _ (lastBinIdx (upTo (List.length points - 1)%nat))
               (build quarticAdjFactor (lastBinIdx (upTo (List.length points - 1)%nat))
                  (List.length points - 1)%nat
                  (cumDist (upTo (List.length points - 1)%nat)))); auto.
    + exists (lastBinIdx (upTo (List.length points - 1)%nat)).
      split; [exact Hc | split; [lia | right]].
      rewrite <- Hd. intros H. apply Qlt_bool_iff in H. congruence.
  - apply Nat.ltb_ge in E1.
    exists (lastBinIdx (upTo (List.length points - 1)%nat)).
    split; [exact Hc | split; [lia | left; lia]].
Qed.

End EngineFacts.

Lemma chained_first start bs stop b :
  chained start bs stop -> nth_error bs 0 = Some b -> startIdx b = start.
Proof. destruct bs; simpl; [discriminate |]. intros (H & _) [= ->]. exact H. Qed.

Lemma chained_next start bs stop k b1 b2 :
  chained start bs stop ->
  nth_error bs k = Some b1 -> nth_error bs (S k) = Some b2 ->
  startIdx b2 = endIdx b1.
Proof.
  revert start k. induction bs as [| x bs IH]; intros start k Hc H1 H2.
  - destruct k; discriminate.
  - destruct Hc as (_ & _ & Hc). destruct k as [| k].
    + injection H1 as ->. simpl in H2. exact (chained_first _ _ _ _ Hc H2).
    + exact (IH _ _ Hc H1 H2).
Qed.

Lemma chained_increasing start bs stop b :
  chained start bs stop -> In b bs -> (startIdx b < endIdx b)%nat.
Proof.
  revert start. induction bs as [| x bs IH]; intros start Hc Hin; [destruct Hin |].
  destruct Hc as (Hs & Hlt & Hc). destruct Hin as [<- | Hin].
  - lia.
  - exact (IH _ Hc Hin).
Qed.

Lemma last_cons_default {A} (l : list A) x d : List.last (x :: l) d = List.last l x.
Proof.
  revert x d. induction l as [| y l IH]; intros x d; [reflexivity |].
  change (List.last (x :: y :: l) d) with (List.last (y :: l) d).
  rewrite IH. symmetry. apply IH.
Qed.

Lemma chained_last start bs stop :
  chained start bs stop -> List.last (map endIdx bs) start = stop.
Proof.
  revert start. induction bs as [| x bs IH]; intros start Hc; [exact Hc |].
  destruct Hc as (_ & _ & Hc). cbn [map]. rewrite last_cons_default.
  exact (IH _ Hc).
Qed.

(** C1, as the code has it.  For every sequence of n >= 2 points the
    bins form a chain over the indices: the first bin starts at 0, each
    later bin starts at the index at which the bin before it ends (the
    two share that point), every bin has startIdx < endIdx <= n-1, and
    the last bin ends at n-1 unless the path after the last closed bin
    has no positive length, in which case the points after it are in no
    bin. *)
Theorem getAnalysisBins_index_chain :
  forall haversine rev points binLength polyCoeffs newAdjustedVelocity,
    (2 <= List.length points)%nat ->
    let bs := getAnalysisBins haversine rev points binLength polyCoeffs
                newAdjustedVelocity in
    let n := List.length points in
    (forall b, nth_error bs 0 = Some b -> startIdx b = 0%nat) /\
    (forall k b1 b2,
        nth_error bs k = Some b1 -> nth_error bs (S k) = Some b2 ->
        startIdx b2 = endIdx b1) /\
    (forall b, In b bs -> (startIdx b < endIdx b)%nat /\ (endIdx b <= n - 1)%nat) /\
    (let stop := List.last (map endIdx bs) 0%nat in
     stop = (n - 1)%nat \/ ~ 0 < pathLength haversine points stop (n - 1)).
Proof.
  intros haversine rev points binLength polyCoeffs vel Hn bs n.
  destruct (getAnalysisBins_chained haversine rev points binLength polyCoeffs vel Hn)
    as (stop & Hc & Hle & Hstop).
  fold bs in Hc. repeat split.
  - intros b Hb. exact (chained_first _ _ _ _ Hc Hb).
  - intros k b1 b2 H1 H2. exact (chained_next _ _ _ _ _ _ Hc H1 H2).
  - exact (chained_increasing _ _ _ _ Hc H).
  - destruct (getAnalysisBins_built haversine rev points binLength polyCoeffs vel b H)
      as (s & e & _ & He & [-> | ->]); exact He.
  - cbv zeta. rewrite (chained_last _ _ _ Hc). exact Hstop.
Qed.

Lemma getAnalysisBins_index_chain_witness :
  let bs := getAnalysisBins arcHaversine WithCoefficientsModule eastward 50 None None in
  map startIdx bs = [0%nat; 1%nat] /\
  (forall k b1 b2,
      nth_error bs k = Some b1 -> nth_error bs (S k) = Some b2 ->
      startIdx b2 = endIdx b1).
Proof.
  split; [reflexivity |].
  apply (getAnalysisBins_index_chain arcHaversine WithCoefficientsModule eastward 50
           None None).
  simpl. lia.
Defined.

(** C1 as stated fails: on the eastward track the two bins cover the
    indices 0..1 and 1..2, so index 1 lies in both; on the stationary
    track no bin is produced at all. *)
Lemma getAnalysisBins_not_a_partition :
  ~ partitionsIndices 3
      (getAnalysisBins arcHaversine WithCoefficientsModule eastward 50 None None) /\
  ~ partitionsIndices 2
      (getAnalysisBins arcHaversine WithCoefficientsModule stationary 50 None None).
Proof. split; intros H; vm_compute in H; discriminate H. Qed.

(** ** Per-bin metrics *)

Lemma noPositiveElapsed_None binStart binEnd :
  noPositiveElapsed binStart binEnd -> elapsedSeconds binStart binEnd = None.
Proof.
  unfold noPositiveElapsed, elapsedSeconds, secondsBetween.
  destruct (time binStart) as [[a |] |]; destruct (time binEnd) as [[b |] |]; auto.
  intros H. destruct (Js.Qlt_bool 0 (inject_Z (b - a) / 1000)) eqn:E; [| reflexivity].
  exfalso. apply H. apply Qlt_bool_iff in E.
  assert (0 < inject_Z (b - a)) as Hpos.
  { apply (Qmult_lt_r _ _ (/ 1000)); [reflexivity |]. unfold Qdiv in E. lra. }
  change 0 with (inject_Z 0) in Hpos. rewrite <- Zlt_Qlt in Hpos. lia.
Qed.

Lemma buildBin_without_elapsed adj points polyCoeffs vel s e d :
  elapsedSeconds (pointAt points s) (pointAt points e) = None ->
  let b := buildBin adj points polyCoeffs vel s e d in
  velocity b = None /\ pace_min_per_km b = None /\ timeTaken b = None /\
  timeInSeconds b = 0.
Proof. intros H. unfold buildBin. cbn -[elapsedSeconds]. rewrite H. auto. Qed.

(** C2, as the code has it.  For every bin, if an endpoint lacks a
    valid timestamp or the end is not later than the start, then
    velocity, pace and the formatted duration [timeTaken] are unset,
    and the numeric duration [timeInSeconds] is 0. *)
Theorem getAnalysisBins_no_elapsed_time :
  forall haversine rev points binLength polyCoeffs newAdjustedVelocity b,
    In b (getAnalysisBins haversine rev points binLength polyCoeffs
            newAdjustedVelocity) ->
    noPositiveElapsed (pointAt points (startIdx b)) (pointAt points (endIdx b)) ->
    velocity b = None /\ pace_min_per_km b = None /\ timeTaken b = None /\
    timeInSeconds b = 0.
Proof.
  intros haversine rev points binLength polyCoeffs vel b Hin Hno.
  destruct (getAnalysisBins_built haversine rev points binLength polyCoeffs vel b Hin)
    as (s & e & _ & _ & [-> | ->]);
    apply buildBin_without_elapsed; apply noPositiveElapsed_None; exact Hno.
Qed.

Lemma getAnalysisBins_no_elapsed_time_witness :
  let b := buildBin defaultAdjFactor eastward None None 0 1
             (0 + segDist arcHaversine eastward 1) in
  velocity b = None /\ pace_min_per_km b = None /\ timeTaken b = None /\
  timeInSeconds b = 0.
Proof.
  apply (getAnalysisBins_no_elapsed_time arcHaversine WithCoefficientsModule eastward
           50 None None).
  - vm_compute. left. reflexivity.
  - exact I.
Defined.

(** C2 as stated fails: the first bin of the eastward track has no
    timestamps at its endpoints, and its duration in seconds is the
    number 0. *)
Lemma getAnalysisBins_duration_is_zero :
  exists b,
    nth_error (getAnalysisBins arcHaversine WithCoefficientsModule eastward 50
                 None None) 0 = Some b /\
    noPositiveElapsed (pointAt eastward (startIdx b)) (pointAt eastward (endIdx b)) /\
    timeInSeconds b == 0.
Proof. eexists. split; [reflexivity |]. split; [exact I | reflexivity]. Qed.

(** ** Grade adjustment of a bin *)

Lemma truthy_pos v : 0 < v -> Js.truthy (Some v) = true.
Proof.
  intros H. unfold Js.truthy. destruct (Qeq_bool v 0) eqn:E; [| reflexivity].
  apply Qeq_bool_iff in E. rewrite E in H. discriminate H.
Qed.

Lemma buildBin_quartic points a b c d e v s t dist :
  0 < v ->
  quarticAdjusted points a b c d e v
    (buildBin quarticAdjFactor points (Some [a; b; c; d; e]) (Some v) s t dist).
Proof.
  intros Hv. unfold quarticAdjusted, rawGradient, buildBin.
  cbn [distance startIdx endIdx adjustedTime gradeAdjustedDistance quarticAdjFactor].
  unfold Js.Math_max, Js.Math_min. intros Hf.
  rewrite (truthy_pos v Hv).
  rewrite (proj2 (Qlt_bool_iff 0 v) Hv).
  rewrite (proj2 (Qlt_bool_iff 0 _) Hf).
  cbn [andb option_map snd]. split; [reflexivity |].
  eexists. split; reflexivity.
Qed.

(** The self-contained revision does what C7 says, for every bin. *)
Lemma selfContained_bins_quartic :
  forall haversine points binLength a b c d e v bin,
    0 < v ->
    In bin (getAnalysisBins haversine SelfContained points binLength
              (Some [a; b; c; d; e]) (Some v)) ->
    quarticAdjusted points a b c d e v bin.
Proof.
  intros haversine points binLength a b c d e v bin Hv Hin.
  destruct (getAnalysisBins_built haversine SelfContained points binLength _ _ bin Hin)
    as (s & t & _ & _ & [-> | ->]); apply buildBin_quartic; exact Hv.
Qed.

(** In the revision that imports Coefficients.js the final partial bin
    does what C7 says as well. *)
Lemma final_bin_quartic :
  exists bin,
    nth_error (getAnalysisBins arcHaversine WithCoefficientsModule climb 50
                 (Some gapCoefficients) (Some 3)) 1 = Some bin /\
    startIdx bin = 1%nat /\ endIdx bin = 2%nat /\
    quarticAdjusted climb (coef_a GAP_COEFFICIENTS) (coef_b GAP_COEFFICIENTS)
      (coef_c GAP_COEFFICIENTS) (coef_d GAP_COEFFICIENTS) (coef_e GAP_COEFFICIENTS)
      3 bin.
Proof.
  exists (buildBin quarticAdjFactor climb (Some gapCoefficients) (Some 3) 1 2
            (0 + segDist arcHaversine climb 2)).
  split; [vm_compute; reflexivity |]. split; [reflexivity |]. split; [reflexivity |].
  apply buildBin_quartic. reflexivity.
Qed.

(** C7 fails in the revision that imports Coefficients.js.  On the
    climb the bin closed during the scan (gradient about 19.98 %) is
    adjusted by the default model [calculateGradeAdjustment], not by the
    quartic of the five coefficients passed in. *)
Theorem scan_bin_ignores_coefficients :
  exists bin,
    nth_error (getAnalysisBins arcHaversine WithCoefficientsModule climb 50
                 (Some gapCoefficients) (Some 3)) 0 = Some bin /\
    startIdx bin = 0%nat /\ endIdx bin = 1%nat /\
    gradeAdjustedDistance bin
    = Some (distance bin
            * calculateGradeAdjustment (clampGradient (rawGradient climb bin))) /\
    ~ quarticAdjusted climb (coef_a GAP_COEFFICIENTS) (coef_b GAP_COEFFICIENTS)
        (coef_c GAP_COEFFICIENTS) (coef_d GAP_COEFFICIENTS) (coef_e GAP_COEFFICIENTS)
        3 bin.
Proof.
  exists (buildBin defaultAdjFactor climb (Some gapCoefficients) (Some 3) 0 1
            (0 + segDist arcHaversine climb 1)).
  split; [vm_compute; reflexivity |]. split; [reflexivity |]. split; [reflexivity |].
  split; [vm_compute; reflexivity |].
  unfold quarticAdjusted. intros H.
  destruct H as (_ & gad & Hgad & Heq).
  - vm_compute. reflexivity.
  - vm_compute in Hgad. injection Hgad as <-. vm_compute in Heq. discriminate Heq.
Qed.

(** ** Heart rate of a bin *)

Lemma pointAt_zeroToMissing points i :
  pointAt (map zeroToMissing points) i = zeroToMissing (pointAt points i).
Proof.
  unfold pointAt.
  change undefinedPoint with (zeroToMissing undefinedPoint) at 1.
  apply map_nth.
Qed.

Lemma collectHeartRates_zeroToMissing points lo hi :
  collectHeartRates (map zeroToMissing points) lo hi = collectHeartRates points lo hi.
Proof.
  unfold collectHeartRates.
  induction (seq lo (S hi - lo)) as [| j l IH]; [reflexivity |].
  cbn [flat_map]. rewrite IH. f_equal.
  rewrite pointAt_zeroToMissing. unfold zeroToMissing, Js.truthy. cbn [heartRate].
  destruct (heartRate (pointAt points j)) as [hr |]; [| reflexivity].
  destruct (Qeq_bool hr 0) eqn:E; cbn [negb]; [reflexivity |].
  rewrite E. reflexivity.
Qed.

Lemma buildBin_zeroToMissing adj points polyCoeffs vel s e d :
  buildBin adj (map zeroToMissing points) polyCoeffs vel s e d
  = buildBin adj points polyCoeffs vel s e d.
Proof.
  unfold buildBin.
  rewrite collectHeartRates_zeroToMissing, !pointAt_zeroToMissing.
  reflexivity.
Qed.

Lemma segDist_zeroToMissing haversine points i :
  segDist haversine (map zeroToMissing points) i = segDist haversine points i.
Proof. unfold segDist. rewrite !pointAt_zeroToMissing. reflexivity. Qed.

Lemma fold_left_pointwise {A B} (f g : A -> B -> A) l a :
  (forall x y, f x y = g x y) -> fold_left f l a = fold_left g l a.
Proof.
  intros H. revert a. induction l as [| y l IH]; intros a; [reflexivity |].
  simpl. rewrite H. apply IH.
Qed.

Lemma getAnalysisBins_zeroToMissing haversine rev points binLength polyCoeffs vel :
  getAnalysisBins haversine rev (map zeroToMissing points) binLength polyCoeffs vel
  = getAnalysisBins haversine rev points binLength polyCoeffs vel.
Proof.
  assert (Hscan : scan haversine rev (map zeroToMissing points) binLength polyCoeffs vel
                  = scan haversine rev points binLength polyCoeffs vel).
  { unfold scan. rewrite length_map. apply fold_left_pointwise.
    intros st i. unfold scanStep.
    rewrite segDist_zeroToMissing, buildBin_zeroToMissing. reflexivity. }
  unfold getAnalysisBins. rewrite Hscan, length_map, buildBin_zeroToMissing.
  reflexivity.
Qed.

Lemma collectHeartRates_all_zero points lo hi :
  (forall j, (lo <= j <= hi)%nat ->
             exists hr, heartRate (pointAt points j) = Some hr /\ hr == 0) ->
  collectHeartRates points lo hi = [].
Proof.
  intros H. unfold collectHeartRates.
  assert (Hl : forall j, In j (seq lo (S hi - lo)) -> (lo <= j <= hi)%nat).
  { intros j Hj. apply in_seq in Hj. lia. }
  induction (seq lo (S hi - lo)) as [| j l IH]; [reflexivity |].
  cbn [flat_map]. rewrite IH by (intros; apply Hl; right; assumption).
  destruct (H j (Hl j (or_introl eq_refl))) as (hr & -> & Hz).
  unfold Js.truthy. apply Qeq_bool_iff in Hz. rewrite Hz. reflexivity.
Qed.

(** C10.  A heart rate of 0 counts as no heart rate: replacing every 0
    by an absent value leaves the bins unchanged, and a bin whose points
    all carry heart rate 0 has no average, maximum or minimum and a
    sample count of 0. *)
Theorem heartRate_zero_is_missing :
  forall haversine rev points binLength polyCoeffs newAdjustedVelocity,
    getAnalysisBins haversine rev (map zeroToMissing points) binLength polyCoeffs
      newAdjustedVelocity
    = getAnalysisBins haversine rev points binLength polyCoeffs newAdjustedVelocity /\
    forall b,
      In b (getAnalysisBins haversine rev points binLength polyCoeffs
              newAdjustedVelocity) ->
      (forall j, (startIdx b <= j <= endIdx b)%nat ->
                 exists hr, heartRate (pointAt points j) = Some hr /\ hr == 0) ->
      avgHeartRate b = None /\ maxHeartRate b = None /\ minHeartRate b = None /\
      heartRateDataPoints b = 0%nat.
Proof.
  intros haversine rev points binLength polyCoeffs vel.
  split; [apply getAnalysisBins_zeroToMissing |].
  intros b Hin Hzero.
  destruct (getAnalysisBins_built haversine rev points binLength polyCoeffs vel b Hin)
    as (s & e & _ & _ & [-> | ->]);
    unfold buildBin in *;
    cbn [startIdx endIdx avgHeartRate maxHeartRate minHeartRate heartRateDataPoints] in *;
    rewrite (collectHeartRates_all_zero points s e Hzero); auto.
Qed.

Lemma heartRate_zero_is_missing_witness :
  let b := buildBin defaultAdjFactor climb None None 0 1
             (0 + segDist arcHaversine climb 1) in
  avgHeartRate b = None /\ maxHeartRate b = None /\ minHeartRate b = None /\
  heartRateDataPoints b = 0%nat.
Proof.
  apply (heartRate_zero_is_missing arcHaversine WithCoefficientsModule climb 50
           None None).
  - vm_compute. left. reflexivity.
  - intros j Hj. change (0 <= j <= 1)%nat in Hj. exists 0.
    destruct j as [| [| j]]; [split; reflexivity | split; reflexivity | lia].
Defined.

(** ** The reliability filter: facts *)

Section FilterFacts.

Import Filter.

Variable removeUnreliableBins : bool.
Variable heartRateFilter : option HeartRateFilter.

(** A counter, read off by [proj], that one bin raises by one exactly
    when [cond] holds of it. *)
Variable proj : ExclusionCounts -> nat.
Variable cond : Bin -> bool.
Hypothesis step :
  forall c kept bin,
    proj (fst (filterBin removeUnreliableBins heartRateFilter (c, kept) bin))
    = (proj c + (if cond bin then 1 else 0))%nat.

Lemma filterBins_counter bins c kept :
  proj (fst (fold_left (filterBin removeUnreliableBins heartRateFilter) bins (c, kept)))
  = (proj c + List.length (List.filter cond bins))%nat.
Proof.
  revert c kept. induction bins as [| bin bins IH]; intros c kept;
    cbn [fold_left List.filter].
  - simpl. lia.
  - pose proof (step c kept bin) as Hs.
    destruct (filterBin removeUnreliableBins heartRateFilter (c, kept) bin)
      as [c' kept'].
    rewrite IH. cbn [fst] in Hs. rewrite Hs.
    destruct (cond bin); simpl; lia.
Qed.

Lemma filterRuns_counter results c acc :
  proj (fst (fold_left (filterRun removeUnreliableBins heartRateFilter) results
               (c, acc)))
  = (proj c + countWhere cond results)%nat.
Proof.
  unfold countWhere.
  revert c acc. induction results as [| run results IH]; intros c acc;
    cbn [fold_left collectBins flat_map].
  - simpl. lia.
  - unfold filterRun at 2.
    pose proof (filterBins_counter
                  (match r_bins run with Some bs => bs | None => [] end) c [])
      as Hb.
    destruct (fold_left (filterBin removeUnreliableBins heartRateFilter) _ (c, []))
      as [c' kept'].
    rewrite IH. cbn [fst] in Hb. rewrite Hb.
    unfold collectBins. rewrite List.filter_app, length_app.
    destruct (r_bins run); simpl; lia.
Qed.

End FilterFacts.

Ltac filter_step :=
  intros c kept bin;
  unfold Filter.filterBin, Filter.plausibilityCheck, implausible, speedOutside,
    gradientOutside, tooShort, noDistance;
  repeat match goal with
         | |- context [if ?b then _ else _] =>
             match b with
             | context [if _ then _ else _] => fail 1
             | _ => destruct b eqn:?
             end
         | |- context [match ?b with Some _ => _ | None => _ end] =>
             destruct b eqn:?
         end;
  simpl in *; try discriminate; try lia.

(** C3, as the code has it.  Over all bins of all runs: the four
    plausibility reasons are checked in the order speed, gradient,
    duration, distance and the first that matches is the one counted;
    the heart-rate reason is checked on its own for every bin, also for
    a bin already counted under a plausibility reason; the total counts
    each excluded bin once.  Hence an excluded bin raises the total and
    one named counter, or the total, one plausibility counter and the
    heart-rate counter; with the heart-rate filter off it is always
    exactly one. *)
Theorem exclusion_counters :
  forall (results : list Run) (removeUnreliableBins : bool)
         (heartRateFilter : option Filter.HeartRateFilter),
    let c := fst (Filter.filterResults results removeUnreliableBins heartRateFilter) in
    let hr := Filter.heartRateCheck heartRateFilter in
    Filter.n_speed c
    = countWhere (fun b => removeUnreliableBins && speedOutside b) results /\
    Filter.n_gradient c
    = countWhere (fun b => removeUnreliableBins && negb (speedOutside b)
                           && gradientOutside b) results /\
    Filter.n_timeInSeconds c
    = countWhere (fun b => removeUnreliableBins && negb (speedOutside b)
                           && negb (gradientOutside b) && tooShort b) results /\
    Filter.n_distance c
    = countWhere (fun b => removeUnreliableBins && negb (speedOutside b)
                           && negb (gradientOutside b) && negb (tooShort b)
                           && noDistance b) results /\
    Filter.n_heartRate c = countWhere hr results /\
    Filter.n_total c
    = countWhere (fun b => (removeUnreliableBins && implausible b) || hr b) results /\
    (Filter.n_speed c + Filter.n_gradient c + Filter.n_timeInSeconds c
     + Filter.n_distance c
     = countWhere (fun b => removeUnreliableBins && implausible b) results)%nat /\
    (Filter.heartRateFilterActive heartRateFilter = false ->
     Filter.n_total c
     = (Filter.n_speed c + Filter.n_gradient c + Filter.n_timeInSeconds c
        + Filter.n_distance c)%nat).
Proof.
  intros results r h c hr. subst c hr. unfold Filter.filterResults.
  assert (H1 := filterRuns_counter r h Filter.n_speed
                  (fun b => r && speedOutside b) ltac:(filter_step)
                  results Filter.noExclusions []).
  assert (H2 := filterRuns_counter r h Filter.n_gradient
                  (fun b => r && negb (speedOutside b) && gradientOutside b)
                  ltac:(filter_step) results Filter.noExclusions []).
  assert (H3 := filterRuns_counter r h Filter.n_timeInSeconds
                  (fun b => r && negb (speedOutside b) && negb (gradientOutside b)
                            && tooShort b)
                  ltac:(filter_step) results Filter.noExclusions []).
  assert (H4 := filterRuns_counter r h Filter.n_distance
                  (fun b => r && negb (speedOutside b) && negb (gradientOutside b)
                            && negb (tooShort b) && noDistance b)
                  ltac:(filter_step) results Filter.noExclusions []).
  assert (H5 := filterRuns_counter r h Filter.n_heartRate
                  (Filter.heartRateCheck h) ltac:(filter_step)
                  results Filter.noExclusions []).
  assert (H6 := filterRuns_counter r h Filter.n_total
                  (fun b => (r && implausible b) || Filter.heartRateCheck h b)
                  ltac:(filter_step) results Filter.noExclusions []).
  assert (H7 := filterRuns_counter r h
                  (fun c => Filter.n_speed c + Filter.n_gradient c
                            + Filter.n_timeInSeconds c + Filter.n_distance c)%nat
                  (fun b => r && implausible b) ltac:(filter_step)
                  results Filter.noExclusions []).
  simpl in H1, H2, H3, H4, H5, H6, H7.
  repeat (split; [assumption |]).
  intros Hoff. rewrite H6, H7. unfold countWhere. f_equal.
  apply List.filter_ext. intros b.
  unfold Filter.heartRateCheck. destruct h as [f |]; [| apply orb_false_r].
  rewrite Hoff. apply orb_false_r.
Qed.

Lemma exclusion_counters_witness :
  let c := fst (Filter.filterResults
                  [ {| r_filename := "fast.gpx"; r_bins := Some [fastBin] |} ]
                  true None) in
  Filter.n_total c
  = (Filter.n_speed c + Filter.n_gradient c + Filter.n_timeInSeconds c
     + Filter.n_distance c)%nat.
Proof.
  apply (exclusion_counters
           [ {| r_filename := "fast.gpx"; r_bins := Some [fastBin] |} ] true None).
  reflexivity.
Defined.

(** C3 as stated fails: with both filters on, the bin at 35 km/h
    without heart rate is counted under speed and under heart rate, and
    once in the total. *)
Lemma speed_and_heartRate_both_counted :
  let c := fst (Filter.filterResults
                  [ {| r_filename := "fast.gpx"; r_bins := Some [fastBin] |} ]
                  true (Some zone)) in
  Filter.n_speed c = 1%nat /\ Filter.n_heartRate c = 1%nat /\
  Filter.n_total c = 1%nat.
Proof. vm_compute. auto. Qed.

(** ** Array.prototype.sort: facts *)

Section SortFacts.

Context {A : Type}.
Variable comparefn : A -> A -> Z.

Lemma insertSorted_perm x l : Permutation (insertSorted comparefn x l) (x :: l).
Proof.
  induction l as [| y l IH]; simpl; [reflexivity |].
  destruct (comparefn x y <? 0)%Z; [reflexivity |].
  rewrite IH. apply perm_swap.
Qed.

Lemma arraySort_fold_perm l acc :
  Permutation (fold_left (fun acc x => insertSorted comparefn x acc) l acc) (acc ++ l).
Proof.
  revert acc. induction l as [| x l IH]; intros acc; simpl.
  - rewrite app_nil_r. reflexivity.
  - rewrite IH, insertSorted_perm. apply Permutation_middle.
Qed.

Lemma arraySort_perm l : Permutation (arraySort comparefn l) l.
Proof. unfold arraySort. apply (arraySort_fold_perm l []). Qed.

(** A comparator that orders by an integer rank sorts by that rank. *)
Variable rank : A -> Z.

Lemma insertSorted_sorted x l :
  (forall y, In y l -> (comparefn x y <? 0)%Z = (rank x <? rank y)%Z) ->
  StronglySorted (fun a b => (rank a <= rank b)%Z) l ->
  StronglySorted (fun a b => (rank a <= rank b)%Z) (insertSorted comparefn x l).
Proof.
  intros Hc Hs. induction l as [| y l IH]; simpl.
  - constructor; constructor.
  - apply StronglySorted_inv in Hs. destruct Hs as [Hs Hy].
    rewrite (Hc y (or_introl eq_refl)).
    destruct (rank x <? rank y)%Z eqn:E.
    + apply Z.ltb_lt in E. constructor.
      * constructor; assumption.
      * constructor; [lia |].
        rewrite List.Forall_forall in Hy |- *. intros z Hz.
        specialize (Hy z Hz). lia.
    + apply Z.ltb_ge in E. constructor.
      * apply IH; [| assumption]. intros z Hz. apply Hc. right. exact Hz.
      * rewrite List.Forall_forall in Hy |- *. intros z Hz.
        apply (Permutation_in _ (insertSorted_perm x l)) in Hz.
        destruct Hz as [<- | Hz]; [exact E | exact (Hy z Hz)].
Qed.

Lemma arraySort_fold_sorted l acc :
  (forall x y, In x (acc ++ l) -> In y (acc ++ l) -> x <> y ->
               (comparefn x y <? 0)%Z = (rank x <? rank y)%Z) ->
  List.NoDup (acc ++ l) ->
  StronglySorted (fun a b => (rank a <= rank b)%Z) acc ->
  StronglySorted (fun a b => (rank a <= rank b)%Z)
    (fold_left (fun acc x => insertSorted comparefn x acc) l acc).
Proof.
  revert acc. induction l as [| x l IH]; intros acc Hc Hnd Hs; simpl; [exact Hs |].
  assert (Hp : Permutation (insertSorted comparefn x acc ++ l) (acc ++ x :: l)).
  { rewrite insertSorted_perm. apply Permutation_middle. }
  apply IH.
  - intros a b Ha Hb. apply Hc; eapply Permutation_in; eauto.
  - eapply Permutation_NoDup; [symmetry; exact Hp | exact Hnd].
  - apply insertSorted_sorted; [| exact Hs].
    intros y Hy. apply Hc.
    + apply in_or_app. right. left. reflexivity.
    + apply in_or_app. left. exact Hy.
    + intros ->. apply List.NoDup_remove_2 in Hnd. apply Hnd.
      apply in_or_app. left. exact Hy.
Qed.

Lemma arraySort_sorted l :
  (forall x y, In x l -> In y l -> x <> y ->
               (comparefn x y <? 0)%Z = (rank x <? rank y)%Z) ->
  List.NoDup l ->
  StronglySorted (fun a b => (rank a <= rank b)%Z) (arraySort comparefn l).
Proof.
  intros Hc Hnd. unfold arraySort.
  apply arraySort_fold_sorted; [exact Hc | exact Hnd | constructor].
Qed.

End SortFacts.

(** ** The per-degree chart: facts *)

Lemma key_eqb_eq a b : key_eqb a b = true <-> a = b.
Proof.
  destruct a, b; simpl; split; intros H; try discriminate; try reflexivity.
  - apply Z.eqb_eq in H. congruence.
  - injection H as ->. apply Z.eqb_refl.
Qed.

Lemma key_eqb_refl a : key_eqb a a = true.
Proof. apply key_eqb_eq. reflexivity. Qed.

Lemma key_eqb_neq a b : key_eqb a b = false <-> a <> b.
Proof.
  split.
  - intros H ->. rewrite key_eqb_refl in H. discriminate.
  - intros H. destruct (key_eqb a b) eqn:E; [| reflexivity].
    apply key_eqb_eq in E. contradiction.
Qed.

Lemma gmLookup_cons k1 d m k :
  gmLookup ((k1, d) :: m) k = if key_eqb k1 k then Some d else gmLookup m k.
Proof. unfold gmLookup. simpl. destruct (key_eqb k1 k); reflexivity. Qed.

Lemma gmLookup_snoc m k0 z k :
  gmLookup (m ++ [(k0, z)]) k
  = match gmLookup m k with
    | Some d => Some d
    | None => if key_eqb k0 k then Some z else None
    end.
Proof.
  induction m as [| [k1 d] m IH].
  - rewrite app_nil_l, gmLookup_cons. reflexivity.
  - rewrite <- app_comm_cons, !gmLookup_cons. destruct (key_eqb k1 k); auto.
Qed.

Lemma gmLookup_update f k0 m k :
  gmLookup (gmUpdate f k0 m) k
  = if key_eqb k0 k then option_map f (gmLookup m k) else gmLookup m k.
Proof.
  induction m as [| [k1 d] m IH].
  - destruct (key_eqb k0 k); reflexivity.
  - unfold gmUpdate in *. cbn [map fst snd].
    destruct (key_eqb k1 k0) eqn:E10; rewrite !gmLookup_cons, IH.
    + apply key_eqb_eq in E10. subst k1.
      destruct (key_eqb k0 k); reflexivity.
    + destruct (key_eqb k1 k) eqn:E1; [| reflexivity].
      apply key_eqb_eq in E1. subst k1.
      apply key_eqb_neq in E10.
      destruct (key_eqb k0 k) eqn:E0; [| reflexivity].
      apply key_eqb_eq in E0. congruence.
Qed.

Lemma gmUpdate_keys f k m : map fst (gmUpdate f k m) = map fst m.
Proof.
  unfold gmUpdate. rewrite map_map. apply map_ext.
  intros [k1 d]. simpl. destruct (key_eqb k1 k); reflexivity.
Qed.

Lemma gmLookup_None m k : gmLookup m k = None <-> ~ In k (map fst m).
Proof.
  induction m as [| [k1 d] m IH]; [simpl; tauto |].
  rewrite gmLookup_cons. simpl. destruct (key_eqb k1 k) eqn:E.
  - apply key_eqb_eq in E. split; [discriminate | tauto].
  - apply key_eqb_neq in E. tauto.
Qed.

Lemma gmLookup_In m k d :
  List.NoDup (map fst m) -> In (k, d) m -> gmLookup m k = Some d.
Proof.
  induction m as [| [k1 d1] m IH]; intros Hnd Hin; [destruct Hin |].
  rewrite gmLookup_cons. simpl in Hnd. apply List.NoDup_cons_iff in Hnd.
  destruct Hnd as [Hnot Hnd]. destruct Hin as [[= -> ->] | Hin].
  - rewrite key_eqb_refl. reflexivity.
  - destruct (key_eqb k1 k) eqn:E; [| auto].
    apply key_eqb_eq in E. subst k1. exfalso. apply Hnot.
    apply (in_map fst) in Hin. exact Hin.
Qed.

Lemma groupOf_snoc bins b k :
  groupOf (bins ++ [b]) k
  = groupOf bins k
    ++ (if chartEligible b && key_eqb (gradientKey (gradient b)) k then [b] else []).
Proof.
  unfold groupOf. rewrite !List.filter_app. f_equal. simpl.
  destruct (chartEligible b); simpl; [| reflexivity].
  destruct (key_eqb (gradientKey (gradient b)) k); reflexivity.
Qed.

Lemma totalsOf_snoc g b :
  totalsOf (g ++ [b])
  = {| gm_totalDistance := gm_totalDistance (totalsOf g) + distance b;
       gm_totalTime := gm_totalTime (totalsOf g) + timeInSeconds b;
       gm_binCount := S (gm_binCount (totalsOf g)) |}.
Proof.
  unfold totalsOf. cbn [gm_totalDistance gm_totalTime gm_binCount].
  rewrite !map_app, length_app. cbn [map List.length].
  rewrite !sumQ_snoc, Nat.add_1_r. reflexivity.
Qed.

(** The map after the [forEach]: no key twice, and under each key the
    totals of the key's group. *)
Lemma gradientMap_invariant bins :
  let m := fold_left addToGradientMap bins [] in
  List.NoDup (map fst m) /\
  forall k, gmLookup m k
            = match groupOf bins k with
              | [] => None
              | _ :: _ => Some (totalsOf (groupOf bins k))
              end.
Proof.
  induction bins as [| b bins IH] using rev_ind.
  - split; [constructor | reflexivity].
  - destruct IH as [Hnd Hl]. rewrite fold_left_app. cbn [fold_left].
    set (m := fold_left addToGradientMap bins []) in *.
    unfold addToGradientMap.
    destruct (chartEligible b) eqn:El.
    + set (k0 := gradientKey (gradient b)).
      set (m1 := match gmLookup m k0 with
                 | Some _ => m
                 | None => m ++ [(k0, {| gm_totalDistance := 0; gm_totalTime := 0;
                                         gm_binCount := 0 |})]
                 end).
      assert (Hnd1 : List.NoDup (map fst m1)).
      { subst m1. destruct (gmLookup m k0) eqn:E0; [exact Hnd |].
        rewrite map_app. cbn [map fst].
        apply List.NoDup_app; [exact Hnd | |].
        - constructor; [intros [] | constructor].
        - intros k Hk [<- | []]. apply gmLookup_None in E0. contradiction. }
      split; [rewrite gmUpdate_keys; exact Hnd1 |].
      intros k. rewrite gmLookup_update, groupOf_snoc, El. cbn [andb].
      fold k0. destruct (key_eqb k0 k) eqn:Ek.
      * apply key_eqb_eq in Ek. subst k.
        subst m1. rewrite (Hl k0).
        destruct (groupOf bins k0) as [| x g] eqn:Eg.
        -- rewrite gmLookup_snoc, (Hl k0), Eg, key_eqb_refl. reflexivity.
        -- rewrite (Hl k0), Eg. cbn [option_map app].
           rewrite app_comm_cons, totalsOf_snoc. reflexivity.
      * rewrite app_nil_r. subst m1.
        destruct (gmLookup m k0); [apply Hl |].
        rewrite gmLookup_snoc, Ek, (Hl k). destruct (groupOf bins k); reflexivity.
    + split; [exact Hnd |]. intros k.
      rewrite groupOf_snoc, El. cbn [andb]. rewrite app_nil_r. apply Hl.
Qed.

Lemma filter_split_perm {A} (P : A -> bool) l :
  Permutation (List.filter P l ++ List.filter (fun x => negb (P x)) l) l.
Proof.
  induction l as [| x l IH]; [reflexivity |].
  simpl. destruct (P x); simpl.
  - constructor. exact IH.
  - symmetry. apply Permutation_cons_app. symmetry. exact IH.
Qed.

Lemma objectEntries_perm m : Permutation (objectEntries m) m.
Proof.
  unfold objectEntries. rewrite arraySort_perm.
  apply (filter_split_perm (fun kv => isIndexKey (fst kv))).
Qed.

Lemma chart_perm results :
  Permutation (getPaceByGradientChart results)
    (map chartEntryOf (buildGradientMap results)).
Proof.
  unfold getPaceByGradientChart. rewrite arraySort_perm.
  apply Permutation_map. apply objectEntries_perm.
Qed.

Lemma chart_keys_perm results :
  Permutation (map ce_gradient (getPaceByGradientChart results))
    (map fst (buildGradientMap results)).
Proof.
  rewrite (Permutation_map ce_gradient (chart_perm results)).
  rewrite map_map. reflexivity.
Qed.

(** Every entry of the chart is the entry of a non-empty group. *)
Lemma chart_entry_group results entry :
  In entry (getPaceByGradientChart results) ->
  gradientGroup results (ce_gradient entry) <> [] /\
  entry = chartEntryOf (ce_gradient entry,
                        totalsOf (gradientGroup results (ce_gradient entry))).
Proof.
  intros Hin. apply (Permutation_in _ (chart_perm results)) in Hin.
  apply in_map_iff in Hin. destruct Hin as ([k d] & <- & Hin).
  destruct (gradientMap_invariant (collectBins results)) as [Hnd Hl].
  pose proof (gmLookup_In _ _ _ Hnd Hin) as Hk. rewrite Hl in Hk.
  cbn [chartEntryOf ce_gradient fst]. unfold gradientGroup.
  destruct (groupOf (collectBins results) k) eqn:Eg; [discriminate |].
  injection Hk as <-. split; [discriminate | reflexivity].
Qed.

Lemma gmLookup_Some_key m k d : gmLookup m k = Some d -> In k (map fst m).
Proof.
  induction m as [| [k1 d1] m IH]; [discriminate |].
  rewrite gmLookup_cons. simpl. destruct (key_eqb k1 k) eqn:E.
  - apply key_eqb_eq in E. auto.
  - auto.
Qed.

Lemma chart_has_group results k :
  In k (map ce_gradient (getPaceByGradientChart results))
  <-> gradientGroup results k <> [].
Proof.
  destruct (gradientMap_invariant (collectBins results)) as [Hnd Hl].
  specialize (Hl k). fold (buildGradientMap results) in Hl.
  unfold gradientGroup. split.
  - intros Hin. apply (Permutation_in _ (chart_keys_perm results)) in Hin.
    intros Hg. rewrite Hg in Hl. apply gmLookup_None in Hl. contradiction.
  - intros Hg. apply (Permutation_in _ (Permutation_sym (chart_keys_perm results))).
    destruct (groupOf (collectBins results) k); [contradiction |].
    exact (gmLookup_Some_key _ _ _ Hl).
Qed.

(** [Math.round] is the nearest integer, the upper one at a tie. *)
Lemma Math_round_nearest g :
  inject_Z (Js.Math_round g) - (1 # 2) <= g /\ g < inject_Z (Js.Math_round g) + (1 # 2).
Proof.
  unfold Js.Math_round.
  pose proof (Qfloor_le (g + (1 # 2))) as H1.
  pose proof (Qlt_floor (g + (1 # 2))) as H2.
  rewrite inject_Z_plus in H2. change (inject_Z 1) with 1 in H2.
  split; lra.
Qed.

Lemma Math_round_le g (z : Z) : g <= inject_Z z -> (Js.Math_round g <= z)%Z.
Proof.
  intros H. pose proof (Math_round_nearest g) as [H1 _].
  assert (inject_Z (Js.Math_round g) < inject_Z (z + 1)) as Hlt.
  { rewrite inject_Z_plus. change (inject_Z 1) with 1. lra. }
  rewrite <- Zlt_Qlt in Hlt. lia.
Qed.

Lemma Math_round_ge g (z : Z) : inject_Z z <= g -> (z <= Js.Math_round g)%Z.
Proof.
  intros H. pose proof (Math_round_nearest g) as [_ H2].
  assert (inject_Z z < inject_Z (Js.Math_round g + 1)) as Hlt.
  { rewrite inject_Z_plus. change (inject_Z 1) with 1. lra. }
  rewrite <- Zlt_Qlt in Hlt. lia.
Qed.

(** C4.  The chart has exactly one entry for every non-empty group of
    bins with positive distance and time whose gradient rounds to the
    same key; the key is the nearest integer, with everything that
    rounds to -35 or below, or to 35 or above, under one of the two
    sentinel keys; the entry's pace is the sum of the group's times over
    60 divided by the sum of its distances over 1000, which is not the
    mean of the bins' paces. *)
Theorem per_degree_weighted_pace :
  forall results : list Run,
    let chart := getPaceByGradientChart results in
    List.NoDup (map ce_gradient chart) /\
    (forall k, In k (map ce_gradient chart) <-> gradientGroup results k <> []) /\
    (forall entry,
        In entry chart ->
        ce_avgPace entry = weightedPace (gradientGroup results (ce_gradient entry)) /\
        ce_binCount entry = List.length (gradientGroup results (ce_gradient entry))) /\
    (forall g,
        (inject_Z (Js.Math_round g) - (1 # 2) <= g /\
         g < inject_Z (Js.Math_round g) + (1 # 2)) /\
        (g <= -35 -> gradientKey g = KeyLE35) /\
        (35 <= g -> gradientKey g = KeyGE35) /\
        gradientKey g
        = (if (Js.Math_round g <=? -35)%Z then KeyLE35
           else if (35 <=? Js.Math_round g)%Z then KeyGE35
           else KeyInt (Js.Math_round g))) /\
    ~ (forall entry,
          In entry (getPaceByGradientChart unevenRun) ->
          ce_avgPace entry == meanOfPaces (gradientGroup unevenRun (ce_gradient entry))).
Proof.
  intros results chart. subst chart. repeat split.
  - destruct (gradientMap_invariant (collectBins results)) as [Hnd _].
    apply (Permutation_NoDup (Permutation_sym (chart_keys_perm results))). exact Hnd.
  - apply chart_has_group.
  - apply chart_has_group.
  - destruct (chart_entry_group results entry H) as [_ ->]. reflexivity.
  - destruct (chart_entry_group results entry H) as [_ ->]. reflexivity.
  - apply Math_round_nearest.
  - apply Math_round_nearest.
  - intros Hg. unfold gradientKey.
    pose proof (Math_round_le g (-35) Hg) as Hr.
    apply Z.leb_le in Hr. rewrite Hr. reflexivity.
  - intros Hg. unfold gradientKey.
    pose proof (Math_round_ge g 35 Hg) as Hr.
    destruct (Js.Math_round g <=? -35)%Z eqn:E; [apply Z.leb_le in E; lia |].
    apply Z.geb_le in Hr. rewrite Hr. reflexivity.
  - unfold gradientKey. rewrite Z.geb_leb. reflexivity.
  - intros H.
    specialize (H (chartEntryOf
                     (KeyInt 0, totalsOf [plainBin 50 0 10; plainBin 100 0 100]))
                  (or_introl eq_refl)).
    vm_compute in H. discriminate H.
Qed.

Lemma per_degree_weighted_pace_witness :
  let entry := chartEntryOf (KeyInt 0, totalsOf [plainBin 50 0 10; plainBin 100 0 100]) in
  ce_avgPace entry = weightedPace (gradientGroup unevenRun (ce_gradient entry)) /\
  ce_binCount entry = List.length (gradientGroup unevenRun (ce_gradient entry)).
Proof.
  apply (per_degree_weighted_pace unevenRun). left. reflexivity.
Defined.

(** ** Keys as strings *)

Lemma zString_parses z : NilZero.int_of_string (zString z) = Some (Z.to_int z).
Proof.
  unfold zString. apply NilZero.isi.
  - destruct z; simpl; intros [= H]. exact (DecimalPos.Unsigned.to_uint_nonnil _ H).
  - destruct z; simpl; intros [= H]. exact (DecimalPos.Unsigned.to_uint_nonnil _ H).
Qed.

Lemma zString_inj a b : zString a = zString b -> a = b.
Proof.
  intros H. apply DecimalZ.to_int_inj.
  pose proof (zString_parses a) as Ha. rewrite H, zString_parses in Ha.
  congruence.
Qed.

Lemma zString_not s z : NilZero.int_of_string s = None -> String.eqb (zString z) s = false.
Proof.
  intros Hs. destruct (String.eqb (zString z) s) eqn:E; [| reflexivity].
  apply String.eqb_eq in E. rewrite <- E, zString_parses in Hs. discriminate.
Qed.

Lemma keyString_is_zero k :
  String.eqb (keyString k) "0" = key_eqb k (KeyInt 0).
Proof.
  destruct k as [| | z]; [reflexivity | reflexivity |]. simpl.
  destruct (z =? 0)%Z eqn:E.
  - apply Z.eqb_eq in E. subst z. reflexivity.
  - destruct (String.eqb (zString z) "0") eqn:Es; [| reflexivity].
    apply String.eqb_eq in Es. change "0"%string with (zString 0) in Es.
    apply zString_inj in Es. apply Z.eqb_neq in E. contradiction.
Qed.

Lemma keyString_is_le35 k :
  String.eqb (keyString k) "<=-35" = key_eqb k KeyLE35.
Proof. destruct k; [reflexivity | reflexivity | apply zString_not; reflexivity]. Qed.

Lemma keyString_is_ge35 k :
  String.eqb (keyString k) ">=35" = key_eqb k KeyGE35.
Proof. destruct k; [reflexivity | reflexivity | apply zString_not; reflexivity]. Qed.

(** No key is the string ['<-35'] or ['>35'] the chart's comparator
    looks for. *)
Lemma keyString_never_matches k :
  String.eqb (keyString k) "<-35" = false /\ String.eqb (keyString k) ">35" = false.
Proof.
  destruct k; split; try reflexivity; apply zString_not; reflexivity.
Qed.

Lemma chartCompare_is_parseInt_difference a b :
  chartCompare a b
  = match parseIntKey (ce_gradient a), parseIntKey (ce_gradient b) with
    | Some x, Some y => (x - y)%Z
    | _, _ => 0%Z
    end.
Proof.
  unfold chartCompare.
  destruct (keyString_never_matches (ce_gradient a)) as [-> ->].
  destruct (keyString_never_matches (ce_gradient b)) as [-> ->].
  reflexivity.
Qed.

(** ** The grade-adjustment analysis: facts *)

Lemma fold_Qplus_pos l a :
  (forall x, In x l -> 0 < x) -> a <= fold_left Qplus l a /\ (l <> [] -> a < fold_left Qplus l a).
Proof.
  revert a. induction l as [| x l IH]; intros a Hpos; simpl.
  - split; [lra | congruence].
  - assert (Hx : 0 < x) by (apply Hpos; left; reflexivity).
    destruct (IH (a + x) (fun y Hy => Hpos y (or_intror Hy))) as [Hle _].
    split; [lra | intros _; lra].
Qed.

Lemma sumQ_pos l : l <> [] -> (forall x, In x l -> 0 < x) -> 0 < sumQ l.
Proof. intros Hne Hpos. apply (fold_Qplus_pos l 0 Hpos). exact Hne. Qed.

Lemma Qdiv_pos a b : 0 < a -> 0 < b -> 0 < a / b.
Proof.
  intros Ha Hb. unfold Qdiv. apply Qmult_lt_0_compat; [exact Ha |].
  apply Qinv_lt_0_compat. exact Hb.
Qed.

Lemma groupOf_eligible bins k b :
  In b (groupOf bins k) ->
  0 < distance b /\ 0 < timeInSeconds b /\ gradientKey (gradient b) = k.
Proof.
  unfold groupOf. intros H. apply filter_In in H. destruct H as [H Hk].
  apply filter_In in H. destruct H as [_ He]. unfold chartEligible in He.
  apply andb_true_iff in He. destruct He as [Hd Ht].
  apply Qlt_bool_iff in Hd. apply Qlt_bool_iff in Ht. apply key_eqb_eq in Hk. auto.
Qed.

Lemma weightedPace_pos g : g <> [] ->
  (forall b, In b g -> 0 < distance b /\ 0 < timeInSeconds b) -> 0 < weightedPace g.
Proof.
  intros Hne Hpos. unfold weightedPace.
  assert (Hne' : forall f : Bin -> Q, map f g <> []).
  { intros f. destruct g; [congruence | discriminate]. }
  apply Qdiv_pos; apply Qdiv_pos; try reflexivity; apply sumQ_pos; auto;
    intros x Hx; apply in_map_iff in Hx; destruct Hx as (b & <- & Hb);
    apply (Hpos b Hb).
Qed.

Lemma gradientKey_valid g : validKey (gradientKey g).
Proof.
  unfold gradientKey.
  destruct (Js.Math_round g <=? -35)%Z eqn:E1; [exact I |].
  destruct (Js.Math_round g >=? 35)%Z eqn:E2; [exact I |].
  simpl. apply Z.leb_gt in E1. rewrite Z.geb_leb in E2. apply Z.leb_gt in E2. lia.
Qed.

Lemma chart_entry_facts results entry :
  In entry (getPaceByGradientChart results) ->
  0 < ce_avgPace entry /\ validKey (ce_gradient entry).
Proof.
  intros Hin. destruct (chart_entry_group results entry Hin) as [Hne Heq].
  unfold gradientGroup in *. split.
  - rewrite Heq. cbn [chartEntryOf ce_avgPace snd].
    apply (weightedPace_pos _ Hne).
    intros b Hb. apply groupOf_eligible in Hb. tauto.
  - destruct (groupOf (collectBins results) (ce_gradient entry)) as [| b g] eqn:Eg;
      [congruence |].
    assert (Hb : In b (groupOf (collectBins results) (ce_gradient entry)))
      by (rewrite Eg; left; reflexivity).
    apply groupOf_eligible in Hb. destruct Hb as (_ & _ & <-).
    apply gradientKey_valid.
Qed.

Lemma NoDup_map_injective {A B} (f : A -> B) l a b :
  List.NoDup (map f l) -> In a l -> In b l -> f a = f b -> a = b.
Proof.
  induction l as [| x l IH]; intros Hnd Ha Hb Hf; [destruct Ha |].
  simpl in Hnd. apply List.NoDup_cons_iff in Hnd. destruct Hnd as [Hnot Hnd].
  destruct Ha as [-> | Ha]; destruct Hb as [-> | Hb]; auto.
  - exfalso. apply Hnot. rewrite Hf. apply in_map. exact Hb.
  - exfalso. apply Hnot. rewrite <- Hf. apply in_map. exact Ha.
Qed.

Lemma filter_all {A} (P : A -> bool) l :
  (forall x, In x l -> P x = true) -> List.filter P l = l.
Proof.
  induction l as [| x l IH]; intros H; [reflexivity |].
  simpl. rewrite (H x (or_introl eq_refl)). f_equal. apply IH.
  intros y Hy. apply H. right. exact Hy.
Qed.

Lemma filter_none {A} (P : A -> bool) l :
  (forall x, In x l -> P x = false) -> List.filter P l = [].
Proof.
  induction l as [| x l IH]; intros H; [reflexivity |].
  simpl. rewrite (H x (or_introl eq_refl)). apply IH.
  intros y Hy. apply H. right. exact Hy.
Qed.

Lemma find_first_match {A} (P : A -> bool) l :
  (forall x, In x l -> P x = false) -> List.find P l = None.
Proof.
  induction l as [| x l IH]; intros H; [reflexivity |].
  simpl. rewrite (H x (or_introl eq_refl)). apply IH.
  intros y Hy. apply H. right. exact Hy.
Qed.

Section BasePace.

Variable gradientData : list ChartEntry.
Hypothesis keys_distinct : List.NoDup (map ce_gradient gradientData).
Hypothesis paces_positive : forall e, In e gradientData -> 0 < ce_avgPace e.

Lemma entries_distinct : List.NoDup gradientData.
Proof. exact (NoDup_map_inv _ _ keys_distinct). Qed.

(** First choice: the group at gradient 0. *)
Lemma basePace_flat flat :
  In flat gradientData -> ce_gradient flat = KeyInt 0 ->
  selectBasePace gradientData = Some (ce_avgPace flat).
Proof.
  intros Hin Hk. unfold selectBasePace.
  destruct (List.find _ gradientData) as [x |] eqn:E.
  - apply find_some in E. destruct E as [Hx Hp].
    rewrite keyString_is_zero in Hp. apply key_eqb_eq in Hp.
    rewrite (NoDup_map_injective ce_gradient gradientData x flat); auto.
    congruence.
  - apply (find_none _ _ E) in Hin.
    rewrite keyString_is_zero, Hk in Hin. discriminate.
Qed.

Lemma no_flat_find :
  (forall e, In e gradientData -> ce_gradient e <> KeyInt 0) ->
  List.find (fun item => String.eqb (keyString (ce_gradient item)) "0") gradientData
  = None.
Proof.
  intros H. apply find_first_match. intros x Hx.
  rewrite keyString_is_zero. apply key_eqb_neq. exact (H x Hx).
Qed.

Lemma withinTwoOfZero_spec e :
  withinTwoOfZero e = true
  <-> exists z, ce_gradient e = KeyInt z /\ (-2 <= z <= 2)%Z.
Proof.
  unfold withinTwoOfZero, parseIntKey.
  destruct (ce_gradient e) as [| | z]; split; try discriminate.
  - intros (z' & Hz & _). discriminate Hz.
  - intros (z' & Hz & _). discriminate Hz.
  - intros H. apply andb_true_iff in H. destruct H as [H1 H2].
    apply Z.leb_le in H1. apply Z.leb_le in H2. exists z. split; [reflexivity | lia].
  - intros (z' & [= <-] & Hb). apply andb_true_iff. split; apply Z.leb_le; lia.
Qed.

(** Second choice: the group nearest to 0 among those within two
    degrees. *)
Lemma basePace_near :
  (forall e, In e gradientData -> ce_gradient e <> KeyInt 0) ->
  (exists e, In e gradientData /\ withinTwoOfZero e = true) ->
  exists near,
    In near gradientData /\ withinTwoOfZero near = true /\
    selectBasePace gradientData = Some (ce_avgPace near) /\
    forall e, In e gradientData -> withinTwoOfZero e = true ->
              (distanceFromZero near <= distanceFromZero e)%Z.
Proof.
  intros Hno (e0 & He0 & Hw0). unfold selectBasePace.
  rewrite (no_flat_find Hno).
  set (near := List.filter withinTwoOfZero gradientData).
  assert (Hperm : Permutation (arraySort nearZeroOrder near) near)
    by apply arraySort_perm.
  assert (Hsorted : StronglySorted
                      (fun a b => (distanceFromZero a <= distanceFromZero b)%Z)
                      (arraySort nearZeroOrder near)).
  { apply arraySort_sorted.
    - intros x y Hx Hy _. subst near.
      apply filter_In in Hx. apply filter_In in Hy.
      destruct Hx as [_ Hx]. destruct Hy as [_ Hy].
      unfold nearZeroOrder, distanceFromZero, withinTwoOfZero in *.
      destruct (parseIntKey (ce_gradient x)); [| discriminate].
      destruct (parseIntKey (ce_gradient y)); [| discriminate].
      destruct (Z.abs z - Z.abs z0 <? 0)%Z eqn:E1;
        destruct (Z.abs z <? Z.abs z0)%Z eqn:E2; try reflexivity.
      + apply Z.ltb_lt in E1. apply Z.ltb_ge in E2. lia.
      + apply Z.ltb_ge in E1. apply Z.ltb_lt in E2. lia.
    - subst near. apply List.NoDup_filter. exact entries_distinct. }
  destruct (arraySort nearZeroOrder near) as [| first rest] eqn:Es.
  - exfalso. apply Permutation_nil in Hperm.
    assert (Hin0 : In e0 near) by (apply filter_In; auto).
    rewrite Hperm in Hin0. destruct Hin0.
  - assert (Hfirst : In first near)
      by (apply (Permutation_in _ Hperm); left; reflexivity).
    subst near. apply filter_In in Hfirst. destruct Hfirst as [Hin Hw].
    exists first. repeat split; auto.
    intros e He Hwe.
    assert (Hin' : In e (first :: rest)).
    { apply (Permutation_in _ (Permutation_sym Hperm)). apply filter_In. auto. }
    apply StronglySorted_inv in Hsorted. destruct Hsorted as [_ Hall].
    destruct Hin' as [<- | Hin']; [lia |].
    rewrite List.Forall_forall in Hall. exact (Hall e Hin').
Qed.

(** Third choice: the average of all group paces. *)
Lemma basePace_average :
  (forall e, In e gradientData -> withinTwoOfZero e = false) ->
  gradientData <> [] ->
  selectBasePace gradientData
  = Some (sumQ (map ce_avgPace gradientData) / natQ (List.length gradientData)).
Proof.
  intros Hfar Hne. unfold selectBasePace.
  rewrite no_flat_find.
  - rewrite (filter_none withinTwoOfZero gradientData Hfar).
    unfold arraySort. cbn [fold_left].
    rewrite filter_all.
    + rewrite length_map.
      destruct gradientData; [congruence | reflexivity].
    + intros x Hx. apply truthy_pos. exact (paces_positive x Hx).
  - intros e He Hk. specialize (Hfar e He).
    unfold withinTwoOfZero in Hfar. rewrite Hk in Hfar. discriminate.
Qed.

(** Whichever choice applies, the baseline of a non-empty chart is a
    positive number. *)
Lemma basePace_positive :
  gradientData <> [] ->
  exists base, selectBasePace gradientData = Some base /\ 0 < base.
Proof.
  intros Hne.
  destruct (List.find (fun item => key_eqb (ce_gradient item) (KeyInt 0))
              gradientData) as [flat |] eqn:Ef.
  - apply find_some in Ef. destruct Ef as [Hin Hk]. apply key_eqb_eq in Hk.
    exists (ce_avgPace flat). split; [apply basePace_flat; auto | auto].
  - assert (Hno : forall e, In e gradientData -> ce_gradient e <> KeyInt 0).
    { intros e He. apply key_eqb_neq. exact (find_none _ _ Ef e He). }
    destruct (List.find withinTwoOfZero gradientData) as [n |] eqn:En.
    + apply find_some in En.
      destruct (basePace_near Hno (ex_intro _ n En)) as (near & Hin & _ & Hb & _).
      exists (ce_avgPace near). auto.
    + rewrite basePace_average; [| exact (find_none _ _ En) | exact Hne].
      eexists. split; [reflexivity |].
      apply Qdiv_pos.
      * apply sumQ_pos; [destruct gradientData; [congruence | discriminate] |].
        intros x Hx. apply in_map_iff in Hx. destruct Hx as (e & <- & He). auto.
      * unfold natQ. change 0 with (inject_Z 0). rewrite <- Zlt_Qlt.
        destruct gradientData; [congruence | simpl; lia].
Qed.

End BasePace.

Lemma toFixed_4_close x : Qabs (Js.toFixed 4 x - x) <= 1 # 20000.
Proof.
  unfold Js.toFixed. change (inject_Z (Js.pow10 4)) with 10000.
  destruct (Qle_bool 0 x).
  - pose proof (Qfloor_le (x * 10000 + (1 # 2))) as H1.
    pose proof (Qlt_floor (x * 10000 + (1 # 2))) as H2.
    rewrite inject_Z_plus in H2. change (inject_Z 1) with 1 in H2.
    set (n := inject_Z (Qfloor (x * 10000 + (1 # 2)))) in *.
    unfold Qdiv. change (/ 10000) with (1 # 10000).
    apply Qabs_case; intros _; lra.
  - pose proof (Qfloor_le (- x * 10000 + (1 # 2))) as H1.
    pose proof (Qlt_floor (- x * 10000 + (1 # 2))) as H2.
    rewrite inject_Z_plus in H2. change (inject_Z 1) with 1 in H2.
    set (n := inject_Z (Qfloor (- x * 10000 + (1 # 2)))) in *.
    unfold Qdiv. change (/ 10000) with (1 # 10000).
    apply Qabs_case; intros _; lra.
Qed.

Lemma NoDup_map_on {A B} (f : A -> B) l :
  (forall a b, In a l -> In b l -> f a = f b -> a = b) ->
  List.NoDup l -> List.NoDup (map f l).
Proof.
  induction l as [| x l IH]; intros Hinj Hnd; [constructor |].
  apply List.NoDup_cons_iff in Hnd. destruct Hnd as [Hnot Hnd].
  simpl. constructor.
  - intros Hin. apply in_map_iff in Hin. destruct Hin as (y & Hy & Hin).
    assert (y = x) by (apply Hinj; [right; exact Hin | left; reflexivity | exact Hy]).
    subst y. contradiction.
  - apply IH; [| exact Hnd]. intros a b Ha Hb. apply Hinj; right; assumption.
Qed.

Lemma sorted_strict {A} (r : A -> Z) l :
  StronglySorted (fun a b => (r a <= r b)%Z) l -> List.NoDup (map r l) ->
  StronglySorted (fun a b => (r a < r b)%Z) l.
Proof.
  induction l as [| x l IH]; intros Hs Hnd; [constructor |].
  apply StronglySorted_inv in Hs. destruct Hs as [Hs Hall].
  simpl in Hnd. apply List.NoDup_cons_iff in Hnd. destruct Hnd as [Hnot Hnd].
  constructor; [apply IH; assumption |].
  rewrite List.Forall_forall in Hall |- *. intros y Hy.
  specialize (Hall y Hy).
  assert (r x <> r y) by (intros E; apply Hnot; rewrite E; apply in_map; exact Hy).
  lia.
Qed.

Lemma gradientRank_inj a b :
  validKey a -> validKey b -> gradientRank a = gradientRank b -> a = b.
Proof.
  destruct a, b; simpl; intros Ha Hb H; try reflexivity; try lia.
  congruence.
Qed.

Lemma adjustmentCompare_rank basePace i1 i2 :
  validKey (ce_gradient i1) -> validKey (ce_gradient i2) ->
  ce_gradient i1 <> ce_gradient i2 ->
  (adjustmentCompare (adjustmentEntrySelfContained basePace i1)
     (adjustmentEntrySelfContained basePace i2) <? 0)%Z
  = (gradientRank (ce_gradient i1) <? gradientRank (ce_gradient i2))%Z.
Proof.
  unfold adjustmentCompare, adjustmentEntrySelfContained.
  cbn [ae_gradient ae_gradientValue].
  rewrite !keyString_is_le35, !keyString_is_ge35.
  destruct (ce_gradient i1) as [| | x], (ce_gradient i2) as [| | y];
    simpl; intros H1 H2 Hne; try congruence; try reflexivity;
    symmetry; try (apply Z.ltb_lt; lia); try (apply Z.ltb_ge; lia).
  destruct (x - y <? 0)%Z eqn:E; [apply Z.ltb_lt in E | apply Z.ltb_ge in E].
  - apply Z.ltb_lt. lia.
  - apply Z.ltb_ge. lia.
Qed.

Section AnalysisFacts.

Variable results : list Run.

Local Abbreviation chart := (getPaceByGradientChart results).

Lemma chart_keys_distinct : List.NoDup (map ce_gradient chart).
Proof.
  destruct (gradientMap_invariant (collectBins results)) as [Hnd _].
  apply (Permutation_NoDup (Permutation_sym (chart_keys_perm results))). exact Hnd.
Qed.

Lemma chart_paces_positive e : In e chart -> 0 < ce_avgPace e.
Proof. intros H. apply (chart_entry_facts results e H). Qed.

Lemma adjustmentFactor_ratio base item :
  0 < base -> adjustmentFactor (Some base) item = ce_avgPace item / base.
Proof.
  intros H. unfold adjustmentFactor.
  rewrite (proj2 (Qlt_bool_iff 0 base) H). reflexivity.
Qed.

(** The entries of either revision are the entries of the chart, one
    for one. *)
Lemma adjustmentData_of_chart rev entry :
  In entry (adjustmentData (getGradeAdjustmentAnalysis rev results)) ->
  exists item,
    In item chart /\ ae_gradient entry = ce_gradient item /\
    ae_avgPace entry = ce_avgPace item /\
    ae_binCount entry = ce_binCount item /\
    ae_personalAdjustment entry
    = Js.toFixed 4 (adjustmentFactor (selectBasePace chart) item).
Proof.
  destruct rev; cbn [getGradeAdjustmentAnalysis adjustmentData]; intros Hin.
  - apply in_map_iff in Hin. destruct Hin as (item & <- & Hin).
    exists item. repeat split; auto.
  - apply (Permutation_in _ (arraySort_perm _ _)) in Hin.
    apply in_map_iff in Hin. destruct Hin as (item & <- & Hin).
    exists item. repeat split; auto.
Qed.

Lemma adjustmentData_keys rev :
  Permutation
    (map ae_gradient (adjustmentData (getGradeAdjustmentAnalysis rev results)))
    (map ce_gradient chart).
Proof.
  destruct rev; cbn [getGradeAdjustmentAnalysis adjustmentData].
  - rewrite map_map. reflexivity.
  - rewrite (Permutation_map ae_gradient (arraySort_perm _ _)).
    rewrite map_map. reflexivity.
Qed.

(** The final sort of the self-contained revision puts the entries in
    ascending order of gradient. *)
Lemma selfContained_sorted :
  StronglySorted
    (fun a b => (gradientRank (ae_gradient a) < gradientRank (ae_gradient b))%Z)
    (adjustmentData (getGradeAdjustmentAnalysis SelfContained results)).
Proof.
  cbn [getGradeAdjustmentAnalysis adjustmentData].
  set (base := selectBasePace chart).
  set (L := map (adjustmentEntrySelfContained base) chart).
  assert (HkL : map ae_gradient L = map ce_gradient chart)
    by (subst L; rewrite map_map; reflexivity).
  assert (HndL : List.NoDup L).
  { apply (NoDup_map_inv ae_gradient). rewrite HkL. apply chart_keys_distinct. }
  apply sorted_strict.
  - apply arraySort_sorted; [| exact HndL].
    intros x y Hx Hy Hne. subst L.
    apply in_map_iff in Hx. destruct Hx as (i1 & <- & H1).
    apply in_map_iff in Hy. destruct Hy as (i2 & <- & H2).
    apply adjustmentCompare_rank.
    + apply (chart_entry_facts results i1 H1).
    + apply (chart_entry_facts results i2 H2).
    + intros Hk. apply Hne. f_equal.
      exact (NoDup_map_injective ce_gradient _ i1 i2 chart_keys_distinct H1 H2 Hk).
  - apply (Permutation_NoDup
             (Permutation_map (fun e => gradientRank (ae_gradient e))
                (Permutation_sym (arraySort_perm adjustmentCompare L)))).
    rewrite <- (map_map ae_gradient gradientRank), HkL.
    apply NoDup_map_on; [| apply chart_keys_distinct].
    intros a b Ha Hb. apply in_map_iff in Ha. apply in_map_iff in Hb.
    destruct Ha as (i1 & <- & H1). destruct Hb as (i2 & <- & H2).
    apply gradientRank_inj.
    + apply (chart_entry_facts results i1 H1).
    + apply (chart_entry_facts results i2 H2).
Qed.

End AnalysisFacts.




(** The revision that imports Coefficients.js sorts only inside
    [getPaceByGradientChart], whose comparator never recognises the
    sentinel keys: on the ravine run the key for <= -35 ends up after
    the key 5.  The self-contained revision puts it first. *)
Lemma sentinel_order_by_revision :
  map ae_gradient
    (adjustmentData (getGradeAdjustmentAnalysis WithCoefficientsModule ravineRun))
  = [KeyInt 5; KeyLE35] /\
  map ae_gradient
    (adjustmentData (getGradeAdjustmentAnalysis SelfContained ravineRun))
  = [KeyLE35; KeyInt 5].
Proof. split; vm_compute; reflexivity. Qed.

(** ** The batch handler: facts *)

Section BatchFacts.

Import Batch.

Variable Stats : Type.
Variable processFile : string -> string -> Outcome (Processed Stats).
Variable getRoutePoints : string -> string -> Outcome (option (list Point)).
Variable haversine : Q -> Q -> Q -> Q -> Q.
Variable rev : Revision.
Variable binLength : Q.
Variable totalFiles : nat.

Local Abbreviation fails := (fileFails Stats processFile getRoutePoints).
Local Abbreviation one := (processOne Stats processFile getRoutePoints haversine rev
                             binLength).
Local Abbreviation step := (loopStep Stats processFile getRoutePoints haversine rev
                              binLength totalFiles).

(** The [try]/[catch] around one file adds one entry: an error with
    the file's name when the file fails, a result with the file's
    index otherwise. *)
Lemma processOne_spec i file results errors :
  (fails file = true /\
   exists e, one i file results errors = (results, errors ++ [e])
             /\ fe_filename e = originalname file) \/
  (fails file = false /\
   exists r, one i file results errors = (results ++ [r], errors)
             /\ fr_fileIndex Stats r = i).
Proof.
  unfold fileFails, processOne.
  destruct (processFile (buffer file) (originalname file)) as [[err | stats] | msg].
  - left. split; [reflexivity |]. eexists. split; reflexivity.
  - destruct (getRoutePoints (buffer file) (originalname file)) as [pts | msg].
    + right. split; [reflexivity |]. eexists. split; reflexivity.
    + left. split; [reflexivity |]. eexists. split; reflexivity.
  - left. split; [reflexivity |]. eexists. split; reflexivity.
Qed.

Lemma loop_spec l i st :
  (List.length (allResults Stats st) + List.length (allErrors Stats st) = i)%nat ->
  let st' := fold_left step (combine (seq i (List.length l)) l) st in
  exists newResults newErrors events,
    allResults Stats st' = allResults Stats st ++ newResults /\
    allErrors Stats st' = allErrors Stats st ++ newErrors /\
    written Stats st' = written Stats st ++ events /\
    forallb (isProgress Stats) events = true /\
    map (eventFileIndex Stats) events = seq (S i) (List.length l) /\
    map (eventFilesProcessed Stats) events = seq (S i) (List.length l) /\
    map (fe_filename) newErrors = map originalname (List.filter fails l) /\
    List.length newResults
    = List.length (List.filter (fun f => negb (fails f)) l).
Proof.
  revert i st. induction l as [| file l IH]; intros i st Hi; cbn [List.length seq combine fold_left].
  - exists [], [], []. rewrite !app_nil_r. repeat split; reflexivity.
  - set (st1 := step st (i, file)).
    assert (H1 : exists r1 e1,
               allResults Stats st1 = allResults Stats st ++ r1 /\
               allErrors Stats st1 = allErrors Stats st ++ e1 /\
               (List.length r1 + List.length e1 = 1)%nat /\
               written Stats st1
               = written Stats st
                 ++ [Progress (i + 1) totalFiles
                       (Js.Math_round (Js.mul (Js.div (natQ (i + 1)) (natQ totalFiles)) 100))
                       (S i) (originalname file)
                       (allResults Stats st1) (allErrors Stats st1)] /\
               map (fe_filename) e1
               = map originalname (if fails file then [file] else []) /\
               List.length r1 = (if fails file then 0 else 1)%nat).
    { subst st1. unfold loopStep.
      destruct (processOne_spec i file (allResults Stats st) (allErrors Stats st))
        as [(Hf & e & -> & He) | (Hf & r & -> & Hr)]; rewrite Hf;
        cbn [allResults allErrors written].
      - exists [], [e]. rewrite app_nil_r, length_app. cbn [List.length map].
        rewrite He. repeat split; try reflexivity.
        do 4 f_equal. lia.
      - exists [r], []. rewrite app_nil_r, length_app. cbn [List.length map].
        repeat split; try reflexivity.
        do 4 f_equal. lia. }
    destruct H1 as (r1 & e1 & Hr1 & He1 & Hlen & Hw1 & Hn1 & Hc1).
    destruct (IH (S i) st1) as (r2 & e2 & ev & Hr2 & He2 & Hw2 & Hp & Hfi & Hfp & Hn2 & Hc2).
    { rewrite Hr1, He1, !length_app. lia. }
    exists (r1 ++ r2), (e1 ++ e2), (Progress (i + 1) totalFiles
                       (Js.Math_round (Js.mul (Js.div (natQ (i + 1)) (natQ totalFiles)) 100))
                       (S i) (originalname file)
                       (allResults Stats st1) (allErrors Stats st1) :: ev).
    split; [rewrite Hr2, Hr1, app_assoc; reflexivity |].
    split; [rewrite He2, He1, app_assoc; reflexivity |].
    split; [rewrite Hw2, Hw1, <- app_assoc; reflexivity |].
    split; [exact Hp |].
    cbn [map eventFileIndex eventFilesProcessed List.filter].
    split; [rewrite Hfi; f_equal; lia |].
    split; [rewrite Hfp; reflexivity |].
    rewrite map_app, length_app, Hn1, Hn2, Hc1, Hc2.
    split; destruct (fails file); reflexivity.
Qed.

End BatchFacts.

Section BatchEntries.

Variable Stats : Type.
Variable processFile : string -> string -> Batch.Outcome (Batch.Processed Stats).
Variable getRoutePoints : string -> string -> Batch.Outcome (option (list Point)).
Variable haversine : Q -> Q -> Q -> Q -> Q.
Variable rev : Revision.
Variable binLength : Q.
Variable totalFiles : nat.

Local Abbreviation errorOf := (Batch.errorOf Stats processFile getRoutePoints).
Local Abbreviation one := (Batch.processOne Stats processFile getRoutePoints
                             haversine rev binLength).
Local Abbreviation step := (Batch.loopStep Stats processFile getRoutePoints
                              haversine rev binLength totalFiles).

Lemma fileFails_errorOf file :
  Batch.fileFails Stats processFile getRoutePoints file
  = Helper.isDefined (errorOf file).
Proof.
  unfold Batch.fileFails, Batch.errorOf.
  destruct (processFile _ _) as [[err | stats] | msg]; try reflexivity.
  destruct (getRoutePoints _ _); reflexivity.
Qed.

(** What one file adds: an error entry with its name and its message
    when it fails, a result with its index otherwise. *)
Lemma processOne_entry i file results errors :
  match errorOf file with
  | Some error =>
      one i file results errors
      = (results, errors ++ [{| Batch.fe_filename := Batch.originalname file;
                               Batch.fe_error := error |}])
  | None =>
      exists r, one i file results errors = (results ++ [r], errors) /\
                Batch.fr_fileIndex Stats r = i
  end.
Proof.
  unfold Batch.errorOf, Batch.processOne.
  destruct (processFile _ _) as [[err | stats] | msg]; try reflexivity.
  destruct (getRoutePoints _ _) as [pts | msg]; [| reflexivity].
  eexists. split; reflexivity.
Qed.

Lemma loop_entries l : forall i st,
  let st' := fold_left step (combine (seq i (List.length l)) l) st in
  exists newResults,
    Batch.allResults Stats st' = Batch.allResults Stats st ++ newResults /\
    Batch.allErrors Stats st' = Batch.allErrors Stats st ++ Batch.errorEntries errorOf l /\
    map (Batch.fr_fileIndex Stats) newResults
    = map fst (List.filter (fun entry => negb (Helper.isDefined (errorOf (snd entry))))
                 (combine (seq i (List.length l)) l)).
Proof.
  induction l as [| file l IH]; intros i st; cbn [List.length seq combine fold_left].
  - exists []. rewrite !app_nil_r. repeat split.
  - destruct (IH (S i) (step st (i, file))) as (r2 & Hr2 & He2 & Hi2).
    pose proof (processOne_entry i file (Batch.allResults Stats st)
                  (Batch.allErrors Stats st)) as H1.
    assert (Hst : Batch.allResults Stats (step st (i, file))
                  = fst (one i file (Batch.allResults Stats st) (Batch.allErrors Stats st))
                  /\ Batch.allErrors Stats (step st (i, file))
                     = snd (one i file (Batch.allResults Stats st)
                              (Batch.allErrors Stats st))).
    { unfold Batch.loopStep.
      destruct (one i file (Batch.allResults Stats st) (Batch.allErrors Stats st)).
      split; reflexivity. }
    destruct Hst as [Hsr Hse]. rewrite Hsr in Hr2. rewrite Hse in He2.
    unfold Batch.errorEntries. cbn [flat_map List.filter snd]. fold (Batch.errorEntries errorOf l).
    destruct (errorOf file) as [error |]; cbn [Helper.isDefined negb].
    + rewrite H1 in Hr2, He2. cbn [fst snd] in Hr2, He2.
      exists r2. rewrite Hr2, He2, <- app_assoc. repeat split. exact Hi2.
    + destruct H1 as (r & H1 & Hidx). rewrite H1 in Hr2, He2.
      cbn [fst snd] in Hr2, He2.
      exists (r :: r2). rewrite Hr2, He2, <- app_assoc. cbn [map fst app].
      rewrite Hidx, Hi2. repeat split.
Qed.

End BatchEntries.

(** The files the helper module fails on are those of [Helper.failure],
    with its message: neither of its route-point functions throws. *)
Lemma helper_errorOf parseGPX parseFIT fitRoutePoint file :
  Batch.errorOf (option Helper.FileStats) (Helper.processFile parseGPX parseFIT)
    (Helper.getRoutePoints parseGPX parseFIT fitRoutePoint) file
  = Helper.failure parseGPX parseFIT file.
Proof.
  unfold Batch.errorOf, Helper.failure, Helper.processFile, Helper.getRoutePoints,
    processFile, getRoutePoints.
  cbv zeta.
  destruct (String.eqb (extensionOf (Batch.originalname file)) "gpx").
  - unfold Helper.processGPXFile, Helper.getGPXRoutePoints, Helper.errorObject.
    destruct (parseGPX (Batch.buffer file)) as [gpx | message].
    + cbv zeta. destruct (Helper.rawPointsOf gpx); reflexivity.
    + destruct (String.eqb message EmptyString); reflexivity.
  - destruct (String.eqb (extensionOf (Batch.originalname file)) "fit"); [| reflexivity].
    unfold Helper.processFITFile, Helper.getFITRoutePoints, Helper.errorObject.
    destruct (parseFIT (Batch.buffer file)) as [message | message | data].
    + destruct (String.eqb message EmptyString); reflexivity.
    + reflexivity.
    + destruct (Helper.sessionsAndRecords data). reflexivity.
Qed.

Lemma errorEntries_ext (f g : Batch.File -> option string) l :
  (forall file, f file = g file) -> Batch.errorEntries f l = Batch.errorEntries g l.
Proof.
  intros H. unfold Batch.errorEntries. induction l as [| file l IH]; [reflexivity |].
  cbn [flat_map]. rewrite H, IH. reflexivity.
Qed.

Lemma errorEntries_length (f : Batch.File -> option string) l :
  (List.length (Batch.errorEntries f l)
   + List.length (List.filter (fun entry => negb (Helper.isDefined (f (snd entry))))
                    (combine (seq 0 (List.length l)) l)))%nat
  = List.length l.
Proof.
  generalize 0%nat. unfold Batch.errorEntries.
  induction l as [| file l IH]; intros i; [reflexivity |].
  cbn [flat_map List.length seq combine List.filter snd]. rewrite length_app.
  specialize (IH (S i)).
  destruct (f file); cbn [Helper.isDefined negb List.length] in *; lia.
Qed.

(** C5, as the code has it.  For a stored batch of N files the handler
    writes one initial progress event (0 files processed), then one
    progress event after each file, then one terminal event, and removes
    the batch from the registry.  A file fails when its extension is
    neither gpx nor fit, when its parser reports an error or throws one
    with a message that is not empty, or when it is a GPX file without
    a track point; it then adds an error entry with its name and the
    message, and the loop goes on.  Every other file adds a result that
    carries its position in the batch, a FIT file without a usable
    point among them.  The k-th per-file event reports k files
    processed. *)
Theorem processBatch_stream :
  forall (parseGPX : string -> Batch.Outcome Helper.Gpx)
         (parseFIT : string -> Helper.FitParse)
         (fitRoutePoint : Helper.FitRecord -> Point)
         (haversine : Q -> Q -> Q -> Q -> Q) (rev : Revision)
         (batchFiles : gmap string Batch.BatchData) (batchId : string)
         (batchData : Batch.BatchData),
    batchFiles !! batchId = Some batchData ->
    let Stats := option Helper.FileStats in
    let n := List.length (Batch.files batchData) in
    let errors := Helper.errorEntries parseGPX parseFIT (Batch.files batchData) in
    exists progress results,
      Batch.processBatch Stats (Helper.processFile parseGPX parseFIT)
        (Helper.getRoutePoints parseGPX parseFIT fitRoutePoint) haversine rev
        batchFiles batchId
      = (delete batchId batchFiles,
         Batch.EventStream
           (Batch.Progress 0 n 0 0 "Starting analysis..." [] []
              :: progress
              ++ [Batch.Complete n (List.length results) (List.length errors)
                    results errors])) /\
      List.length progress = n /\
      forallb (Batch.isProgress Stats) progress = true /\
      map (Batch.eventFileIndex Stats) progress = seq 1 n /\
      map (Batch.eventFilesProcessed Stats) progress = seq 1 n /\
      map (Batch.fr_fileIndex Stats) results
      = Helper.successIndices parseGPX parseFIT (Batch.files batchData) /\
      (List.length results + List.length errors = n)%nat /\
      delete batchId batchFiles !! batchId = None.
Proof.
  intros parseGPX parseFIT fitRoutePoint haversine rev batchFiles batchId batchData
    Hlookup Stats n errors.
  set (pf := Helper.processFile parseGPX parseFIT).
  set (grp := Helper.getRoutePoints parseGPX parseFIT fitRoutePoint).
  unfold Batch.processBatch. rewrite Hlookup. cbv zeta.
  unfold Batch.runLoop, Batch.indexed.
  set (st0 := {| Batch.allResults := []; Batch.allErrors := [];
                 Batch.written :=
                   [Batch.Progress 0 (List.length (Batch.files batchData)) 0 0
                      "Starting analysis..." [] []] |}).
  destruct (loop_spec Stats pf grp haversine rev (Batch.binLength batchData)
              (List.length (Batch.files batchData))
              (Batch.files batchData) 0 st0 eq_refl)
    as (results & errs & events & Hr & He & Hw & Hp & Hfi & Hfp & _ & _).
  destruct (loop_entries Stats pf grp haversine rev (Batch.binLength batchData)
              (List.length (Batch.files batchData))
              (Batch.files batchData) 0 st0)
    as (results' & Hr' & He' & Hi').
  cbn [Batch.allResults Batch.allErrors Batch.written app st0] in Hr, He, Hw, Hr', He'.
  assert (Herr : Batch.errorEntries (Batch.errorOf Stats pf grp) (Batch.files batchData) = errors).
  { apply errorEntries_ext. intros file. apply helper_errorOf. }
  rewrite Herr in He'.
  assert (Hidx : map (Batch.fr_fileIndex Stats) results'
                 = Helper.successIndices parseGPX parseFIT (Batch.files batchData)).
  { rewrite Hi'. unfold Helper.successIndices. f_equal.
    apply List.filter_ext. intros entry. unfold pf, grp. rewrite helper_errorOf.
    reflexivity. }
  exists events, results'. rewrite Hw, Hr', He'.
  assert (Hlen : List.length events = n).
  { rewrite <- (length_map (Batch.eventFileIndex Stats)), Hfi. apply length_seq. }
  split; [reflexivity |].
  split; [exact Hlen |].
  split; [exact Hp |].
  split; [exact Hfi |].
  split; [exact Hfp |].
  split; [exact Hidx |].
  split; [| apply lookup_delete_eq].
  rewrite <- (length_map (Batch.fr_fileIndex Stats)), Hidx.
  unfold Helper.successIndices. rewrite length_map.
  rewrite Nat.add_comm. unfold errors, Helper.errorEntries.
  apply (errorEntries_length (Helper.failure parseGPX parseFIT)).
Qed.

Lemma processBatch_stream_witness :
  exists progress results,
    Batch.processBatch (option Helper.FileStats)
      (Helper.processFile Helper.sampleParseGPX Helper.sampleParseFIT)
      (Helper.getRoutePoints Helper.sampleParseGPX Helper.sampleParseFIT
         Helper.sampleFitRoutePoint)
      arcHaversine WithCoefficientsModule Helper.mixedRegistry "1700000000000"
    = (delete "1700000000000" Helper.mixedRegistry,
       Batch.EventStream
         (Batch.Progress 0 3 0 0 "Starting analysis..." [] []
            :: progress
            ++ [Batch.Complete 3 (List.length results) 1 results
                  [{| Batch.fe_filename := "b.gpx";
                      Batch.fe_error := "Invalid GPX" |}]])) /\
    List.length progress = 3%nat /\
    map (Batch.fr_fileIndex (option Helper.FileStats)) results = [0; 2]%nat.
Proof.
  destruct (processBatch_stream Helper.sampleParseGPX Helper.sampleParseFIT
              Helper.sampleFitRoutePoint arcHaversine WithCoefficientsModule
              Helper.mixedRegistry "1700000000000" Helper.mixedBatch)
    as (progress & results & H1 & H2 & _ & _ & _ & H6 & _).
  - apply lookup_insert_eq.
  - exists progress, results. split; [exact H1 |]. split; [exact H2 | exact H6].
Defined.

(** C5 as stated fails.  For three files, the second of which does
    not parse and the third of which is a FIT file whose only record
    has no position, the stream holds four progress events before the
    terminal event, not three; and the FIT file, with zero usable
    points, is not an error: it is the second of two results, with a
    point count of 0, and the only error is the second file.  A file
    on which the parser throws an error without a message is not
    recorded as an error either: it is a result without statistics. *)
Lemma three_files_four_progress_events :
  match snd (Batch.processBatch (option Helper.FileStats)
               (Helper.processFile Helper.sampleParseGPX Helper.sampleParseFIT)
               (Helper.getRoutePoints Helper.sampleParseGPX Helper.sampleParseFIT
                  Helper.sampleFitRoutePoint)
               arcHaversine WithCoefficientsModule
               Helper.mixedRegistry "1700000000000") with
  | Batch.EventStream events =>
      List.length (List.filter (Batch.isProgress _) events) = 4%nat /\
      List.length (List.filter (Batch.isTerminal _) events) = 1%nat /\
      map (Batch.eventFileIndex _) (List.filter (Batch.isProgress _) events)
      = [0; 1; 2; 3]%nat /\
      match List.last events (Batch.ErrorEvent EmptyString) with
      | Batch.Complete totalFiles successfulFiles failedFiles results errors =>
          totalFiles = 3%nat /\ successfulFiles = 2%nat /\ failedFiles = 1%nat /\
          map Batch.fe_filename errors = ["b.gpx"%string] /\
          map (fun r => option_map Helper.st_filename (Batch.fr_stats _ r)) results
          = [Some "a.gpx"%string; Some "c.fit"%string] /\
          map (fun r => option_map Helper.st_pointCount (Batch.fr_stats _ r)) results
          = [Some 3%nat; Some 0%nat] /\
          map (Batch.fr_routePointCount _) results = [3; 0]%nat
      | _ => False
      end
  | Batch.NotFound _ => False
  end /\
  match snd (Batch.processBatch (option Helper.FileStats)
               (Helper.processFile Helper.sampleParseGPX Helper.sampleParseFIT)
               (Helper.getRoutePoints Helper.sampleParseGPX Helper.sampleParseFIT
                  Helper.sampleFitRoutePoint)
               arcHaversine WithCoefficientsModule
               Helper.silentRegistry "1700000000001") with
  | Batch.EventStream events =>
      match List.last events (Batch.ErrorEvent EmptyString) with
      | Batch.Complete totalFiles successfulFiles failedFiles results errors =>
          totalFiles = 1%nat /\ successfulFiles = 1%nat /\ failedFiles = 0%nat /\
          errors = [] /\
          map (Batch.fr_stats _) results = [None]
      | _ => False
      end
  | Batch.NotFound _ => False
  end.
Proof. vm_compute. repeat split. Qed.

(** * Further properties of the code *)

(** ** The binning engine: distances *)

Lemma sumQ_snoc_eq l x : sumQ (l ++ [x]) == sumQ l + x.
Proof. rewrite sumQ_snoc. reflexivity. Qed.

Lemma chained_length start bs stop :
  chained start bs stop -> (start + List.length bs <= stop)%nat.
Proof.
  revert start. induction bs as [| b bs IH]; intros start H; simpl in *.
  - lia.
  - destruct H as (_ & Hlt & Hc). specialize (IH _ Hc). lia.
Qed.

Section EngineDistances.

Variable haversine : Q -> Q -> Q -> Q -> Q.
Variable rev : Revision.
Variable points : list Point.
Variable binLength : Q.
Variable polyCoeffs : option (list Q).
Variable newAdjustedVelocity : option Q.

Local Abbreviation upTo := (scanUpTo haversine rev points binLength polyCoeffs
                              newAdjustedVelocity).
Local Abbreviation plen := (pathLength haversine points).
Local Abbreviation theBins := (getAnalysisBins haversine rev points binLength polyCoeffs
                                 newAdjustedVelocity).

Lemma pathLength_add a b d : (a <= b)%nat -> plen a (b + d) == plen a b + plen b (b + d).
Proof.
  intros Hab. induction d as [| d IH].
  - rewrite Nat.add_0_r, pathLength_same. ring.
  - rewrite Nat.add_succ_r, !pathLength_S by lia. rewrite IH. ring.
Qed.

Lemma pathLength_split a b c :
  (a <= b)%nat -> (b <= c)%nat -> plen a c == plen a b + plen b c.
Proof.
  intros Hab Hbc. replace c with (b + (c - b))%nat by lia.
  apply pathLength_add. exact Hab.
Qed.

Lemma pathLength_nonneg a b :
  (forall lat1 lon1 lat2 lon2, 0 <= haversine lat1 lon1 lat2 lon2) -> 0 <= plen a b.
Proof.
  intros Hpos. unfold pathLength.
  assert (H : forall l acc, 0 <= acc ->
                0 <= fold_left Qplus (map (segDist haversine points) l) acc).
  { induction l as [| i l IH]; intros acc Hacc; simpl; [exact Hacc |].
    apply IH. pose proof (Hpos (lat (pointAt points (i - 1)))
                            (lon (pointAt points (i - 1)))
                            (lat (pointAt points i)) (lon (pointAt points i))) as Hs.
    unfold segDist. lra. }
  apply H. lra.
Qed.

(** While the scan runs, the distance walked since the last closed bin
    stays below [binLength], and the closed bins add up to the path
    from the first point to the last closing point. *)
Lemma scan_distances k :
  let st := upTo k in
  (cumDist st < binLength \/ lastBinIdx st = k) /\
  sumQ (map distance (bins st)) == plen 0 (lastBinIdx st).
Proof.
  induction k as [| k IH].
  - split; [right; reflexivity |]. simpl. rewrite pathLength_same. reflexivity.
  - destruct IH as (_ & Hsum).
    destruct (scan_invariant haversine rev points binLength polyCoeffs
                newAdjustedVelocity k) as (_ & Hle & Hd & _).
    rewrite scanUpTo_S. unfold scanStep.
    rewrite Hd, <- (pathLength_S haversine points _ _ Hle).
    destruct (Qle_bool binLength (plen (lastBinIdx (upTo k)) (S k))) eqn:E;
      cbn [bins lastBinIdx cumDist].
    + split; [right; reflexivity |].
      rewrite map_app. cbn [map]. rewrite sumQ_snoc_eq, Hsum.
      unfold buildBin. cbn [distance].
      symmetry. apply pathLength_split; lia.
    + split; [left | exact Hsum].
      apply Qnot_le_lt. intros H. apply Qle_bool_iff in H. congruence.
Qed.

(** The result is the closed bins, followed by the final partial bin
    when one is emitted; the partial bin is shorter than [binLength]. *)
Lemma getAnalysisBins_shape :
  (2 <= List.length points)%nat ->
  let st := upTo (List.length points - 1) in
  theBins = bins st \/
  exists final,
    theBins = bins st ++ [final] /\
    distance final = cumDist st /\ 0 < distance final /\
    distance final < binLength /\
    startIdx final = lastBinIdx st /\
    endIdx final = (List.length points - 1)%nat /\
    (lastBinIdx st < List.length points - 1)%nat.
Proof.
  intros Hn st. unfold getAnalysisBins.
  destruct (Nat.ltb (List.length points) 2) eqn:E0;
    [apply Nat.ltb_lt in E0; lia |].
  rewrite scan_is_scanUpTo. fold st.
  destruct (Nat.ltb (lastBinIdx st) (List.length points - 1)) eqn:E1;
    [| left; reflexivity].
  destruct (Js.Qlt_bool 0 (cumDist st)) eqn:E2; [| left; reflexivity].
  right. eexists. split; [reflexivity |].
  apply Nat.ltb_lt in E1. apply Qlt_bool_iff in E2.
  destruct (scan_distances (List.length points - 1)) as ([Hlt | Heq] & _).
  - cbn [buildBin distance startIdx endIdx]. fold st in Hlt. auto 10.
  - fold st in Heq. lia.
Qed.

End EngineDistances.

Lemma getAnalysisBins_short haversine rev points binLength polyCoeffs vel :
  (List.length points < 2)%nat ->
  getAnalysisBins haversine rev points binLength polyCoeffs vel = [].
Proof.
  intros H. unfold getAnalysisBins. apply Nat.ltb_lt in H. rewrite H. reflexivity.
Qed.

Lemma closed_bins_long haversine rev points binLength polyCoeffs vel k b :
  In b (bins (scanUpTo haversine rev points binLength polyCoeffs vel k)) ->
  binLength <= distance b.
Proof.
  intros Hin.
  destruct (scan_invariant haversine rev points binLength polyCoeffs vel k)
    as (_ & _ & _ & Hall).
  rewrite List.Forall_forall in Hall.
  destruct (Hall b Hin) as (s & e & _ & _ & Hlen & ->). exact Hlen.
Qed.

(** X1.  Fewer than two points give no bin, and n points give at most
    n-1 bins. *)
Theorem getAnalysisBins_count :
  forall haversine rev points binLength polyCoeffs newAdjustedVelocity,
    let bs := getAnalysisBins haversine rev points binLength polyCoeffs
                newAdjustedVelocity in
    (List.length bs <= List.length points - 1)%nat /\
    ((List.length points < 2)%nat -> bs = []).
Proof.
  intros haversine rev points binLength polyCoeffs vel bs. subst bs.
  split; [| apply getAnalysisBins_short].
  destruct (Nat.lt_ge_cases (List.length points) 2) as [Hlt | Hge].
  - rewrite (getAnalysisBins_short _ _ _ _ _ _ Hlt). simpl. lia.
  - destruct (getAnalysisBins_chained haversine rev points binLength polyCoeffs vel Hge)
      as (stop & Hc & Hle & _).
    apply chained_length in Hc. lia.
Qed.

Lemma getAnalysisBins_count_witness :
  getAnalysisBins arcHaversine SelfContained [trackPoint 0 0 None None] 50 None None
  = [].
Proof.
  apply (getAnalysisBins_count arcHaversine SelfContained [trackPoint 0 0 None None]
           50 None None).
  simpl. lia.
Defined.

(** X2.  Every bin but the last spans at least [binLength]; the last
    bin either does too, or it is the final partial bin: shorter than
    [binLength], of positive length, and ending at the last point. *)
Theorem getAnalysisBins_bin_lengths :
  forall haversine rev points binLength polyCoeffs newAdjustedVelocity k b,
    let bs := getAnalysisBins haversine rev points binLength polyCoeffs
                newAdjustedVelocity in
    nth_error bs k = Some b ->
    ((S k < List.length bs)%nat -> binLength <= distance b) /\
    (binLength <= distance b \/
     (0 < distance b /\ distance b < binLength /\
      endIdx b = (List.length points - 1)%nat /\ S k = List.length bs)).
Proof.
  intros haversine rev points binLength polyCoeffs vel k b bs Hk. subst bs.
  destruct (Nat.lt_ge_cases (List.length points) 2) as [Hlt | Hge].
  { rewrite (getAnalysisBins_short _ _ _ _ _ _ Hlt) in Hk. destruct k; discriminate. }
  destruct (getAnalysisBins_shape haversine rev points binLength polyCoeffs vel Hge)
    as [Heq | (final & Heq & _ & Hpos & Hshort & _ & Hend & _)];
    rewrite Heq in *.
  - assert (binLength <= distance b).
    { eapply closed_bins_long. eapply nth_error_In. exact Hk. }
    auto.
  - rewrite length_app. cbn [List.length].
    destruct (Nat.lt_ge_cases k
                (List.length (bins (scanUpTo haversine rev points binLength
                                      polyCoeffs vel (List.length points - 1)))))
      as [Hin | Hout].
    + rewrite nth_error_app1 in Hk by exact Hin.
      assert (binLength <= distance b).
      { eapply closed_bins_long. eapply nth_error_In. exact Hk. }
      auto.
    + rewrite nth_error_app2 in Hk by exact Hout.
      destruct (k - _)%nat as [| j] eqn:Ej; [| destruct j; discriminate].
      injection Hk as <-. split; [intros; lia |].
      right. repeat split; auto. lia.
Qed.

Lemma getAnalysisBins_bin_lengths_witness :
  let b := buildBin quarticAdjFactor climb None None 1 2
             (0 + segDist arcHaversine climb 2) in
  50 <= distance b \/
  (0 < distance b /\ distance b < 50 /\ endIdx b = 2%nat /\ 2%nat = 2%nat).
Proof.
  apply (getAnalysisBins_bin_lengths arcHaversine WithCoefficientsModule climb 50
           None None 1).
  vm_compute. reflexivity.
Defined.

(** X3.  The distances of the bins add up to the length of the path
    from the first point to the end of the last bin; when no segment
    has a negative length this is the length of the whole path. *)
Theorem getAnalysisBins_total_distance :
  forall haversine rev points binLength polyCoeffs newAdjustedVelocity,
    let bs := getAnalysisBins haversine rev points binLength polyCoeffs
                newAdjustedVelocity in
    sumQ (map distance bs)
    == pathLength haversine points 0 (List.last (map endIdx bs) 0%nat) /\
    ((forall lat1 lon1 lat2 lon2, 0 <= haversine lat1 lon1 lat2 lon2) ->
     sumQ (map distance bs) == pathLength haversine points 0 (List.length points - 1)).
Proof.
  intros haversine rev points binLength polyCoeffs vel bs. subst bs.
  destruct (Nat.lt_ge_cases (List.length points) 2) as [Hlt | Hge].
  { rewrite (getAnalysisBins_short _ _ _ _ _ _ Hlt). cbn [map List.last].
    replace (List.length points - 1)%nat with 0%nat by lia.
    rewrite pathLength_same. split; [reflexivity | intros _; reflexivity]. }
  destruct (getAnalysisBins_chained haversine rev points binLength polyCoeffs vel Hge)
    as (stop & Hc & Hle & Hstop).
  rewrite (chained_last _ _ _ Hc).
  assert (Hsum : sumQ (map distance
                         (getAnalysisBins haversine rev points binLength polyCoeffs vel))
                 == pathLength haversine points 0 stop).
  { destruct (scan_distances haversine rev points binLength polyCoeffs vel
                (List.length points - 1)) as (_ & Hs).
    destruct (scan_invariant haversine rev points binLength polyCoeffs vel
                (List.length points - 1)) as (Hc0 & Hle0 & Hd0 & _).
    destruct (getAnalysisBins_shape haversine rev points binLength polyCoeffs vel Hge)
      as [Heq | (final & Heq & Hdist & _ & _ & Hstart & Hend & _)];
      rewrite Heq in Hc |- *.
    - rewrite <- (chained_last _ _ _ Hc), (chained_last _ _ _ Hc0). exact Hs.
    - assert (stop = (List.length points - 1)%nat) as ->.
      { rewrite <- (chained_last _ _ _ Hc), map_app. cbn [map].
        rewrite List.last_last. exact Hend. }
      rewrite map_app. cbn [map]. rewrite sumQ_snoc_eq, Hs, Hdist, Hd0.
      symmetry. apply pathLength_split; lia. }
  split; [exact Hsum |].
  intros Hpos. rewrite Hsum.
  destruct Hstop as [-> | Hzero]; [reflexivity |].
  rewrite (pathLength_split haversine points 0 stop (List.length points - 1))
    by lia.
  pose proof (pathLength_nonneg haversine points stop (List.length points - 1) Hpos).
  assert (pathLength haversine points stop (List.length points - 1) == 0).
  { apply Qle_antisym; [apply Qnot_lt_le; exact Hzero | assumption]. }
  lra.
Qed.

Lemma arcHaversine_nonneg lat1 lon1 lat2 lon2 : 0 <= arcHaversine lat1 lon1 lat2 lon2.
Proof.
  unfold arcHaversine.
  pose proof (Qabs_nonneg (lat2 - lat1)). pose proof (Qabs_nonneg (lon2 - lon1)).
  apply Qmult_le_0_compat; [discriminate |].
  unfold Qdiv. apply Qmult_le_0_compat; [| discriminate].
  apply Qmult_le_0_compat; [lra | discriminate].
Qed.

Lemma getAnalysisBins_total_distance_witness :
  sumQ (map distance
          (getAnalysisBins arcHaversine WithCoefficientsModule climb 50 None None))
  == pathLength arcHaversine climb 0 2.
Proof.
  apply (getAnalysisBins_total_distance arcHaversine WithCoefficientsModule climb 50
           None None).
  exact arcHaversine_nonneg.
Defined.

(** ** The binning engine: time, pace and heart rate of a bin *)

Lemma buildBin_with_elapsed adj points polyCoeffs vel s e d ta tb :
  time (pointAt points s) = Some (ValidDate ta) ->
  time (pointAt points e) = Some (ValidDate tb) ->
  (ta < tb)%Z ->
  let b := buildBin adj points polyCoeffs vel s e d in
  timeInSeconds b = inject_Z (tb - ta) / 1000 /\
  0 < timeInSeconds b /\
  velocity b = Some (distance b / timeInSeconds b) /\
  timeTaken b = Some (formatTime (timeInSeconds b)) /\
  (0 < distance b ->
   exists pace, pace_min_per_km b = Some pace /\
                pace == (timeInSeconds b / 60) / (distance b / 1000)).
Proof.
  intros Hs He Hlt.
  assert (Hpos : 0 < inject_Z (tb - ta) / 1000).
  { apply Qdiv_pos; [| reflexivity]. change 0 with (inject_Z 0).
    rewrite <- Zlt_Qlt. lia. }
  assert (Hel : elapsedSeconds (pointAt points s) (pointAt points e)
                = Some (inject_Z (tb - ta) / 1000)).
  { unfold elapsedSeconds, secondsBetween. rewrite Hs, He.
    rewrite (proj2 (Qlt_bool_iff _ _) Hpos). reflexivity. }
  unfold buildBin. cbn -[elapsedSeconds]. rewrite Hel. cbn [option_map].
  repeat split; auto.
  intros Hd.
  assert (Hv : 0 < d / (inject_Z (tb - ta) / 1000)) by (apply Qdiv_pos; assumption).
  rewrite (proj2 (Qlt_bool_iff _ _) Hv). eexists. split; [reflexivity |].
  field. split; [lra |].
  intros E. rewrite E in Hpos. discriminate Hpos.
Qed.

(** X4.  When both endpoints of a bin carry valid timestamps and the
    end is later than the start, the bin's duration is their difference
    in seconds, its velocity is distance over duration, and, for a
    positive distance, its pace is the duration in minutes over the
    distance in kilometres. *)
Theorem getAnalysisBins_elapsed_metrics :
  forall haversine rev points binLength polyCoeffs newAdjustedVelocity b ta tb,
    In b (getAnalysisBins haversine rev points binLength polyCoeffs
            newAdjustedVelocity) ->
    time (pointAt points (startIdx b)) = Some (ValidDate ta) ->
    time (pointAt points (endIdx b)) = Some (ValidDate tb) ->
    (ta < tb)%Z ->
    timeInSeconds b = inject_Z (tb - ta) / 1000 /\
    0 < timeInSeconds b /\
    velocity b = Some (distance b / timeInSeconds b) /\
    timeTaken b = Some (formatTime (timeInSeconds b)) /\
    (0 < distance b ->
     exists pace, pace_min_per_km b = Some pace /\
                  pace == (timeInSeconds b / 60) / (distance b / 1000)).
Proof.
  intros haversine rev points binLength polyCoeffs vel b ta tb Hin Hs He Hlt.
  destruct (getAnalysisBins_built haversine rev points binLength polyCoeffs vel b Hin)
    as (s & e & _ & _ & [-> | ->]);
    apply buildBin_with_elapsed; assumption.
Qed.

Lemma getAnalysisBins_elapsed_metrics_witness :
  let b := buildBin defaultAdjFactor climb None None 0 1
             (0 + segDist arcHaversine climb 1) in
  timeInSeconds b = inject_Z (10000 - 0) / 1000 /\
  0 < timeInSeconds b /\
  velocity b = Some (distance b / timeInSeconds b) /\
  timeTaken b = Some (formatTime (timeInSeconds b)) /\
  (0 < distance b ->
   exists pace, pace_min_per_km b = Some pace /\
                pace == (timeInSeconds b / 60) / (distance b / 1000)).
Proof.
  apply (getAnalysisBins_elapsed_metrics arcHaversine WithCoefficientsModule climb 50
           None None).
  - vm_compute. left. reflexivity.
  - reflexivity.
  - reflexivity.
  - reflexivity.
Defined.

Lemma fold_max_ge xs a :
  a <= fold_left Js.Math_max xs a /\
  forall y, In y xs -> y <= fold_left Js.Math_max xs a.
Proof.
  revert a. induction xs as [| x xs IH]; intros a; simpl.
  - split; [lra | intros y []].
  - destruct (IH (Js.Math_max a x)) as [H1 H2]. unfold Js.Math_max in *.
    pose proof (Q.le_max_l a x). pose proof (Q.le_max_r a x).
    split; [lra |]. intros y [<- | Hy]; [lra | auto].
Qed.

Lemma fold_min_le xs a :
  fold_left Js.Math_min xs a <= a /\
  forall y, In y xs -> fold_left Js.Math_min xs a <= y.
Proof.
  revert a. induction xs as [| x xs IH]; intros a; simpl.
  - split; [lra | intros y []].
  - destruct (IH (Js.Math_min a x)) as [H1 H2]. unfold Js.Math_min in *.
    pose proof (Q.le_min_l a x). pose proof (Q.le_min_r a x).
    split; [lra |]. intros y [<- | Hy]; [lra | auto].
Qed.

Lemma natQ_S n : natQ (S n) == natQ n + 1.
Proof.
  unfold natQ. rewrite Nat2Z.inj_succ. unfold Z.succ.
  rewrite inject_Z_plus. reflexivity.
Qed.

Lemma natQ_pos n : (0 < n)%nat -> 0 < natQ n.
Proof.
  intros H. unfold natQ. change 0 with (inject_Z 0). rewrite <- Zlt_Qlt. lia.
Qed.

Lemma fold_Qplus_bounds lo hi l a :
  (forall x, In x l -> lo <= x /\ x <= hi) ->
  a + lo * natQ (List.length l) <= fold_left Qplus l a /\
  fold_left Qplus l a <= a + hi * natQ (List.length l).
Proof.
  revert a. induction l as [| x l IH]; intros a H.
  - simpl. change (natQ 0) with 0. split; lra.
  - cbn [fold_left List.length]. rewrite natQ_S.
    destruct (IH (a + x) (fun y Hy => H y (or_intror Hy))) as [H1 H2].
    destruct (H x (or_introl eq_refl)) as [Hlo Hhi].
    split; lra.
Qed.

(** The statistics of a non-empty list of heart rates. *)
Lemma heartRate_statistics l :
  l <> [] ->
  exists av mn mx,
    averageRounded l = Some av /\ maxOf l = Some mx /\ minOf l = Some mn /\
    (forall x, In x l -> mn <= x /\ x <= mx) /\
    mn - (1 # 2) <= av /\ av <= mx + (1 # 2).
Proof.
  destruct l as [| x xs]; [congruence |]. intros _.
  set (l := x :: xs).
  set (mx := fold_left Js.Math_max xs x). set (mn := fold_left Js.Math_min xs x).
  assert (Hb : forall y, In y l -> mn <= y /\ y <= mx).
  { destruct (fold_max_ge xs x) as [M1 M2]. destruct (fold_min_le xs x) as [N1 N2].
    intros y [<- | Hy]; split; auto. }
  exists (inject_Z (Js.Math_round (sumQ l / natQ (List.length l)))), mn, mx.
  repeat split; try apply Hb; auto.
  - destruct (fold_Qplus_bounds mn mx l 0 Hb) as [H1 _].
    pose proof (natQ_pos (List.length l) ltac:(simpl; lia)) as Hn.
    pose proof (Math_round_nearest (sumQ l / natQ (List.length l))) as [_ Hr].
    assert (mn <= sumQ l / natQ (List.length l)).
    { apply Qle_shift_div_l; [exact Hn |]. unfold sumQ. lra. }
    lra.
  - destruct (fold_Qplus_bounds mn mx l 0 Hb) as [_ H2].
    pose proof (natQ_pos (List.length l) ltac:(simpl; lia)) as Hn.
    pose proof (Math_round_nearest (sumQ l / natQ (List.length l))) as [Hr _].
    assert (sumQ l / natQ (List.length l) <= mx).
    { apply Qle_shift_div_r; [exact Hn |]. unfold sumQ. lra. }
    lra.
Qed.

Lemma collectHeartRates_In points lo hi j hr :
  (lo <= j <= hi)%nat -> heartRate (pointAt points j) = Some hr -> ~ hr == 0 ->
  In hr (collectHeartRates points lo hi).
Proof.
  intros Hj Hhr Hnz. unfold collectHeartRates. apply in_flat_map.
  exists j. split; [apply in_seq; lia |].
  rewrite Hhr. unfold Js.truthy.
  destruct (Qeq_bool hr 0) eqn:E; [apply Qeq_bool_iff in E; contradiction |].
  left. reflexivity.
Qed.

Lemma collectHeartRates_length points lo hi :
  (List.length (collectHeartRates points lo hi) <= S hi - lo)%nat.
Proof.
  unfold collectHeartRates.
  assert (H : forall l,
             (List.length
                (flat_map (fun j => match heartRate (pointAt points j) with
                                    | Some hr => if Js.truthy (Some hr) then [hr] else []
                                    | None => []
                                    end) l) <= List.length l)%nat).
  { induction l as [| j l IH]; [simpl; lia |].
    cbn [flat_map]. rewrite length_app. cbn [List.length].
    destruct (heartRate (pointAt points j)) as [hr |]; [| cbn [List.length]; lia].
    destruct (Js.truthy (Some hr)); cbn [List.length]; lia. }
  specialize (H (seq lo (S hi - lo))). rewrite length_seq in H. exact H.
Qed.

Lemma buildBin_heartRate adj points polyCoeffs vel s e d :
  let b := buildBin adj points polyCoeffs vel s e d in
  (heartRateDataPoints b <= S (endIdx b) - startIdx b)%nat /\
  (heartRateDataPoints b = 0%nat ->
   avgHeartRate b = None /\ maxHeartRate b = None /\ minHeartRate b = None) /\
  ((0 < heartRateDataPoints b)%nat ->
   exists av mn mx,
     avgHeartRate b = Some av /\ maxHeartRate b = Some mx /\
     minHeartRate b = Some mn /\
     mn <= mx /\ mn - (1 # 2) <= av /\ av <= mx + (1 # 2) /\
     forall j hr,
       (startIdx b <= j <= endIdx b)%nat ->
       heartRate (pointAt points j) = Some hr -> ~ hr == 0 ->
       mn <= hr /\ hr <= mx).
Proof.
  unfold buildBin.
  cbn [heartRateDataPoints startIdx endIdx avgHeartRate maxHeartRate minHeartRate].
  split; [apply collectHeartRates_length | split].
  - intros H. apply length_zero_iff_nil in H. rewrite H. auto.
  - intros H.
    destruct (heartRate_statistics (collectHeartRates points s e))
      as (av & mn & mx & Ha & Hx & Hn & Hb & H1 & H2).
    { intros E. rewrite E in H. simpl in H. lia. }
    exists av, mn, mx. repeat split; auto.
    + destruct (collectHeartRates points s e) as [| x xs] eqn:E;
        [simpl in H; lia |].
      destruct (Hb x (or_introl eq_refl)). lra.
    + apply (Hb hr). eapply collectHeartRates_In; eauto.
    + apply (Hb hr). eapply collectHeartRates_In; eauto.
Qed.

(** X5.  Heart rate of a bin: the sample count is at most the number of
    points of the bin; with no sample, average, maximum and minimum are
    all unset; with samples they are all set, every non-zero heart rate
    of the bin's points lies between minimum and maximum, and the
    rounded average lies within half a beat of that interval. *)
Theorem getAnalysisBins_heartRate_statistics :
  forall haversine rev points binLength polyCoeffs newAdjustedVelocity b,
    In b (getAnalysisBins haversine rev points binLength polyCoeffs
            newAdjustedVelocity) ->
    (heartRateDataPoints b <= S (endIdx b) - startIdx b)%nat /\
    (heartRateDataPoints b = 0%nat ->
     avgHeartRate b = None /\ maxHeartRate b = None /\ minHeartRate b = None) /\
    ((0 < heartRateDataPoints b)%nat ->
     exists av mn mx,
       avgHeartRate b = Some av /\ maxHeartRate b = Some mx /\
       minHeartRate b = Some mn /\
       mn <= mx /\ mn - (1 # 2) <= av /\ av <= mx + (1 # 2) /\
       forall j hr,
         (startIdx b <= j <= endIdx b)%nat ->
         heartRate (pointAt points j) = Some hr -> ~ hr == 0 ->
         mn <= hr /\ hr <= mx).
Proof.
  intros haversine rev points binLength polyCoeffs vel b Hin.
  destruct (getAnalysisBins_built haversine rev points binLength polyCoeffs vel b Hin)
    as (s & e & _ & _ & [-> | ->]); apply buildBin_heartRate.
Qed.

Lemma getAnalysisBins_heartRate_statistics_witness :
  let b := buildBin defaultAdjFactor pulse None None 0 1
             (0 + segDist arcHaversine pulse 1) in
  In b (getAnalysisBins arcHaversine WithCoefficientsModule pulse 50 None None) /\
  (0 < heartRateDataPoints b)%nat /\
  exists av mn mx,
    avgHeartRate b = Some av /\ maxHeartRate b = Some mx /\
    minHeartRate b = Some mn /\
    mn <= 140 /\ 150 <= mx /\ mn - (1 # 2) <= av /\ av <= mx + (1 # 2).
Proof.
  cbv zeta.
  set (b := buildBin defaultAdjFactor pulse None None 0 1
              (0 + segDist arcHaversine pulse 1)).
  assert (Hin : In b (getAnalysisBins arcHaversine WithCoefficientsModule pulse 50
                        None None)) by (vm_compute; left; reflexivity).
  assert (Hpos : (0 < heartRateDataPoints b)%nat) by (vm_compute; lia).
  split; [exact Hin | split; [exact Hpos |]].
  destruct (proj2 (proj2 (getAnalysisBins_heartRate_statistics arcHaversine
                            WithCoefficientsModule pulse 50 None None b Hin)) Hpos)
    as (av & mn & mx & Hav & Hmx & Hmn & _ & Hlo & Hhi & Hall).
  exists av, mn, mx.
  split; [exact Hav | split; [exact Hmx | split; [exact Hmn |]]].
  split.
  - apply (Hall 0%nat 140); [vm_compute; lia | reflexivity | discriminate].
  - split; [| split; [exact Hlo | exact Hhi]].
    apply (Hall 1%nat 150); [vm_compute; lia | reflexivity | discriminate].
Defined.

(** X6.  Without a positive reference velocity no bin is grade
    adjusted: [adjustedTime] is 0 and [gradeAdjustedDistance] is unset,
    whatever coefficients are passed. *)
Theorem getAnalysisBins_without_reference_velocity :
  forall haversine rev points binLength polyCoeffs newAdjustedVelocity b,
    (newAdjustedVelocity = None \/
     exists v, newAdjustedVelocity = Some v /\ v <= 0) ->
    In b (getAnalysisBins haversine rev points binLength polyCoeffs
            newAdjustedVelocity) ->
    adjustedTime b = 0 /\ gradeAdjustedDistance b = None.
Proof.
  intros haversine rev points binLength polyCoeffs vel b Hv Hin.
  assert (Hb : forall adj s e d,
             adjustedTime (buildBin adj points polyCoeffs vel s e d) = 0 /\
             gradeAdjustedDistance (buildBin adj points polyCoeffs vel s e d) = None).
  { intros adj s e d. unfold buildBin. cbn [adjustedTime gradeAdjustedDistance].
    destruct Hv as [-> | (v & -> & Hle)]; [auto |].
    assert (Js.Qlt_bool 0 v = false) as ->.
    { destruct (Js.Qlt_bool 0 v) eqn:E; [| reflexivity].
      apply Qlt_bool_iff in E. lra. }
    rewrite andb_false_r. auto. }
  destruct (getAnalysisBins_built haversine rev points binLength polyCoeffs vel b Hin)
    as (s & e & _ & _ & [-> | ->]); apply Hb.
Qed.

Lemma getAnalysisBins_without_reference_velocity_witness :
  let b := buildBin defaultAdjFactor climb (Some gapCoefficients) None 0 1
             (0 + segDist arcHaversine climb 1) in
  adjustedTime b = 0 /\ gradeAdjustedDistance b = None.
Proof.
  apply (getAnalysisBins_without_reference_velocity arcHaversine
           WithCoefficientsModule climb 50 (Some gapCoefficients) None).
  - left. reflexivity.
  - vm_compute. left. reflexivity.
Defined.

(** ** The default grade model: sign and saturation *)

Lemma clamp_high g : 35 <= g -> Js.Math_max (-35) (Js.Math_min 35 g) = 35.
Proof.
  intros H. unfold Js.Math_max, Js.Math_min, Qmax, Qmin, GenericMinMax.gmax,
    GenericMinMax.gmin.
  destruct (Qcompare_spec 35 g) as [E | E | E]; try reflexivity.
  exfalso. lra.
Qed.

Lemma clamp_low g : g <= -35 -> Js.Math_max (-35) (Js.Math_min 35 g) = -35.
Proof.
  intros H. unfold Js.Math_max, Js.Math_min, Qmax, Qmin, GenericMinMax.gmax,
    GenericMinMax.gmin.
  destruct (Qcompare_spec 35 g) as [E | E | E]; try (exfalso; lra).
  destruct (Qcompare_spec (-35) g) as [E' | E' | E']; try reflexivity.
  exfalso. lra.
Qed.

Lemma adjustment_climb c :
  0 <= c ->
  1 <= Js.add (Js.add 1 (Js.mul c (Js.double (33 # 1000))))
         (Js.mul (Js.mul c c) (Js.double (233 # 1000000))).
Proof.
  intros Hc. pose proof k1_value as E1. pose proof k2_value as E2.
  unfold Js.add, Js.mul.
  assert (H1 : 0 <= Js.double (c * Js.double (33 # 1000))).
  { apply double_nonneg. nra. }
  assert (H2 : 1 <= Js.double (1 + Js.double (c * Js.double (33 # 1000)))).
  { assert (E : Js.double 1 == 1) by (vm_compute; reflexivity).
    rewrite <- E at 1. apply double_mono. lra. }
  assert (H3 : 0 <= Js.double (c * c)) by (apply double_nonneg; nra).
  assert (H4 : 0 <= Js.double (Js.double (c * c) * Js.double (233 # 1000000))).
  { apply double_nonneg. nra. }
  assert (E : Js.double 1 == 1) by (vm_compute; reflexivity).
  rewrite <- E at 1. apply double_mono. lra.
Qed.

Lemma adjustment_descent c :
  -35 <= c -> c <= 0 ->
  Js.add (Js.add 1 (Js.mul c (Js.double (33 # 1000))))
    (Js.mul (Js.mul c c) (Js.double (233 # 1000000))) <= 1.
Proof.
  intros Hlo Hc. pose proof k1_value as E1. pose proof k2_value as E2.
  destruct (Qlt_le_dec c (- (1 # 1099511627776))) as [Hfar | Hnear].
  - pose proof (adjustment_near c Hlo ltac:(lra)) as Hn.
    apply Qabs_Qle_condition in Hn.
    assert (1 + c * Js.double (33 # 1000) + c * c * Js.double (233 # 1000000)
            <= 1 - (1 # 281474976710656)); [nra | lra].
  - unfold Js.add, Js.mul.
    assert (H1 : Js.double (c * Js.double (33 # 1000)) <= 0).
    { apply double_nonpos. nra. }
    assert (E : Js.double 1 == 1) by (vm_compute; reflexivity).
    assert (H2 : Js.double (1 + Js.double (c * Js.double (33 # 1000))) <= 1).
    { rewrite <- E at 2. apply double_mono. lra. }
    assert (H3 : Js.double (c * c) <= Js.double (1 # 1208925819614629174706176)).
    { apply double_mono. nra. }
    assert (E3 : Js.double (1 # 1208925819614629174706176)
                 == (1 # 1208925819614629174706176)) by (vm_compute; reflexivity).
    assert (H3' : 0 <= Js.double (c * c)) by (apply double_nonneg; nra).
    assert (H4 : Js.double (Js.double (c * c) * Js.double (233 # 1000000))
                 <= Js.double ((1 # 1208925819614629174706176)
                               * Js.double (233 # 1000000))).
    { apply double_mono. nra. }
    assert (E5 : Js.double (1 + Js.double ((1 # 1208925819614629174706176)
                                           * Js.double (233 # 1000000))) == 1)
      by (vm_compute; reflexivity).
    apply Qle_trans with
      (Js.double (1 + Js.double ((1 # 1208925819614629174706176)
                                 * Js.double (233 # 1000000))));
      [apply double_mono; lra | rewrite E5; apply Qle_refl].
Qed.

(** X7.  In binary64 the default factor is exactly 1 on the flat, at
    least 1 on every climb and at most 1 on every descent; from -35 %
    down it is the binary64 number written 0.3, and from 35 % up it is
    2.4404250000000003.  The bounds are not strict: a climb of 10^-20 %
    returns exactly 1. *)
Theorem calculateGradeAdjustment_sign_and_saturation :
  Binary64.calculateGradeAdjustment 0 == 1 /\
  (forall g : Q, 0 <= g -> 1 <= Binary64.calculateGradeAdjustment g) /\
  (forall g : Q, g <= 0 -> Binary64.calculateGradeAdjustment g <= 1) /\
  (forall g : Q, g <= -35 ->
                 Binary64.calculateGradeAdjustment g
                 == (5404319552844595 # 18014398509481984)) /\
  (forall g : Q, 35 <= g ->
                 Binary64.calculateGradeAdjustment g
                 == (2747674280156411 # 1125899906842624)) /\
  Binary64.calculateGradeAdjustment (Js.double (1 # 100000000000000000000)) == 1.
Proof.
  split; [vm_compute; reflexivity |].
  split.
  { intros g Hg. unfold Binary64.calculateGradeAdjustment. cbv zeta.
    apply Qle_trans with
      (Js.add (Js.add 1 (Js.mul (Js.Math_max (-35) (Js.Math_min 35 g))
                           (Js.double (33 # 1000))))
         (Js.mul (Js.mul (Js.Math_max (-35) (Js.Math_min 35 g))
                    (Js.Math_max (-35) (Js.Math_min 35 g)))
            (Js.double (233 # 1000000)))); [| apply Q.le_max_r].
    apply adjustment_climb. fold (clampGradient g).
    pose proof (clampGradient_mono 0 g Hg) as H.
    assert (E : clampGradient 0 == 0) by reflexivity. lra. }
  split.
  { intros g Hg. unfold Binary64.calculateGradeAdjustment. cbv zeta.
    apply Q.max_lub; [vm_compute; discriminate |].
    apply adjustment_descent; fold (clampGradient g).
    - apply clampGradient_bounds.
    - pose proof (clampGradient_mono g 0 Hg) as H.
      assert (E : clampGradient 0 == 0) by reflexivity. lra. }
  split.
  { intros g Hg. unfold Binary64.calculateGradeAdjustment. cbv zeta.
    rewrite (clamp_low g Hg). vm_compute. reflexivity. }
  split.
  { intros g Hg. unfold Binary64.calculateGradeAdjustment. cbv zeta.
    rewrite (clamp_high g Hg). vm_compute. reflexivity. }
  vm_compute. reflexivity.
Qed.

Lemma calculateGradeAdjustment_sign_and_saturation_witness :
  0 <= 12 /\ 1 <= Binary64.calculateGradeAdjustment 12 /\
  50 <= 50 /\ 35 <= 50 /\
  Binary64.calculateGradeAdjustment 50 == (2747674280156411 # 1125899906842624).
Proof.
  destruct calculateGradeAdjustment_sign_and_saturation
    as (_ & Hclimb & _ & _ & Hhigh & _).
  assert (H12 : 0 <= 12) by (vm_compute; discriminate).
  assert (H50 : 35 <= 50) by (vm_compute; discriminate).
  split; [exact H12 | split; [exact (Hclimb 12 H12) |]].
  split; [apply Qle_refl | split; [exact H50 | exact (Hhigh 50 H50)]].
Defined.

(** ** getBinSummary: facts *)

Lemma filter_length_le {A} (P : A -> bool) l :
  (List.length (List.filter P l) <= List.length l)%nat.
Proof.
  induction l as [| x l IH]; simpl; [lia |]. destruct (P x); simpl; lia.
Qed.

(** X8.  The summary is absent exactly when no bin has a positive
    distance.  Otherwise it counts all bins and the bins of positive
    distance, its heart-rate coverage is a fraction between 0 and 1,
    its total time is the sum over the bins of positive distance, and
    its average pace is their total time in minutes over their total
    distance in kilometres, present exactly when that total time is
    positive. *)
Theorem getBinSummary_totals :
  forall bins : list Bin,
    let valid := List.filter (fun bin => Js.Qlt_bool 0 (distance bin)) bins in
    (getBinSummary bins = None <-> valid = []) /\
    forall s,
      getBinSummary bins = Some s ->
      bs_totalBins s = List.length bins /\
      bs_validBins s = List.length valid /\
      (1 <= bs_validBins s)%nat /\ (bs_validBins s <= bs_totalBins s)%nat /\
      0 <= bs_heartRateDataCoverage s /\ bs_heartRateDataCoverage s <= 1 /\
      bs_totalTime s = sumQ (map timeInSeconds valid) /\
      bs_avgPace s
      = (if Js.Qlt_bool 0 (sumQ (map timeInSeconds valid))
         then Some (weightedPace valid) else None).
Proof.
  intros bins valid. subst valid.
  destruct bins as [| b0 bins0].
  { split; [split; reflexivity | intros s [=]]. }
  unfold getBinSummary.
  remember (b0 :: bins0) as bins eqn:Eb.
  set (valid := List.filter (fun bin => Js.Qlt_bool 0 (distance bin)) bins).
  destruct valid as [| v valid'] eqn:Ev.
  { split; [split; reflexivity | intros s [=]]. }
  rewrite <- Ev.
  assert (Hne : valid <> []) by (rewrite Ev; discriminate).
  assert (Hlen : (0 < List.length valid)%nat) by (rewrite Ev; simpl; lia).
  split; [split; [discriminate | intros E; rewrite E in Hne; contradiction] |].
  clear Ev.
  intros s [= <-].
  cbn [bs_totalBins bs_validBins bs_heartRateDataCoverage bs_totalTime bs_avgPace].
  assert (Hd : 0 < sumQ (map distance valid)).
  { apply sumQ_pos.
    - destruct valid; [congruence | discriminate].
    - intros x Hx. apply in_map_iff in Hx. destruct Hx as (b & <- & Hin).
      apply filter_In in Hin. destruct Hin as [_ Hin].
      apply Qlt_bool_iff in Hin. exact Hin. }
  pose proof (natQ_pos _ Hlen) as Hn.
  pose proof (filter_length_le (fun bin => Js.truthy (avgHeartRate bin)) valid) as Hhr.
  repeat split.
  - lia.
  - apply filter_length_le.
  - apply Qle_shift_div_l; [exact Hn |]. rewrite Qmult_0_l.
    unfold natQ. change 0 with (inject_Z 0). rewrite <- Zle_Qle. lia.
  - apply Qle_shift_div_r; [exact Hn |]. rewrite Qmult_1_l.
    unfold natQ. rewrite <- Zle_Qle. lia.
  - rewrite (proj2 (Qlt_bool_iff _ _) Hd). reflexivity.
Qed.

Lemma getBinSummary_totals_witness :
  let bins := getAnalysisBins arcHaversine WithCoefficientsModule pulse 50 None None in
  exists s,
    getBinSummary bins = Some s /\
    bs_totalBins s = 2%nat /\ bs_validBins s = 2%nat /\
    0 <= bs_heartRateDataCoverage s /\ bs_heartRateDataCoverage s <= 1 /\
    bs_totalTime s == 16.
Proof.
  cbv zeta.
  set (bins := getAnalysisBins arcHaversine WithCoefficientsModule pulse 50 None None).
  destruct (getBinSummary bins) as [s |] eqn:E.
  - exists s. split; [reflexivity |].
    destruct (proj2 (getBinSummary_totals bins) s E)
      as (Ht & Hv & _ & _ & Hc0 & Hc1 & Htime & _).
    split; [rewrite Ht; vm_compute; reflexivity |].
    split; [rewrite Hv; vm_compute; reflexivity |].
    split; [exact Hc0 | split; [exact Hc1 |]].
    rewrite Htime. vm_compute. reflexivity.
  - exfalso. apply (proj1 (proj1 (getBinSummary_totals bins))) in E.
    vm_compute in E. discriminate E.
Defined.

(** ** The reliability filter: what is kept *)

Lemma plausibilityCheck_None bin :
  Filter.plausibilityCheck bin = None <-> implausible bin = false.
Proof.
  unfold Filter.plausibilityCheck, implausible, speedOutside, gradientOutside,
    tooShort, noDistance.
  destruct (negb (Qle_bool 1 (Filter.speedOf bin) && Qle_bool (Filter.speedOf bin) 30));
    [split; discriminate |].
  destruct (negb (Qle_bool (gradient bin) 30 && Qle_bool (-30) (gradient bin)));
    [split; discriminate |].
  destruct (negb (Qle_bool 1 (timeInSeconds bin))); [split; discriminate |].
  destruct (negb (Js.Qlt_bool 0 (distance bin))); [split; discriminate |].
  split; reflexivity.
Qed.

Lemma filterBin_kept r h c kept bin :
  snd (Filter.filterBin r h (c, kept) bin)
  = kept ++ (if negb ((r && implausible bin) || Filter.heartRateCheck h bin)
             then [bin] else []).
Proof.
  unfold Filter.filterBin.
  destruct r; cbn [andb].
  - destruct (Filter.plausibilityCheck bin) as [reason |] eqn:Ep.
    + assert (implausible bin = true) as ->.
      { destruct (implausible bin) eqn:E; [reflexivity |].
        apply plausibilityCheck_None in E. congruence. }
      cbn [orb negb]. rewrite app_nil_r.
      destruct (Filter.heartRateCheck h bin); reflexivity.
    + apply plausibilityCheck_None in Ep. rewrite Ep. cbn [orb].
      destruct (Filter.heartRateCheck h bin); cbn [negb snd];
        [rewrite app_nil_r |]; reflexivity.
  - cbn [orb].
    destruct (Filter.heartRateCheck h bin); cbn [negb snd];
      [rewrite app_nil_r |]; reflexivity.
Qed.

Lemma filterBins_kept r h bins c kept :
  snd (fold_left (Filter.filterBin r h) bins (c, kept))
  = kept ++ List.filter
              (fun bin => negb ((r && implausible bin) || Filter.heartRateCheck h bin))
              bins.
Proof.
  revert c kept. induction bins as [| bin bins IH]; intros c kept;
    cbn [fold_left List.filter].
  - rewrite app_nil_r. reflexivity.
  - pose proof (filterBin_kept r h c kept bin) as Hk.
    destruct (Filter.filterBin r h (c, kept) bin) as [c' kept'].
    cbn [snd] in Hk. rewrite IH, Hk, <- app_assoc.
    destruct (negb ((r && implausible bin) || Filter.heartRateCheck h bin));
      reflexivity.
Qed.

Lemma filterRuns_kept r h results c acc :
  snd (fold_left (Filter.filterRun r h) results (c, acc))
  = acc ++ map (fun run =>
                  {| r_filename := r_filename run;
                     r_bins :=
                       Some (List.filter
                               (fun bin => negb ((r && implausible bin)
                                                 || Filter.heartRateCheck h bin))
                               (match r_bins run with
                                | Some bs => bs
                                | None => []
                                end)) |}) results.
Proof.
  revert c acc. induction results as [| run results IH]; intros c acc;
    cbn [fold_left map].
  - rewrite app_nil_r. reflexivity.
  - unfold Filter.filterRun at 2.
    pose proof (filterBins_kept r h
                  (match r_bins run with Some bs => bs | None => [] end) c [])
      as Hk.
    destruct (fold_left (Filter.filterBin r h) _ (c, [])) as [c' kept'].
    cbn [snd app] in Hk. rewrite IH, Hk, <- app_assoc. reflexivity.
Qed.

Lemma collectBins_map_filter (keep : Bin -> bool) results :
  collectBins
    (map (fun run =>
            {| r_filename := r_filename run;
               r_bins := Some (List.filter keep
                                 (match r_bins run with
                                  | Some bs => bs
                                  | None => []
                                  end)) |}) results)
  = List.filter keep (collectBins results).
Proof.
  unfold collectBins. induction results as [| run results IH]; [reflexivity |].
  cbn [map flat_map r_bins]. rewrite IH, List.filter_app.
  destruct (r_bins run); reflexivity.
Qed.

(** X9.  The filter returns one run per input run, in order and under
    the same name, holding exactly the run's bins that no active check
    rejects, in their order (a run without bins gets an empty list).
    The kept bins and the total of the exclusion counters add up to the
    number of input bins, and with both filters off every bin is
    kept. *)
Theorem filterResults_kept_bins :
  forall (results : list Run) (removeUnreliableBins : bool)
         (heartRateFilter : option Filter.HeartRateFilter),
    let out := Filter.filterResults results removeUnreliableBins heartRateFilter in
    let keep bin :=
      negb ((removeUnreliableBins && implausible bin)
            || Filter.heartRateCheck heartRateFilter bin) in
    snd out
    = map (fun run =>
             {| r_filename := r_filename run;
                r_bins := Some (List.filter keep
                                  (match r_bins run with
                                   | Some bs => bs
                                   | None => []
                                   end)) |}) results /\
    collectBins (snd out) = List.filter keep (collectBins results) /\
    (List.length (collectBins (snd out)) + Filter.n_total (fst out)
     = List.length (collectBins results))%nat /\
    (removeUnreliableBins = false ->
     Filter.heartRateFilterActive heartRateFilter = false ->
     collectBins (snd out) = collectBins results /\ Filter.n_total (fst out) = 0%nat).
Proof.
  intros results r h out keep. subst out.
  assert (Hs : snd (Filter.filterResults results r h)
               = map (fun run =>
                        {| r_filename := r_filename run;
                           r_bins := Some (List.filter keep
                                             (match r_bins run with
                                              | Some bs => bs
                                              | None => []
                                              end)) |}) results).
  { unfold Filter.filterResults. rewrite filterRuns_kept. reflexivity. }
  assert (Hc : collectBins (snd (Filter.filterResults results r h))
               = List.filter keep (collectBins results)).
  { rewrite Hs. apply collectBins_map_filter. }
  assert (Ht := filterRuns_counter r h Filter.n_total
                  (fun b => (r && implausible b) || Filter.heartRateCheck h b)
                  ltac:(filter_step) results Filter.noExclusions []).
  cbn [Filter.n_total Filter.noExclusions Nat.add] in Ht.
  fold (Filter.filterResults results r h) in Ht.
  split; [exact Hs | split; [exact Hc | split]].
  - rewrite Hc, Ht. unfold countWhere, keep.
    rewrite Nat.add_comm.
    rewrite <- length_app.
    apply Permutation_length.
    apply (filter_split_perm
             (fun b => (r && implausible b) || Filter.heartRateCheck h b)).
  - intros -> Hoff.
    assert (Hall : forall b, keep b = true).
    { intros b. unfold keep, Filter.heartRateCheck. cbn [andb orb].
      destruct h; [rewrite Hoff |]; reflexivity. }
    split.
    + rewrite Hc. apply filter_all. intros b _. apply Hall.
    + rewrite Ht. unfold countWhere.
      rewrite (filter_none _ (collectBins results)); [reflexivity |].
      intros b _. specialize (Hall b). unfold keep in Hall.
      apply negb_true_iff in Hall. exact Hall.
Qed.

Lemma filterResults_kept_bins_witness :
  let out := Filter.filterResults
               [ {| r_filename := "fast.gpx"; r_bins := Some [fastBin] |} ]
               false None in
  collectBins (snd out) = [fastBin] /\ Filter.n_total (fst out) = 0%nat.
Proof.
  apply (filterResults_kept_bins
           [ {| r_filename := "fast.gpx"; r_bins := Some [fastBin] |} ] false None);
    reflexivity.
Defined.

(** ** The per-degree chart: counts and order *)

Lemma list_sum_perm l1 l2 : Permutation l1 l2 -> list_sum l1 = list_sum l2.
Proof.
  induction 1; simpl; lia.
Qed.

Lemma gmUpdate_absent f k m : ~ In k (map fst m) -> gmUpdate f k m = m.
Proof.
  intros H. unfold gmUpdate. induction m as [| [k1 d] m IH]; [reflexivity |].
  cbn [map fst snd] in *.
  destruct (key_eqb k1 k) eqn:E.
  - apply key_eqb_eq in E. subst. exfalso. apply H. left. reflexivity.
  - f_equal. apply IH. intros Hin. apply H. right. exact Hin.
Qed.

Lemma list_sum_head x l : list_sum (x :: l) = (x + list_sum l)%nat.
Proof. reflexivity. Qed.

Lemma gmUpdate_cons f k k1 d m :
  gmUpdate f k ((k1, d) :: m)
  = (if key_eqb k1 k then (k1, f d) else (k1, d)) :: gmUpdate f k m.
Proof. reflexivity. Qed.

Lemma gmUpdate_count f k m :
  (forall d, gm_binCount (f d) = S (gm_binCount d)) ->
  List.NoDup (map fst m) -> In k (map fst m) ->
  list_sum (map (fun kv => gm_binCount (snd kv)) (gmUpdate f k m))
  = S (list_sum (map (fun kv => gm_binCount (snd kv)) m)).
Proof.
  intros Hf. induction m as [| [k1 d] m IH]; intros Hnd Hin; [destruct Hin |].
  cbn [map fst] in Hnd, Hin. apply List.NoDup_cons_iff in Hnd.
  destruct Hnd as [Hnot Hnd].
  rewrite gmUpdate_cons.
  destruct (key_eqb k1 k) eqn:E; cbn [map snd]; rewrite !list_sum_head.
  - apply key_eqb_eq in E. subst k1.
    rewrite (gmUpdate_absent f k m Hnot), Hf. lia.
  - apply key_eqb_neq in E. destruct Hin as [-> | Hin]; [contradiction |].
    rewrite (IH Hnd Hin). lia.
Qed.

Lemma gradientMap_count bins :
  list_sum (map (fun kv => gm_binCount (snd kv)) (fold_left addToGradientMap bins []))
  = List.length (List.filter chartEligible bins).
Proof.
  induction bins as [| b bins IH] using rev_ind; [reflexivity |].
  rewrite fold_left_app, List.filter_app, length_app. cbn [fold_left List.filter].
  destruct (gradientMap_invariant bins) as [Hnd Hl].
  set (m := fold_left addToGradientMap bins []) in *.
  unfold addToGradientMap. destruct (chartEligible b) eqn:El;
    [| cbn [List.length]; lia].
  set (k0 := gradientKey (gradient b)).
  destruct (gmLookup m k0) as [d |] eqn:E0.
  - rewrite gmUpdate_count; [cbn [List.length]; lia | reflexivity | exact Hnd |].
    exact (gmLookup_Some_key _ _ _ E0).
  - apply gmLookup_None in E0.
    rewrite gmUpdate_count.
    + rewrite map_app, list_sum_app. cbn [map snd gm_binCount List.length].
      rewrite list_sum_head. cbn [list_sum fold_right].
      lia.
    + reflexivity.
    + rewrite map_app. cbn [map fst].
      apply List.NoDup_app; [exact Hnd | |].
      * constructor; [intros [] | constructor].
      * intros k Hk [<- | []]. contradiction.
    + rewrite map_app. apply in_or_app. right. left. reflexivity.
Qed.

(** X10.  The bin counts of the chart's entries add up to the number of
    bins with positive distance and positive time: each such bin is
    counted once, under one key. *)
Theorem chart_counts_every_eligible_bin :
  forall results : list Run,
    list_sum (map ce_binCount (getPaceByGradientChart results))
    = List.length (List.filter chartEligible (collectBins results)).
Proof.
  intros results.
  rewrite (list_sum_perm _ _ (Permutation_map ce_binCount (chart_perm results))).
  rewrite map_map. cbn [chartEntryOf ce_binCount].
  apply gradientMap_count.
Qed.

Lemma chartCompare_rank a b z1 z2 :
  ce_gradient a = KeyInt z1 -> ce_gradient b = KeyInt z2 ->
  (chartCompare a b <? 0)%Z
  = (gradientRank (ce_gradient a) <? gradientRank (ce_gradient b))%Z.
Proof.
  intros Ha Hb. rewrite chartCompare_is_parseInt_difference, Ha, Hb. simpl.
  destruct (z1 - z2 <? 0)%Z eqn:E; symmetry.
  - apply Z.ltb_lt in E. apply Z.ltb_lt. lia.
  - apply Z.ltb_ge in E. apply Z.ltb_ge. lia.
Qed.

(** X11.  When no bin falls under a sentinel key, the chart is in
    strictly ascending order of gradient. *)
Theorem chart_sorted_without_sentinels :
  forall results : list Run,
    gradientGroup results KeyLE35 = [] ->
    gradientGroup results KeyGE35 = [] ->
    StronglySorted
      (fun a b => (gradientRank (ce_gradient a) < gradientRank (ce_gradient b))%Z)
      (getPaceByGradientChart results) /\
    forall e, In e (getPaceByGradientChart results) ->
              exists z, ce_gradient e = KeyInt z /\ (-35 < z < 35)%Z.
Proof.
  intros results Hle Hge.
  assert (Hint : forall e, In e (getPaceByGradientChart results) ->
                           exists z, ce_gradient e = KeyInt z /\ (-35 < z < 35)%Z).
  { intros e He.
    pose proof (proj2 (chart_entry_facts results e He)) as Hv.
    assert (Hk : In (ce_gradient e) (map ce_gradient (getPaceByGradientChart results)))
      by (apply in_map; exact He).
    apply chart_has_group in Hk.
    destruct (ce_gradient e) as [| | z]; [contradiction | contradiction |].
    exists z. split; [reflexivity | exact Hv]. }
  split; [| exact Hint].
  pose proof (chart_keys_distinct results) as Hnd.
  unfold getPaceByGradientChart in *.
  set (L := map chartEntryOf (objectEntries (buildGradientMap results))) in *.
  assert (HL : forall e, In e L -> In e (arraySort chartCompare L)).
  { intros e He. apply (Permutation_in _ (Permutation_sym (arraySort_perm _ L))).
    exact He. }
  apply sorted_strict.
  - apply arraySort_sorted.
    + intros x y Hx Hy _.
      destruct (Hint x (HL x Hx)) as (z1 & H1 & _).
      destruct (Hint y (HL y Hy)) as (z2 & H2 & _).
      exact (chartCompare_rank x y z1 z2 H1 H2).
    + apply (NoDup_map_inv ce_gradient).
      apply (Permutation_NoDup
               (Permutation_map ce_gradient (arraySort_perm chartCompare L))).
      exact Hnd.
  - rewrite <- (map_map ce_gradient gradientRank).
    apply NoDup_map_on; [| exact Hnd].
    intros a b Ha Hb. apply in_map_iff in Ha. apply in_map_iff in Hb.
    destruct Ha as (e1 & <- & H1). destruct Hb as (e2 & <- & H2).
    apply gradientRank_inj.
    + destruct (Hint e1 H1) as (z & -> & Hz). exact Hz.
    + destruct (Hint e2 H2) as (z & -> & Hz). exact Hz.
Qed.

Lemma chart_sorted_without_sentinels_witness :
  StronglySorted
    (fun a b => (gradientRank (ce_gradient a) < gradientRank (ce_gradient b))%Z)
    (getPaceByGradientChart hillRun).
Proof.
  apply (chart_sorted_without_sentinels hillRun); reflexivity.
Defined.

Lemma toFixed_4_of_one x : x == 1 -> Js.toFixed 4 x == 1.
Proof.
  intros E. unfold Js.toFixed. change (inject_Z (Js.pow10 4)) with 10000.
  assert (Qle_bool 0 x = true) as -> by (apply Qle_bool_iff; rewrite E; discriminate).
  assert (Qfloor (x * 10000 + (1 # 2)) = 10000%Z) as ->.
  { rewrite (Qfloor_comp (x * 10000 + (1 # 2)) (1 * 10000 + (1 # 2)));
      [reflexivity | rewrite E; reflexivity]. }
  reflexivity.
Qed.

(** X12.  An entry whose pace is the baseline pace has the personal
    adjustment factor 1; this is the entry of the group at gradient 0
    whenever there is one. *)
Theorem baseline_entry_has_factor_one :
  forall (rev : Revision) (results : list Run) (entry : AdjustmentEntry),
    let analysis := getGradeAdjustmentAnalysis rev results in
    In entry (adjustmentData analysis) ->
    (basePace analysis = Some (ae_avgPace entry) ->
     ae_personalAdjustment entry == 1) /\
    (ae_gradient entry = KeyInt 0 ->
     basePace analysis = Some (ae_avgPace entry) /\
     ae_personalAdjustment entry == 1).
Proof.
  intros rev results entry analysis Hin.
  assert (Hbase : basePace analysis = selectBasePace (getPaceByGradientChart results))
    by (subst analysis; destruct rev; reflexivity).
  destruct (adjustmentData_of_chart results rev entry Hin)
    as (item & Hitem & Hk & Hp & _ & Hf).
  pose proof (chart_paces_positive results item Hitem) as Hpos.
  assert (H1 : basePace analysis = Some (ae_avgPace entry) ->
               ae_personalAdjustment entry == 1).
  { intros Hb. rewrite Hbase in Hb. rewrite Hf, Hb, Hp.
    rewrite adjustmentFactor_ratio by exact Hpos.
    apply toFixed_4_of_one. field. lra. }
  split; [exact H1 |].
  intros H0. rewrite H0 in Hk.
  assert (Hb : basePace analysis = Some (ae_avgPace entry)).
  { rewrite Hbase, Hp. apply basePace_flat; auto.
    apply chart_keys_distinct. }
  split; [exact Hb | exact (H1 Hb)].
Qed.

Lemma baseline_entry_has_factor_one_witness :
  let entry := adjustmentEntrySelfContained
                 (basePace (getGradeAdjustmentAnalysis SelfContained hillRun))
                 (chartEntryOf (KeyInt 0, totalsOf [plainBin 100 0 30])) in
  basePace (getGradeAdjustmentAnalysis SelfContained hillRun)
  = Some (ae_avgPace entry) /\
  ae_personalAdjustment entry == 1.
Proof.
  apply (baseline_entry_has_factor_one SelfContained hillRun).
  - vm_compute. left. reflexivity.
  - reflexivity.
Defined.

(** ** The range buckets of getGradientPaceAnalysis *)

Lemma Qle_bool_false a b : Qle_bool a b = false -> b < a.
Proof.
  intros H. apply Qnot_le_lt. intros Hle. apply Qle_bool_iff in Hle. congruence.
Qed.

Lemma Qle_bool_mono g a b : g <= a -> a <= b -> Qle_bool g b = true.
Proof. intros H1 H2. apply Qle_bool_iff. apply Qle_trans with a; assumption. Qed.

Lemma Qle_bool_below_25 g a : g <= a -> a < 25 -> Qle_bool 25 g = false.
Proof.
  intros H1 H2. destruct (Qle_bool 25 g) eqn:E; [| reflexivity].
  apply Qle_bool_iff in E. exfalso.
  apply (Qlt_irrefl 25). apply Qle_lt_trans with g; [exact E |].
  apply Qle_lt_trans with a; assumption.
Qed.

Lemma filter_mask {A} (f : A -> bool) l :
  List.filter f l = map fst (List.filter snd (combine l (map f l))).
Proof.
  induction l as [| x l IH]; [reflexivity |].
  cbn [List.filter map combine snd]. destruct (f x); cbn [map fst]; rewrite IH;
    reflexivity.
Qed.

(** The case [g <= t] for a threshold [t] below 25, all smaller
    thresholds being already known to lie below [g]. *)
Ltac region g t :=
  let E := fresh "E" in
  destruct (Qle_bool g t) eqn:E;
  [ apply Qle_bool_iff in E;
    repeat match goal with
           | |- context [Qle_bool g ?t'] =>
               rewrite (Qle_bool_mono g t t' E) by discriminate
           end;
    rewrite (Qle_bool_below_25 g t E) by reflexivity;
    cbn [combine List.filter snd fst negb andb map range_min List.length];
    split; intros Hg;
    [ exfalso; rewrite Hg in E; apply E; reflexivity | reflexivity ]
  | ].

(** X13.  Every gradient lies in exactly one of the twelve ranges,
    except the gradient 25, which lies in two: in "20 to 25%" and in
    the last range, whose test is [gradient >= 25]. *)
Theorem gradient_ranges_cover :
  forall g : Q,
    let hits := List.filter (fun range => inRange range g) gradientRanges in
    (g == 25 -> map range_min hits = [Some 20; Some 25]) /\
    (~ g == 25 -> List.length hits = 1%nat).
Proof.
  intros g hits. subst hits. rewrite filter_mask. unfold gradientRanges.
  cbn [map inRange range_min range_max]. unfold Js.Qlt_bool.
  region g (-25). region g (-20). region g (-15). region g (-10). region g (-5).
  region g 0. region g 5. region g 10. region g 15. region g 20.
  destruct (Qle_bool g 25) eqn:E25; destruct (Qle_bool 25 g) eqn:E25';
    cbn [combine List.filter snd fst negb andb map range_min List.length].
  - split; [reflexivity |]. intros Hg. exfalso. apply Hg.
    apply Qle_bool_iff in E25. apply Qle_bool_iff in E25'.
    apply Qle_antisym; assumption.
  - split; [| reflexivity]. intros Hg. exfalso.
    apply Qle_bool_false in E25'. rewrite Hg in E25'. discriminate E25'.
  - split; [| reflexivity]. intros Hg. exfalso.
    apply Qle_bool_false in E25. rewrite Hg in E25. discriminate E25.
  - exfalso. apply Qle_bool_false in E25. apply Qle_bool_false in E25'.
    apply (Qlt_irrefl g). apply Qlt_trans with 25; assumption.
Qed.

Lemma gradient_ranges_cover_witness :
  map range_min (List.filter (fun range => inRange range 25) gradientRanges)
  = [Some 20; Some 25] /\
  List.length (List.filter (fun range => inRange range (-7)) gradientRanges) = 1%nat.
Proof.
  split.
  - apply (gradient_ranges_cover 25). reflexivity.
  - apply (gradient_ranges_cover (-7)). discriminate.
Defined.

(** The median of binary64 numbers between two binary64 numbers lies
    between them: the sum of the two middle values is rounded, and so
    is its half, but neither rounding crosses a binary64 number. *)
Lemma medianOfSorted_bounds lo hi l :
  l <> [] -> Js.double lo == lo -> Js.double hi == hi ->
  (forall x, In x l -> lo <= x /\ x <= hi) ->
  lo <= medianOfSorted l /\ medianOfSorted l <= hi.
Proof.
  intros Hne Dlo Dhi Hb.
  assert (Hlen : (0 < List.length l)%nat) by (destruct l; [congruence | simpl; lia]).
  assert (Hnth : forall i, (i < List.length l)%nat ->
                           lo <= nth i l 0 /\ nth i l 0 <= hi).
  { intros i Hi. apply Hb. apply nth_In. exact Hi. }
  unfold medianOfSorted.
  destruct (Nat.eqb (List.length l) 1); [apply Hnth; lia |].
  assert (Hhalf : (List.length l / 2 < List.length l)%nat)
    by (apply Nat.div_lt; lia).
  destruct (Nat.eqb (List.length l mod 2) 0); [| apply Hnth; exact Hhalf].
  destruct (Hnth (List.length l / 2 - 1)%nat ltac:(lia)) as [A1 A2].
  destruct (Hnth (List.length l / 2)%nat Hhalf) as [B1 B2].
  set (a := nth (List.length l / 2 - 1) l 0) in *.
  set (b := nth (List.length l / 2) l 0) in *.
  unfold Js.div, Js.add.
  pose proof (double_mono (lo + lo) (a + b) ltac:(lra)) as L.
  pose proof (double_mono (a + b) (hi + hi) ltac:(lra)) as U.
  rewrite (double_plus_self lo Dlo) in L. rewrite (double_plus_self hi Dhi) in U.
  split.
  - apply Qle_trans with (Js.double lo); [rewrite Dlo; apply Qle_refl |].
    apply double_mono. apply Qle_shift_div_l; [reflexivity | lra].
  - apply Qle_trans with (Js.double hi); [| rewrite Dhi; apply Qle_refl].
    apply double_mono. apply Qle_shift_div_r; [reflexivity | lra].
Qed.

(** The mean of a single binary64 number is that number. *)
Lemma meanOf_single p : Js.double p == p -> meanOf [p] == p.
Proof.
  intros Dp. unfold meanOf, Js.div, Js.add. cbn [fold_left List.length].
  assert (E1 : 0 + p == p) by ring.
  assert (E2 : Js.double (0 + p) / natQ 1 == p).
  { rewrite (double_comp _ _ E1), Dp. unfold natQ. change (inject_Z (Z.of_nat 1)) with 1.
    field. }
  rewrite (double_comp _ _ E2). exact Dp.
Qed.

Lemma positiveValues_positive values x : In x (positiveValues values) -> 0 < x.
Proof.
  unfold positiveValues. intros H. apply in_flat_map in H.
  destruct H as ([v |] & _ & Hv); [| destruct Hv].
  destruct (Js.Qlt_bool 0 v) eqn:E; [| destruct Hv].
  destruct Hv as [<- | []]. apply Qlt_bool_iff. exact E.
Qed.

Lemma bucketOf_Some allBins range bucket :
  bucketOf allBins range = Some bucket ->
  let paces :=
    positiveValues
      (map pace_min_per_km
         (List.filter (fun bin => inRange range (gradient bin)) allBins)) in
  paces <> [] /\
  bk_range bucket = range /\
  bk_binCount bucket
  = List.length (List.filter (fun bin => inRange range (gradient bin)) allBins) /\
  bk_avgPace bucket = Some (meanOf paces) /\
  bk_medianPace bucket = Some (medianOfSorted (arraySort numericOrder paces)).
Proof.
  unfold bucketOf.
  destruct (List.filter (fun bin => inRange range (gradient bin)) allBins)
    as [| b bs] eqn:Eb; [discriminate |].
  rewrite <- Eb.
  destruct (positiveValues
              (map pace_min_per_km
                 (List.filter (fun bin => inRange range (gradient bin)) allBins)))
    as [| p ps] eqn:Ep; [rewrite Eb; discriminate |].
  rewrite Eb at 1. intros [= <-]. cbn [bk_range bk_binCount bk_avgPace bk_medianPace].
  rewrite Eb. repeat split; try reflexivity. discriminate.
Qed.

(** X14.  A bucket of the range analysis belongs to one of the twelve
    ranges that holds at least one bin with a valid pace, and its bin
    count is the number of all bins in the range.  With the paces
    binary64 numbers, its median pace lies between the smallest and the
    largest valid pace of the range, and with a single valid pace both
    mean and median are that pace.  The mean is a rounded sum divided
    by the count, and rounding can put it above the largest pace: the
    mean of three paces 3.04 is 3.0400000000000005. *)
Theorem range_bucket_statistics :
  forall (results : list Run) (bucket : Bucket),
    In bucket (pa_buckets (getGradientPaceAnalysis results)) ->
    let range := bk_range bucket in
    let paces := pacesInRange results range in
    In range gradientRanges /\
    paces <> [] /\
    bk_binCount bucket
    = List.length (List.filter (fun bin => inRange range (gradient bin))
                     (collectBins results)) /\
    (exists mean median,
        bk_avgPace bucket = Some mean /\ bk_medianPace bucket = Some median /\
        mean = meanOf paces /\
        (forall lo hi,
            Js.double lo == lo -> Js.double hi == hi ->
            (forall p, In p paces -> lo <= p /\ p <= hi) ->
            lo <= median /\ median <= hi) /\
        (forall p, paces = [p] -> Js.double p == p -> median = p /\ mean == p)) /\
    (let d := Js.double (304 # 100) in
     Js.double d == d /\
     meanOf [d; d; d] == (6845471433603155 # 2251799813685248) /\
     d < meanOf [d; d; d]).
Proof.
  intros results bucket Hin range paces.
  assert (Hb : exists r, In r gradientRanges
                         /\ bucketOf (collectBins results) r = Some bucket).
  { unfold getGradientPaceAnalysis in Hin.
    destruct results as [| r0 rs]; [destruct Hin |].
    remember (collectBins (r0 :: rs)) as allBins eqn:Ec.
    destruct allBins as [| b0 bs]; [destruct Hin |].
    cbn [pa_buckets] in Hin.
    apply in_flat_map in Hin. destruct Hin as (r & Hr & Hx).
    exists r. split; [exact Hr |].
    destruct (bucketOf (b0 :: bs) r) as [bk |]; [| destruct Hx].
    destruct Hx as [-> | []]. reflexivity. }
  destruct Hb as (r & Hr & Hbk).
  destruct (bucketOf_Some _ _ _ Hbk) as (Hne & Hrange & Hcount & Hmean & Hmed).
  subst range paces. unfold pacesInRange. rewrite Hrange.
  set (paces := positiveValues
                  (map pace_min_per_km
                     (List.filter (fun bin => inRange r (gradient bin))
                        (collectBins results)))) in *.
  split; [exact Hr | split; [exact Hne | split; [exact Hcount |]]].
  split; [| vm_compute; repeat split].
  exists (meanOf paces), (medianOfSorted (arraySort numericOrder paces)).
  split; [exact Hmean | split; [exact Hmed | split; [reflexivity | split]]].
  - intros lo hi Dlo Dhi Hbound.
    apply medianOfSorted_bounds; [| exact Dlo | exact Dhi |].
    + intros E. apply Hne.
      apply Permutation_nil.
      rewrite <- E. apply arraySort_perm.
    + intros x Hx. apply Hbound.
      apply (Permutation_in _ (arraySort_perm numericOrder paces)). exact Hx.
  - intros p -> Dp. split; [reflexivity | apply meanOf_single; exact Dp].
Qed.

Lemma range_bucket_statistics_witness :
  exists bucket median,
    nth_error (pa_buckets (getGradientPaceAnalysis hillRun)) 0 = Some bucket /\
    In (bk_range bucket) gradientRanges /\
    bk_medianPace bucket = Some median /\
    5 <= median /\ median <= 5.
Proof.
  eexists.
  match goal with
  | |- exists median, nth_error _ _ = Some ?b /\ _ =>
      assert (Hn : nth_error (pa_buckets (getGradientPaceAnalysis hillRun)) 0
                   = Some b) by (vm_compute; reflexivity);
      pose proof (range_bucket_statistics hillRun b) as H
  end.
  cbv zeta in H.
  destruct H as (H1 & _ & _ & (mean & median & _ & Hm & _ & Hbounds & _) & _);
    [vm_compute; left; reflexivity |].
  exists median. split; [exact Hn | split; [exact H1 | split; [exact Hm |]]].
  apply Hbounds; [vm_compute; reflexivity | vm_compute; reflexivity |].
  match goal with
  | |- forall p, In p ?paces -> _ =>
      assert (Hp : paces = [30000 # 6000]) by (vm_compute; reflexivity);
      rewrite Hp
  end.
  intros p [<- | []]. split; vm_compute; discriminate.
Defined.

(** X15.  The range analysis reports the number of all bins of all
    runs, returns at most twelve buckets, in the order of the ranges,
    and none when there is no bin. *)
Theorem range_analysis_totals :
  forall results : list Run,
    let analysis := getGradientPaceAnalysis results in
    pa_totalBinsAnalyzed analysis = List.length (collectBins results) /\
    (List.length (pa_buckets analysis) <= 12)%nat /\
    (exists picked,
        map bk_range (pa_buckets analysis)
        = List.filter picked gradientRanges) /\
    (collectBins results = [] -> pa_buckets analysis = []).
Proof.
  intros results analysis. subst analysis. unfold getGradientPaceAnalysis.
  destruct results as [| r0 rs].
  { repeat split; simpl; try lia. exists (fun _ => false). reflexivity. }
  destruct (collectBins (r0 :: rs)) as [| b0 bs] eqn:Ec.
  { repeat split; simpl; try lia. exists (fun _ => false). reflexivity. }
  rewrite <- Ec. cbn [pa_totalBinsAnalyzed pa_buckets].
  set (allBins := collectBins (r0 :: rs)).
  assert (Hsub : forall ranges,
             map bk_range
               (flat_map (fun range => match bucketOf allBins range with
                                       | Some bucket => [bucket]
                                       | None => []
                                       end) ranges)
             = List.filter (fun range => match bucketOf allBins range with
                                         | Some _ => true
                                         | None => false
                                         end) ranges).
  { induction ranges as [| r ranges IH]; [reflexivity |].
    cbn [flat_map List.filter]. rewrite map_app, IH.
    destruct (bucketOf allBins r) as [bk |] eqn:Ebk; [| reflexivity].
    cbn [map app]. f_equal. apply (bucketOf_Some _ _ _ Ebk). }
  split; [reflexivity | split; [| split]].
  - rewrite <- (length_map bk_range), Hsub.
    apply (Nat.le_trans _ _ _ (filter_length_le _ gradientRanges)). simpl. lia.
  - eexists. apply Hsub.
  - unfold allBins. rewrite Ec. discriminate.
Qed.

Lemma range_analysis_totals_witness :
  collectBins [ {| r_filename := "a.gpx"; r_bins := Some [] |} ] = [] /\
  pa_buckets (getGradientPaceAnalysis [ {| r_filename := "a.gpx"; r_bins := Some [] |} ]) = [].
Proof.
  split; [reflexivity |].
  apply (range_analysis_totals [ {| r_filename := "a.gpx"; r_bins := Some [] |} ]).
  reflexivity.
Defined.

(** ** The totals of a track *)

Lemma Math_round_comp x y : x == y -> Js.Math_round x = Js.Math_round y.
Proof. intros E. unfold Js.Math_round. rewrite E. reflexivity. Qed.

Lemma Math_round_mono x y : x <= y -> (Js.Math_round x <= Js.Math_round y)%Z.
Proof.
  intros H. unfold Js.Math_round. apply Qfloor_resp_le. lra.
Qed.

Lemma gainStep_grows g prev curr :
  Js.double g == g ->
  g <= gainStep g prev curr /\ Js.double (gainStep g prev curr) == gainStep g prev curr.
Proof.
  intros Dg. unfold gainStep.
  destruct (pp_ele prev) as [a |], (pp_ele curr) as [b |];
    try (split; [apply Qle_refl | exact Dg]).
  cbv zeta. destruct (Js.Qlt_bool 0 (Js.sub b a)) eqn:E;
    [| split; [apply Qle_refl | exact Dg]].
  apply Qlt_bool_iff in E. unfold Js.add. split; [| apply double_idem].
  apply Qle_trans with (Js.double g); [rewrite Dg; apply Qle_refl |].
  apply double_mono. lra.
Qed.

Lemma gainLoop_grows rest : forall g prev,
  Js.double g == g ->
  g <= gainLoop g prev rest /\ Js.double (gainLoop g prev rest) == gainLoop g prev rest.
Proof.
  induction rest as [| curr rest IH]; intros g prev Dg; cbn [gainLoop].
  - split; [apply Qle_refl | exact Dg].
  - destruct (gainStep_grows g prev curr Dg) as [H1 D1].
    destruct (IH (gainStep g prev curr) curr D1) as [H2 D2].
    split; [lra | exact D2].
Qed.

Lemma double_0 : Js.double 0 == 0.
Proof. reflexivity. Qed.

Lemma elevationGain_nonneg points : 0 <= elevationGain points.
Proof.
  destruct points as [| p rest]; [apply Qle_refl |].
  apply (gainLoop_grows rest 0 p double_0).
Qed.

Lemma gainLoop_app l1 : forall g prev l2,
  gainLoop g prev (l1 ++ l2)
  = gainLoop (gainLoop g prev l1) (List.last l1 prev) l2.
Proof.
  induction l1 as [| x l1 IH]; intros g prev l2; [reflexivity |].
  rewrite last_cons_default. cbn [app gainLoop]. apply IH.
Qed.

(** One climb between two neighbouring points is part of the gain. *)
Lemma gainLoop_single_climb before : forall g prev a b after ea eb,
  Js.double g == g -> 0 <= g ->
  pp_ele a = Some ea -> pp_ele b = Some eb ->
  Js.sub eb ea <= gainLoop g prev (before ++ a :: b :: after).
Proof.
  intros g prev a b after ea eb Dg Hg Ha Hb.
  rewrite gainLoop_app. cbn [gainLoop].
  destruct (gainLoop_grows before g prev Dg) as [G1 D1].
  set (g1 := gainLoop g prev before) in *.
  destruct (gainStep_grows g1 (List.last before prev) a D1) as [G2 D2].
  set (g2 := gainStep g1 (List.last before prev) a) in *.
  destruct (gainStep_grows g2 a b D2) as [G3 D3].
  destruct (gainLoop_grows after (gainStep g2 a b) b D3) as [G4 _].
  apply Qle_trans with (gainStep g2 a b); [| exact G4].
  unfold gainStep. rewrite Ha, Hb. cbv zeta.
  destruct (Js.Qlt_bool 0 (Js.sub eb ea)) eqn:E.
  - unfold Js.add. apply Qle_trans with (Js.double (Js.sub eb ea)).
    + unfold Js.sub. rewrite double_idem. apply Qle_refl.
    + apply double_mono. lra.
  - unfold Js.Qlt_bool in E. apply negb_false_iff in E. apply Qle_bool_iff in E. lra.
Qed.

(** On a track that never climbs the gain stays what it was. *)
Lemma gainLoop_no_climb eles : forall g prev points first,
  pp_ele prev = Some first ->
  map pp_ele points = map Some eles ->
  StronglySorted (fun a b => b <= a) (first :: eles) ->
  gainLoop g prev points = g.
Proof.
  induction eles as [| e eles IH]; intros g prev points first Hprev Hmap Hs.
  - destruct points; [reflexivity | discriminate Hmap].
  - destruct points as [| p ps]; [discriminate Hmap |].
    cbn [map] in Hmap. injection Hmap as Hp Hps.
    apply StronglySorted_inv in Hs as [Hs Hall].
    cbn [gainLoop].
    assert (Hstep : gainStep g prev p = g).
    { unfold gainStep. rewrite Hprev, Hp. cbv zeta.
      assert (Hd : Js.sub e first <= 0).
      { unfold Js.sub. apply double_nonpos. apply Forall_inv in Hall. lra. }
      destruct (Js.Qlt_bool 0 (Js.sub e first)) eqn:E; [| reflexivity].
      apply Qlt_bool_iff in E. exfalso. lra. }
    rewrite Hstep. apply (IH g p ps e Hp Hps Hs).
Qed.

(** X16.  The elevation gain is a binary64 running sum of the
    positive differences, rounded at the end.  It is never negative, it
    is at least every single rounded climb between two neighbouring
    points, and it is 0 on a track that never climbs.  It can fall
    short of the net climb of a track that never descends: for the
    elevations 0, 0.8, 2.9, 3.5 the sum is 3.4999999999999996 and the
    gain is 3, where the net climb 3.5 rounds to 4. *)
Theorem elevation_gain_bounds :
  forall points : list ParsedPoint,
    (0 <= getTotalElevationGain points)%Z /\
    (forall before a b after ea eb,
        points = before ++ a :: b :: after ->
        pp_ele a = Some ea -> pp_ele b = Some eb ->
        (Js.Math_round (Js.sub eb ea) <= getTotalElevationGain points)%Z) /\
    (forall eles,
        map pp_ele points = map Some eles ->
        StronglySorted (fun a b => b <= a) eles ->
        getTotalElevationGain points = 0%Z) /\
    (let track := map (fun e => pointAtElevation (Some (Js.double e)))
                    [0; (8 # 10); (29 # 10); (35 # 10)] in
     elevationGain track == (7881299347898367 # 2251799813685248) /\
     getTotalElevationGain track = 3%Z /\
     Js.Math_round (Js.sub (Js.double (35 # 10)) (Js.double 0)) = 4%Z).
Proof.
  intros points. unfold getTotalElevationGain.
  split; [apply (Math_round_ge _ 0), elevationGain_nonneg |].
  split; [| split; [| vm_compute; repeat split]].
  - intros before a b after ea eb -> Ha Hb. apply Math_round_mono.
    destruct before as [| p before].
    + cbn [app elevationGain].
      change (gainLoop 0 a (b :: after)) with (gainLoop (gainStep 0 a b) b after).
      destruct (gainStep_grows 0 a b double_0) as [G1 D1].
      destruct (gainLoop_grows after (gainStep 0 a b) b D1) as [G2 _].
      apply Qle_trans with (gainStep 0 a b); [| exact G2].
      unfold gainStep. rewrite Ha, Hb. cbv zeta.
      destruct (Js.Qlt_bool 0 (Js.sub eb ea)) eqn:E.
      * unfold Js.add. apply Qle_trans with (Js.double (Js.sub eb ea)).
        -- unfold Js.sub. rewrite double_idem. apply Qle_refl.
        -- apply double_mono. lra.
      * unfold Js.Qlt_bool in E. apply negb_false_iff in E.
        apply Qle_bool_iff in E. exact E.
    + cbn [app elevationGain].
      apply (gainLoop_single_climb before 0 p a b after ea eb double_0
               (Qle_refl 0) Ha Hb).
  - intros eles Hmap Hs. apply (Math_round_comp _ 0).
    destruct points as [| p ps]; [reflexivity |].
    destruct eles as [| e eles]; [discriminate Hmap |].
    cbn [map] in Hmap. injection Hmap as Hp Hps. cbn [elevationGain].
    rewrite (gainLoop_no_climb eles 0 p ps e Hp Hps Hs). reflexivity.
Qed.

Lemma elevation_gain_bounds_witness :
  let track := map (fun e => pointAtElevation (Some e)) [100; 120; 110; 137] in
  map pp_ele (skipn 2 track) = map Some [110; 137] /\
  (Js.Math_round (Js.sub 137 110) <= getTotalElevationGain track)%Z /\
  map pp_ele (firstn 1 track ++ [pointAtElevation (Some 90)]) = map Some [100; 90] /\
  getTotalElevationGain (firstn 1 track ++ [pointAtElevation (Some 90)]) = 0%Z.
Proof.
  cbv zeta. split; [reflexivity |].
  split.
  - apply (proj1 (proj2 (elevation_gain_bounds _))
             [pointAtElevation (Some 100); pointAtElevation (Some 120)]
             (pointAtElevation (Some 110)) (pointAtElevation (Some 137)) []
             110 137); reflexivity.
  - split; [reflexivity |].
    apply (proj1 (proj2 (proj2 (elevation_gain_bounds _))) [100; 90]);
      [reflexivity |].
    repeat constructor; vm_compute; discriminate.
Defined.

Lemma gainLoop_skips_gap g prev p after :
  pp_ele p = None ->
  gainLoop g prev (p :: after) = continueGain g after.
Proof.
  intros Hp. cbn [gainLoop].
  assert (E : gainStep g prev p = g).
  { unfold gainStep. rewrite Hp. destruct (pp_ele prev); reflexivity. }
  rewrite E. destruct after as [| a rest]; [reflexivity |].
  cbn [gainLoop continueGain]. f_equal.
  unfold gainStep. rewrite Hp. reflexivity.
Qed.

Lemma elevationGain_gap before p after :
  pp_ele p = None ->
  elevationGain (before ++ p :: after) = continueGain (elevationGain before) after.
Proof.
  intros Hp. destruct before as [| b before].
  - cbn [app elevationGain]. destruct after as [| a rest]; [reflexivity |].
    cbn [gainLoop continueGain]. f_equal. unfold gainStep. rewrite Hp. reflexivity.
  - cbn [app elevationGain]. rewrite gainLoop_app.
    apply gainLoop_skips_gap. exact Hp.
Qed.

(** X17.  A point without an elevation splits the track: the climb
    across it is not counted, and the running sum goes on after it with
    the gain reached before it.  When at most one point follows, the
    gain is that of the part before the gap; when at most one point
    precedes, it is that of the part after it.  For the elevations
    0.6, 5.8, 7.1, 5.0, a gap, then 5.1, 5.0, 1.3 the gain is 7. *)
Theorem elevation_gain_splits_at_gap :
  forall (before after : list ParsedPoint) (p : ParsedPoint),
    pp_ele p = None ->
    getTotalElevationGain (before ++ p :: after)
    = Js.Math_round (continueGain (elevationGain before) after) /\
    ((List.length after <= 1)%nat ->
     getTotalElevationGain (before ++ p :: after) = getTotalElevationGain before) /\
    ((List.length before <= 1)%nat ->
     getTotalElevationGain (before ++ p :: after) = getTotalElevationGain after) /\
    getTotalElevationGain
      (map (fun e => pointAtElevation (Some (Js.double e)))
         [(6 # 10); (58 # 10); (71 # 10); 5]
       ++ pointAtElevation None
       :: map (fun e => pointAtElevation (Some (Js.double e)))
            [(51 # 10); 5; (13 # 10)]) = 7%Z.
Proof.
  intros before after p Hp. unfold getTotalElevationGain.
  rewrite (elevationGain_gap before p after Hp).
  split; [reflexivity |].
  split; [| split; [| vm_compute; reflexivity]].
  - intros Ha. destruct after as [| a [| a' after]]; [reflexivity | reflexivity |].
    simpl in Ha. lia.
  - intros Hb. destruct before as [| b [| b' before]]; [reflexivity | reflexivity |].
    simpl in Hb. lia.
Qed.

Lemma elevation_gain_splits_at_gap_witness :
  pp_ele (pointAtElevation None) = None /\
  getTotalElevationGain
    ([pointAtElevation (Some 100); pointAtElevation (Some 130)]
     ++ pointAtElevation None
     :: [pointAtElevation (Some 200); pointAtElevation (Some 210)])
  = Js.Math_round
      (continueGain
         (elevationGain [pointAtElevation (Some 100); pointAtElevation (Some 130)])
         [pointAtElevation (Some 200); pointAtElevation (Some 210)]) /\
  getTotalElevationGain
    ([pointAtElevation (Some 100); pointAtElevation (Some 130)]
     ++ pointAtElevation None
     :: [pointAtElevation (Some 200); pointAtElevation (Some 210)]) = 40%Z.
Proof.
  split; [reflexivity |].
  split; [| vm_compute; reflexivity].
  exact (proj1 (elevation_gain_splits_at_gap
                  [pointAtElevation (Some 100); pointAtElevation (Some 130)]
                  [pointAtElevation (Some 200); pointAtElevation (Some 210)]
                  (pointAtElevation None) eq_refl)).
Defined.

(** ** Time and pace labels *)

Lemma Qfloor_unique x (z : Z) :
  inject_Z z <= x -> x < inject_Z (z + 1) -> Qfloor x = z.
Proof.
  intros H1 H2.
  pose proof (Qfloor_le x) as H3. pose proof (Qlt_floor x) as H4.
  assert (inject_Z z < inject_Z (Qfloor x + 1)) as Ha by lra.
  assert (inject_Z (Qfloor x) < inject_Z (z + 1)) as Hb by lra.
  rewrite <- Zlt_Qlt in Ha, Hb. lia.
Qed.

Lemma Qfloor_minus_Z x (z : Z) : Qfloor (x - inject_Z z) = (Qfloor x - z)%Z.
Proof.
  pose proof (Qfloor_le x) as H3. pose proof (Qlt_floor x) as H4.
  rewrite inject_Z_plus in H4.
  apply Qfloor_unique.
  - unfold Z.sub. rewrite inject_Z_plus, inject_Z_opp. lra.
  - replace (Qfloor x - z + 1)%Z with ((Qfloor x + 1) + - z)%Z by lia.
    rewrite !inject_Z_plus, inject_Z_opp. lra.
Qed.

Lemma Qfloor_div_pos x (p : positive) :
  Qfloor (x / (Zpos p # 1)) = (Qfloor x / Zpos p)%Z.
Proof.
  destruct x as [a b]. unfold Qdiv, Qinv, Qmult. cbn.
  rewrite Z.mul_1_r, Pos2Z.inj_mul.
  symmetry. apply Z.div_div; lia.
Qed.

Lemma append_length (a b : string) :
  String.length (a ++ b)%string = (String.length a + String.length b)%nat.
Proof.
  induction a as [| c a IH]; [reflexivity |].
  change (S (String.length (a ++ b)%string)
          = S (String.length a + String.length b)).
  f_equal. exact IH.
Qed.

Lemma pad2_length z : (0 <= z < 100)%Z -> String.length (pad2 z) = 2%nat.
Proof.
  intros Hz.
  assert (H : forallb (fun n => Nat.eqb (String.length (pad2 (Z.of_nat n))) 2)
                (seq 0 100) = true) by (vm_compute; reflexivity).
  rewrite forallb_forall in H.
  specialize (H (Z.to_nat z)). rewrite Z2Nat.id in H by lia.
  apply Nat.eqb_eq. apply H. apply in_seq. lia.
Qed.

(** X18.  For a non-negative number of seconds the time string is the
    decomposition of the whole seconds into hours, minutes below 60 and
    seconds below 60, each written with at least two digits; below 100
    hours the string has exactly eight characters. *)
Theorem formatTime_decomposition :
  forall seconds : Q,
    0 <= seconds ->
    exists h m s : Z,
      formatTime seconds = (pad2 h ++ ":" ++ pad2 m ++ ":" ++ pad2 s)%string /\
      (0 <= h)%Z /\ (0 <= m < 60)%Z /\ (0 <= s < 60)%Z /\
      (3600 * h + 60 * m + s)%Z = Qfloor seconds /\
      (seconds < 360000 -> String.length (formatTime seconds) = 8%nat).
Proof.
  intros seconds Hpos.
  set (F := Qfloor seconds).
  assert (HF : (0 <= F)%Z).
  { subst F. change 0%Z with (Qfloor 0). apply Qfloor_resp_le. exact Hpos. }
  assert (Hh : Js.Math_floor (seconds / 3600) = (F / 3600)%Z).
  { unfold Js.Math_floor. apply (Qfloor_div_pos seconds 3600). }
  assert (Hm : Js.Math_floor (jsMod seconds 3600 / 60) = ((F mod 3600) / 60)%Z).
  { unfold Js.Math_floor, jsMod.
    rewrite (Qfloor_div_pos _ 60).
    change (Qfloor (seconds / 3600)) with (Js.Math_floor (seconds / 3600)).
    rewrite Hh.
    assert (E : seconds - inject_Z (F / 3600) * 3600
                == seconds - inject_Z (F / 3600 * 3600)).
    { rewrite inject_Z_mult. reflexivity. }
    rewrite E, Qfloor_minus_Z. fold F. f_equal.
    rewrite Z.mod_eq by lia. lia. }
  assert (Hs : Js.Math_floor (jsMod seconds 60) = (F mod 60)%Z).
  { unfold Js.Math_floor, jsMod.
    rewrite (Qfloor_div_pos seconds 60). fold F.
    assert (E : seconds - inject_Z (F / 60) * 60
                == seconds - inject_Z (F / 60 * 60)).
    { rewrite inject_Z_mult. reflexivity. }
    rewrite E, Qfloor_minus_Z. fold F.
    rewrite Z.mod_eq by lia. lia. }
  exists (F / 3600)%Z, ((F mod 3600) / 60)%Z, (F mod 60)%Z.
  assert (Heq : formatTime seconds
                = (pad2 (F / 3600) ++ ":" ++ pad2 (F mod 3600 / 60) ++ ":"
                     ++ pad2 (F mod 60))%string).
  { unfold formatTime. rewrite Hh, Hm, Hs. reflexivity. }
  split; [exact Heq |].
  split; [apply Z.div_pos; lia |].
  split; [split; [apply Z.div_pos; [apply Z.mod_pos_bound |]; lia
                 | apply Z.div_lt_upper_bound; [lia |];
                   pose proof (Z.mod_pos_bound F 3600); lia] |].
  split; [apply Z.mod_pos_bound; lia |].
  split.
  - pose proof (Z.div_mod F 3600). pose proof (Z.div_mod (F mod 3600) 60).
    pose proof (Z.div_mod F 60).
    pose proof (Z.mod_pos_bound F 3600). pose proof (Z.mod_pos_bound F 60).
    pose proof (Z.mod_pos_bound (F mod 3600) 60).
    lia.
  - intros Hlt. rewrite Heq.
    assert (F < 360000)%Z as HF'.
    { pose proof (Qfloor_le seconds) as H1. fold F in H1.
      assert (inject_Z F < inject_Z 360000) as H2 by (change (inject_Z 360000) with 360000; lra).
      rewrite <- Zlt_Qlt in H2. exact H2. }
    assert (0 <= F / 3600 < 100)%Z as B1.
    { split; [apply Z.div_pos; lia |]. apply Z.div_lt_upper_bound; lia. }
    assert (0 <= F mod 3600 / 60 < 100)%Z as B2.
    { pose proof (Z.mod_pos_bound F 3600).
      split; [apply Z.div_pos; lia |]. apply Z.div_lt_upper_bound; lia. }
    assert (0 <= F mod 60 < 100)%Z as B3.
    { pose proof (Z.mod_pos_bound F 60). lia. }
    rewrite !append_length, (pad2_length _ B1), (pad2_length _ B2),
      (pad2_length _ B3).
    reflexivity.
Qed.

Lemma formatTime_decomposition_witness :
  0 <= (7325 # 2) /\ String.length (formatTime (7325 # 2)) = 8%nat.
Proof.
  assert (H : 0 <= (7325 # 2)) by (vm_compute; discriminate).
  split; [exact H |].
  destruct (formatTime_decomposition (7325 # 2) H) as (h & m & s & _ & _ & _ & _ & _ & Hlen).
  apply Hlen. reflexivity.
Defined.



(** ** The type of a file *)

Lemma lowerChar_dot c : Ascii.eqb (lowerChar c) "." = Ascii.eqb c ".".
Proof.
  destruct c as [[] [] [] [] [] [] [] []]; vm_compute; reflexivity.
Qed.

Lemma split_nonempty sep s : split sep s <> [].
Proof.
  destruct s as [| c s]; cbn [split]; [discriminate |].
  destruct (Ascii.eqb c sep); [discriminate |].
  destruct (split sep s); discriminate.
Qed.

Lemma toLowerCase_hasDot s : hasDot (toLowerCase s) = hasDot s.
Proof.
  induction s as [| c s IH]; [reflexivity |].
  cbn [toLowerCase hasDot]. rewrite lowerChar_dot, IH. reflexivity.
Qed.

Lemma toLowerCase_app a b :
  toLowerCase (a ++ b)%string = (toLowerCase a ++ toLowerCase b)%string.
Proof.
  induction a as [| c a IH]; [reflexivity |].
  change (String (lowerChar c) (toLowerCase (a ++ b)%string)
          = String (lowerChar c) (toLowerCase a ++ toLowerCase b)%string).
  f_equal. exact IH.
Qed.

Lemma split_without_dot s : hasDot s = false -> split "." s = [s].
Proof.
  induction s as [| c s IH]; [reflexivity |].
  cbn [hasDot split]. intros H. apply orb_false_iff in H as [Hc Hs].
  rewrite Hc, (IH Hs). reflexivity.
Qed.

Lemma last_app_nonempty {A} (l1 l2 : list A) d :
  l2 <> [] -> List.last (l1 ++ l2) d = List.last l2 d.
Proof.
  intros H. induction l1 as [| x l1 IH]; [reflexivity |].
  cbn [app]. destruct (l1 ++ l2) eqn:E.
  - apply app_eq_nil in E as [_ E]. contradiction.
  - cbn [List.last]. exact IH.
Qed.

Lemma split_at_dot a b :
  exists parts,
    parts <> [] /\ split "." (a ++ String "." b)%string = parts ++ split "." b.
Proof.
  induction a as [| c a (parts & Hne & IH)].
  - exists [EmptyString]. split; [discriminate | reflexivity].
  - change (String c a ++ String "." b)%string
      with (String c (a ++ String "." b)%string).
    cbn [split]. rewrite IH.
    destruct parts as [| part parts]; [contradiction |].
    destruct (Ascii.eqb c ".").
    + exists (EmptyString :: part :: parts). split; [discriminate | reflexivity].
    + exists (String c part :: parts). split; [discriminate | reflexivity].
Qed.

Lemma extensionOf_after_dot stem ext :
  hasDot ext = false ->
  extensionOf (stem ++ "." ++ ext) = toLowerCase ext.
Proof.
  intros Hext. unfold extensionOf, pop.
  rewrite toLowerCase_app.
  change (toLowerCase ("." ++ ext)%string) with (String "." (toLowerCase ext)).
  destruct (split_at_dot (toLowerCase stem) (toLowerCase ext)) as (parts & _ & ->).
  rewrite last_app_nonempty by apply split_nonempty.
  rewrite split_without_dot by (rewrite toLowerCase_hasDot; exact Hext).
  reflexivity.
Qed.

Lemma extensionOf_without_dot name :
  hasDot name = false -> extensionOf name = toLowerCase name.
Proof.
  intros H. unfold extensionOf, pop.
  rewrite split_without_dot by (rewrite toLowerCase_hasDot; exact H).
  reflexivity.
Qed.

Lemma toLowerCase_idem s : toLowerCase (toLowerCase s) = toLowerCase s.
Proof.
  induction s as [| c s IH]; [reflexivity |].
  cbn [toLowerCase]. rewrite IH. f_equal.
  destruct c as [[] [] [] [] [] [] [] []]; vm_compute; reflexivity.
Qed.

(** X20.  The extension of a file name is what follows its last dot,
    in lower case; a name without a dot is its own extension, and a
    name that ends in a dot has the empty extension.  Upper and lower
    case in the name make no difference. *)
Theorem extension_is_after_last_dot :
  forall stem ext : string,
    hasDot ext = false ->
    extensionOf (stem ++ "." ++ ext) = toLowerCase ext /\
    extensionOf ext = toLowerCase ext /\
    extensionOf (stem ++ ".") = EmptyString /\
    extensionOf (toLowerCase (stem ++ "." ++ ext)) = extensionOf (stem ++ "." ++ ext).
Proof.
  intros stem ext Hext. repeat split.
  - apply extensionOf_after_dot. exact Hext.
  - apply extensionOf_without_dot. exact Hext.
  - apply (extensionOf_after_dot stem EmptyString). reflexivity.
  - unfold extensionOf. rewrite toLowerCase_idem. reflexivity.
Qed.

Lemma extension_is_after_last_dot_witness :
  hasDot "GPX" = false /\
  extensionOf ("morning.run" ++ "." ++ "GPX") = "gpx"%string /\
  extensionOf "GPX" = "gpx"%string.
Proof.
  split; [reflexivity |].
  destruct (extension_is_after_last_dot "morning.run" "GPX" eq_refl)
    as (H1 & H2 & _).
  split; [exact H1 | exact H2].
Defined.

(** X21.  A file whose extension is neither gpx nor fit is answered
    by [processFile] with the error "Unsupported file type", and
    [getRoutePoints] has no points for it; in a batch it counts as a
    failed file and adds one error entry with its name and that
    message, whatever the parsers do.  A file with the extension gpx
    goes to the GPX parser under its own name. *)
Theorem unsupported_extension_fails :
  forall (Stats : Type)
         (processGPXFile processFITFile
            : string -> string -> Batch.Outcome (Batch.Processed Stats))
         (getGPXRoutePoints getFITRoutePoints
            : string -> Batch.Outcome (option (list Point)))
         (haversine : Q -> Q -> Q -> Q -> Q) (rev : Revision)
         (stem ext buffer : string),
    hasDot ext = false ->
    let process := processFile Stats processGPXFile processFITFile in
    let route := getRoutePoints getGPXRoutePoints getFITRoutePoints in
    let file := fileNamed (stem ++ "." ++ ext) buffer in
    (toLowerCase ext = "gpx"%string ->
     process buffer (stem ++ "." ++ ext)%string
     = processGPXFile buffer (stem ++ "." ++ ext)%string /\
     route buffer (stem ++ "." ++ ext)%string = getGPXRoutePoints buffer) /\
    (toLowerCase ext <> "gpx"%string -> toLowerCase ext <> "fit"%string ->
     route buffer (stem ++ "." ++ ext)%string = Batch.Returns None /\
     Batch.fileFails Stats process route file = true /\
     forall binLength i results errors,
       Batch.processOne Stats process route haversine rev binLength i file
         results errors
       = (results,
          errors ++
            [{| Batch.fe_filename := (stem ++ "." ++ ext)%string;
                Batch.fe_error :=
                  "Unsupported file type. Only GPX and FIT files are supported."
             |}])).
Proof.
  intros Stats processGPXFile processFITFile getGPXRoutePoints getFITRoutePoints
    haversine rev stem ext buffer Hext process route file.
  subst process route file.
  pose proof (extensionOf_after_dot stem ext Hext) as He.
  split.
  - intros Hgpx. unfold processFile, getRoutePoints. cbv zeta.
    rewrite He, Hgpx. split; reflexivity.
  - intros Hgpx Hfit.
    apply String.eqb_neq in Hgpx. apply String.eqb_neq in Hfit.
    assert (Hp : processFile Stats processGPXFile processFITFile buffer
                   (stem ++ "." ++ ext)%string
                 = Batch.Returns
                     (Batch.ProcessedError
                        "Unsupported file type. Only GPX and FIT files are supported.")).
    { unfold processFile. cbv zeta. rewrite He, Hgpx, Hfit. reflexivity. }
    assert (Hr : getRoutePoints getGPXRoutePoints getFITRoutePoints buffer
                   (stem ++ "." ++ ext)%string = Batch.Returns None).
    { unfold getRoutePoints. cbv zeta. rewrite He, Hgpx, Hfit. reflexivity. }
    split; [exact Hr | split].
    + unfold Batch.fileFails, fileNamed. cbn [Batch.buffer Batch.originalname].
      rewrite Hp. reflexivity.
    + intros binLength i results errors.
      unfold Batch.processOne, fileNamed. cbn [Batch.buffer Batch.originalname].
      rewrite Hp. reflexivity.
Qed.

Lemma unsupported_extension_fails_witness :
  hasDot "TCX" = false /\
  Batch.fileFails unit
    (processFile unit (fun _ _ => Batch.Returns (Batch.ProcessedStats tt))
       (fun _ _ => Batch.Returns (Batch.ProcessedStats tt)))
    (getRoutePoints (fun _ => Batch.Returns (Some eastward))
       (fun _ => Batch.Returns (Some eastward)))
    (fileNamed ("ride" ++ "." ++ "TCX") "track") = true.
Proof.
  split; [reflexivity |].
  apply (unsupported_extension_fails unit
           (fun _ _ => Batch.Returns (Batch.ProcessedStats tt))
           (fun _ _ => Batch.Returns (Batch.ProcessedStats tt))
           (fun _ => Batch.Returns (Some eastward))
           (fun _ => Batch.Returns (Some eastward))
           arcHaversine WithCoefficientsModule "ride" "TCX" "track" eq_refl);
    vm_compute; discriminate.
Defined.

(** ** Upload and processing of a stored batch *)

Lemma binLengthOf_nonzero parsed : ~ binLengthOf parsed == 0.
Proof.
  unfold binLengthOf. destruct parsed as [z |]; [| discriminate].
  destruct (Z.eqb z 0) eqn:E; [discriminate |].
  apply Z.eqb_neq in E. intros H.
  apply E. apply inject_Z_injective. exact H.
Qed.

(** X22.  An upload with at least one file stores the files under the
    first clock reading, replacing whatever was stored under that
    name, with a bin length that is never 0, and leaves the other
    batches alone.  Processing the batch ends with a complete event for
    all of its files and removes it, and only it, from the registry.
    A request for the same batch that arrives after the first one has
    finished is answered "Batch not found" and changes nothing.  A
    request that arrives while the first one is still being processed
    finds the batch in the registry and is answered with the same full
    stream; the batch is gone when both have finished. *)
Theorem upload_then_process_once :
  forall (Stats : Type)
         (processFile : string -> string -> Batch.Outcome (Batch.Processed Stats))
         (getRoutePoints : string -> string -> Batch.Outcome (option (list Point)))
         (haversine : Q -> Q -> Q -> Q -> Q) (rev : Revision)
         (batchFiles : gmap string Batch.BatchData) (parsedBinLength : option Z)
         (files : list Batch.File) (now later : Z),
    files <> [] ->
    let batchId := zString now in
    let uploaded := uploadBatch batchFiles parsedBinLength files now later in
    let processed :=
      Batch.processBatch Stats processFile getRoutePoints haversine rev
        (fst uploaded) batchId in
    let serve :=
      Batch.serve Stats processFile getRoutePoints haversine rev (fst uploaded) in
    snd uploaded = Uploaded batchId (List.length files) /\
    (exists data,
        fst uploaded !! batchId = Some data /\ Batch.files data = files /\
        Batch.binLength data = binLengthOf parsedBinLength /\
        ~ Batch.binLength data == 0) /\
    (forall other, other <> batchId ->
                   fst uploaded !! other = batchFiles !! other /\
                   fst processed !! other = batchFiles !! other) /\
    (exists events results errors,
        snd processed
        = Batch.EventStream
            (events ++ [Batch.Complete (List.length files) (List.length results)
                          (List.length errors) results errors])) /\
    fst processed !! batchId = None /\
    Batch.processBatch Stats processFile getRoutePoints haversine rev
      (fst processed) batchId
    = (fst processed, Batch.NotFound "Batch not found") /\
    (let alone := serve [Batch.Arrive 1 batchId; Batch.Finish 1] in
     Batch.batchFiles Stats alone = fst processed /\
     Batch.responses Stats alone = [(1%nat, snd processed)]) /\
    (let oneAfterTheOther :=
       serve [Batch.Arrive 1 batchId; Batch.Finish 1;
              Batch.Arrive 2 batchId] in
     Batch.batchFiles Stats oneAfterTheOther = fst processed /\
     Batch.inFlight Stats oneAfterTheOther = [] /\
     Batch.responses Stats oneAfterTheOther
     = [(1%nat, snd processed); (2%nat, Batch.NotFound "Batch not found")]) /\
    (let overlapping :=
       serve [Batch.Arrive 1 batchId; Batch.Arrive 2 batchId;
              Batch.Finish 1; Batch.Finish 2] in
     Batch.batchFiles Stats overlapping !! batchId = None /\
     Batch.inFlight Stats overlapping = [] /\
     Batch.responses Stats overlapping
     = [(1%nat, snd processed); (2%nat, snd processed)]).
Proof.
  intros Stats processFile getRoutePoints haversine rev batchFiles parsedBinLength
    files now later Hne batchId uploaded processed serve.
  assert (Hu : uploaded
               = (<[batchId := {| Batch.files := files;
                                  Batch.binLength := binLengthOf parsedBinLength;
                                  Batch.timestamp := later |}]> batchFiles,
                  Uploaded batchId (List.length files))).
  { subst uploaded. unfold uploadBatch. destruct files; [congruence | reflexivity]. }
  set (data := {| Batch.files := files;
                  Batch.binLength := binLengthOf parsedBinLength;
                  Batch.timestamp := later |}) in Hu.
  set (registry := <[batchId := data]> batchFiles) in Hu.
  assert (Hl : registry !! batchId = Some data) by apply lookup_insert_eq.
  assert (Hp : processed
               = (delete batchId registry,
                  Batch.respond Stats processFile getRoutePoints haversine rev data)).
  { subst processed. rewrite Hu. cbn [fst]. unfold Batch.processBatch.
    rewrite Hl. reflexivity. }
  assert (Hs : exists events results errors,
             Batch.respond Stats processFile getRoutePoints haversine rev data
             = Batch.EventStream
                 (events ++ [Batch.Complete (List.length files) (List.length results)
                               (List.length errors) results errors])).
  { unfold Batch.respond. cbv zeta. eexists _, _, _. reflexivity. }
  subst serve. rewrite Hp, Hu. cbn [fst snd].
  split; [reflexivity |].
  split.
  { exists data. split; [exact Hl |].
    split; [reflexivity | split; [reflexivity | apply binLengthOf_nonzero]]. }
  split.
  { intros other Hother. split.
    - apply lookup_insert_ne. congruence.
    - rewrite lookup_delete_ne by congruence. apply lookup_insert_ne. congruence. }
  split; [exact Hs |].
  split; [apply lookup_delete_eq |].
  split.
  { unfold Batch.processBatch. rewrite lookup_delete_eq. reflexivity. }
  unfold Batch.serve.
  repeat (cbn [fold_left Batch.act Batch.batchFiles Batch.inFlight Batch.responses
                 app List.find List.filter fst Nat.eqb negb];
          first [rewrite Hl | rewrite lookup_delete_eq]).
  cbn [fold_left Batch.act Batch.batchFiles Batch.inFlight Batch.responses app
         List.find List.filter fst Nat.eqb negb].
  split; [split; reflexivity |].
  split; [split; [reflexivity | split; reflexivity] |].
  split; [reflexivity | split; reflexivity].
Qed.

Lemma upload_then_process_once_witness :
  Batch.files Batch.threeFiles <> [] /\
  let registry :=
    fst (uploadBatch ∅ (Some 50%Z) (Batch.files Batch.threeFiles)
           1700000000000 1700000000001) in
  let stream :=
    snd (Batch.processBatch unit Batch.sampleProcessFile Batch.sampleGetRoutePoints
           arcHaversine WithCoefficientsModule registry (zString 1700000000000)) in
  Batch.responses unit
    (Batch.serve unit Batch.sampleProcessFile Batch.sampleGetRoutePoints
       arcHaversine WithCoefficientsModule registry
       [Batch.Arrive 1 (zString 1700000000000); Batch.Finish 1;
        Batch.Arrive 2 (zString 1700000000000)])
  = [(1%nat, stream); (2%nat, Batch.NotFound "Batch not found")] /\
  Batch.responses unit
    (Batch.serve unit Batch.sampleProcessFile Batch.sampleGetRoutePoints
       arcHaversine WithCoefficientsModule registry
       [Batch.Arrive 1 (zString 1700000000000); Batch.Arrive 2 (zString 1700000000000);
        Batch.Finish 1; Batch.Finish 2])
  = [(1%nat, stream); (2%nat, stream)].
Proof.
  assert (H : Batch.files Batch.threeFiles <> []) by discriminate.
  split; [exact H |].
  pose proof (upload_then_process_once unit Batch.sampleProcessFile
                Batch.sampleGetRoutePoints arcHaversine WithCoefficientsModule
                ∅ (Some 50%Z) (Batch.files Batch.threeFiles)
                1700000000000 1700000000001 H) as T.
  cbv zeta in T.
  destruct T as (_ & _ & _ & _ & _ & _ & _ & (_ & _ & Hseq) & (_ & _ & Hover)).
  cbv zeta. split; [exact Hseq | exact Hover].
Defined.

Section BatchIndices.

Variable Stats : Type.
Variable processFile : string -> string -> Batch.Outcome (Batch.Processed Stats).
Variable getRoutePoints : string -> string -> Batch.Outcome (option (list Point)).
Variable haversine : Q -> Q -> Q -> Q -> Q.
Variable rev : Revision.
Variable binLength : Q.
Variable totalFiles : nat.

Local Abbreviation fails := (Batch.fileFails Stats processFile getRoutePoints).
Local Abbreviation one := (Batch.processOne Stats processFile getRoutePoints
                             haversine rev binLength).
Local Abbreviation step := (Batch.loopStep Stats processFile getRoutePoints
                              haversine rev binLength totalFiles).

(** What one file adds to the results: nothing when it fails, one
    result with its index, the bin length of the batch and the summary
    of its own bins otherwise. *)
Lemma processOne_result i file results errors :
  exists r1,
    fst (one i file results errors) = results ++ r1 /\
    (if fails file then r1 = []
     else exists r, r1 = [r] /\ Batch.fr_fileIndex Stats r = i /\
                    Batch.fr_binLength Stats r = binLength /\
                    Batch.fr_binSummary Stats r = getBinSummary (Batch.fr_bins Stats r)).
Proof.
  unfold Batch.fileFails, Batch.processOne.
  destruct (processFile (Batch.buffer file) (Batch.originalname file))
    as [[err | stats] | msg].
  - exists []. rewrite app_nil_r. split; reflexivity.
  - destruct (getRoutePoints (Batch.buffer file) (Batch.originalname file))
      as [pts | msg].
    + eexists [_]. split; [reflexivity |]. eexists. repeat split; reflexivity.
    + exists []. rewrite app_nil_r. split; reflexivity.
  - exists []. rewrite app_nil_r. split; reflexivity.
Qed.

Lemma loop_indices l : forall i st,
  let st' := fold_left step (combine (seq i (List.length l)) l) st in
  exists newResults events,
    Batch.allResults Stats st' = Batch.allResults Stats st ++ newResults /\
    Batch.written Stats st' = Batch.written Stats st ++ events /\
    map eventProgressPercent events
    = map (fun k => Js.Math_round (Js.mul (Js.div (natQ k) (natQ totalFiles)) 100))
        (seq (S i) (List.length l)) /\
    map (Batch.fr_fileIndex Stats) newResults
    = map fst (List.filter (fun entry => negb (fails (snd entry)))
                 (combine (seq i (List.length l)) l)) /\
    List.Forall (fun r => Batch.fr_binLength Stats r = binLength /\
                          Batch.fr_binSummary Stats r
                          = getBinSummary (Batch.fr_bins Stats r)) newResults.
Proof.
  induction l as [| file l IH]; intros i st; cbn [List.length seq combine fold_left].
  - exists [], []. rewrite !app_nil_r. repeat split; constructor.
  - destruct (IH (S i) (step st (i, file)))
      as (r2 & ev & Hr2 & Hw2 & Hp2 & Hi2 & Hf2).
    destruct (processOne_result i file (Batch.allResults Stats st)
                (Batch.allErrors Stats st)) as (r1 & Hr1 & Hcase).
    assert (Hst : exists e,
               Batch.allResults Stats (step st (i, file))
               = Batch.allResults Stats st ++ r1 /\
               Batch.written Stats (step st (i, file))
               = Batch.written Stats st ++ [e] /\
               eventProgressPercent e
               = Js.Math_round (Js.mul (Js.div (natQ (S i)) (natQ totalFiles)) 100)).
    { unfold Batch.loopStep.
      destruct (one i file (Batch.allResults Stats st) (Batch.allErrors Stats st))
        as [rs es] eqn:E.
      cbn [fst] in Hr1. subst rs.
      eexists. cbn [Batch.allResults Batch.written].
      split; [reflexivity | split; [reflexivity |]].
      cbn [eventProgressPercent]. rewrite Nat.add_1_r. reflexivity. }
    destruct Hst as (e & Hr & Hw & Hp).
    exists (r1 ++ r2), (e :: ev).
    split; [rewrite Hr2, Hr, app_assoc; reflexivity |].
    split; [rewrite Hw2, Hw, <- app_assoc; reflexivity |].
    split; [cbn [map]; rewrite Hp, Hp2; reflexivity |].
    cbn [List.filter snd]. rewrite map_app, Hi2.
    destruct (fails file); cbn [negb].
    + subst r1. split; [reflexivity | exact Hf2].
    + destruct Hcase as (r & -> & Hidx & Hbl & Hsum).
      cbn [map app fst]. rewrite Hidx. split; [reflexivity |].
      constructor; [split; assumption | exact Hf2].
Qed.

End BatchIndices.

Lemma double_1 : Js.double 1 == 1.
Proof. vm_compute. reflexivity. Qed.

Lemma double_100 : Js.double 100 == 100.
Proof. vm_compute. reflexivity. Qed.

Lemma percent_value_mono (x y : Q) :
  x <= y -> Js.mul (Js.double x) 100 <= Js.mul (Js.double y) 100.
Proof.
  intros H. unfold Js.mul. apply double_mono.
  pose proof (double_mono x y H). lra.
Qed.

Lemma percent_value_comp (x y : Q) :
  x == y -> Js.mul (Js.double x) 100 == Js.mul (Js.double y) 100.
Proof.
  intros H. apply Qle_antisym; apply percent_value_mono; rewrite H; apply Qle_refl.
Qed.

Lemma percent_value_0 : Js.mul (Js.double 0) 100 == 0.
Proof. vm_compute. reflexivity. Qed.

Lemma percent_value_1 : Js.mul (Js.double 1) 100 == 100.
Proof. vm_compute. reflexivity. Qed.

Lemma percent_bounds (k n : nat) :
  (k <= n)%nat -> (0 < n)%nat ->
  (0 <= Js.Math_round (Js.mul (Js.div (natQ k) (natQ n)) 100) <= 100)%Z.
Proof.
  intros Hk Hn.
  assert (0 < natQ n) as Hn'.
  { unfold natQ. change 0 with (inject_Z 0). rewrite <- Zlt_Qlt. lia. }
  assert (0 <= natQ k) as Hk0.
  { unfold natQ. change 0 with (inject_Z 0). rewrite <- Zle_Qle. lia. }
  assert (natQ k <= natQ n) as Hkn.
  { unfold natQ. rewrite <- Zle_Qle. lia. }
  assert (0 <= natQ k / natQ n) as H0.
  { apply Qle_shift_div_l; [exact Hn' | lra]. }
  assert (natQ k / natQ n <= 1) as H1.
  { apply Qle_shift_div_r; [exact Hn' | lra]. }
  unfold Js.div.
  pose proof (percent_value_mono _ _ H0) as L0.
  pose proof (percent_value_mono _ _ H1) as L1.
  pose proof percent_value_0 as E0. pose proof percent_value_1 as E1.
  split.
  - apply (Math_round_ge _ 0). change (inject_Z 0) with 0. lra.
  - apply (Math_round_le _ 100). change (inject_Z 100) with 100. lra.
Qed.

Lemma percent_mono (j k n : nat) :
  (j <= k)%nat -> (0 < n)%nat ->
  (Js.Math_round (Js.mul (Js.div (natQ j) (natQ n)) 100) <= Js.Math_round (Js.mul (Js.div (natQ k) (natQ n)) 100))%Z.
Proof.
  intros Hjk Hn. apply Math_round_mono.
  assert (0 < natQ n) as Hn'.
  { unfold natQ. change 0 with (inject_Z 0). rewrite <- Zlt_Qlt. lia. }
  assert (natQ j <= natQ k) as Hle.
  { unfold natQ. rewrite <- Zle_Qle. lia. }
  assert (natQ j / natQ n <= natQ k / natQ n).
  { unfold Qdiv. apply Qmult_le_compat_r; [exact Hle |].
    apply Qlt_le_weak. apply Qinv_lt_0_compat. exact Hn'. }
  unfold Js.div. apply percent_value_mono. assumption.
Qed.

Lemma percent_full (n : nat) :
  (0 < n)%nat -> Js.Math_round (Js.mul (Js.div (natQ n) (natQ n)) 100) = 100%Z.
Proof.
  intros Hn.
  assert (~ natQ n == 0) as Hn'.
  { unfold natQ. change 0 with (inject_Z 0). intros E.
    apply (proj1 (inject_Z_injective _ _)) in E. lia. }
  rewrite (Math_round_comp _ 100); [reflexivity |].
  unfold Js.div. rewrite (percent_value_comp (natQ n / natQ n) 1).
  - apply percent_value_1.
  - field. exact Hn'.
Qed.

(** X23.  For a stored batch of [n] files the progress event written
    after the k-th file carries the percentage [Math.round(k / n * 100)],
    quotient and product rounded to binary64: the percentages lie
    between 0 and 100, never decrease, and the last one is 100.  The
    rounding shows: after 23 of 40 files the product is
    57.49999999999999 and the percentage 57. *)
Theorem progress_percent_reaches_100 :
  forall (Stats : Type)
         (processFile : string -> string -> Batch.Outcome (Batch.Processed Stats))
         (getRoutePoints : string -> string -> Batch.Outcome (option (list Point)))
         (haversine : Q -> Q -> Q -> Q -> Q) (rev : Revision)
         (batchFiles : gmap string Batch.BatchData) (batchId : string)
         (batchData : Batch.BatchData),
    batchFiles !! batchId = Some batchData ->
    Batch.files batchData <> [] ->
    let n := List.length (Batch.files batchData) in
    exists progress summary,
      snd (Batch.processBatch Stats processFile getRoutePoints haversine rev
             batchFiles batchId)
      = Batch.EventStream
          (Batch.Progress 0 n 0 0 "Starting analysis..." [] []
             :: progress ++ [summary]) /\
      map eventProgressPercent progress
      = map (fun k => Js.Math_round (Js.mul (Js.div (natQ k) (natQ n)) 100)) (seq 1 n) /\
      List.Forall (fun e => (0 <= eventProgressPercent e <= 100)%Z) progress /\
      (forall j k pj pk,
          (j <= k)%nat ->
          nth_error (map eventProgressPercent progress) j = Some pj ->
          nth_error (map eventProgressPercent progress) k = Some pk ->
          (pj <= pk)%Z) /\
      List.last (map eventProgressPercent progress) 0%Z = 100%Z /\
      Js.mul (Js.div (natQ 23) (natQ 40)) 100 < (575 # 10) /\
      Js.Math_round (Js.mul (Js.div (natQ 23) (natQ 40)) 100) = 57%Z.
Proof.
  intros Stats processFile getRoutePoints haversine rev batchFiles batchId batchData
    Hlookup Hne n.
  assert (Hn : (0 < n)%nat).
  { subst n. destruct (Batch.files batchData); [congruence | simpl; lia]. }
  unfold Batch.processBatch. rewrite Hlookup. cbv zeta. cbn [snd].
  unfold Batch.runLoop, Batch.indexed. fold n.
  destruct (loop_indices Stats processFile getRoutePoints haversine rev
              (Batch.binLength batchData) n (Batch.files batchData) 0
              {| Batch.allResults := []; Batch.allErrors := [];
                 Batch.written :=
                   [Batch.Progress 0 n 0 0 "Starting analysis..." [] []] |})
    as (results & events & Hr & Hw & Hp & _ & _).
  fold n in Hw, Hp, Hr. cbn [Batch.written app] in Hw.
  eexists events, _. rewrite Hw.
  split; [reflexivity |].
  split; [exact Hp |].
  assert (Hnth : forall j p,
             nth_error (map eventProgressPercent events) j = Some p ->
             (j < n)%nat /\ p = Js.Math_round (Js.mul (Js.div (natQ (S j)) (natQ n)) 100)).
  { intros j p Hj. rewrite Hp in Hj.
    rewrite nth_error_map in Hj.
    destruct (nth_error (seq 1 n) j) as [k |] eqn:Ek; [| discriminate].
    injection Hj as <-.
    assert (j < n)%nat as Hlt.
    { assert (j < List.length (seq 1 n))%nat as H by (apply nth_error_Some; congruence).
      rewrite length_seq in H. exact H. }
    split; [exact Hlt |].
    rewrite (nth_error_nth' _ 0%nat) in Ek by (rewrite length_seq; exact Hlt).
    rewrite seq_nth in Ek by exact Hlt. injection Ek as Ek. subst k. reflexivity. }
  split.
  { apply List.Forall_forall. intros e He.
    apply (in_map eventProgressPercent) in He.
    apply In_nth_error in He as [j Hj].
    destruct (Hnth j _ Hj) as [Hlt ->]. apply percent_bounds; lia. }
  split.
  { intros j k pj pk Hjk Hj Hk.
    destruct (Hnth j _ Hj) as [_ ->]. destruct (Hnth k _ Hk) as [_ ->].
    apply percent_mono; lia. }
  split; [| vm_compute; split; reflexivity].
  rewrite Hp. destruct n as [| m]; [lia |].
  rewrite seq_S, map_app. cbn [map]. rewrite List.last_last.
  change (1 + m)%nat with (S m). apply percent_full. lia.
Qed.

Lemma progress_percent_reaches_100_witness :
  exists progress summary,
    snd (Batch.processBatch unit Batch.sampleProcessFile Batch.sampleGetRoutePoints
           arcHaversine WithCoefficientsModule Batch.sampleRegistry "1700000000000")
    = Batch.EventStream
        (Batch.Progress 0 3 0 0 "Starting analysis..." [] []
           :: progress ++ [summary]) /\
    map eventProgressPercent progress = [33; 67; 100]%Z.
Proof.
  destruct (progress_percent_reaches_100 unit Batch.sampleProcessFile
              Batch.sampleGetRoutePoints arcHaversine WithCoefficientsModule
              Batch.sampleRegistry "1700000000000" Batch.threeFiles)
    as (progress & summary & H1 & H2 & _).
  - apply lookup_insert_eq.
  - discriminate.
  - exists progress, summary. split; [exact H1 |]. rewrite H2.
    vm_compute. reflexivity.
Defined.

(** X24.  The results of a stored batch are the files that do not
    fail, in the order of the batch: each result carries the 0-based
    position of its file, so the positions increase; each carries the
    bin length of the batch and the summary of its own bins. *)
Theorem batch_results_keep_file_positions :
  forall (Stats : Type)
         (processFile : string -> string -> Batch.Outcome (Batch.Processed Stats))
         (getRoutePoints : string -> string -> Batch.Outcome (option (list Point)))
         (haversine : Q -> Q -> Q -> Q -> Q) (rev : Revision)
         (batchFiles : gmap string Batch.BatchData) (batchId : string)
         (batchData : Batch.BatchData),
    batchFiles !! batchId = Some batchData ->
    let n := List.length (Batch.files batchData) in
    let fails := Batch.fileFails Stats processFile getRoutePoints in
    exists events results errors,
      snd (Batch.processBatch Stats processFile getRoutePoints haversine rev
             batchFiles batchId)
      = Batch.EventStream
          (events ++ [Batch.Complete n (List.length results) (List.length errors)
                        results errors]) /\
      map (Batch.fr_fileIndex Stats) results
      = List.filter
          (fun i => match nth_error (Batch.files batchData) i with
                    | Some file => negb (fails file)
                    | None => false
                    end) (seq 0 n) /\
      StronglySorted lt (map (Batch.fr_fileIndex Stats) results) /\
      List.Forall
        (fun r => Batch.fr_binLength Stats r = Batch.binLength batchData /\
                  Batch.fr_binSummary Stats r
                  = getBinSummary (Batch.fr_bins Stats r)) results.
Proof.
  intros Stats processFile getRoutePoints haversine rev batchFiles batchId batchData
    Hlookup n fails.
  unfold Batch.processBatch. rewrite Hlookup. cbv zeta. cbn [snd].
  unfold Batch.runLoop, Batch.indexed. fold n.
  destruct (loop_indices Stats processFile getRoutePoints haversine rev
              (Batch.binLength batchData) n (Batch.files batchData) 0
              {| Batch.allResults := []; Batch.allErrors := [];
                 Batch.written :=
                   [Batch.Progress 0 n 0 0 "Starting analysis..." [] []] |})
    as (results & events & Hr & Hw & _ & Hi & Hf).
  fold n in Hr, Hw, Hi. cbn [Batch.allResults app] in Hr.
  eexists _, _, _. split; [reflexivity |].
  rewrite Hr.
  assert (Hidx : forall (l : list Batch.File) i,
             map fst (List.filter (fun entry : nat * Batch.File => negb (fails (snd entry)))
                        (combine (seq i (List.length l)) l))
             = List.filter
                 (fun k => match nth_error l (k - i) with
                           | Some file => negb (fails file)
                           | None => false
                           end) (seq i (List.length l))).
  { induction l as [| file l IH]; intros i; [reflexivity |].
    cbn [List.length seq combine List.filter snd].
    rewrite Nat.sub_diag. cbn [nth_error].
    assert (Htail : List.filter
                      (fun k => match nth_error (file :: l) (k - i) with
                                | Some f => negb (fails f)
                                | None => false
                                end) (seq (S i) (List.length l))
                    = List.filter
                        (fun k => match nth_error l (k - S i) with
                                  | Some f => negb (fails f)
                                  | None => false
                                  end) (seq (S i) (List.length l))).
    { apply filter_ext_in. intros k Hk. apply in_seq in Hk.
      replace (k - i)%nat with (S (k - S i)) by lia. reflexivity. }
    rewrite Htail, <- IH.
    destruct (negb (fails file)); reflexivity. }
  assert (Hmap : map (Batch.fr_fileIndex Stats) results
                 = List.filter
                     (fun i => match nth_error (Batch.files batchData) i with
                               | Some file => negb (fails file)
                               | None => false
                               end) (seq 0 n)).
  { rewrite Hi. subst n. rewrite Hidx. apply filter_ext. intros k.
    rewrite Nat.sub_0_r. reflexivity. }
  split; [exact Hmap | split; [| exact Hf]].
  rewrite Hmap.
  assert (Hsorted : forall i len, StronglySorted lt (seq i len)).
  { intros i len. revert i. induction len as [| len IH]; intros i; cbn [seq].
    - constructor.
    - constructor; [apply IH |]. apply List.Forall_forall. intros k Hk.
      apply in_seq in Hk. lia. }
  assert (Hfilter : forall (P : nat -> bool) l,
             StronglySorted lt l -> StronglySorted lt (List.filter P l)).
  { intros P l Hl. induction Hl as [| x l Hl IH Hall]; cbn [List.filter].
    - constructor.
    - destruct (P x); [| exact IH]. constructor; [exact IH |].
      apply List.Forall_forall. intros k Hk. apply filter_In in Hk as [Hk _].
      rewrite List.Forall_forall in Hall. apply Hall. exact Hk. }
  apply Hfilter, Hsorted.
Qed.

Lemma batch_results_keep_file_positions_witness :
  exists events results errors,
    snd (Batch.processBatch unit Batch.sampleProcessFile Batch.sampleGetRoutePoints
           arcHaversine WithCoefficientsModule Batch.sampleRegistry "1700000000000")
    = Batch.EventStream
        (events ++ [Batch.Complete 3 (List.length results) (List.length errors)
                      results errors]) /\
    map (Batch.fr_fileIndex unit) results = [0; 2]%nat.
Proof.
  destruct (batch_results_keep_file_positions unit Batch.sampleProcessFile
              Batch.sampleGetRoutePoints arcHaversine WithCoefficientsModule
              Batch.sampleRegistry "1700000000000" Batch.threeFiles)
    as (events & results & errors & H1 & H2 & _).
  - apply lookup_insert_eq.
  - exists events, results, errors. split; [exact H1 |]. rewrite H2. reflexivity.
Defined.

(** ** The handler of POST /api/analyze-with-bins *)

Section AnalyzeFacts.

Import AnalyzeWithBins.

Variable Stats : Type.
Variable processFile : string -> string -> Batch.Outcome (Batch.Processed Stats).
Variable getRoutePoints : string -> string -> Batch.Outcome (option (list Point)).
Variable haversine : Q -> Q -> Q -> Q -> Q.
Variable rev : Revision.
Variable binLength : Q.

Local Abbreviation throws := (fileThrows Stats processFile getRoutePoints).
Local Abbreviation rejected := (fileRejected Stats processFile).
Local Abbreviation consistent :=
  (fun r : Result Stats =>
     ar_binLength Stats r = binLength /\
     ar_binSummary Stats r = getBinSummary (ar_bins Stats r) /\
     (ar_hasHeartRateData Stats r = true -> ar_bins Stats r <> [])).

Lemma analyzeFile_spec file results errors :
  match analyzeFile Stats processFile getRoutePoints haversine rev binLength
          file results errors with
  | Batch.Throws _ => throws file = true
  | Batch.Returns (results', errors') =>
      throws file = false /\
      ((rejected file = true /\ results' = results /\
        exists e, errors' = errors ++ [e]
                  /\ Batch.fe_filename e = Batch.originalname file) \/
       (rejected file = false /\ errors' = errors /\
        exists r, results' = results ++ [r] /\ consistent r))
  end.
Proof.
  unfold analyzeFile, fileThrows, fileRejected.
  destruct (processFile (Batch.buffer file) (Batch.originalname file))
    as [[err | stats] | msg]; [| | reflexivity].
  - split; [reflexivity |]. left. repeat split. eexists. split; reflexivity.
  - destruct (getRoutePoints (Batch.buffer file) (Batch.originalname file))
      as [[[| p ps] |] | msg]; [| | | reflexivity].
    + split; [reflexivity |]. right. repeat split. eexists.
      split; [reflexivity |]. repeat split. discriminate.
    + split; [reflexivity |]. right. repeat split. eexists.
      split; [reflexivity |]. cbn [ar_binLength ar_binSummary ar_bins ar_hasHeartRateData].
      repeat split.
      intros Hhr E. rewrite E in Hhr. discriminate Hhr.
    + split; [reflexivity |]. right. repeat split. eexists.
      split; [reflexivity |]. repeat split. discriminate.
Qed.

Lemma analyzeFiles_spec files : forall results errors,
  match analyzeFiles Stats processFile getRoutePoints haversine rev binLength
          files results errors with
  | Batch.Throws _ => existsb throws files = true
  | Batch.Returns (results', errors') =>
      existsb throws files = false /\
      exists newResults newErrors,
        results' = results ++ newResults /\ errors' = errors ++ newErrors /\
        (List.length newResults + List.length newErrors = List.length files)%nat /\
        map Batch.fe_filename newErrors
        = map Batch.originalname (List.filter rejected files) /\
        List.Forall consistent newResults
  end.
Proof.
  induction files as [| file files IH]; intros results errors.
  - cbn [analyzeFiles existsb]. split; [reflexivity |].
    exists [], []. rewrite !app_nil_r. repeat split. constructor.
  - cbn [analyzeFiles existsb List.filter].
    pose proof (analyzeFile_spec file results errors) as H1.
    destruct (analyzeFile Stats processFile getRoutePoints haversine rev binLength
                file results errors) as [[results1 errors1] | msg].
    + destruct H1 as [Hthrow Hcase]. rewrite Hthrow. cbn [orb].
      specialize (IH results1 errors1).
      destruct (analyzeFiles Stats processFile getRoutePoints haversine rev
                  binLength files results1 errors1) as [[results2 errors2] | msg];
        [| exact IH].
      destruct IH as (Hnone & r2 & e2 & -> & -> & Hlen & Hnames & Hall).
      split; [exact Hnone |].
      destruct Hcase as [(Hrej & -> & e & -> & He) | (Hrej & -> & r & -> & Hr)];
        rewrite Hrej.
      * exists r2, (e :: e2). rewrite <- app_assoc.
        split; [reflexivity | split; [reflexivity |]].
        cbn [List.length map]. rewrite He, Hnames.
        split; [lia | split; [reflexivity | exact Hall]].
      * exists (r :: r2), e2. rewrite <- app_assoc.
        split; [reflexivity | split; [reflexivity |]].
        cbn [List.length]. split; [lia | split; [exact Hnames |]].
        constructor; assumption.
    + rewrite H1. reflexivity.
Qed.

End AnalyzeFacts.



(** ** batchProcessing.js and the handler of POST /api/analyze-batch *)

Lemma firstn_add_skipn {A} (a b : nat) (l : list A) :
  firstn (a + b) l = firstn a l ++ firstn b (skipn a l).
Proof.
  revert l. induction a as [| a IH]; intros l; [reflexivity |].
  destruct l as [| x l]; [cbn; rewrite firstn_nil; reflexivity |].
  cbn [Nat.add firstn skipn app]. f_equal. apply IH.
Qed.

Lemma combine_seq_app {A} (l1 l2 : list A) i :
  combine (seq i (List.length (l1 ++ l2))) (l1 ++ l2)
  = combine (seq i (List.length l1)) l1
    ++ combine (seq (i + List.length l1) (List.length l2)) l2.
Proof.
  revert i. induction l1 as [| x l1 IH]; intros i.
  - cbn [app List.length seq combine]. rewrite Nat.add_0_r. reflexivity.
  - cbn [app List.length seq combine]. f_equal. rewrite IH.
    replace (S i + List.length l1)%nat with (i + S (List.length l1))%nat by lia.
    reflexivity.
Qed.

Lemma ceiling_thirds (n : nat) :
  Z.to_nat (Qceiling (natQ n / natQ Chunked.BATCH_SIZE)) = ((n + 2) / 3)%nat.
Proof.
  assert (Hq : Qceiling (natQ n / natQ Chunked.BATCH_SIZE)
               = Z.of_nat ((n + 2) / 3)).
  { unfold Qceiling.
    pose proof (Nat.div_mod_eq (n + 2) 3) as Hdm.
    pose proof (Nat.mod_upper_bound (n + 2) 3) as Hmod.
    set (q := ((n + 2) / 3)%nat) in *.
    assert (Hx : natQ n / natQ Chunked.BATCH_SIZE == natQ n * (1 # 3)).
    { unfold natQ, Chunked.BATCH_SIZE. change (inject_Z (Z.of_nat 3)) with 3. field. }
    rewrite Hx.
    assert (H1 : inject_Z (3 * Z.of_nat q - 3) < inject_Z (Z.of_nat n))
      by (rewrite <- Zlt_Qlt; lia).
    assert (H2 : inject_Z (Z.of_nat n) <= inject_Z (3 * Z.of_nat q))
      by (rewrite <- Zle_Qle; lia).
    unfold Z.sub in H1. rewrite inject_Z_plus, inject_Z_mult in H1.
    rewrite inject_Z_mult in H2.
    change (inject_Z 3) with 3 in H1, H2. change (inject_Z (- (3))) with (-3) in H1.
    rewrite (Qfloor_unique (- (natQ n * (1 # 3))) (- Z.of_nat q)); [lia | |].
    - rewrite inject_Z_opp. unfold natQ. lra.
    - rewrite inject_Z_plus, inject_Z_opp. change (inject_Z 1) with 1.
      unfold natQ. lra. }
  rewrite Hq. apply Nat2Z.id.
Qed.

Section ChunkFacts.

Variable Stats : Type.
Variable processFile : string -> string -> Batch.Outcome (Batch.Processed Stats).
Variable getRoutePoints : string -> string -> Batch.Outcome (option (list Point)).
Variable haversine : Q -> Q -> Q -> Q -> Q.
Variable rev : Revision.
Variable binLength : Q.

Local Abbreviation one := (Batch.processOne Stats processFile getRoutePoints
                             haversine rev binLength).
Local Abbreviation chunkOne := (Chunked.processOne Stats processFile getRoutePoints
                                  haversine rev).
Local Abbreviation plain := (Chunked.withoutBatchIndex Stats).

Local Abbreviation seqFold := (sequentialFold Stats processFile getRoutePoints
                                 haversine rev binLength).

Lemma one_append i file results errors :
  one i file results errors
  = (results ++ fst (one i file [] []), errors ++ snd (one i file [] [])).
Proof.
  unfold Batch.processOne.
  destruct (processFile (Batch.buffer file) (Batch.originalname file))
    as [[err | stats] | msg]; cbn [fst snd app]; rewrite ?app_nil_r; try reflexivity.
  destruct (getRoutePoints (Batch.buffer file) (Batch.originalname file))
    as [pts | msg]; cbn [fst snd app]; rewrite ?app_nil_r; reflexivity.
Qed.

Lemma one_adds_one i file :
  (List.length (fst (one i file [] [])) + List.length (snd (one i file [] [])) = 1)%nat.
Proof.
  unfold Batch.processOne.
  destruct (processFile (Batch.buffer file) (Batch.originalname file))
    as [[err | stats] | msg]; try reflexivity.
  destruct (getRoutePoints (Batch.buffer file) (Batch.originalname file))
    as [pts | msg]; reflexivity.
Qed.

Lemma sequentialFold_append l : forall i results errors,
  seqFold i l (results, errors)
  = (results ++ fst (seqFold i l ([], [])),
     errors ++ snd (seqFold i l ([], []))).
Proof.
  unfold sequentialFold.
  induction l as [| file l IH]; intros i results errors;
    cbn [List.length seq combine fold_left fst snd].
  - rewrite !app_nil_r. reflexivity.
  - rewrite (one_append i file results errors).
    rewrite (IH (S i) (results ++ _) (errors ++ _)).
    destruct (one i file [] []) as [r1 e1] eqn:E1. cbn [fst snd].
    rewrite (IH (S i) r1 e1). cbn [fst snd]. rewrite !app_assoc. reflexivity.
Qed.

Lemma sequentialFold_app l1 l2 i acc :
  seqFold i (l1 ++ l2) acc
  = seqFold (i + List.length l1) l2 (seqFold i l1 acc).
Proof.
  unfold sequentialFold. rewrite combine_seq_app, fold_left_app. reflexivity.
Qed.

Lemma sequentialFold_count l : forall i,
  (List.length (fst (seqFold i l ([], [])))
   + List.length (snd (seqFold i l ([], []))) = List.length l)%nat.
Proof.
  induction l as [| file l IH]; intros i; [reflexivity |].
  change (file :: l) with ([file] ++ l).
  rewrite sequentialFold_app.
  assert (H1 : seqFold i [file] ([], []) = one i file [] []) by reflexivity.
  rewrite H1. pose proof (one_adds_one i file) as Hone.
  destruct (one i file [] []) as [r1 e1]. cbn [fst snd] in Hone.
  rewrite sequentialFold_append. cbn [fst snd].
  rewrite !length_app. specialize (IH (i + List.length [file])%nat).
  cbn [List.length app] in *. lia.
Qed.

(** The sequential handler's loop keeps exactly these results and
    errors. *)
Lemma runLoop_is_sequentialFold totalFiles l : forall i st,
  let st' := fold_left
               (Batch.loopStep Stats processFile getRoutePoints haversine rev
                  binLength totalFiles)
               (combine (seq i (List.length l)) l) st in
  (Batch.allResults Stats st', Batch.allErrors Stats st')
  = seqFold i l (Batch.allResults Stats st, Batch.allErrors Stats st).
Proof.
  unfold sequentialFold.
  induction l as [| file l IH]; intros i st;
    cbn [List.length seq combine fold_left]; [reflexivity |].
  rewrite IH. f_equal. unfold Batch.loopStep. cbn [fst snd].
  destruct (one i file (Batch.allResults Stats st) (Batch.allErrors Stats st))
    as [rs es]. reflexivity.
Qed.

(** One file of a chunk, against the same file in the sequential
    loop. *)
Lemma chunkOne_is_one batchIndex fileIndex file results errors :
  (fileIndex < 3)%nat ->
  let next := chunkOne batchIndex binLength fileIndex file results errors in
  (map plain (fst next), snd next)
  = one (batchIndex * 3 + fileIndex) file (map plain results) errors /\
  (List.Forall (fun r => Chunked.cr_batchIndex Stats r
                         = (Chunked.cr_fileIndex Stats r / 3)%nat) results ->
   List.Forall (fun r => Chunked.cr_batchIndex Stats r
                         = (Chunked.cr_fileIndex Stats r / 3)%nat) (fst next)).
Proof.
  intros Hlt. unfold Chunked.processOne, Batch.processOne.
  destruct (processFile (Batch.buffer file) (Batch.originalname file))
    as [[err | stats] | msg]; cbn [fst snd]; try (split; [reflexivity | auto]).
  destruct (getRoutePoints (Batch.buffer file) (Batch.originalname file))
    as [pts | msg]; cbn [fst snd]; try (split; [reflexivity | auto]).
  split.
  - rewrite map_app. reflexivity.
  - intros Hall. apply List.Forall_app. split; [exact Hall |].
    constructor; [| constructor].
    cbn [Chunked.cr_batchIndex Chunked.cr_fileIndex]. unfold Chunked.BATCH_SIZE.
    rewrite (Nat.add_comm (batchIndex * 3) fileIndex).
    rewrite Nat.div_add by lia. rewrite Nat.div_small by exact Hlt. reflexivity.
Qed.

Lemma chunk_fold l : forall batchIndex j results errors,
  (j + List.length l <= 3)%nat ->
  let next :=
    fold_left
      (fun acc entry =>
         chunkOne batchIndex binLength (fst entry) (snd entry) (fst acc) (snd acc))
      (combine (seq j (List.length l)) l) (results, errors) in
  (map plain (fst next), snd next)
  = seqFold (batchIndex * 3 + j) l (map plain results, errors) /\
  (List.Forall (fun r => Chunked.cr_batchIndex Stats r
                         = (Chunked.cr_fileIndex Stats r / 3)%nat) results ->
   List.Forall (fun r => Chunked.cr_batchIndex Stats r
                         = (Chunked.cr_fileIndex Stats r / 3)%nat) (fst next)).
Proof.
  unfold sequentialFold.
  induction l as [| file l IH]; intros batchIndex j results errors Hlen;
    cbn [List.length seq combine fold_left fst snd].
  - split; [reflexivity | auto].
  - cbn [List.length] in Hlen.
    destruct (chunkOne_is_one batchIndex j file results errors) as [Hone Hall1];
      [lia |].
    destruct (chunkOne batchIndex binLength j file results errors) as [rs es] eqn:E.
    cbn [fst snd] in Hone, Hall1.
    destruct (IH batchIndex (S j) rs es) as [Hrest Hall2]; [lia |].
    cbv zeta in Hrest, Hall2. split.
    + rewrite Hrest. rewrite <- Hone.
      replace (batchIndex * 3 + S j)%nat with (S (batchIndex * 3 + j)) by lia.
      reflexivity.
    + intros Hall. apply Hall2, Hall1, Hall.
Qed.

(** [processBatch] of [batchProcessing.js] on a chunk of at most three
    files. *)
Lemma processBatch_is_sequentialFold chunk batchIndex :
  (List.length chunk <= 3)%nat ->
  let batchResult := Chunked.processBatch Stats processFile getRoutePoints haversine
                       rev chunk batchIndex binLength in
  (map plain (fst batchResult), snd batchResult)
  = seqFold (batchIndex * 3) chunk ([], []) /\
  List.Forall (fun r => Chunked.cr_batchIndex Stats r
                        = (Chunked.cr_fileIndex Stats r / 3)%nat) (fst batchResult).
Proof.
  intros Hlen. unfold Chunked.processBatch, Batch.indexed.
  destruct (chunk_fold chunk batchIndex 0 [] []) as [H1 H2]; [lia |].
  cbv zeta in H1, H2. rewrite Nat.add_0_r in H1.
  split; [exact H1 | apply H2; constructor].
Qed.

Variable files : list Batch.File.
Variable totalBatches : nat.

Local Abbreviation step := (Chunked.batchStep Stats processFile getRoutePoints
                              haversine rev files binLength totalBatches).

Lemma slice_length b :
  (List.length (Chunked.slice (b * 3) (b * 3 + 3) files) <= 3)%nat.
Proof.
  unfold Chunked.slice. rewrite length_firstn. lia.
Qed.

Lemma batchStep_spec st b :
  (map plain (Chunked.allResults Stats st), Chunked.allErrors Stats st)
  = seqFold 0 (firstn (b * 3) files) ([], []) ->
  List.Forall (fun r => Chunked.cr_batchIndex Stats r
                        = (Chunked.cr_fileIndex Stats r / 3)%nat)
    (Chunked.allResults Stats st) ->
  let st' := step st b in
  (map plain (Chunked.allResults Stats st'), Chunked.allErrors Stats st')
  = seqFold 0 (firstn (S b * 3) files) ([], []) /\
  List.Forall (fun r => Chunked.cr_batchIndex Stats r
                        = (Chunked.cr_fileIndex Stats r / 3)%nat)
    (Chunked.allResults Stats st') /\
  exists e,
    Chunked.written Stats st' = Chunked.written Stats st ++ [e] /\
    Chunked.isProgress Stats e = true /\
    Chunked.eventFilesProcessed Stats e = Nat.min (S b * 3) (List.length files) /\
    Chunked.eventIsComplete Stats e = Nat.eqb b (totalBatches - 1).
Proof.
  intros Hst Hall. cbv zeta. unfold Chunked.batchStep. cbv zeta.
  unfold Chunked.BATCH_SIZE.
  set (chunk := Chunked.slice (b * 3) (b * 3 + 3) files).
  destruct (processBatch_is_sequentialFold chunk b (slice_length b))
    as [Hchunk Hall'].
  cbv zeta in Hchunk, Hall'.
  set (batchResult := Chunked.processBatch Stats processFile getRoutePoints
                        haversine rev chunk b binLength) in *.
  cbn [Chunked.allResults Chunked.allErrors Chunked.written].
  assert (Hsplit : firstn (S b * 3) files = firstn (b * 3) files ++ chunk).
  { replace (S b * 3)%nat with (b * 3 + 3)%nat by lia.
    rewrite firstn_add_skipn. subst chunk. unfold Chunked.slice.
    replace (b * 3 + 3 - b * 3)%nat with 3%nat by lia. reflexivity. }
  assert (Hoffset : seqFold (0 + List.length (firstn (b * 3) files)) chunk
                      ([], [])
                    = seqFold (b * 3) chunk ([], [])).
  { destruct chunk as [| c chunk'] eqn:Ec; [reflexivity |].
    f_equal. rewrite length_firstn.
    assert (b * 3 < List.length files)%nat; [| lia].
    subst chunk. unfold Chunked.slice in Ec.
    destruct (Nat.lt_ge_cases (b * 3) (List.length files)) as [Hlt | Hge];
      [exact Hlt |].
    rewrite skipn_all2 in Ec by exact Hge. rewrite firstn_nil in Ec.
    discriminate Ec. }
  assert (Hnew : (map plain (Chunked.allResults Stats st ++ fst batchResult),
                  Chunked.allErrors Stats st ++ snd batchResult)
                 = seqFold 0 (firstn (S b * 3) files) ([], [])).
  { rewrite Hsplit, sequentialFold_app, <- Hst, sequentialFold_append, Hoffset,
      <- Hchunk.
    cbn [fst snd]. rewrite map_app. reflexivity. }
  split; [exact Hnew | split].
  - apply List.Forall_app. split; assumption.
  - eexists. split; [reflexivity |].
    cbn [Chunked.isProgress Chunked.eventFilesProcessed Chunked.eventIsComplete].
    split; [reflexivity | split; [| reflexivity]].
    pose proof (sequentialFold_count (firstn (S b * 3) files) 0) as Hcount.
    rewrite <- Hnew in Hcount. cbn [fst snd] in Hcount.
    rewrite length_map in Hcount. rewrite Hcount. apply length_firstn.
Qed.

Lemma batchLoop_spec k : forall b st,
  (map plain (Chunked.allResults Stats st), Chunked.allErrors Stats st)
  = seqFold 0 (firstn (b * 3) files) ([], []) ->
  List.Forall (fun r => Chunked.cr_batchIndex Stats r
                        = (Chunked.cr_fileIndex Stats r / 3)%nat)
    (Chunked.allResults Stats st) ->
  let st' := fold_left step (seq b k) st in
  (map plain (Chunked.allResults Stats st'), Chunked.allErrors Stats st')
  = seqFold 0 (firstn ((b + k) * 3) files) ([], []) /\
  List.Forall (fun r => Chunked.cr_batchIndex Stats r
                        = (Chunked.cr_fileIndex Stats r / 3)%nat)
    (Chunked.allResults Stats st') /\
  exists events,
    Chunked.written Stats st' = Chunked.written Stats st ++ events /\
    forallb (Chunked.isProgress Stats) events = true /\
    map (Chunked.eventFilesProcessed Stats) events
    = map (fun i => Nat.min (S i * 3) (List.length files)) (seq b k) /\
    map (Chunked.eventIsComplete Stats) events
    = map (fun i => Nat.eqb i (totalBatches - 1)) (seq b k).
Proof.
  induction k as [| k IH]; intros b st Hst Hall; cbn [seq fold_left].
  - rewrite Nat.add_0_r. split; [exact Hst | split; [exact Hall |]].
    exists []. rewrite app_nil_r. repeat split.
  - destruct (batchStep_spec st b Hst Hall) as (Hst1 & Hall1 & e & Hw & Hp & Hn & Hc).
    cbv zeta in Hst1, Hall1, Hw.
    destruct (IH (S b) (step st b) Hst1 Hall1) as (Hst2 & Hall2 & ev & Hw2 & Hp2 & Hn2 & Hc2).
    cbv zeta in Hst2, Hall2, Hw2.
    replace (b + S k)%nat with (S b + k)%nat by lia.
    split; [exact Hst2 | split; [exact Hall2 |]].
    exists (e :: ev). rewrite Hw2, Hw, <- app_assoc. split; [reflexivity |].
    cbn [forallb map]. rewrite Hp, Hp2, Hn, Hn2, Hc, Hc2. repeat split.
Qed.

End ChunkFacts.

(** X26.  The handler of /api/analyze-batch works through the files in
    batches of three.  Its final results and errors are those of the
    file-by-file handler of /api/process-batch on the same files: the
    same entries in the same order, each result with the position of
    its file in the whole upload, and with the batch index that is this
    position divided by three.  It writes one progress event per batch,
    the k-th reporting min(3k, n) files processed, the last one marked
    complete. *)
Theorem chunked_batch_matches_sequential :
  forall (Stats : Type)
         (processFile : string -> string -> Batch.Outcome (Batch.Processed Stats))
         (getRoutePoints : string -> string -> Batch.Outcome (option (list Point)))
         (haversine : Q -> Q -> Q -> Q -> Q) (rev : Revision)
         (parsedBinLength : option Z) (files : list Batch.File) (timestamp : Z),
    files <> [] ->
    let n := List.length files in
    let batches := ((n + 2) / 3)%nat in
    let sequential :=
      Batch.runLoop Stats processFile getRoutePoints haversine rev
        {| Batch.files := files;
           Batch.binLength := binLengthOf parsedBinLength;
           Batch.timestamp := timestamp |} in
    exists progress results errors,
      Chunked.analyzeBatch Stats processFile getRoutePoints haversine rev
        parsedBinLength files
      = Chunked.EventStream
          (progress ++ [Chunked.Complete n (List.length results)
                          (List.length errors) results errors]) /\
      map (Chunked.withoutBatchIndex Stats) results
      = Batch.allResults Stats sequential /\
      errors = Batch.allErrors Stats sequential /\
      List.Forall (fun r => Chunked.cr_batchIndex Stats r
                            = (Chunked.cr_fileIndex Stats r / 3)%nat) results /\
      (List.length results + List.length errors = n)%nat /\
      List.length progress = batches /\
      forallb (Chunked.isProgress Stats) progress = true /\
      map (Chunked.eventFilesProcessed Stats) progress
      = map (fun k => Nat.min (k * 3) n) (seq 1 batches) /\
      map (Chunked.eventIsComplete Stats) progress
      = map (fun k => Nat.eqb k batches) (seq 1 batches).
Proof.
  intros Stats processFile getRoutePoints haversine rev parsedBinLength files
    timestamp Hne n batches sequential.
  unfold Chunked.analyzeBatch. cbv zeta.
  destruct files as [| f0 fs]; [congruence |]. cbv iota.
  set (files := f0 :: fs) in *.
  unfold Chunked.totalBatchesOf. rewrite ceiling_thirds. fold n. fold batches.
  destruct (batchLoop_spec Stats processFile getRoutePoints haversine rev
              (binLengthOf parsedBinLength) files batches batches 0
              {| Chunked.allResults := []; Chunked.allErrors := [];
                 Chunked.written := [] |} eq_refl (List.Forall_nil _))
    as (Hst & Hall & events & Hw & Hp & Hn & Hc).
  cbv zeta in Hst, Hall, Hw. cbn [Chunked.written app Nat.add] in Hw, Hst.
  set (st := fold_left
               (Chunked.batchStep Stats processFile getRoutePoints haversine rev
                  files (binLengthOf parsedBinLength) batches)
               (seq 0 batches)
               {| Chunked.allResults := []; Chunked.allErrors := [];
                  Chunked.written := [] |}) in *.
  assert (Hcover : firstn (batches * 3) files = files).
  { apply firstn_all2. subst batches n.
    pose proof (Nat.div_mod_eq (List.length files + 2) 3).
    pose proof (Nat.mod_upper_bound (List.length files + 2) 3). lia. }
  rewrite Hcover in Hst.
  assert (Hseq : (Batch.allResults Stats sequential, Batch.allErrors Stats sequential)
                 = sequentialFold Stats processFile getRoutePoints haversine rev
                     (binLengthOf parsedBinLength) 0 files ([], [])).
  { subst sequential. unfold Batch.runLoop, Batch.indexed.
    cbn [Batch.files Batch.binLength].
    apply (runLoop_is_sequentialFold Stats processFile getRoutePoints haversine rev
             (binLengthOf parsedBinLength) (List.length files) files 0). }
  rewrite <- Hst in Hseq. injection Hseq as Hres Herr.
  exists events, (Chunked.allResults Stats st), (Chunked.allErrors Stats st).
  rewrite Hw.
  split; [reflexivity |].
  split; [symmetry; exact Hres |].
  split; [symmetry; exact Herr |].
  split; [exact Hall |].
  split.
  { pose proof (sequentialFold_count Stats processFile getRoutePoints haversine rev
                  (binLengthOf parsedBinLength) files 0) as Hcount.
    rewrite <- Hst in Hcount. cbn [fst snd] in Hcount.
    rewrite length_map in Hcount. exact Hcount. }
  split.
  { rewrite <- (length_map (Chunked.eventFilesProcessed Stats)), Hn, length_map.
    apply length_seq. }
  split; [exact Hp |].
  assert (Hbatches : (0 < batches)%nat).
  { subst batches n files. cbn [List.length].
    apply Nat.div_str_pos. lia. }
  split.
  - rewrite Hn. rewrite <- seq_shift, map_map. reflexivity.
  - rewrite Hc. rewrite <- seq_shift, map_map. apply map_ext. intros k.
    destruct (Nat.eqb_spec k (batches - 1)) as [E | E];
      destruct (Nat.eqb_spec (S k) batches) as [E' | E']; try reflexivity; lia.
Qed.

Lemma chunked_batch_matches_sequential_witness :
  exists progress results errors,
    Chunked.analyzeBatch unit Batch.sampleProcessFile Batch.sampleGetRoutePoints
      arcHaversine WithCoefficientsModule (Some 50%Z)
      (Batch.files Batch.threeFiles ++ Batch.files Batch.threeFiles)
    = Chunked.EventStream
        (progress ++ [Chunked.Complete 6 (List.length results)
                        (List.length errors) results errors]) /\
    map (Chunked.eventFilesProcessed unit) progress = [3; 6]%nat /\
    (List.length results + List.length errors = 6)%nat.
Proof.
  destruct (chunked_batch_matches_sequential unit Batch.sampleProcessFile
              Batch.sampleGetRoutePoints arcHaversine WithCoefficientsModule
              (Some 50%Z)
              (Batch.files Batch.threeFiles ++ Batch.files Batch.threeFiles) 0%Z)
    as (progress & results & errors & H1 & _ & _ & _ & H5 & _ & _ & H8 & _).
  - discriminate.
  - exists progress, results, errors.
    split; [exact H1 | split; [rewrite H8; reflexivity | exact H5]].
Defined.

(** ** The range analysis of the self-contained revision *)

Section SelfContainedFacts.

Import SelfContainedRevision.

Ltac bucket_case g t :=
  let E := fresh "E" in
  destruct (Qle_bool g t) eqn:E;
  [ apply Qle_bool_iff in E;
    repeat match goal with
           | |- context [Qle_bool g ?t'] =>
               rewrite (Qle_bool_mono g t t' E) by discriminate
           end;
    reflexivity
  | ].

(** Every gradient lies in exactly one bucket of this revision. *)
Lemma one_bucket g :
  List.length (List.filter (fun range => inBucket (initialBucket range) g)
                 gradientRanges) = 1%nat.
Proof.
  rewrite filter_mask. unfold gradientRanges, inBucket.
  cbn [map initialBucket bd_range range_min range_max]. unfold Js.Qlt_bool.
  bucket_case g (-25). bucket_case g (-20). bucket_case g (-15).
  bucket_case g (-10). bucket_case g (-5). bucket_case g 0. bucket_case g 5.
  bucket_case g 10. bucket_case g 15. bucket_case g 20. bucket_case g 25.
  reflexivity.
Qed.

Lemma update_the_only_match {A} (p : A -> bool) (f : A -> A) l :
  List.length (List.filter p l) = 1%nat ->
  match findIndex p l with
  | Some i => updateAt i f l
  | None => l
  end = map (fun x => if p x then f x else x) l.
Proof.
  induction l as [| x l IH]; [discriminate |].
  cbn [List.filter findIndex map]. destruct (p x) eqn:Ex.
  - cbn [List.length updateAt]. intros H. f_equal.
    assert (Hnone : List.filter p l = []).
    { destruct (List.filter p l); [reflexivity | discriminate H]. }
    clear - Hnone. induction l as [| y l IH]; [reflexivity |].
    cbn [List.filter map] in *. destruct (p y); [discriminate Hnone |].
    f_equal. apply IH. exact Hnone.
  - intros H. specialize (IH H).
    destruct (findIndex p l) as [i |]; cbn [option_map updateAt];
      f_equal; exact IH.
Qed.

Lemma inBucket_after done range g :
  inBucket (bucketAfter done range) g = inBucket (initialBucket range) g.
Proof. reflexivity. Qed.

Lemma binsOfRange_snoc done bin range :
  binsOfRange (done ++ [bin]) range
  = binsOfRange done range
    ++ (if chartEligible bin && inBucket (initialBucket range) (gradient bin)
        then [bin] else []).
Proof.
  unfold binsOfRange. rewrite List.filter_app. cbn [List.filter].
  destruct (chartEligible bin && inBucket (initialBucket range) (gradient bin));
    reflexivity.
Qed.

Lemma bucketAfter_snoc done bin range :
  bucketAfter (done ++ [bin]) range
  = if chartEligible bin && inBucket (initialBucket range) (gradient bin)
    then addToBucket bin (bucketAfter done range)
    else bucketAfter done range.
Proof.
  unfold bucketAfter, addToBucket. rewrite binsOfRange_snoc.
  destruct (chartEligible bin && inBucket (initialBucket range) (gradient bin)).
  - cbn [bd_range bd_totalDistance bd_totalTime bd_binCount bd_avgPace
         bd_paceMinPerKm].
    rewrite !map_app, !length_app. cbn [map List.length].
    rewrite !sumQ_snoc, Nat.add_1_r. reflexivity.
  - rewrite app_nil_r. reflexivity.
Qed.

Lemma addBin_spec done bin :
  addBin (map (bucketAfter done) gradientRanges) bin
  = map (bucketAfter (done ++ [bin])) gradientRanges.
Proof.
  unfold addBin. destruct (chartEligible bin) eqn:He.
  - rewrite (update_the_only_match
               (fun bucket => inBucket bucket (gradient bin)) (addToBucket bin)).
    + rewrite map_map. apply map_ext. intros range.
      rewrite bucketAfter_snoc, He, inBucket_after. reflexivity.
    + rewrite <- (one_bucket (gradient bin)).
      clear. induction gradientRanges as [| r l IH]; [reflexivity |].
      cbn [map List.filter]. rewrite inBucket_after.
      destruct (inBucket (initialBucket r) (gradient bin)); cbn [List.length];
        rewrite IH; reflexivity.
  - apply map_ext. intros range. rewrite bucketAfter_snoc, He. reflexivity.
Qed.

Lemma addBins_spec bins : forall done,
  fold_left addBin bins (map (bucketAfter done) gradientRanges)
  = map (bucketAfter (done ++ bins)) gradientRanges.
Proof.
  induction bins as [| bin bins IH]; intros done; cbn [fold_left].
  - rewrite app_nil_r. reflexivity.
  - rewrite addBin_spec, IH, <- app_assoc. reflexivity.
Qed.

Lemma binsOfRange_eligible allBins range bin :
  In bin (binsOfRange allBins range) -> 0 < distance bin /\ 0 < timeInSeconds bin.
Proof.
  unfold binsOfRange. intros H. apply filter_In in H as [_ H].
  apply andb_true_iff in H as [H _]. unfold chartEligible in H.
  apply andb_true_iff in H as [Hd Ht].
  apply Qlt_bool_iff in Hd. apply Qlt_bool_iff in Ht. split; assumption.
Qed.

Lemma withPace_spec allBins range :
  binsOfRange allBins range <> [] ->
  withPace (bucketAfter allBins range)
  = {| bd_range := range;
       bd_totalDistance := sumQ (map distance (binsOfRange allBins range));
       bd_totalTime := sumQ (map timeInSeconds (binsOfRange allBins range));
       bd_binCount := List.length (binsOfRange allBins range);
       bd_avgPace := Some (weightedPace (binsOfRange allBins range));
       bd_paceMinPerKm :=
         Some (zString (Js.Math_floor (weightedPace (binsOfRange allBins range)))
               ++ ":"
               ++ pad2 (Js.Math_round
                          ((weightedPace (binsOfRange allBins range)
                            - inject_Z (Js.Math_floor
                                          (weightedPace (binsOfRange allBins range))))
                           * 60)))%string |}.
Proof.
  intros Hne. unfold withPace, bucketAfter.
  cbn [bd_range bd_totalDistance bd_totalTime bd_binCount].
  set (group := binsOfRange allBins range) in *.
  assert (Hd : Js.Qlt_bool 0 (sumQ (map distance group)) = true).
  { apply Qlt_bool_iff. apply sumQ_pos.
    - destruct group; [congruence | discriminate].
    - intros x Hx. apply in_map_iff in Hx as (b & <- & Hb).
      apply (binsOfRange_eligible allBins range b Hb). }
  assert (Ht : Js.Qlt_bool 0 (sumQ (map timeInSeconds group)) = true).
  { apply Qlt_bool_iff. apply sumQ_pos.
    - destruct group; [congruence | discriminate].
    - intros x Hx. apply in_map_iff in Hx as (b & <- & Hb).
      apply (binsOfRange_eligible allBins range b Hb). }
  rewrite Hd, Ht. reflexivity.
Qed.

Lemma withPace_count bucket : bd_binCount (withPace bucket) = bd_binCount bucket.
Proof.
  unfold withPace.
  destruct (Js.Qlt_bool 0 (bd_totalDistance bucket)
            && Js.Qlt_bool 0 (bd_totalTime bucket)); reflexivity.
Qed.

Lemma list_sum_filter_positive {A} (f : A -> nat) l :
  list_sum (map f (List.filter (fun x => Nat.ltb 0 (f x)) l)) = list_sum (map f l).
Proof.
  induction l as [| x l IH]; [reflexivity |].
  cbn [List.filter map]. destruct (Nat.ltb_spec 0 (f x)) as [H | H].
  - cbn [map]. rewrite !list_sum_head, IH. reflexivity.
  - rewrite list_sum_head, IH. lia.
Qed.

Lemma range_counts_total allBins :
  list_sum (map (fun range => List.length (binsOfRange allBins range)) gradientRanges)
  = List.length (List.filter chartEligible allBins).
Proof.
  induction allBins as [| bin allBins IH].
  - unfold binsOfRange. cbn [List.filter List.length].
    induction gradientRanges as [| r l IHl]; [reflexivity |].
    cbn [map]. rewrite list_sum_head, IHl. reflexivity.
  - assert (Hstep : forall ranges,
               list_sum (map (fun range => List.length (binsOfRange (bin :: allBins) range))
                           ranges)
               = (List.length
                    (List.filter
                       (fun range => chartEligible bin
                                     && inBucket (initialBucket range) (gradient bin))
                       ranges)
                  + list_sum (map (fun range => List.length (binsOfRange allBins range))
                                ranges))%nat).
    { induction ranges as [| r l IHl]; [reflexivity |].
      cbn [map List.filter]. rewrite !list_sum_head, IHl.
      unfold binsOfRange at 1. cbn [List.filter].
      fold (binsOfRange allBins r).
      destruct (chartEligible bin && inBucket (initialBucket r) (gradient bin));
        cbn [List.length]; lia. }
    rewrite Hstep, IH. cbn [List.filter].
    destruct (chartEligible bin); cbn [andb List.length].
    + rewrite one_bucket. reflexivity.
    + assert (Hnone : forall l : list GradientRange,
                 List.filter (fun _ => false) l = []).
      { induction l as [| r l IHl]; [reflexivity | exact IHl]. }
      rewrite Hnone. reflexivity.
Qed.

Lemma analysis_buckets results :
  an_buckets (getGradientPaceAnalysis results)
  = List.filter (fun bucket => Nat.ltb 0 (bd_binCount bucket))
      (map (fun range => withPace (bucketAfter (collectBins results) range))
         gradientRanges).
Proof.
  unfold getGradientPaceAnalysis. cbv zeta. cbn [an_buckets].
  change (map initialBucket gradientRanges)
    with (map (bucketAfter []) gradientRanges).
  rewrite addBins_spec, map_map. reflexivity.
Qed.

End SelfContainedFacts.

(** X27.  In the self-contained revision of the range analysis every
    gradient lies in exactly one bucket, also the gradient 25; every
    bin with positive distance and time is counted in exactly one of
    the returned buckets; and each returned bucket holds the number,
    the summed distance and the summed time of its bins and a pace
    that is the summed time over the summed distance, not a mean of
    the bins' paces. *)
Theorem weighted_ranges_partition :
  forall results : list Run,
    let analysis := SelfContainedRevision.getGradientPaceAnalysis results in
    let allBins := collectBins results in
    let buckets := SelfContainedRevision.an_buckets analysis in
    SelfContainedRevision.an_totalBinsAnalyzed analysis = List.length allBins /\
    SelfContainedRevision.an_bucketsWithData analysis = List.length buckets /\
    (forall g : Q,
        List.length
          (List.filter
             (fun range =>
                SelfContainedRevision.inBucket
                  (SelfContainedRevision.initialBucket range) g)
             gradientRanges) = 1%nat) /\
    list_sum (map SelfContainedRevision.bd_binCount buckets)
    = List.length (List.filter chartEligible allBins) /\
    (forall bucket,
        In bucket buckets ->
        let group :=
          SelfContainedRevision.binsOfRange allBins
            (SelfContainedRevision.bd_range bucket) in
        In (SelfContainedRevision.bd_range bucket) gradientRanges /\
        group <> [] /\
        SelfContainedRevision.bd_binCount bucket = List.length group /\
        SelfContainedRevision.bd_totalDistance bucket = sumQ (map distance group) /\
        SelfContainedRevision.bd_totalTime bucket = sumQ (map timeInSeconds group) /\
        SelfContainedRevision.bd_avgPace bucket = Some (weightedPace group)).
Proof.
  intros results analysis allBins buckets.
  assert (Hb : buckets
               = List.filter
                   (fun bucket => Nat.ltb 0 (SelfContainedRevision.bd_binCount bucket))
                   (map (fun range =>
                           SelfContainedRevision.withPace
                             (SelfContainedRevision.bucketAfter allBins range))
                      gradientRanges)).
  { apply analysis_buckets. }
  split; [reflexivity | split; [reflexivity | split; [apply one_bucket | split]]].
  - rewrite Hb, list_sum_filter_positive, map_map.
    rewrite <- (range_counts_total allBins). f_equal. apply map_ext.
    intros range. rewrite withPace_count. reflexivity.
  - intros bucket Hin group. rewrite Hb in Hin.
    apply filter_In in Hin as [Hin Hpos]. apply in_map_iff in Hin as (range & Hbk & Hr).
    assert (Hne : SelfContainedRevision.binsOfRange allBins range <> []).
    { rewrite <- Hbk, withPace_count in Hpos.
      unfold SelfContainedRevision.bucketAfter in Hpos.
      cbn [SelfContainedRevision.bd_binCount] in Hpos.
      apply Nat.ltb_lt in Hpos. intros E. rewrite E in Hpos. simpl in Hpos. lia. }
    rewrite (withPace_spec allBins range Hne) in Hbk.
    subst group. rewrite <- Hbk. cbn [SelfContainedRevision.bd_range
      SelfContainedRevision.bd_binCount SelfContainedRevision.bd_totalDistance
      SelfContainedRevision.bd_totalTime SelfContainedRevision.bd_avgPace].
    repeat split; try reflexivity; assumption.
Qed.

Lemma weighted_ranges_partition_witness :
  exists bucket,
    nth_error (SelfContainedRevision.an_buckets
                 (SelfContainedRevision.getGradientPaceAnalysis unevenRun)) 0
    = Some bucket /\
    SelfContainedRevision.bd_avgPace bucket
    = Some (weightedPace
              (SelfContainedRevision.binsOfRange (collectBins unevenRun)
                 (SelfContainedRevision.bd_range bucket))).
Proof.
  eexists. split; [vm_compute; reflexivity |].
  match goal with
  | |- SelfContainedRevision.bd_avgPace ?b = _ =>
      pose proof (weighted_ranges_partition unevenRun) as H;
      cbv zeta in H;
      destruct H as (_ & _ & _ & _ & H);
      destruct (H b) as (_ & _ & _ & _ & _ & Hpace)
  end.
  - vm_compute. left. reflexivity.
  - exact Hpace.
Defined.
